(** * Neural Echo: the text-to-structure pipeline

    A shallow embedding of the analysis pipeline of Neural Echo
    (SentimentAnalyzer.ts, ComplexityAnalyzer.ts, TextAnalyzer.ts, types/index.ts
    and rendering/NodeSystem.ts) together with the properties its
    specification states about it.

    Conventions of the embedding.
    - A JavaScript [number] is a value extended with [NaN] and the two
      infinities.  [JsNumber] computes exactly, in [Q] (every finite double
      is a rational), and is executable; [JsReal] has the exact logarithm.
      The exact model carries the bounds, orderings and structural
      properties.  [Binary64] rounds every result to the nearest double as
      the engine does, and [TextAnalyzer64] is the scaling resolver in that
      arithmetic: the node-count formula, whose value depends on the
      rounding of each product, is stated there.  The sign of zero is not
      modelled.
    - A text is a [string]: a sequence of code units below 256.
    - [Math.random] and [Date.now] read from explicit sources that are threaded
      through the code that calls them. *)

From Stdlib Require Import ZArith QArith Qround Qminmax Qabs Reals Qreals.
From Stdlib Require Import Lqa Lra Lia List String Ascii Bool DecimalString.
Import ListNotations.

Set Implicit Arguments.

(** ** JavaScript numbers *)

Inductive ext (A : Type) : Type :=
| NaN
| PInf
| NInf
| Num (x : A).

Arguments NaN {A}.
Arguments PInf {A}.
Arguments NInf {A}.
Arguments Num {A} x.

(** Numbers whose finite values are rationals: everything except the
    logarithm lives here. *)
Definition number := ext Q.

(** Numbers whose finite values are reals: the result of [Math.log2] and
    the products it enters. *)
Definition real := ext R.

Module JsNumber.

Open Scope Q_scope.

Definition Qltb (x y : Q) : bool :=
  match x ?= y with Lt => true | _ => false end.

Definition neg (a : number) : number :=
  match a with
  | NaN => NaN
  | PInf => NInf
  | NInf => PInf
  | Num x => Num (- x)
  end.

Definition add (a b : number) : number :=
  match a, b with
  | NaN, _ | _, NaN => NaN
  | PInf, NInf | NInf, PInf => NaN
  | PInf, _ | _, PInf => PInf
  | NInf, _ | _, NInf => NInf
  | Num x, Num y => Num (x + y)
  end.

Definition sub (a b : number) : number := add a (neg b).

(** An infinity times a finite value: the sign decides, zero gives NaN. *)
Definition scaleInf (positive : bool) (y : Q) : number :=
  match y ?= 0 with
  | Eq => NaN
  | Gt => if positive then PInf else NInf
  | Lt => if positive then NInf else PInf
  end.

Definition mul (a b : number) : number :=
  match a, b with
  | NaN, _ | _, NaN => NaN
  | PInf, PInf | NInf, NInf => PInf
  | PInf, NInf | NInf, PInf => NInf
  | PInf, Num y | Num y, PInf => scaleInf true y
  | NInf, Num y | Num y, NInf => scaleInf false y
  | Num x, Num y => Num (x * y)
  end.

Definition div (a b : number) : number :=
  match a, b with
  | NaN, _ | _, NaN => NaN
  | (PInf | NInf), (PInf | NInf) => NaN
  | Num _, (PInf | NInf) => Num 0
  | PInf, Num y => if Qltb y 0 then NInf else PInf
  | NInf, Num y => if Qltb y 0 then PInf else NInf
  | Num x, Num y =>
      if Qeq_bool y 0
      then match x ?= 0 with Eq => NaN | Gt => PInf | Lt => NInf end
      else Num (x / y)
  end.

(** [a < b]; every comparison with NaN is false. *)
Definition lt (a b : number) : bool :=
  match a, b with
  | NaN, _ | _, NaN => false
  | _, NInf | PInf, _ => false
  | NInf, _ | _, PInf => true
  | Num x, Num y => Qltb x y
  end.

Definition le (a b : number) : bool :=
  match a, b with
  | NaN, _ | _, NaN => false
  | NInf, _ | _, PInf => true
  | _, NInf | PInf, _ => false
  | Num x, Num y => Qle_bool x y
  end.

Definition gt (a b : number) : bool := lt b a.
Definition ge (a b : number) : bool := le b a.

(** [Math.min] and [Math.max]: NaN if either argument is. *)
Definition min (a b : number) : number :=
  match a, b with
  | NaN, _ | _, NaN => NaN
  | _, _ => if lt b a then b else a
  end.

Definition max (a b : number) : number :=
  match a, b with
  | NaN, _ | _, NaN => NaN
  | _, _ => if lt a b then b else a
  end.

(** [Math.floor]. *)
Definition floor (a : number) : number :=
  match a with
  | Num x => Num (inject_Z (Qfloor x))
  | _ => a
  end.

(** [Math.abs]. *)
Definition abs (a : number) : number :=
  match a with
  | NaN => NaN
  | PInf | NInf => PInf
  | Num x => Num (Qabs x)
  end.

(** Truthiness of a number: [0] and [NaN] are falsy. *)
Definition truthy (a : number) : bool :=
  match a with
  | NaN => false
  | Num x => negb (Qeq_bool x 0)
  | _ => true
  end.

(** [a || b] on numbers. *)
Definition or (a b : number) : number := if truthy a then a else b.

Definition ofZ (z : Z) : number := Num (inject_Z z).
Definition ofNat (n : nat) : number := ofZ (Z.of_nat n).

(** A number is finite and lies in the closed interval [[lo, hi]]. *)
Definition within (lo hi : Q) (a : number) : Prop :=
  match a with
  | Num x => lo <= x <= hi
  | _ => False
  end.

(** The same as a test. *)
Definition withinb (lo hi : Q) (a : number) : bool :=
  match a with
  | Num x => Qle_bool lo x && Qle_bool x hi
  | _ => false
  end.

End JsNumber.

Declare Scope js_scope.
Delimit Scope js_scope with js.
Infix "+" := JsNumber.add : js_scope.
Infix "-" := JsNumber.sub : js_scope.
Infix "*" := JsNumber.mul : js_scope.
Infix "/" := JsNumber.div : js_scope.
Infix "<?" := JsNumber.lt : js_scope.
Infix "<=?" := JsNumber.le : js_scope.
Infix ">?" := JsNumber.gt : js_scope.
Infix ">=?" := JsNumber.ge : js_scope.

(** ** Real-valued numbers for the logarithm *)

Module JsReal.

Open Scope R_scope.

Definition ofNumber (a : number) : real :=
  match a with
  | NaN => NaN
  | PInf => PInf
  | NInf => NInf
  | Num q => Num (Q2R q)
  end.

(** The base-2 logarithm of a positive real. *)
Definition log2 (x : R) : R := ln x / ln 2.

(** [Math.log2]. *)
Definition Math_log2 (a : number) : real :=
  match a with
  | NaN | NInf => NaN
  | PInf => PInf
  | Num q =>
      match (q ?= 0)%Q with
      | Lt => NaN
      | Eq => NInf
      | Gt => Num (log2 (Q2R q))
      end
  end.

Definition scaleInf (positive : bool) (y : R) : real :=
  if Req_dec_T y 0 then NaN
  else if Rlt_dec 0 y
       then (if positive then PInf else NInf)
       else (if positive then NInf else PInf).

Definition mul (a b : real) : real :=
  match a, b with
  | NaN, _ | _, NaN => NaN
  | PInf, PInf | NInf, NInf => PInf
  | PInf, NInf | NInf, PInf => NInf
  | PInf, Num y | Num y, PInf => scaleInf true y
  | NInf, Num y | Num y, NInf => scaleInf false y
  | Num x, Num y => Num (x * y)
  end.

Definition min (a b : real) : real :=
  match a, b with
  | NaN, _ | _, NaN => NaN
  | PInf, c | c, PInf => c
  | NInf, _ | _, NInf => NInf
  | Num x, Num y => Num (Rmin x y)
  end.

Definition max (a b : real) : real :=
  match a, b with
  | NaN, _ | _, NaN => NaN
  | NInf, c | c, NInf => c
  | PInf, _ | _, PInf => PInf
  | Num x, Num y => Num (Rmax x y)
  end.

(** [Math.floor]: the result of flooring a finite value is an integer, hence
    a rational again. *)
Definition floor (a : real) : number :=
  match a with
  | NaN => NaN
  | PInf => PInf
  | NInf => NInf
  | Num x => Num (inject_Z (Zfloor x))
  end.

(** [a <= b] as a proposition; false as soon as NaN is involved. *)
Definition le (a b : real) : Prop :=
  match a, b with
  | NaN, _ | _, NaN => False
  | NInf, _ | _, PInf => True
  | _, NInf | PInf, _ => False
  | Num x, Num y => x <= y
  end.

End JsReal.

(** ** The data model (types/index.ts)

    Every interface is a record in a module of its own, so that a field reads
    as in the source: [Node.id n], [Concept.relevance c]. A [Map<string, V>]
    is an association list in insertion order. *)

Inductive Emotion : Type :=
| Joy | Sadness | Anger | Fear | Surprise | Anticipation.

Definition Emotion_eqb (a b : Emotion) : bool :=
  match a, b with
  | Joy, Joy | Sadness, Sadness | Anger, Anger | Fear, Fear
  | Surprise, Surprise | Anticipation, Anticipation => true
  | _, _ => false
  end.

Module EmotionScores.
Record t : Type := mk {
  joy : number;
  sadness : number;
  anger : number;
  fear : number;
  surprise : number;
  anticipation : number
}.

Definition get (s : t) (e : Emotion) : number :=
  match e with
  | Joy => joy s
  | Sadness => sadness s
  | Anger => anger s
  | Fear => fear s
  | Surprise => surprise s
  | Anticipation => anticipation s
  end.

Definition set (s : t) (e : Emotion) (v : number) : t :=
  match e with
  | Joy => mk v (sadness s) (anger s) (fear s) (surprise s) (anticipation s)
  | Sadness => mk (joy s) v (anger s) (fear s) (surprise s) (anticipation s)
  | Anger => mk (joy s) (sadness s) v (fear s) (surprise s) (anticipation s)
  | Fear => mk (joy s) (sadness s) (anger s) v (surprise s) (anticipation s)
  | Surprise => mk (joy s) (sadness s) (anger s) (fear s) v (anticipation s)
  | Anticipation => mk (joy s) (sadness s) (anger s) (fear s) (surprise s) v
  end.

(** The keys in property order, as [Object.keys] and [Object.entries]
    enumerate them. *)
Definition keys : list Emotion :=
  [Joy; Sadness; Anger; Fear; Surprise; Anticipation].

Definition values (s : t) : list number := map (get s) keys.
End EmotionScores.

Module DominantEmotion.
Record t : Type := mk {
  emotion : Emotion;
  score : number;
  confidence : number
}.
End DominantEmotion.

Module SentimentAnalysis.
Record t : Type := mk {
  scores : EmotionScores.t;
  dominant : DominantEmotion.t;
  intensity : number;
  valence : number;
  arousal : number
}.
End SentimentAnalysis.

Inductive ConceptCategory : Type :=
| cat_emotion | cat_time | cat_people | cat_places
| cat_actions | cat_abstract | cat_objects.

Module Concept.
Record t : Type := mk {
  word : string;
  category : ConceptCategory;
  relevance : number;
  frequency : number;
  position : list number;
  connections : list string
}.
End Concept.

Inductive RelationshipType : Type :=
| rel_semantic | rel_emotional | rel_temporal | rel_contextual.

Module ConceptNode.
Record t : Type := mk {
  id : string;
  concept : Concept.t;
  importance : number;
  connections : list string
}.
End ConceptNode.

Module SemanticEdge.
Record t : Type := mk {
  id : string;
  source : string;
  target : string;
  weight : number;
  relationship : RelationshipType
}.
End SemanticEdge.

Module ConceptCluster.
Record t : Type := mk {
  id : string;
  concepts : list string;
  centroid : Concept.t;
  coherence : number
}.
End ConceptCluster.

Module SemanticGraph.
Record t : Type := mk {
  nodes : list (string * ConceptNode.t);
  edges : list (string * SemanticEdge.t);
  clusters : list ConceptCluster.t
}.
End SemanticGraph.

Module ComplexityAnalysis.
Record t : Type := mk {
  overallComplexity : number;
  vocabularyDiversity : number;
  sentenceComplexity : number;
  conceptDensity : number;
  emotionalComplexity : number
}.
End ComplexityAnalysis.

Module EmojiData.
Record t : Type := mk {
  emoji : string;
  position : number;
  emotion : Emotion;
  intensity : number
}.
End EmojiData.

Inductive ScalingType : Type :=
| micro_boost | micro_enhance | micro_standard
| small_plus | small_standard | small_compress
| medium_standard | medium_compress | medium_max
| large_standard | large_compress | large_heavy
| massive_standard | massive_compress | massive_max
| epic_standard | epic_maximum.

Module ScalingStrategy.
Record t : Type := mk {
  type : ScalingType;
  multiplier : number;
  nodeCount : number;
  particleCount : number;
  compressionLevel : number
}.
End ScalingStrategy.

Module AnalysisResult.
Record t : Type := mk {
  words : list string;
  sentiment : SentimentAnalysis.t;
  concepts : list Concept.t;
  semanticGraph : SemanticGraph.t;
  complexity : ComplexityAnalysis.t;
  scalingStrategy : ScalingStrategy.t;
  emojis : list EmojiData.t;
  emojiInfluence : number;
  timestamp : Z
}.
End AnalysisResult.

(** The tier table: one entry of [SCALING_THRESHOLDS]. *)
Module Threshold.
Record t : Type := mk {
  min : Z;
  max : Z;
  strategy : ScalingType;
  multiplier : Q
}.
End Threshold.

Definition MICRO_TINY := Threshold.mk 1 3 micro_boost 3.0.
Definition MICRO_SMALL := Threshold.mk 4 8 micro_enhance 2.2.
Definition MICRO_MEDIUM := Threshold.mk 9 15 micro_standard 1.8.
Definition SMALL_LIGHT := Threshold.mk 16 30 small_plus 1.5.
Definition SMALL_MEDIUM := Threshold.mk 31 60 small_standard 1.2.
Definition SMALL_HEAVY := Threshold.mk 61 100 small_compress 1.0.
Definition MEDIUM_LIGHT := Threshold.mk 101 200 medium_standard 0.95.
Definition MEDIUM_HEAVY := Threshold.mk 201 350 medium_compress 0.85.
Definition MEDIUM_MAX := Threshold.mk 351 500 medium_max 0.75.
Definition LARGE_LIGHT := Threshold.mk 501 800 large_standard 0.7.
Definition LARGE_MEDIUM := Threshold.mk 801 1200 large_compress 0.6.
Definition LARGE_HEAVY := Threshold.mk 1201 2000 large_heavy 0.5.
Definition MASSIVE_LIGHT := Threshold.mk 2001 3500 massive_standard 0.45.
Definition MASSIVE_HEAVY := Threshold.mk 3501 5000 massive_compress 0.4.
Definition MASSIVE_MAX := Threshold.mk 5001 7000 massive_max 0.35.
Definition EPIC_STANDARD := Threshold.mk 7001 10000 epic_standard 0.3.
Definition EPIC_MAX := Threshold.mk 10001 12500 epic_maximum 0.25.

(** [Object.entries(SCALING_THRESHOLDS)], in declaration order. *)
Definition SCALING_THRESHOLDS : list (string * Threshold.t) :=
  [ ("MICRO_TINY", MICRO_TINY); ("MICRO_SMALL", MICRO_SMALL);
    ("MICRO_MEDIUM", MICRO_MEDIUM);
    ("SMALL_LIGHT", SMALL_LIGHT); ("SMALL_MEDIUM", SMALL_MEDIUM);
    ("SMALL_HEAVY", SMALL_HEAVY);
    ("MEDIUM_LIGHT", MEDIUM_LIGHT); ("MEDIUM_HEAVY", MEDIUM_HEAVY);
    ("MEDIUM_MAX", MEDIUM_MAX);
    ("LARGE_LIGHT", LARGE_LIGHT); ("LARGE_MEDIUM", LARGE_MEDIUM);
    ("LARGE_HEAVY", LARGE_HEAVY);
    ("MASSIVE_LIGHT", MASSIVE_LIGHT); ("MASSIVE_HEAVY", MASSIVE_HEAVY);
    ("MASSIVE_MAX", MASSIVE_MAX);
    ("EPIC_STANDARD", EPIC_STANDARD); ("EPIC_MAX", EPIC_MAX) ]%string.
(** ** Double-precision arithmetic

    The arithmetic of a JavaScript engine on its numbers (IEEE 754 binary64,
    rounding to nearest, ties to even): an operation returns the double
    nearest to the exact result.  The finite doubles are the rationals
    [m * 2^p] with [|m| < 2^53] and [-1074 <= p <= 971]; a result whose
    nearest candidate would be [2^1024] or beyond is an infinity.  The sign
    of zero is not represented.  [Math.min], [Math.max], [Math.floor] and
    the comparisons are exact, so [JsNumber] has them already. *)

Module Binary64.

Open Scope Q_scope.

Definition pow2 (k : Z) : Q := 2 ^ k.

(** The integer part of the base-2 logarithm of a positive rational: the
    difference of the bit lengths of numerator and denominator, or one
    less. *)
Definition ilog2 (q : Q) : Z :=
  let guess := (Z.log2 (Qnum q) - Z.log2 (Zpos (Qden q)))%Z in
  if Qle_bool (pow2 guess) q then guess else (guess - 1)%Z.

(** The nearest integer, the even one of two that are equally near. *)
Definition nearestEven (x : Q) : Z :=
  let below := Qfloor x in
  match Qcompare (x - inject_Z below) (1 # 2) with
  | Lt => below
  | Gt => (below + 1)%Z
  | Eq => if Z.even below then below else (below + 1)%Z
  end.

(** The exponent of the last bit of the doubles around a positive [q]: 53
    significant bits, and never below the exponent of the subnormal
    numbers. *)
Definition ulpExponent (q : Q) : Z := Z.max (ilog2 q - 52) (-1074).

Definition roundPositive (q : Q) : number :=
  let p := ulpExponent q in
  let nearest := inject_Z (nearestEven (q / pow2 p)) * pow2 p in
  if Qle_bool (pow2 1024) nearest then PInf else Num (Qred nearest).

(** The double nearest to a rational. *)
Definition round (q : Q) : number :=
  match Qcompare q 0 with
  | Eq => Num 0
  | Gt => roundPositive q
  | Lt => JsNumber.neg (roundPositive (- q))
  end.

Definition rounded (a : number) : number :=
  match a with
  | Num q => round q
  | _ => a
  end.

(** A decimal literal of the source denotes the double nearest to it. *)
Definition literal (q : Q) : number := round q.

Definition add (a b : number) : number := rounded (JsNumber.add a b).
Definition sub (a b : number) : number := rounded (JsNumber.sub a b).
Definition mul (a b : number) : number := rounded (JsNumber.mul a b).
Definition div (a b : number) : number := rounded (JsNumber.div a b).

End Binary64.


(** ** Strings, arrays and maps of the JavaScript library *)

Module JsString.

Open Scope string_scope.

Definition code (c : ascii) : N := N_of_ascii c.

Definition inRange (lo hi : N) (c : ascii) : bool :=
  ((lo <=? code c)%N && (code c <=? hi)%N)%bool.

(** [\w]: letters, digits and the underscore. *)
Definition isWordChar (c : ascii) : bool :=
  inRange 65 90 c || inRange 97 122 c || inRange 48 57 c || (code c =? 95)%N.

(** [\s] among the code units below 256: tab, line feed, vertical tab, form
    feed, carriage return, space and the no-break space. *)
Definition isSpace (c : ascii) : bool :=
  inRange 9 13 c || (code c =? 32)%N || (code c =? 160)%N.

(** [toLowerCase] on one code unit: A-Z and the capital letters of the
    Latin-1 supplement (all of U+00C0-U+00DE but the multiplication sign). *)
Definition lowerChar (c : ascii) : ascii :=
  if inRange 65 90 c
     || (inRange 192 222 c && negb (code c =? 215)%N)
  then ascii_of_N (code c + 32)
  else c.

Fixpoint mapChars (f : ascii -> ascii) (s : string) : string :=
  match s with
  | EmptyString => EmptyString
  | String c rest => String (f c) (mapChars f rest)
  end.

Definition toLowerCase (s : string) : string := mapChars lowerChar s.

(** [s.replace(/[^\w\s]/g, ' ')] *)
Definition replaceNonWord (s : string) : string :=
  mapChars (fun c => if isWordChar c || isSpace c then c else " "%char) s.

(** [s.split(re)] for a regular expression [re] matching one or more
    separator characters: the pieces between the maximal runs of separators,
    empty first and last pieces included. *)
Fixpoint splitRuns (sep : ascii -> bool) (inRun : bool) (piece : string)
         (s : string) : list string :=
  match s with
  | EmptyString => [piece]
  | String c rest =>
      if sep c then
        if inRun then splitRuns sep true piece rest
        else piece :: splitRuns sep true "" rest
      else splitRuns sep false (piece ++ String c "") rest
  end.

Definition split (sep : ascii -> bool) (s : string) : list string :=
  splitRuns sep false "" s.

Definition nonEmpty (s : string) : bool := (0 <? String.length s)%nat.

Fixpoint trimStart (s : string) : string :=
  match s with
  | String c rest => if isSpace c then trimStart rest else s
  | EmptyString => EmptyString
  end.

Fixpoint reverse (s : string) : string :=
  match s with
  | EmptyString => EmptyString
  | String c rest => reverse rest ++ String c ""
  end.

Definition trimEnd (s : string) : string := reverse (trimStart (reverse s)).

Definition trim (s : string) : string := trimEnd (trimStart s).

Definition endsWith (s p : string) : bool := prefix (reverse p) (reverse s).

(** [s.includes(p)] *)
Fixpoint includes (s p : string) : bool :=
  prefix p s
  || match s with
     | EmptyString => false
     | String _ rest => includes rest p
     end.

Fixpoint drop (n : nat) (s : string) : string :=
  match n, s with
  | O, _ => s
  | S n', String _ rest => drop n' rest
  | S _, EmptyString => EmptyString
  end.

(** [s.split(p).length - 1] for a non-empty string [p]: the number of
    occurrences of [p] met when scanning from the left, an occurrence
    being skipped as a whole. *)
Fixpoint countSplitsFuel (fuel : nat) (s p : string) : nat :=
  match fuel with
  | O => O
  | S fuel' =>
      match s with
      | EmptyString => O
      | String _ rest =>
          if prefix p s
          then S (countSplitsFuel fuel' (drop (String.length p) s) p)
          else countSplitsFuel fuel' rest p
      end
  end.

Definition countSplits (s p : string) : nat :=
  countSplitsFuel (String.length s) s p.

(** [(s.match(/c/g) || []).length] for a single character [c]. *)
Fixpoint countChar (c : ascii) (s : string) : nat :=
  match s with
  | EmptyString => O
  | String d rest => (if Ascii.eqb c d then 1 else 0) + countChar c rest
  end.

(** [s.substr(start, len)] for non-negative arguments. *)
Definition substr (start len : nat) (s : string) : string :=
  substring start (Nat.min len (String.length s - start)) s.

(** [s.indexOf(p)]: the first position at which [p] occurs in [s], or
    -1. *)
Fixpoint indexOfFrom (s p : string) (i : Z) : Z :=
  if prefix p s then i
  else match s with
       | EmptyString => (-1)%Z
       | String _ rest => indexOfFrom rest p (i + 1)%Z
       end.

Definition indexOf (s p : string) : Z := indexOfFrom s p 0%Z.

End JsString.

Module JsArray.

(** [Array.prototype.includes] and [Set.prototype.has] on strings. *)
Definition includes (l : list string) (w : string) : bool :=
  existsb (String.eqb w) l.

(** [new Set(l).size] on strings: the number of distinct elements, and the
    distinct elements in order of first occurrence. *)
Fixpoint unique (seen : list string) (l : list string) : list string :=
  match l with
  | [] => []
  | w :: rest =>
      if includes seen w then unique seen rest
      else w :: unique (w :: seen) rest
  end.

Section Sort.
Variable A : Type.
(** The comparator, as [Array.prototype.sort] takes it. *)
Variable compare : A -> A -> number.

(** [x] comes from a position before every element of [l]. *)
Fixpoint insert (x : A) (l : list A) : list A :=
  match l with
  | [] => [x]
  | y :: rest =>
      if JsNumber.gt (compare x y) (Num 0)
      then y :: insert x rest
      else x :: l
  end.

(** [Array.prototype.sort(compare)]: a stable sort.  For a comparator
    that orders its arguments consistently the result of every stable
    sort is this one. *)
Fixpoint sort (l : list A) : list A :=
  match l with
  | [] => []
  | x :: rest => insert x (sort rest)
  end.
End Sort.

(** Rounding of a [slice] bound: NaN counts as 0, a fraction is
    truncated, a negative bound counts from the end. *)
Definition sliceIndex (len : nat) (a : number) : nat :=
  match a with
  | NaN => O
  | PInf => len
  | NInf => O
  | Num q =>
      let k := if JsNumber.Qltb q 0 then (- Qfloor (- q))%Z else Qfloor q in
      if (k <? 0)%Z then Z.to_nat (Z.max (Z.of_nat len + k) 0)
      else Nat.min (Z.to_nat k) len
  end.

(** [l.slice(start, end)] *)
Definition slice (A : Type) (l : list A) (start stop : number) : list A :=
  let from := sliceIndex (List.length l) start in
  let to := sliceIndex (List.length l) stop in
  firstn (to - from) (skipn from l).

(** [l.slice(start)] *)
Definition sliceFrom (A : Type) (l : list A) (start : number) : list A :=
  skipn (sliceIndex (List.length l) start) l.

End JsArray.

(** A [Map<string, V>] in insertion order. *)
Module JsMap.

Section Map.
Variable V : Type.

Definition t := list (string * V).

Fixpoint get (m : t) (k : string) : option V :=
  match m with
  | [] => None
  | (k', v) :: rest => if String.eqb k k' then Some v else get rest k
  end.

(** [set] keeps the position of a key that is already present. *)
Fixpoint set (m : t) (k : string) (v : V) : t :=
  match m with
  | [] => [(k, v)]
  | (k', v') :: rest =>
      if String.eqb k k' then (k, v) :: rest else (k', v') :: set rest k v
  end.

Definition size (m : t) : nat := List.length m.

Definition clear (m : t) : t := [].
End Map.

End JsMap.

(** ** SentimentAnalyzer.ts: the emotion scorer *)

Module SentimentAnalyzer.

Import JsNumber.
Open Scope string_scope.
Open Scope js_scope.

Record LexiconEntry : Type := entry {
  emotion : Emotion;
  intensity : number
}.

Definition joyWords : list string :=
  [ "happy"; "joy"; "excited"; "wonderful"; "amazing"; "brilliant";
    "delighted"; "ecstatic"; "joyful"; "cheerful"; "elated"; "euphoric";
    "blissful"; "content"; "pleased"; "satisfied"; "thrilled"; "overjoyed";
    "gleeful"; "merry"; "upbeat"; "optimistic"; "positive"; "bright";
    "fantastic"; "great"; "excellent"; "perfect"; "beautiful"; "love";
    "adore"; "celebrate"; "triumph"; "victory"; "success"; "achievement";
    "accomplishment"; "pride"; "confident"; "hope"; "hopeful"; "inspiring";
    "motivated"; "energetic"; "vibrant"; "alive" ].

Definition sadnessWords : list string :=
  [ "sad"; "depressed"; "gloomy"; "melancholy"; "disappointed";
    "sorrowful"; "grief"; "heartbroken"; "devastated"; "dejected";
    "despondent"; "downhearted"; "miserable"; "unhappy"; "blue"; "down";
    "low"; "morose"; "mournful"; "woeful"; "tearful"; "crying"; "weeping";
    "sobbing"; "lonely"; "isolated"; "abandoned"; "lost"; "hopeless";
    "helpless"; "despair"; "anguish"; "pain"; "hurt"; "suffering";
    "regret"; "remorse"; "guilt"; "shame"; "burden"; "heavy"; "dark" ].

Definition angerWords : list string :=
  [ "angry"; "furious"; "rage"; "hostile"; "irritated"; "annoyed";
    "outraged"; "mad"; "livid"; "enraged"; "irate"; "incensed"; "wrathful";
    "fuming"; "aggravated"; "frustrated"; "exasperated"; "indignant";
    "resentful"; "bitter"; "hatred"; "hate"; "loathe"; "despise";
    "disgusted"; "revolted"; "appalled"; "offended"; "insulted";
    "provoked"; "triggered"; "agitated"; "upset"; "pissed"; "ticked";
    "steamed"; "boiling"; "seething"; "explosive" ].

Definition fearWords : list string :=
  [ "afraid"; "terrified"; "anxious"; "worried"; "nervous"; "scared";
    "frightened"; "fearful"; "panicked"; "horrified"; "petrified";
    "trembling"; "shaking"; "paranoid"; "concerned"; "uneasy";
    "apprehensive"; "dreadful"; "ominous"; "threatening"; "dangerous";
    "risky"; "uncertain"; "insecure"; "vulnerable"; "stressed"; "tense";
    "overwhelmed"; "panic"; "terror"; "horror"; "nightmare"; "phobia";
    "anxiety"; "stress"; "pressure"; "burden"; "threat" ].

Definition surpriseWords : list string :=
  [ "surprised"; "shocked"; "astonished"; "amazed"; "stunned"; "startled";
    "bewildered"; "perplexed"; "confused"; "puzzled"; "baffled";
    "mystified"; "unexpected"; "sudden"; "abrupt"; "unforeseen";
    "remarkable"; "extraordinary"; "incredible"; "unbelievable";
    "astounding"; "mind-blowing"; "wow"; "whoa"; "gasped"; "speechless";
    "thunderstruck"; "flabbergasted"; "dumbfounded" ].

Definition anticipationWords : list string :=
  [ "excited"; "eager"; "hopeful"; "optimistic"; "expecting";
    "anticipating"; "looking forward"; "awaiting"; "prepared"; "ready";
    "planning"; "future"; "tomorrow"; "soon"; "upcoming"; "approaching";
    "imminent"; "pending"; "prospect"; "possibility"; "potential";
    "opportunity"; "chance"; "maybe"; "curious"; "interested"; "intrigued";
    "wondering"; "expectant" ].

Definition negations : list string :=
  [ "not"; "no"; "never"; "none"; "nothing"; "nobody"; "nowhere";
    "neither"; "nor"; "without"; "barely"; "hardly"; "scarcely"; "seldom" ].

(** [words.forEach(word => lexicon.set(word, { emotion, intensity }))] *)
Definition setAll (words : list string) (e : Emotion) (i : Q)
           (lexicon : JsMap.t LexiconEntry) : JsMap.t LexiconEntry :=
  fold_left (fun m word => JsMap.set m word (entry e (Num i))) words lexicon.

(** The lexicon after [initializeLexicons]: a word listed under two
    emotions keeps the one set last. *)
Definition emotionLexicon : JsMap.t LexiconEntry :=
  setAll anticipationWords Anticipation 0.6
    (setAll surpriseWords Surprise 0.7
       (setAll fearWords Fear 0.8
          (setAll angerWords Anger 0.8
             (setAll sadnessWords Sadness 0.8
                (setAll joyWords Joy 0.8 []))))).

Definition negationWords : list string := negations.

Definition intensifierWords : JsMap.t number :=
  [ ("very", Num 1.5); ("extremely", Num 2.0); ("incredibly", Num 1.8);
    ("absolutely", Num 1.7); ("completely", Num 1.6); ("totally", Num 1.5);
    ("really", Num 1.3); ("quite", Num 1.2); ("rather", Num 1.1);
    ("somewhat", Num 0.8); ("slightly", Num 0.6); ("barely", Num 0.4);
    ("utterly", Num 1.9); ("exceptionally", Num 1.8);
    ("remarkably", Num 1.6); ("particularly", Num 1.4) ].

Definition tokenizeText (text : string) : list string :=
  filter JsString.nonEmpty
    (JsString.split JsString.isSpace
       (JsString.replaceNonWord (JsString.toLowerCase text))).

(** The variables of the loop of [calculateEmotionScores]. *)
Record Scan : Type := scan {
  scores : EmotionScores.t;
  totalEmotionalWords : nat;
  negationActive : bool;
  currentIntensifier : number
}.

Definition zeroScores : EmotionScores.t :=
  EmotionScores.mk (Num 0) (Num 0) (Num 0) (Num 0) (Num 0) (Num 0).

Definition initialScan : Scan := scan zeroScores 0 false (Num 1.0).

(** One iteration of the loop. *)
Definition step (st : Scan) (word : string) : Scan :=
  if JsArray.includes negationWords word then
    scan (scores st) (totalEmotionalWords st) true (currentIntensifier st)
  else
    match JsMap.get intensifierWords word with
    | Some multiplier =>
        scan (scores st) (totalEmotionalWords st) (negationActive st)
             (or multiplier (Num 1.0))
    | None =>
        match JsMap.get emotionLexicon word with
        | Some emotionData =>
            let intensity := intensity emotionData * currentIntensifier st in
            let intensity :=
              if negationActive st then intensity * Num (-0.5) else intensity in
            scan (EmotionScores.set (scores st) (emotion emotionData)
                    (EmotionScores.get (scores st) (emotion emotionData)
                     + intensity))
                 (S (totalEmotionalWords st))
                 false
                 (Num 1.0)
        | None =>
            scan (scores st) (totalEmotionalWords st) (negationActive st)
                 (Num 1.0)
        end
    end.

(** The normalisation after the loop. *)
Definition normalize (st : Scan) : EmotionScores.t :=
  if (0 <? totalEmotionalWords st)%nat then
    fold_left
      (fun s e =>
         EmotionScores.set s e
           (max (Num 0)
                (EmotionScores.get s e / ofNat (totalEmotionalWords st))))
      EmotionScores.keys (scores st)
  else scores st.

Definition calculateEmotionScores (words : list string) : EmotionScores.t :=
  normalize (fold_left step words initialScan).

Definition applyEmojiInfluence (scores : EmotionScores.t)
           (influence : number) : EmotionScores.t :=
  if influence >? Num 0 then
    let scores :=
      EmotionScores.set scores Joy
        (min (Num 1) (EmotionScores.joy scores + influence * Num 0.3)) in
    EmotionScores.set scores Anticipation
      (min (Num 1) (EmotionScores.anticipation scores + influence * Num 0.2))
  else if influence <? Num 0 then
    let scores :=
      EmotionScores.set scores Sadness
        (min (Num 1) (EmotionScores.sadness scores + abs influence * Num 0.3)) in
    EmotionScores.set scores Fear
      (min (Num 1) (EmotionScores.fear scores + abs influence * Num 0.2))
  else scores.

Definition findDominantEmotion (scores : EmotionScores.t)
  : DominantEmotion.t :=
  let '(maxScore, dominantEmotion) :=
    fold_left
      (fun '(maxScore, dominantEmotion) e =>
         let score := EmotionScores.get scores e in
         if score >? maxScore then (score, e)
         else (maxScore, dominantEmotion))
      EmotionScores.keys (Num 0, Joy) in
  let sortedScores :=
    JsArray.sort (fun a b => b - a) (EmotionScores.values scores) in
  let confidence :=
    match sortedScores with
    | s0 :: s1 :: _ => (s0 - s1) / or s0 (Num 1)
    | _ => Num 1
    end in
  DominantEmotion.mk dominantEmotion maxScore (min (Num 1) confidence).

Definition calculateDimensions (scores : EmotionScores.t)
  : number * number :=
  let positive :=
    EmotionScores.joy scores + EmotionScores.anticipation scores
    + EmotionScores.surprise scores * Num 0.5 in
  let negative :=
    EmotionScores.sadness scores + EmotionScores.anger scores
    + EmotionScores.fear scores in
  let valence := (positive - negative) / max (positive + negative) (Num 1) in
  let highArousal :=
    EmotionScores.anger scores + EmotionScores.fear scores
    + EmotionScores.surprise scores + EmotionScores.joy scores * Num 0.7 in
  let lowArousal :=
    EmotionScores.sadness scores + EmotionScores.anticipation scores * Num 0.3 in
  let arousal := highArousal / max (highArousal + lowArousal) (Num 1) in
  (max (Num (-1)) (min (Num 1) valence),
   max (Num 0) (min (Num 1) arousal)).

Definition calculateIntensity (scores : EmotionScores.t)
           (dominant : DominantEmotion.t) : number :=
  let totalEmotionalContent :=
    fold_left (fun sum score => sum + score)
              (EmotionScores.values scores) (Num 0) in
  let dominantWeight := DominantEmotion.score dominant * Num 2 in
  min (Num 1) ((totalEmotionalContent + dominantWeight) / Num 3).

(** [analyze(text, emojiInfluence)]; the source gives [emojiInfluence] the
    default 0. *)
Definition analyze (text : string) (emojiInfluence : number)
  : SentimentAnalysis.t :=
  let words := tokenizeText text in
  let emotionScores := calculateEmotionScores words in
  let emotionScores :=
    if emojiInfluence >? Num 0
    then applyEmojiInfluence emotionScores emojiInfluence
    else emotionScores in
  let dominant := findDominantEmotion emotionScores in
  let '(valence, arousal) := calculateDimensions emotionScores in
  let intensity := calculateIntensity emotionScores dominant in
  SentimentAnalysis.mk emotionScores dominant intensity valence arousal.

(** [extractEmojiData]: every range of [emojiRegex] starts at U+2600 or
    above.  A text made of code units below 256 has no match, so the loop
    body, and with it [getEmojiEmotion], is never entered. *)
Definition extractEmojiData (text : string) : list EmojiData.t := [].

Definition getEmotionPolarity (e : Emotion) : number :=
  match e with
  | Joy => Num 1.0
  | Anticipation => Num 0.5
  | Surprise => Num 0.2
  | Sadness => Num (-0.8)
  | Anger => Num (-0.9)
  | Fear => Num (-0.7)
  end.

Definition calculateEmojiInfluence (emojiData : list EmojiData.t) : number :=
  match emojiData with
  | [] => Num 0
  | _ =>
      let totalInfluence :=
        fold_left
          (fun total emoji =>
             total
             + getEmotionPolarity (EmojiData.emotion emoji)
               * EmojiData.intensity emoji)
          emojiData (Num 0) in
      totalInfluence / ofNat (List.length emojiData)
  end.

End SentimentAnalyzer.

(** ** ComplexityAnalyzer.ts: the complexity scorer *)

Module ComplexityAnalyzer.

Import JsNumber.
Open Scope string_scope.
Open Scope js_scope.

Definition common : list string :=
  [ "the"; "a"; "to"; "and"; "of"; "in"; "i"; "you"; "it"; "have"; "be";
    "on"; "for"; "do"; "say"; "this"; "they"; "is"; "an"; "at"; "but";
    "we"; "his"; "from"; "that"; "not"; "by"; "she"; "or"; "as"; "what";
    "go"; "their"; "can"; "who"; "get"; "if"; "would"; "her"; "all"; "my";
    "make"; "about"; "know"; "will"; "as"; "up"; "one"; "time"; "has";
    "been"; "there"; "year"; "so"; "think"; "when"; "which"; "them";
    "some"; "me"; "people"; "take"; "out"; "into"; "just"; "see"; "him";
    "your"; "come"; "could"; "now"; "than"; "like"; "other"; "how"; "then";
    "its"; "our"; "two"; "more"; "these"; "want"; "way"; "look"; "first";
    "also"; "new"; "because"; "day"; "more"; "use"; "no"; "man"; "find";
    "here"; "thing"; "give"; "many"; "well"; "only"; "those"; "tell";
    "very"; "her"; "even"; "back"; "any"; "good"; "woman"; "through"; "us";
    "life"; "child"; "work"; "down"; "may"; "after"; "should"; "call";
    "world"; "over"; "school"; "still"; "try"; "in"; "as"; "last"; "ask";
    "need"; "too"; "feel"; "three"; "when"; "state"; "never"; "become";
    "between"; "high"; "really"; "something"; "most"; "another"; "much";
    "family"; "own"; "out"; "leave" ].

Definition complex : list string :=
  [ "sophisticated"; "implementation"; "consideration"; "fundamental";
    "comprehensive"; "significance"; "extraordinary"; "revolutionary";
    "unprecedented"; "phenomenal"; "magnificent"; "consequently";
    "nevertheless"; "furthermore"; "elaborate"; "intricate"; "meticulous";
    "substantial"; "considerable"; "remarkable"; "exceptional";
    "outstanding"; "distinguished"; "prominent"; "inevitable"; "essential";
    "critical"; "crucial"; "significant"; "substantial"; "extensive";
    "comprehensive"; "thorough"; "elaborate"; "sophisticated"; "advanced";
    "complex"; "intricate"; "detailed"; "specific"; "particular";
    "individual"; "unique"; "distinct"; "separate"; "independent";
    "autonomous"; "contemporary"; "modern"; "current"; "recent"; "latest";
    "updated"; "revised"; "modified"; "alternative"; "optional";
    "additional"; "supplementary"; "complementary"; "corresponding";
    "equivalent"; "similar"; "comparable"; "analogous"; "parallel";
    "related"; "associated"; "connected"; "linked"; "attached"; "combined";
    "integrated"; "unified"; "consolidated" ].

Definition subordinateIndicators : list string :=
  [ "because"; "since"; "although"; "while"; "whereas"; "if"; "unless";
    "until"; "before"; "after"; "when"; "where"; "which"; "that"; "who";
    "whom" ].

Definition abstractIndicators : list string :=
  [ "concept"; "idea"; "theory"; "principle"; "philosophy"; "belief";
    "thought"; "notion"; "understanding"; "knowledge"; "wisdom"; "meaning";
    "purpose"; "significance"; "importance"; "value"; "quality";
    "characteristic"; "nature"; "essence"; "reality"; "truth"; "fact";
    "assumption"; "hypothesis"; "conclusion"; "inference"; "implication";
    "consequence" ].

Definition technicalIndicators : list string :=
  [ "system"; "process"; "method"; "approach"; "technique"; "procedure";
    "mechanism"; "function"; "operation"; "performance"; "efficiency";
    "optimization"; "analysis"; "evaluation"; "assessment"; "measurement";
    "calculation"; "computation"; "algorithm"; "structure"; "framework";
    "architecture"; "design"; "implementation"; "development" ].

Definition emotionWords : list string :=
  [ "happy"; "sad"; "angry"; "fear"; "joy"; "love"; "hate"; "excited";
    "nervous"; "calm"; "stressed"; "peaceful"; "worried"; "confident";
    "anxious"; "hopeful"; "disappointed"; "frustrated"; "content";
    "lonely"; "grateful"; "proud"; "embarrassed"; "ashamed"; "guilty";
    "relieved"; "surprised"; "shocked"; "amazed"; "confused"; "curious";
    "interested"; "bored"; "tired"; "energetic" ].

Definition complexEmotions : list string :=
  [ "melancholy"; "euphoric"; "despondent"; "elated"; "apprehensive";
    "contemplative"; "nostalgic"; "bittersweet"; "ambivalent";
    "conflicted"; "overwhelmed"; "underwhelmed"; "disillusioned";
    "enlightened"; "empowered"; "vulnerable"; "resilient"; "determined" ].

Definition intensifiers : list string :=
  [ "extremely"; "incredibly"; "absolutely"; "completely"; "utterly";
    "deeply"; "profoundly"; "intensely"; "overwhelmingly"; "exceptionally";
    "remarkably" ].

Definition nuanceIndicators : list string :=
  [ "but"; "however"; "although"; "despite"; "nevertheless"; "yet";
    "still"; "on the other hand"; "at the same time"; "mixed feelings";
    "torn between" ].

(** The two word sets after [initializeWordLists]. *)
Definition commonWords : list string := common.
Definition complexWords : list string := complex.

Definition tokenizeText (text : string) : list string :=
  filter JsString.nonEmpty
    (JsString.split JsString.isSpace
       (JsString.replaceNonWord (JsString.toLowerCase text))).

(** [/[.!?]+/] *)
Definition isSentenceEnd (c : ascii) : bool :=
  (Ascii.eqb c "." || Ascii.eqb c "!" || Ascii.eqb c "?")%char.

Definition splitIntoSentences (text : string) : list string :=
  filter JsString.nonEmpty
    (map JsString.trim (JsString.split isSentenceEnd text)).

(** A counter incremented for each element that passes the test. *)
Definition count (A : Type) (test : A -> bool) (l : list A) : nat :=
  List.length (filter test l).

Definition calculateVocabularyDiversity (words : list string) : number :=
  match words with
  | [] => Num 0
  | _ =>
      let uniqueWords := JsArray.unique [] words in
      let size := ofNat (List.length uniqueWords) in
      let typeTokenRatio := size / ofNat (List.length words) in
      let sophisticated word :=
        JsArray.includes complexWords word
        || (8 <? String.length word)%nat in
      let sophisticatedCount := count sophisticated uniqueWords in
      let commonCount :=
        count (fun word => negb (sophisticated word)
                           && JsArray.includes commonWords word)
              uniqueWords in
      let sophisticatedRatio := ofNat sophisticatedCount / size in
      let commonRatio := ofNat commonCount / size in
      let diversityScore :=
        (typeTokenRatio * Num 0.6) + (sophisticatedRatio * Num 0.3)
        + ((Num 1 - commonRatio) * Num 0.1) in
      min (Num 1) (diversityScore * Num 2)
  end.

(** The contribution of one sentence in [calculateSentenceComplexity]. *)
Definition sentenceComplexityOf (sentence : string) : number :=
  let sentenceWords :=
    filter JsString.nonEmpty (JsString.split JsString.isSpace sentence) in
  let wordCount := List.length sentenceWords in
  let lengthComplexity :=
    if (wordCount <=? 10)%nat then Num 0.2
    else if (wordCount <=? 20)%nat then Num 0.5
    else if (wordCount <=? 30)%nat then Num 0.8
    else Num 1.0 in
  let commaCount := JsString.countChar ","%char sentence in
  let semicolonCount := JsString.countChar ";"%char sentence in
  let colonCount := JsString.countChar ":"%char sentence in
  let punctuationComplexity :=
    min (Num 1)
        ((ofNat commaCount * Num 0.1) + (ofNat semicolonCount * Num 0.2)
         + (ofNat colonCount * Num 0.15)) in
  let subordinateCount :=
    fold_left
      (fun count indicator =>
         (count
          + JsString.countSplits (JsString.toLowerCase sentence) indicator)%nat)
      subordinateIndicators 0%nat in
  let subordinateComplexity :=
    min (Num 1) (ofNat subordinateCount * Num 0.3) in
  (lengthComplexity * Num 0.4) + (punctuationComplexity * Num 0.3)
  + (subordinateComplexity * Num 0.3).

Definition calculateSentenceComplexity (sentences : list string) : number :=
  match sentences with
  | [] => Num 0
  | _ =>
      let totalComplexity :=
        fold_left
          (fun total sentence => total + sentenceComplexityOf sentence)
          sentences (Num 0) in
      totalComplexity / ofNat (List.length sentences)
  end.

Definition endsWithAny (word : string) (suffixes : list string) : bool :=
  existsb (JsString.endsWith word) suffixes.

Definition calculateConceptDensity (words : list string) : number :=
  match words with
  | [] => Num 0
  | _ =>
      let abstractConcepts :=
        count (fun word =>
                 existsb (JsString.includes word) abstractIndicators
                 || endsWithAny word ["ness"; "ity"; "ism"]) words in
      let technicalTerms :=
        count (fun word =>
                 existsb (JsString.includes word) technicalIndicators
                 || endsWithAny word ["tion"; "sion"; "ment"]) words in
      let actionWords :=
        count (fun word => endsWithAny word ["ing"; "ed"; "en"]) words in
      let descriptiveWords :=
        count (fun word =>
                 endsWithAny word ["ly"; "ful"; "less"; "ous"; "ive"; "able"])
              words in
      let length := ofNat (List.length words) in
      let weightedDensity :=
        (ofNat abstractConcepts / length) * Num 0.4
        + (ofNat technicalTerms / length) * Num 0.3
        + (ofNat actionWords / length) * Num 0.2
        + (ofNat descriptiveWords / length) * Num 0.1 in
      min (Num 1) (weightedDensity * Num 3)
  end.

Definition calculateEmotionalComplexity (text : string)
           (words : list string) : number :=
  let simpleEmotions := count (JsArray.includes emotionWords) words in
  let complexEmotionCount := count (JsArray.includes complexEmotions) words in
  let intensifierCount := count (JsArray.includes intensifiers) words in
  let emotionalNuance :=
    fold_left
      (fun nuance indicator =>
         if JsString.includes (JsString.toLowerCase text) indicator
         then nuance + Num 0.2
         else nuance)
      nuanceIndicators (Num 0) in
  let length := ofNat (List.length words) in
  let totalEmotionalWords := (simpleEmotions + complexEmotionCount)%nat in
  let emotionalDensity := ofNat totalEmotionalWords / length in
  let complexityScore :=
    (emotionalDensity * Num 0.3)
    + (ofNat complexEmotionCount / length * Num 0.4)
    + (ofNat intensifierCount / length * Num 0.2)
    + (min (Num 1) emotionalNuance * Num 0.1) in
  min (Num 1) (complexityScore * Num 4).

Definition analyze (text : string) : ComplexityAnalysis.t :=
  let words := tokenizeText text in
  let sentences := splitIntoSentences text in
  let vocabularyDiversity := calculateVocabularyDiversity words in
  let sentenceComplexity := calculateSentenceComplexity sentences in
  let conceptDensity := calculateConceptDensity words in
  let emotionalComplexity := calculateEmotionalComplexity text words in
  let overallComplexity :=
    vocabularyDiversity * Num 0.3
    + sentenceComplexity * Num 0.3
    + conceptDensity * Num 0.25
    + emotionalComplexity * Num 0.15 in
  ComplexityAnalysis.mk
    (min (Num 1) overallComplexity)
    vocabularyDiversity
    sentenceComplexity
    conceptDensity
    emotionalComplexity.

Definition getComplexityLevel (complexity : number) : string :=
  if complexity <? Num 0.2 then "Very Simple"
  else if complexity <? Num 0.4 then "Simple"
  else if complexity <? Num 0.6 then "Moderate"
  else if complexity <? Num 0.8 then "Complex"
  else "Very Complex".

(** [getComplexityBreakdown]: the object it returns, as the list of its
    properties. *)
Definition getComplexityBreakdown (analysis : ComplexityAnalysis.t)
  : list (string * string) :=
  [ ("overall",
     getComplexityLevel (ComplexityAnalysis.overallComplexity analysis));
    ("vocabulary",
     getComplexityLevel (ComplexityAnalysis.vocabularyDiversity analysis));
    ("sentence",
     getComplexityLevel (ComplexityAnalysis.sentenceComplexity analysis));
    ("concepts",
     getComplexityLevel (ComplexityAnalysis.conceptDensity analysis));
    ("emotional",
     getComplexityLevel (ComplexityAnalysis.emotionalComplexity analysis)) ].

End ComplexityAnalyzer.

(** ** ConceptExtractor.ts, as the scaling resolver and the cache see it

    [TextAnalyzer] holds a [ConceptExtractor] and calls its two public
    methods.  What they compute enters the analysis result unchanged and is not
    inspected by the code modelled below, so the extractor is a parameter of
    [TextAnalyzer.analyze]: what is proved holds for every extractor. *)

Module ConceptExtractor.
Record t : Type := mk {
  extract : string -> list Concept.t;
  buildSemanticGraph : list Concept.t -> SemanticGraph.t
}.
End ConceptExtractor.

(** ** ConceptExtractor.ts: the concept extractor

    The class behind the interface [ConceptExtractor.t].  Each of its
    category patterns is a case-insensitive alternation of plain words, so
    [pattern.test(word)] holds when one of the words occurs in [word]. *)

Module ConceptExtractorImpl.

Import JsNumber.
Open Scope string_scope.
Open Scope js_scope.

Definition stopWordList : list string :=
  [ "the"; "a"; "an"; "and"; "or"; "but"; "in"; "on"; "at"; "to"; "for";
    "of"; "with"; "by"; "is"; "are"; "was"; "were"; "be"; "been"; "being";
    "have"; "has"; "had"; "will"; "would"; "could"; "should"; "may";
    "might"; "must"; "can"; "shall"; "this"; "that"; "these"; "those"; "i";
    "you"; "he"; "she"; "it"; "we"; "they"; "me"; "him"; "her"; "us";
    "them"; "my"; "your"; "his"; "her"; "its"; "our"; "their"; "what";
    "which"; "who"; "whom"; "whose"; "where"; "when"; "why"; "how"; "if";
    "then"; "else"; "so"; "as"; "than"; "too"; "very"; "much"; "many";
    "some"; "any"; "all"; "each"; "every"; "both"; "either"; "neither" ].

Definition emotionKeywords : list string :=
  [ "happiness"; "sadness"; "anger"; "fear"; "surprise"; "disgust"; "joy";
    "love"; "excitement"; "nervousness"; "anxiety"; "peace"; "stress";
    "worry"; "confidence"; "hope"; "disappointment"; "frustration";
    "contentment"; "loneliness"; "gratitude" ].

Definition timeKeywords : list string :=
  [ "morning"; "afternoon"; "evening"; "night"; "yesterday"; "today";
    "tomorrow"; "moment"; "instant"; "period"; "duration"; "schedule";
    "deadline"; "appointment"; "meeting"; "event"; "occasion";
    "anniversary"; "birthday"; "holiday"; "vacation" ].

Definition peopleKeywords : list string :=
  [ "relationship"; "friendship"; "partnership"; "marriage"; "romance";
    "dating"; "conversation"; "communication"; "interaction"; "connection";
    "bond"; "trust"; "support"; "care"; "love"; "respect"; "understanding";
    "empathy"; "kindness" ].

Definition placesKeywords : list string :=
  [ "location"; "destination"; "journey"; "travel"; "exploration";
    "adventure"; "environment"; "atmosphere"; "scenery"; "landscape";
    "architecture"; "design"; "space"; "area"; "region"; "territory";
    "boundary"; "distance"; "proximity" ].

Definition actionsKeywords : list string :=
  [ "activity"; "behavior"; "performance"; "execution"; "implementation";
    "practice"; "exercise"; "training"; "skill"; "ability"; "talent";
    "expertise"; "experience"; "effort"; "attempt"; "try"; "struggle";
    "fight"; "compete"; "collaborate" ].

Definition abstractKeywords : list string :=
  [ "concept"; "principle"; "theory"; "hypothesis"; "assumption"; "belief";
    "opinion"; "perspective"; "viewpoint"; "attitude"; "approach"; "method";
    "strategy"; "plan"; "goal"; "objective"; "purpose"; "meaning";
    "significance"; "importance"; "value" ].

Definition objectsKeywords : list string :=
  [ "device"; "equipment"; "instrument"; "machine"; "appliance"; "gadget";
    "technology"; "material"; "substance"; "product"; "creation";
    "invention"; "design"; "structure"; "system"; "component"; "element";
    "feature"; "characteristic"; "property" ].

Definition emotionPattern : list string :=
  [ "emotional"; "feeling"; "mood"; "happy"; "sad"; "angry"; "fear"; "joy";
    "love"; "hate"; "excited"; "nervous"; "calm"; "stressed"; "peaceful";
    "worried"; "confident"; "anxious"; "hopeful"; "disappointed" ].

Definition timePattern : list string :=
  [ "time"; "day"; "night"; "morning"; "evening"; "afternoon"; "yesterday";
    "today"; "tomorrow"; "now"; "then"; "when"; "before"; "after"; "during";
    "while"; "moment"; "hour"; "minute"; "second"; "week"; "month"; "year";
    "future"; "past"; "present"; "recently"; "soon"; "later"; "early";
    "late" ].

Definition peoplePattern : list string :=
  [ "person"; "people"; "friend"; "family"; "someone"; "everyone"; "nobody";
    "mother"; "father"; "parent"; "child"; "son"; "daughter"; "brother";
    "sister"; "colleague"; "teammate"; "neighbor"; "stranger"; "community";
    "group"; "individual"; "human"; "man"; "woman"; "boy"; "girl"; "adult";
    "baby"; "elder" ].

Definition placesPattern : list string :=
  [ "place"; "home"; "house"; "school"; "work"; "office"; "city"; "town";
    "country"; "world"; "room"; "kitchen"; "bedroom"; "bathroom"; "garden";
    "park"; "street"; "road"; "building"; "store"; "restaurant"; "hospital";
    "church"; "library"; "museum"; "beach"; "mountain"; "forest"; "lake";
    "river"; "university"; "college" ].

Definition actionsPattern : list string :=
  [ "do"; "did"; "doing"; "done"; "run"; "walk"; "think"; "create"; "build";
    "make"; "write"; "read"; "speak"; "listen"; "see"; "watch"; "look";
    "go"; "come"; "move"; "stop"; "start"; "finish"; "begin"; "end"; "work";
    "play"; "learn"; "teach"; "help"; "give"; "take"; "bring"; "send";
    "receive"; "buy"; "sell"; "eat"; "drink"; "sleep"; "wake" ].

Definition abstractPattern : list string :=
  [ "idea"; "concept"; "thought"; "dream"; "hope"; "belief"; "philosophy";
    "theory"; "principle"; "value"; "meaning"; "purpose"; "goal"; "plan";
    "strategy"; "solution"; "problem"; "challenge"; "opportunity";
    "success"; "failure"; "progress"; "change"; "growth"; "development";
    "improvement"; "achievement"; "experience"; "memory"; "knowledge";
    "wisdom"; "understanding"; "truth"; "justice"; "freedom"; "creativity";
    "innovation"; "inspiration"; "motivation"; "determination" ].

Definition objectsPattern : list string :=
  [ "thing"; "object"; "item"; "tool"; "car"; "bike"; "phone"; "computer";
    "laptop"; "book"; "paper"; "pen"; "table"; "chair"; "bed"; "door";
    "window"; "light"; "food"; "water"; "money"; "clothes"; "shoes"; "bag";
    "camera"; "music"; "movie"; "game"; "toy"; "gift"; "key"; "lock"; "box";
    "bottle"; "cup"; "plate"; "spoon"; "fork"; "knife" ].

(** The set [stopWords]. *)
Definition stopWords : list string := stopWordList.

(** The maps [categoryKeywords] and [categoryPatterns], in insertion
    order. *)
Definition categoryKeywords : list (ConceptCategory * list string) :=
  [ (cat_emotion, emotionKeywords); (cat_time, timeKeywords);
    (cat_people, peopleKeywords); (cat_places, placesKeywords);
    (cat_actions, actionsKeywords); (cat_abstract, abstractKeywords);
    (cat_objects, objectsKeywords) ].

Definition categoryPatterns : list (ConceptCategory * list string) :=
  [ (cat_emotion, emotionPattern); (cat_time, timePattern);
    (cat_people, peoplePattern); (cat_places, placesPattern);
    (cat_actions, actionsPattern); (cat_abstract, abstractPattern);
    (cat_objects, objectsPattern) ].

Definition ConceptCategory_eqb (a b : ConceptCategory) : bool :=
  match a, b with
  | cat_emotion, cat_emotion | cat_time, cat_time | cat_people, cat_people
  | cat_places, cat_places | cat_actions, cat_actions
  | cat_abstract, cat_abstract | cat_objects, cat_objects => true
  | _, _ => false
  end.

(** A category as the string it is in the source. *)
Definition categoryName (category : ConceptCategory) : string :=
  match category with
  | cat_emotion => "emotion"
  | cat_time => "time"
  | cat_people => "people"
  | cat_places => "places"
  | cat_actions => "actions"
  | cat_abstract => "abstract"
  | cat_objects => "objects"
  end.

Definition tokenizeText (text : string) : list string :=
  filter JsString.nonEmpty
    (JsString.split JsString.isSpace
       (JsString.replaceNonWord (JsString.toLowerCase text))).

(** [pattern.test(word)] for the alternation of [alternatives]. *)
Definition test (alternatives : list string) (word : string) : bool :=
  existsb (JsString.includes (JsString.toLowerCase word)) alternatives.

Definition classifyWord (word : string) : ConceptCategory :=
  match find (fun '(_, keywords) => JsArray.includes keywords word)
             categoryKeywords with
  | Some (category, _) => category
  | None =>
      match find (fun '(_, pattern) => test pattern word)
                 categoryPatterns with
      | Some (category, _) => category
      | None =>
          if JsString.endsWith word "ing" || JsString.endsWith word "ed"
          then cat_actions
          else if JsString.endsWith word "ness"
                  || JsString.endsWith word "ity"
                  || JsString.endsWith word "ism"
          then cat_abstract
          else if JsString.endsWith word "er"
                  || JsString.endsWith word "or"
                  || JsString.endsWith word "ian"
          then cat_people
          else cat_objects
      end
  end.

Definition getCategoryImportance (category : ConceptCategory) : number :=
  let importance :=
    match category with
    | cat_emotion => Num 1.5
    | cat_abstract => Num 1.3
    | cat_people => Num 1.2
    | cat_actions => Num 1.1
    | cat_time => Num 1.0
    | cat_places => Num 0.9
    | cat_objects => Num 0.8
    end in
  or importance (Num 1.0).

Definition calculateRelevance (word : string) (frequency totalWords : number)
           (originalText : string) : number :=
  let tf := frequency / totalWords in
  let lengthBonus := min (Num 1) (ofNat (String.length word) / Num 10) in
  let positions :=
    ofZ (JsString.indexOf (JsString.toLowerCase originalText) word) in
  let positionBonus :=
    if positions <? ofNat (String.length originalText) * Num 0.2
    then Num 0.2 else Num 0 in
  let categoryMultiplier := getCategoryImportance (classifyWord word) in
  let relevance := (tf * Num 2) + lengthBonus + positionBonus in
  let relevance := relevance * categoryMultiplier in
  min (Num 1) relevance.

(** [wordCounts.get(word) || 0] *)
Definition countOf (wordCounts : JsMap.t number) (word : string) : number :=
  match JsMap.get wordCounts word with
  | Some count => or count (Num 0)
  | None => Num 0
  end.

(** The test a word passes to be counted. *)
Definition significant (word : string) : bool :=
  negb (JsArray.includes stopWords word) && (2 <? String.length word)%nat.

(** The indexes [i] with [allWords[i] === targetWord], from [index] on. *)
Fixpoint positionsOf (targetWord : string) (allWords : list string)
         (index : nat) : list nat :=
  match allWords with
  | [] => []
  | word :: rest =>
      if String.eqb word targetWord
      then index :: positionsOf targetWord rest (S index)
      else positionsOf targetWord rest (S index)
  end.

Definition findConnectedWords (targetWord : string) (allWords : list string)
           (wordCounts : JsMap.t number) : list string :=
  let windowSize := 3%nat in
  let targetPositions := positionsOf targetWord allWords 0 in
  let connections :=
    fold_left
      (fun connections position =>
         let start := (position - windowSize)%nat in
         let stop :=
           Nat.min (List.length allWords) (position + windowSize + 1) in
         fold_left
           (fun connections i =>
              if negb (i =? position)%nat then
                match nth_error allWords i with
                | Some nearbyWord =>
                    if significant nearbyWord
                       && (countOf wordCounts nearbyWord >? Num 1)
                       && negb (JsArray.includes connections nearbyWord)
                    then (connections ++ [nearbyWord])%list
                    else connections
                | None => connections
                end
              else connections)
           (seq start (stop - start)) connections)
      targetPositions [] in
  JsArray.slice connections (Num 0) (Num 10).

(** The first loop of [extract]: frequencies and positions of the
    significant words. *)
Fixpoint countWords (words : list string) (index : nat)
         (wordCounts : JsMap.t number) (wordPositions : JsMap.t (list number))
  : JsMap.t number * JsMap.t (list number) :=
  match words with
  | [] => (wordCounts, wordPositions)
  | word :: rest =>
      if significant word then
        let wordCounts :=
          JsMap.set wordCounts word (countOf wordCounts word + Num 1) in
        let positions :=
          match JsMap.get wordPositions word with
          | Some positions => positions
          | None => []
          end in
        let wordPositions :=
          JsMap.set wordPositions word (positions ++ [ofNat index])%list in
        countWords rest (S index) wordCounts wordPositions
      else countWords rest (S index) wordCounts wordPositions
  end.

Definition extract (text : string) : list Concept.t :=
  let words := tokenizeText text in
  let '(wordCounts, wordPositions) := countWords words 0 [] [] in
  let concepts :=
    fold_left
      (fun concepts '(word, frequency) =>
         let category := classifyWord word in
         let relevance :=
           calculateRelevance word frequency (ofNat (List.length words))
                              text in
         let connections := findConnectedWords word words wordCounts in
         if relevance >? Num 0.1 then
           (concepts
            ++ [ Concept.mk word category relevance frequency
                   match JsMap.get wordPositions word with
                   | Some positions => positions
                   | None => []
                   end
                   connections ])%list
         else concepts)
      wordCounts [] in
  let sorted :=
    JsArray.sort (fun a b => Concept.relevance b - Concept.relevance a)
                 concepts in
  JsArray.slice sorted (Num 0)
                (min (Num 50) (ofNat (List.length sorted))).

Definition calculateConnectionWeight (concept1 concept2 : Concept.t)
  : number :=
  let relevanceWeight :=
    (Concept.relevance concept1 + Concept.relevance concept2) / Num 2 in
  let frequencyWeight :=
    min (Num 1)
        ((Concept.frequency concept1 + Concept.frequency concept2) / Num 10) in
  let categoryBonus :=
    if ConceptCategory_eqb (Concept.category concept1)
                           (Concept.category concept2)
    then Num 0.3 else Num 0 in
  min (Num 1)
      (relevanceWeight * Num 0.5 + frequencyWeight * Num 0.3 + categoryBonus
       + Num 0.2).

Definition determineRelationshipType (concept1 concept2 : Concept.t)
  : RelationshipType :=
  if ConceptCategory_eqb (Concept.category concept1) cat_emotion
     || ConceptCategory_eqb (Concept.category concept2) cat_emotion
  then rel_emotional
  else if ConceptCategory_eqb (Concept.category concept1) cat_time
          || ConceptCategory_eqb (Concept.category concept2) cat_time
  then rel_temporal
  else if ConceptCategory_eqb (Concept.category concept1)
                              (Concept.category concept2)
  then rel_semantic
  else rel_contextual.

Definition calculateVariance (values : list number) : number :=
  let length := ofNat (List.length values) in
  let mean := fold_left (fun sum val => sum + val) values (Num 0) / length in
  let variance :=
    fold_left (fun sum val => sum + (val - mean) * (val - mean)) values (Num 0)
    / length in
  variance.

Definition calculateClusterCoherence (concepts : list Concept.t) : number :=
  if (List.length concepts <=? 1)%nat then Num 1
  else
    let relevanceVariance :=
      calculateVariance (map Concept.relevance concepts) in
    let frequencyVariance :=
      calculateVariance (map Concept.frequency concepts) in
    let relevanceCoherence := Num 1 / (Num 1 + relevanceVariance) in
    let frequencyCoherence := Num 1 / (Num 1 + frequencyVariance) in
    (relevanceCoherence + frequencyCoherence) / Num 2.

(** [conceptsByCategory], a map keyed by category in insertion order:
    the concept is appended to the array of its category. *)
Fixpoint groupInsert (groups : list (ConceptCategory * list Concept.t))
         (concept : Concept.t) : list (ConceptCategory * list Concept.t) :=
  match groups with
  | [] => [(Concept.category concept, [concept])]
  | (category, members) :: rest =>
      if ConceptCategory_eqb (Concept.category concept) category
      then (category, (members ++ [concept])%list) :: rest
      else (category, members) :: groupInsert rest concept
  end.

(** [categoryConcepts.reduce((best, current) => ...)] *)
Definition mostRelevant (first : Concept.t) (others : list Concept.t)
  : Concept.t :=
  fold_left
    (fun best current =>
       if Concept.relevance current >? Concept.relevance best
       then current else best)
    others first.

Definition createConceptClusters (concepts : list Concept.t)
  : list ConceptCluster.t :=
  let conceptsByCategory := fold_left groupInsert concepts [] in
  flat_map
    (fun '(category, categoryConcepts) =>
       match categoryConcepts with
       | first :: second :: others =>
           [ ConceptCluster.mk
               ("cluster-" ++ categoryName category)
               (map Concept.word categoryConcepts)
               (mostRelevant first (second :: others))
               (calculateClusterCoherence categoryConcepts) ]
       | _ => []
       end)
    conceptsByCategory.

(** [nodes.has(key)] and [edges.has(key)] *)
Definition has (V : Type) (m : JsMap.t V) (key : string) : bool :=
  match JsMap.get m key with
  | Some _ => true
  | None => false
  end.

Definition buildSemanticGraph (concepts : list Concept.t) : SemanticGraph.t :=
  let nodes :=
    fold_left
      (fun nodes concept =>
         JsMap.set nodes (Concept.word concept)
           (ConceptNode.mk (Concept.word concept) concept
              (Concept.relevance concept * Concept.frequency concept)
              (Concept.connections concept)))
      concepts [] in
  let edges :=
    fold_left
      (fun edges concept =>
         fold_left
           (fun edges connectedWord =>
              match JsMap.get nodes connectedWord with
              | Some connected =>
                  let edgeId := Concept.word concept ++ "-" ++ connectedWord in
                  let reverseEdgeId :=
                    connectedWord ++ "-" ++ Concept.word concept in
                  if negb (has edges edgeId) && negb (has edges reverseEdgeId)
                  then
                    JsMap.set edges edgeId
                      (SemanticEdge.mk edgeId (Concept.word concept)
                         connectedWord
                         (calculateConnectionWeight
                            concept (ConceptNode.concept connected))
                         (determineRelationshipType
                            concept (ConceptNode.concept connected)))
                  else edges
              | None => edges
              end)
           (Concept.connections concept) edges)
      concepts [] in
  let clusters := createConceptClusters concepts in
  SemanticGraph.mk nodes edges clusters.

(** [getConceptsByCategory(concepts, category, limit)]; the source gives
    [limit] the default 10. *)
Definition getConceptsByCategory (concepts : list Concept.t)
           (category : ConceptCategory) (limit : number) : list Concept.t :=
  JsArray.slice
    (JsArray.sort (fun a b => Concept.relevance b - Concept.relevance a)
       (filter (fun concept =>
                  ConceptCategory_eqb (Concept.category concept) category)
               concepts))
    (Num 0) limit.

(** [getMostConnectedConcepts(concepts, limit)]: the array it returns
    (the [sort] of the source also reorders the array it is given). *)
Definition getMostConnectedConcepts (concepts : list Concept.t)
           (limit : number) : list Concept.t :=
  JsArray.slice
    (JsArray.sort
       (fun a b =>
          ofNat (List.length (Concept.connections b))
          - ofNat (List.length (Concept.connections a)))
       concepts)
    (Num 0) limit.

(** The extractor as [TextAnalyzer] holds it. *)
Definition instance : ConceptExtractor.t :=
  ConceptExtractor.mk extract buildSemanticGraph.

End ConceptExtractorImpl.

(** ** TextAnalyzer.ts: the scaling resolver *)

Module TextAnalyzer.

Import JsNumber.
Open Scope js_scope.

(** The loop of [determineScalingStrategy]: the first entry whose range
    contains the word count, or the initial [threshold] when none does. *)
Fixpoint findThreshold (wordCount : Z) (entries : list (string * Threshold.t))
         (threshold : Threshold.t) : Threshold.t :=
  match entries with
  | [] => threshold
  | (_, config) :: rest =>
      if ((wordCount >=? Threshold.min config)
          && (wordCount <=? Threshold.max config))%Z%bool
      then config
      else findThreshold wordCount rest threshold
  end.

(** The table [strategyMultipliers] of [calculateBaseNodeCount]. *)
Definition strategyMultipliers (strategy : ScalingType) : Q :=
  match strategy with
  | micro_boost => 3.0
  | micro_enhance => 2.2
  | micro_standard => 1.8
  | small_plus => 1.5
  | small_standard => 1.2
  | small_compress => 1.0
  | medium_standard => 0.95
  | medium_compress => 0.85
  | medium_max => 0.75
  | large_standard => 0.7
  | large_compress => 0.6
  | large_heavy => 0.5
  | massive_standard => 0.45
  | massive_compress => 0.4
  | massive_max => 0.35
  | epic_standard => 0.3
  | epic_maximum => 0.25
  end.

(** [rawNodeCount] of [calculateBaseNodeCount]: the value before the
    clamp. *)
Definition rawNodeCount (wordCount : Z) (complexity : ComplexityAnalysis.t)
           (emotionIntensity : number) (strategy : ScalingType) : real :=
  let baseNodes :=
    JsReal.mul (JsReal.Math_log2 (ofZ (wordCount + 1))) (Num 8%R) in
  let complexityBonus :=
    Num 1 + ComplexityAnalysis.overallComplexity complexity * Num 1.5 in
  let emotionalBonus := Num 0.5 + emotionIntensity * Num 1.5 in
  let strategyMultiplier := or (Num (strategyMultipliers strategy)) (Num 1.0) in
  JsReal.mul
    (JsReal.mul
       (JsReal.mul baseNodes (JsReal.ofNumber complexityBonus))
       (JsReal.ofNumber emotionalBonus))
    (JsReal.ofNumber strategyMultiplier).

Definition calculateBaseNodeCount (wordCount : Z)
           (complexity : ComplexityAnalysis.t) (emotionIntensity : number)
           (strategy : ScalingType) : number :=
  let rawNodeCount :=
    rawNodeCount wordCount complexity emotionIntensity strategy in
  JsReal.floor
    (JsReal.max (Num 8%R) (JsReal.min (Num 700%R) rawNodeCount)).

(** The table [strategyParticleMultipliers] of [calculateParticleCount]. *)
Definition strategyParticleMultipliers (strategy : ScalingType) : Q :=
  match strategy with
  | micro_boost => 1.2
  | micro_enhance => 1.1
  | micro_standard => 1.0
  | small_plus => 1.0
  | small_standard => 1.0
  | small_compress => 0.95
  | medium_standard => 0.9
  | medium_compress => 0.85
  | medium_max => 0.8
  | large_standard => 0.75
  | large_compress => 0.7
  | large_heavy => 0.65
  | massive_standard => 0.6
  | massive_compress => 0.55
  | massive_max => 0.5
  | epic_standard => 0.45
  | epic_maximum => 0.4
  end.

Definition calculateParticleCount (nodeCount : number)
           (strategy : ScalingType) : number :=
  let particlesPerNode :=
    if nodeCount <=? Num 100 then Num 75
    else if nodeCount <=? Num 300 then Num 60
    else if nodeCount <=? Num 500 then Num 50
    else Num 40 in
  let baseParticleCount := nodeCount * particlesPerNode in
  let strategyMultiplier :=
    or (Num (strategyParticleMultipliers strategy)) (Num 1.0) in
  let finalParticleCount := floor (baseParticleCount * strategyMultiplier) in
  min (Num 35000) (max (Num 500) finalParticleCount).

Definition calculateCompressionLevel (originalWordCount : Z)
           (finalNodeCount : number) : number :=
  if (originalWordCount <=? 50)%Z
  then max (Num 0) ((Num 50 - finalNodeCount) / Num 50)
  else
    let idealNodeCount := min (Num 100) (ofZ originalWordCount * Num 0.5) in
    let compressionRatio := Num 1 - finalNodeCount / idealNodeCount in
    max (Num 0) (min (Num 1) compressionRatio).

Definition determineScalingStrategy (wordCount : Z)
           (complexity : ComplexityAnalysis.t)
           (sentiment : SentimentAnalysis.t) : ScalingStrategy.t :=
  let threshold := findThreshold wordCount SCALING_THRESHOLDS MICRO_TINY in
  let baseNodeCount :=
    calculateBaseNodeCount wordCount complexity
      (SentimentAnalysis.intensity sentiment) (Threshold.strategy threshold) in
  let particleCount :=
    calculateParticleCount baseNodeCount (Threshold.strategy threshold) in
  let compressionLevel :=
    calculateCompressionLevel wordCount baseNodeCount in
  ScalingStrategy.mk
    (Threshold.strategy threshold)
    (Num (Threshold.multiplier threshold))
    baseNodeCount
    particleCount
    compressionLevel.

(** *** The cache key *)

(** Conversion of a number to a signed 32-bit integer, as the bit
    operators apply it. *)
Definition toInt32 (z : Z) : Z := ((z + 2 ^ 31) mod 2 ^ 32 - 2 ^ 31)%Z.

(** [hash << 5] *)
Definition shiftLeft5 (hash : Z) : Z := toInt32 (Z.shiftl (toInt32 hash) 5).

(** [charCodeAt] *)
Definition charCode (c : ascii) : Z := Z.of_N (N_of_ascii c).

(** The body of the loop of [hashText]. *)
Definition hashStep (hash : Z) (c : ascii) : Z :=
  let hash := (shiftLeft5 hash - hash + charCode c)%Z in
  Z.land (toInt32 hash) (toInt32 hash).

Fixpoint hashLoop (hash : Z) (text : string) : Z :=
  match text with
  | EmptyString => hash
  | String c rest => hashLoop (hashStep hash c) rest
  end.

Definition digit36 (d : N) : ascii :=
  if (d <? 10)%N then ascii_of_N (48 + d) else ascii_of_N (97 + (d - 10)).

Fixpoint digits36 (fuel : nat) (n : N) (acc : string) : string :=
  match fuel with
  | O => acc
  | S fuel' =>
      let acc := String (digit36 (n mod 36)) acc in
      if (n <? 36)%N then acc else digits36 fuel' (n / 36) acc
  end.

(** [Number.prototype.toString(36)] on an integer. *)
Definition toString36 (z : Z) : string :=
  let n := Z.to_N (Z.abs z) in
  let digits := digits36 (S (N.to_nat (N.log2 n))) n "" in
  if (z <? 0)%Z then String "-" digits else digits.

Definition hashText (text : string) : string :=
  toString36 (hashLoop 0 text).

(** *** The analyzer, its cache and the clock *)

(** The mutable state an [analyze] call works on: the cache of the
    analyzer and the successive readings of [Date.now]. *)
Record State : Type := state {
  analysisCache : JsMap.t AnalysisResult.t;
  clock : nat -> Z
}.

Definition Date_now (s : State) : Z * State :=
  (clock s 0%nat, state (analysisCache s) (fun n => clock s (S n))).

Definition tokenizeText (text : string) : list string :=
  filter JsString.nonEmpty
    (JsString.split JsString.isSpace (JsString.trim text)).

Definition analyzeSentiment (text : string) : SentimentAnalysis.t :=
  let emojiData := SentimentAnalyzer.extractEmojiData text in
  let emojiInfluence := SentimentAnalyzer.calculateEmojiInfluence emojiData in
  SentimentAnalyzer.analyze text emojiInfluence.

Definition analyzeComplexity (text : string) : ComplexityAnalysis.t :=
  ComplexityAnalyzer.analyze text.

(** [cleanupCache]: entries older than ten minutes go; above 100 entries
    only the 50 most recent stay. *)
Definition cleanupCache (s : State) : State :=
  let maxAge := (10 * 60 * 1000)%Z in
  let '(now, s) := Date_now s in
  let cutoffTime := (now - maxAge)%Z in
  let cache :=
    filter (fun '(_, result) =>
              negb (AnalysisResult.timestamp result <? cutoffTime)%Z)
           (analysisCache s) in
  let cache :=
    if (100 <? JsMap.size cache)%nat then
      let entries :=
        JsArray.sort
          (fun a b =>
             ofZ (AnalysisResult.timestamp (snd b)
                  - AnalysisResult.timestamp (snd a)))
          cache in
      fold_left (fun m '(key, value) => JsMap.set m key value)
                (firstn 50 entries) (JsMap.clear cache)
    else cache in
  state cache (clock s).

Section Analyze.

Variable conceptExtractor : ConceptExtractor.t.

Definition extractConcepts (text : string) : list Concept.t :=
  ConceptExtractor.extract conceptExtractor text.

(** [analyze(text, useCache)].  Nothing in the body throws, so the
    [try]/[catch] of the source leaves no trace; logging is dropped. *)
Definition analyze (text : string) (useCache : bool) (s : State)
  : AnalysisResult.t * State :=
  let textHash := hashText text in
  match (if useCache then JsMap.get (analysisCache s) textHash else None) with
  | Some cached => (cached, s)
  | None =>
      let '(startTime, s) := Date_now s in
      let words := tokenizeText text in
      let emojiData := SentimentAnalyzer.extractEmojiData text in
      let sentiment := analyzeSentiment text in
      let concepts := extractConcepts text in
      let complexity := analyzeComplexity text in
      let semanticGraph :=
        ConceptExtractor.buildSemanticGraph conceptExtractor concepts in
      let emojiInfluence :=
        SentimentAnalyzer.calculateEmojiInfluence emojiData in
      let scalingStrategy :=
        determineScalingStrategy (Z.of_nat (List.length words))
                                 complexity sentiment in
      let '(timestamp, s) := Date_now s in
      let result :=
        AnalysisResult.mk words sentiment concepts semanticGraph
                          complexity scalingStrategy emojiData
                          emojiInfluence timestamp in
      let s :=
        if useCache
        then cleanupCache
               (state (JsMap.set (analysisCache s) textHash result)
                      (clock s))
        else s in
      let '(processingTime, s) := Date_now s in
      (result, s)
  end.

End Analyze.

(** [clearCache] *)
Definition clearCache (s : State) : State :=
  state (JsMap.clear (analysisCache s)) (clock s).

(** [Math.min(...values)] and [Math.max(...values)] *)
Definition Math_min (values : list number) : number :=
  fold_left min values PInf.

Definition Math_max (values : list number) : number :=
  fold_left max values NInf.

Record CacheStats : Type := cacheStats {
  size : number;
  oldestEntry : number;
  newestEntry : number
}.

Definition getCacheStats (s : State) : CacheStats :=
  if (JsMap.size (analysisCache s) =? 0)%nat then
    cacheStats (Num 0) (Num 0) (Num 0)
  else
    let timestamps :=
      map (fun '(_, result) => ofZ (AnalysisResult.timestamp result))
          (analysisCache s) in
    cacheStats (ofNat (JsMap.size (analysisCache s)))
               (Math_min timestamps)
               (Math_max timestamps).

End TextAnalyzer.
(** ** The scaling resolver in double precision

    [determineScalingStrategy] and the three functions it calls once more,
    with every product, sum and quotient rounded to the nearest double as
    the engine rounds it ([Binary64]).  The exact [TextAnalyzer] above and
    this module read the same tables; they differ where a rounded product
    falls just below an integer that the exact product reaches.

    [Math.log2] is approximated by the engine in a way the language does
    not fix, so it is a parameter here.  [wordCount + 1] is exact: a word
    count is the length of an array. *)

Module TextAnalyzer64.

Import JsNumber.

Section Resolver.

Variable Math_log2 : number -> number.

Definition calculateBaseNodeCount (wordCount : Z)
           (complexity : ComplexityAnalysis.t) (emotionIntensity : number)
           (strategy : ScalingType) : number :=
  let baseNodes := Binary64.mul (Math_log2 (ofZ (wordCount + 1))) (Num 8) in
  let complexityBonus :=
    Binary64.add (Num 1)
      (Binary64.mul (ComplexityAnalysis.overallComplexity complexity)
                    (Binary64.literal 1.5)) in
  let emotionalBonus :=
    Binary64.add (Binary64.literal 0.5)
      (Binary64.mul emotionIntensity (Binary64.literal 1.5)) in
  let strategyMultiplier :=
    or (Binary64.literal (TextAnalyzer.strategyMultipliers strategy))
       (Binary64.literal 1.0) in
  let rawNodeCount :=
    Binary64.mul
      (Binary64.mul (Binary64.mul baseNodes complexityBonus) emotionalBonus)
      strategyMultiplier in
  floor (max (Num 8) (min (Num 700) rawNodeCount)).

Definition calculateParticleCount (nodeCount : number)
           (strategy : ScalingType) : number :=
  let particlesPerNode :=
    if le nodeCount (Num 100) then Num 75
    else if le nodeCount (Num 300) then Num 60
    else if le nodeCount (Num 500) then Num 50
    else Num 40 in
  let baseParticleCount := Binary64.mul nodeCount particlesPerNode in
  let strategyMultiplier :=
    or (Binary64.literal (TextAnalyzer.strategyParticleMultipliers strategy))
       (Binary64.literal 1.0) in
  let finalParticleCount :=
    floor (Binary64.mul baseParticleCount strategyMultiplier) in
  min (Num 35000) (max (Num 500) finalParticleCount).

Definition calculateCompressionLevel (originalWordCount : Z)
           (finalNodeCount : number) : number :=
  if (originalWordCount <=? 50)%Z
  then max (Num 0)
           (Binary64.div (Binary64.sub (Num 50) finalNodeCount) (Num 50))
  else
    let idealNodeCount :=
      min (Num 100)
          (Binary64.mul (ofZ originalWordCount) (Binary64.literal 0.5)) in
    let compressionRatio :=
      Binary64.sub (Num 1) (Binary64.div finalNodeCount idealNodeCount) in
    max (Num 0) (min (Num 1) compressionRatio).

Definition determineScalingStrategy (wordCount : Z)
           (complexity : ComplexityAnalysis.t)
           (sentiment : SentimentAnalysis.t) : ScalingStrategy.t :=
  let threshold :=
    TextAnalyzer.findThreshold wordCount SCALING_THRESHOLDS MICRO_TINY in
  let baseNodeCount :=
    calculateBaseNodeCount wordCount complexity
      (SentimentAnalysis.intensity sentiment) (Threshold.strategy threshold) in
  let particleCount :=
    calculateParticleCount baseNodeCount (Threshold.strategy threshold) in
  let compressionLevel :=
    calculateCompressionLevel wordCount baseNodeCount in
  ScalingStrategy.mk
    (Threshold.strategy threshold)
    (Binary64.literal (Threshold.multiplier threshold))
    baseNodeCount
    particleCount
    compressionLevel.

End Resolver.

End TextAnalyzer64.

(** ** The node-count formula in double precision

    The formula of the specification evaluated from left to right in the
    arithmetic of the engine, to be compared with what
    [TextAnalyzer64.calculateBaseNodeCount] computes. *)

Module Spec64.

Import JsNumber.

Section Formula.

Variable Math_log2 : number -> number.

Definition clamp (x lo hi : number) : number := max lo (min hi x).

(** [raw = log2(W + 1) * 8 * (1 + 1.5 c) * (0.5 + 1.5 e) * m] *)
Definition raw (W : Z) (c e m : number) : number :=
  Binary64.mul
    (Binary64.mul
       (Binary64.mul
          (Binary64.mul (Math_log2 (ofZ (W + 1))) (Num 8))
          (Binary64.add (Num 1) (Binary64.mul (Binary64.literal 1.5) c)))
       (Binary64.add (Binary64.literal 0.5)
                     (Binary64.mul (Binary64.literal 1.5) e)))
    m.

(** [nodeCount = floor(clamp(raw, 8, 700))] *)
Definition nodeCount (W : Z) (c e m : number) : number :=
  floor (clamp (raw W c e m) (Num 8) (Num 700)).

End Formula.

End Spec64.


(** ** rendering/NodeSystem.ts: the structure generator *)

Inductive NodeType : Type :=
| node_emotion | node_concept | node_synthetic | node_temporal | node_social.

Inductive ConnectionType : Type :=
| conn_semantic | conn_emotional | conn_synthetic | conn_temporal.

(** [THREE.Color], by the hexadecimal value it is built from. *)
Module Color.
Record t : Type := mk { hex : Z }.
End Color.

Module NodeData.
Record t : Type := mk {
  word : string;
  concept : option Concept.t;
  emotion : option Emotion;
  relevance : number;
  layer : number
}.
End NodeData.

Module Node.
Section Node.
(** [THREE.Vector3] *)
Variable Vector3 : Type.

Record t : Type := mk {
  id : string;
  position : Vector3;
  activation : number;
  targetActivation : number;
  color : Color.t;
  size : number;
  type : NodeType;
  connections : list string;
  synthetic : bool;
  lifetime : number;
  importance : number;
  data : NodeData.t
}.

Definition setPosition (n : t) (p : Vector3) : t :=
  mk (id n) p (activation n) (targetActivation n) (color n) (size n)
     (type n) (connections n) (synthetic n) (lifetime n) (importance n)
     (data n).
End Node.
End Node.

Module Connection.
Record t : Type := mk {
  id : string;
  source : string;
  target : string;
  weight : number;
  type : ConnectionType;
  active : bool;
  flow : number;
  color : Color.t
}.
End Connection.

Module NodeDistribution.
Record t : Type := mk {
  primary : number;
  secondary : number;
  tertiary : number;
  environmental : number
}.
End NodeDistribution.

(** The successive results of [Math.random]. *)
Module Random.
Definition t := nat -> Q.

Definition next (r : t) : number * t := (Num (r 0%nat), fun n => r (S n)).
End Random.

Module NodeSystem.

Import JsNumber.
Open Scope string_scope.
Open Scope js_scope.

Section NodeSystem.

(** The scene library: vectors, the origin [new THREE.Vector3(0, 0, 0)],
    and [Vector3.set] applied to the three coordinates of
    [distributeNodes], which are functions of the layer radius, the index
    of the node and the number of nodes (they involve [Math.cos],
    [Math.sin] and [Math.sqrt]). *)
Variable Vector3 : Type.
Variable origin : Vector3.
Variable spiralPoint : number -> nat -> nat -> Vector3.

(** [Number.prototype.toString(36)] on a result of [Math.random]. *)
Variable fractionToString36 : number -> string.

Definition Node := Node.t Vector3.

(** The part of [ScaledVisualization] that the generator computes from the
    analysis: [particles] is always empty, and [scalingInfo] and
    [performanceProfile] only record lengths and timings. *)
Record ScaledVisualization : Type := visualization {
  nodes : list Node;
  connections : list Connection.t
}.

(** [Math.random().toString(36).substr(2, 9)] *)
Definition randomSuffix (r : Random.t) : string * Random.t :=
  let '(x, r) := Random.next r in
  (JsString.substr 2 9 (fractionToString36 x), r).

Definition emotionName (e : Emotion) : string :=
  match e with
  | Joy => "joy"
  | Sadness => "sadness"
  | Anger => "anger"
  | Fear => "fear"
  | Surprise => "surprise"
  | Anticipation => "anticipation"
  end.

Definition getColorForConcept (concept : Concept.t) : Color.t :=
  let categoryColors :=
    match Concept.category concept with
    | cat_emotion => 0xff6b6b
    | cat_time => 0xf39c12
    | cat_people => 0xe74c3c
    | cat_places => 0x27ae60
    | cat_actions => 0x3498db
    | cat_abstract => 0x9b59b6
    | cat_objects => 0x34495e
    end%Z in
  Color.mk (if (categoryColors =? 0)%Z then 0x95a5a6%Z else categoryColors).

Definition getColorForEmotion (e : Emotion) : Color.t :=
  Color.mk
    match e with
    | Joy => 0xf1c40f
    | Sadness => 0x3498db
    | Anger => 0xe74c3c
    | Fear => 0x8e44ad
    | Surprise => 0xe67e22
    | Anticipation => 0x2ecc71
    end%Z.

Definition getSizeForImportance (importance : number) : number :=
  Num 0.5 + importance * Num 1.5.

Definition getLayerForCategory (category : ConceptCategory) : number :=
  let layerMap :=
    match category with
    | cat_emotion => Num 0
    | cat_people => Num 0
    | cat_time => Num 1
    | cat_actions => Num 1
    | cat_places => Num 1
    | cat_abstract => Num 2
    | cat_objects => Num 2
    end in
  or layerMap (Num 1).

Definition getColorForConnectionType (type : RelationshipType) : Color.t :=
  Color.mk
    match type with
    | rel_semantic => 0x4ecdc4
    | rel_emotional => 0xff6b6b
    | rel_temporal => 0xf39c12
    | rel_contextual => 0x95a5a6
    end%Z.

Definition calculateNodeDistribution (totalNodes : number)
  : NodeDistribution.t :=
  NodeDistribution.mk
    (floor (totalNodes * Num 0.3))
    (floor (totalNodes * Num 0.4))
    (floor (totalNodes * Num 0.2))
    (floor (totalNodes * Num 0.1)).

Definition createNodeFromConcept (concept : Concept.t) (nodeType : NodeType)
           (importance : number) (r : Random.t) : Node * Random.t :=
  let '(suffix, r) := randomSuffix r in
  let nodeId := "concept_" ++ Concept.word concept ++ "_" ++ suffix in
  let '(x, r) := Random.next r in
  (Node.mk nodeId origin
           (x * Num 0.5 + Num 0.3)
           (Concept.relevance concept)
           (getColorForConcept concept)
           (getSizeForImportance importance)
           nodeType [] false (Num 0) importance
           (NodeData.mk (Concept.word concept) (Some concept) None
                        (Concept.relevance concept)
                        (getLayerForCategory (Concept.category concept))),
   r).

Definition createEmotionNode (sentiment : SentimentAnalysis.t)
           (importance : number) (r : Random.t) : Node * Random.t :=
  let dominant := SentimentAnalysis.dominant sentiment in
  let name := emotionName (DominantEmotion.emotion dominant) in
  let '(suffix, r) := randomSuffix r in
  let nodeId := "emotion_" ++ name ++ "_" ++ suffix in
  (Node.mk nodeId origin
           (SentimentAnalysis.intensity sentiment)
           (DominantEmotion.score dominant)
           (getColorForEmotion (DominantEmotion.emotion dominant))
           (min (getSizeForImportance importance * Num 1.2) (Num 2.0))
           node_emotion [] false (Num 0) importance
           (NodeData.mk name None (Some (DominantEmotion.emotion dominant))
                        (DominantEmotion.score dominant) (Num 0)),
   r).

(** The decimal digits of a loop index. *)
Definition indexToString (i : nat) : string :=
  DecimalString.NilEmpty.string_of_uint (Nat.to_uint i).

Definition createSyntheticNode (i : nat) (r : Random.t) : Node * Random.t :=
  let '(suffix, r) := randomSuffix r in
  let nodeId := "synthetic_" ++ indexToString i ++ "_" ++ suffix in
  let '(x1, r) := Random.next r in
  let '(x2, r) := Random.next r in
  let '(x3, r) := Random.next r in
  let '(x4, r) := Random.next r in
  (Node.mk nodeId origin
           (x1 * Num 0.3 + Num 0.1)
           (x2 * Num 0.4 + Num 0.1)
           (Color.mk 0x95a5a6)
           (getSizeForImportance (Num 0.3))
           node_synthetic [] true (Num 0)
           (Num 0.2 + x3 * Num 0.3)
           (NodeData.mk ("synthetic_" ++ indexToString i) None None
                        (Num 0.1 + x4 * Num 0.2) (Num 2)),
   r).

(** The loop of [generateSyntheticNodes] from index [i] on, for [trips]
    more iterations. *)
Fixpoint syntheticLoop (trips : nat) (i : nat) (r : Random.t)
  : list Node * Random.t :=
  match trips with
  | O => ([], r)
  | S trips' =>
      let '(node, r) := createSyntheticNode i r in
      let '(rest, r) := syntheticLoop trips' (S i) r in
      (node :: rest, r)
  end.

(** How often a loop [for (i = 0; i < count; i++)] runs: [None] when it
    never ends. *)
Definition loopTrips (count : number) : option nat :=
  match count with
  | NaN | NInf => Some 0%nat
  | PInf => None
  | Num q => Some (Z.to_nat (Qceiling q))
  end.

Definition generateSyntheticNodes (count : number)
           (analysisResult : AnalysisResult.t) (r : Random.t)
  : option (list Node * Random.t) :=
  match loopTrips count with
  | Some trips => Some (syntheticLoop trips 0 r)
  | None => None
  end.

(** [concepts.forEach((concept, index) => nodes.push(...))] with the
    importance taken from [importanceAt index]. *)
Fixpoint pushConceptNodes (importanceAt : nat -> number)
         (concepts : list Concept.t) (index : nat) (r : Random.t)
  : list Node * Random.t :=
  match concepts with
  | [] => ([], r)
  | concept :: rest =>
      let '(node, r) :=
        createNodeFromConcept concept node_concept (importanceAt index) r in
      let '(others, r) := pushConceptNodes importanceAt rest (S index) r in
      (node :: others, r)
  end.

(** [generateNodes]; [None] stands for a call that does not return.  The
    [sort] of the source reorders [analysisResult.concepts] in place, so
    the secondary slice is cut from the sorted array too. *)
Definition generateNodes (analysisResult : AnalysisResult.t) (r : Random.t)
  : option (list Node * Random.t) :=
  let targetNodeCount :=
    ScalingStrategy.nodeCount (AnalysisResult.scalingStrategy analysisResult) in
  let distribution := calculateNodeDistribution targetNodeCount in
  let concepts :=
    JsArray.sort
      (fun a b => Concept.relevance b - Concept.relevance a)
      (AnalysisResult.concepts analysisResult) in
  let primaryConcepts :=
    JsArray.slice concepts (Num 0) (NodeDistribution.primary distribution) in
  let '(nodes, r) :=
    pushConceptNodes
      (fun index =>
         Num 1.0
         - (ofNat index / ofNat (List.length primaryConcepts)) * Num 0.3)
      primaryConcepts 0 r in
  let sentiment := AnalysisResult.sentiment analysisResult in
  let '(nodes, r) :=
    if DominantEmotion.confidence (SentimentAnalysis.dominant sentiment)
       >? Num 0.3
    then let '(node, r) := createEmotionNode sentiment (Num 0.9) r in
         ((nodes ++ [node])%list, r)
    else (nodes, r) in
  let secondaryConcepts :=
    JsArray.slice
      (JsArray.sliceFrom concepts (NodeDistribution.primary distribution))
      (Num 0) (NodeDistribution.secondary distribution) in
  let '(secondary, r) :=
    pushConceptNodes
      (fun index =>
         Num 0.7
         - (ofNat index / ofNat (List.length secondaryConcepts)) * Num 0.2)
      secondaryConcepts 0 r in
  let nodes := (nodes ++ secondary)%list in
  let remainingCount := targetNodeCount - ofNat (List.length nodes) in
  let padded :=
    if remainingCount >? Num 0 then
      match generateSyntheticNodes remainingCount analysisResult r with
      | Some (syntheticNodes, r) => Some ((nodes ++ syntheticNodes)%list, r)
      | None => None
      end
    else Some (nodes, r) in
  match padded with
  | Some (nodes, r) => Some (JsArray.slice nodes (Num 0) targetNodeCount, r)
  | None => None
  end.

Definition generateConnections (analysisResult : AnalysisResult.t)
           (nodes : list Node) : list Connection.t :=
  flat_map
    (fun '(_, edge) =>
       let sourceNode :=
         find (fun n => String.eqb (NodeData.word (Node.data n))
                                   (SemanticEdge.source edge)) nodes in
       let targetNode :=
         find (fun n => String.eqb (NodeData.word (Node.data n))
                                   (SemanticEdge.target edge)) nodes in
       match sourceNode, targetNode with
       | Some sourceNode, Some targetNode =>
           let connectionId :=
             "conn_" ++ Node.id sourceNode ++ "_" ++ Node.id targetNode in
           [ Connection.mk
               connectionId
               (Node.id sourceNode)
               (Node.id targetNode)
               (SemanticEdge.weight edge)
               (match SemanticEdge.relationship edge with
                | rel_semantic => conn_semantic
                | _ => conn_emotional
                end)
               (SemanticEdge.weight edge >? Num 0.3)
               (SemanticEdge.weight edge)
               (getColorForConnectionType (SemanticEdge.relationship edge)) ]
       | _, _ => []
       end)
    (SemanticGraph.edges (AnalysisResult.semanticGraph analysisResult)).

(** [distributeNodes]: every node is moved to its point on the spiral of
    its layer; nothing else of a node changes. *)
Fixpoint distributeFrom (radius : number) (total : nat) (index : nat)
         (nodes : list Node) : list Node :=
  match nodes with
  | [] => []
  | node :: rest =>
      let layer := or (NodeData.layer (Node.data node)) (Num 0) in
      let layerRadius := radius * (Num 0.3 + layer * Num 0.4) in
      Node.setPosition node (spiralPoint layerRadius index total)
      :: distributeFrom radius total (S index) rest
  end.

Definition distributeNodes (nodes : list Node) (targetCount : number)
  : list Node :=
  let radius := max (Num 10) (targetCount / Num 10) in
  distributeFrom radius (List.length nodes) 0 nodes.

(** [generateVisualization]: the node and connection lists it returns.
    The scene objects it creates on the way belong to the renderer. *)
Definition generateVisualization (analysisResult : AnalysisResult.t)
           (r : Random.t) : option (ScaledVisualization * Random.t) :=
  match generateNodes analysisResult r with
  | Some (nodes, r) =>
      let connections := generateConnections analysisResult nodes in
      let nodes :=
        distributeNodes nodes
          (ScalingStrategy.nodeCount
             (AnalysisResult.scalingStrategy analysisResult)) in
      Some (visualization nodes connections, r)
  | None => None
  end.

End NodeSystem.

End NodeSystem.

(** ** Example data

    The analysis result that the tests of [NodeSystem] are run on
    (NodeSystem.test.ts, [mockAnalysisResult]); its timestamp is fixed. *)

Definition mockLove : Concept.t :=
  Concept.mk "love" cat_emotion (Num 0.9) (Num 3) [Num 0; Num 5; Num 10]
             ["romeo"; "juliet"]%string.

Definition mockAnalysisResult : AnalysisResult.t :=
  AnalysisResult.mk
    ["romeo"; "juliet"; "love"; "tragedy"; "death"]%string
    (SentimentAnalysis.mk
       (EmotionScores.mk (Num 0.3) (Num 0.8) (Num 0.2) (Num 0.4) (Num 0.1)
                         (Num 0.6))
       (DominantEmotion.mk Sadness (Num 0.8) (Num 0.85))
       (Num 0.7) (Num (-0.3)) (Num 0.6))
    [ mockLove;
      Concept.mk "romeo" cat_people (Num 0.8) (Num 2) [Num 0; Num 15]
                 ["love"; "juliet"]%string;
      Concept.mk "juliet" cat_people (Num 0.8) (Num 2) [Num 1; Num 20]
                 ["love"; "romeo"]%string ]
    (SemanticGraph.mk
       [ ("love", ConceptNode.mk "love" mockLove (Num 0.9)
                                 ["romeo"; "juliet"]) ]%string
       [ ("love-romeo",
          SemanticEdge.mk "love-romeo" "love" "romeo" (Num 0.7) rel_semantic) ]%string
       [])
    (ComplexityAnalysis.mk (Num 0.6) (Num 0.7) (Num 0.5) (Num 0.8) (Num 0.4))
    (ScalingStrategy.mk small_standard (Num 1.2) (Num 8) (Num 50) (Num 0.1))
    [] (Num 0) 0.

(** A logarithm to instantiate the parameter [Math_log2] of the resolver
    with: the integer part of the base-2 logarithm of a number from 1 on.
    At a power of two it is the exact logarithm, which is what [Math.log2]
    returns there. *)
Definition integerLog2 (a : number) : number :=
  match a with
  | Num q =>
      if Qle_bool 1 q
      then JsNumber.ofZ (Z.min 1024 (Z.log2 (Qfloor q)))
      else NaN
  | PInf => PInf
  | _ => NaN
  end.


(** ** The formulas of the specification

    The node-count formula in the words of the specification, over the
    reals, to be compared with what the exact
    [TextAnalyzer.calculateBaseNodeCount] computes. *)

Module Spec.

Open Scope R_scope.

Definition clamp (x lo hi : R) : R := Rmax lo (Rmin hi x).

(** [raw = log2(W + 1) * 8 * (1 + 1.5 c) * (0.5 + 1.5 e) * m] *)
Definition raw (W : Z) (c e m : R) : R :=
  JsReal.log2 (IZR W + 1) * 8 * (1 + 1.5 * c) * (0.5 + 1.5 * e) * m.

(** [nodeCount = floor(clamp(raw, 8, 700))] *)
Definition nodeCount (W : Z) (c e m : R) : Z :=
  Zfloor (clamp (raw W c e m) 8 700).

End Spec.

(** ** The invariant of the emotion scan

    While [calculateEmotionScores] scans the words, the intensifier is a value
    of the intensifier table (or 1), and every running sum lies between -0.8
    and 1.6 times the number of emotional words seen so far: a contribution
    is at most 0.8 * 2.0, and at least 0.8 * 2.0 * -0.5. *)

Definition scanCount (st : SentimentAnalyzer.Scan) : Q :=
  inject_Z (Z.of_nat (SentimentAnalyzer.totalEmotionalWords st)).

Definition scanInvariant (st : SentimentAnalyzer.Scan) : Prop :=
  JsNumber.within 0.4 2.0 (SentimentAnalyzer.currentIntensifier st)
  /\ forall e,
       JsNumber.within (-0.8 * scanCount st) (1.6 * scanCount st)
         (EmotionScores.get (SentimentAnalyzer.scores st) e).

From Stdlib Require Import Sorted Permutation.

(** ** Predicates on tokens *)

(** Every code unit of [s] passes the test. *)
Fixpoint every (test : ascii -> bool) (s : string) : bool :=
  match s with
  | EmptyString => true
  | String c rest => test c && every test rest
  end.

(** A lower-case letter, a digit or the underscore: [[a-z0-9_]]. *)
Definition isTokenChar (c : ascii) : bool :=
  JsString.inRange 97 122 c || JsString.inRange 48 57 c
  || (JsString.code c =? 95)%N.

(** The keys of the emotion lexicon that hold a code unit no token can
    hold. *)
Definition phraseEntries : list string :=
  filter (fun key => negb (every isTokenChar key))
         (map fst SentimentAnalyzer.emotionLexicon).

(** ** Order of a sorted array *)

(** The elements come by decreasing [key]. *)
Definition descending (A : Type) (key : A -> Q) : list A -> Prop :=
  StronglySorted (fun a b => (key b <= key a)%Q).

(** ** Finite numbers *)

Definition finite (a : number) : Prop :=
  match a with
  | Num _ => True
  | _ => False
  end.

(** The value of a finite number. *)
Definition valueOf (a : number) : Q :=
  match a with
  | Num x => x
  | _ => 0
  end.

(** ** The polynomial behind the cache key *)

(** [h * 31^n + c1 * 31^(n-1) + ... + cn] for the code units [c1 ... cn] of
    the text, without any wrap-around. *)
Fixpoint polynomialHash (h : Z) (text : string) : Z :=
  match text with
  | EmptyString => h
  | String c rest =>
      polynomialHash (31 * h + TextAnalyzer.charCode c) rest
  end.
(** ** Reading a key back *)

(** The value of a base-36 digit, [0-9a-z]. *)
Definition digitValue (c : ascii) : N :=
  let code := N_of_ascii c in
  if (code <? 58)%N then (code - 48)%N else (code - 87)%N.

Fixpoint parseDigits (s : string) (acc : N) : N :=
  match s with
  | EmptyString => acc
  | String c rest => parseDigits rest (acc * 36 + digitValue c)%N
  end.

(** The integer a string of base-36 digits with an optional sign stands
    for, as [parseInt(s, 36)] reads it. *)
Definition parse36 (s : string) : Z :=
  match s with
  | String "-" digits => (- Z.of_N (parseDigits digits 0))%Z
  | _ => Z.of_N (parseDigits s 0)
  end.


(** ** The three kinds of generated nodes *)

(** The importance [generateNodes] gives the primary concept of index
    [index] among [count]: [1.0 - (index / count) * 0.3]. *)
Definition primaryImportance (count index : nat) : number :=
  JsNumber.sub (Num 1.0)
    (JsNumber.mul (JsNumber.div (JsNumber.ofNat index) (JsNumber.ofNat count))
                  (Num 0.3)).

(** The same for a secondary concept: [0.7 - (index / count) * 0.2]. *)
Definition secondaryImportance (count index : nat) : number :=
  JsNumber.sub (Num 0.7)
    (JsNumber.mul (JsNumber.div (JsNumber.ofNat index) (JsNumber.ofNat count))
                  (Num 0.2)).

Section NodeKinds.

Variable Vector3 : Type.

(** The attributes [createNodeFromConcept] gives the node of a concept. *)
Definition conceptNodeOf (concept : Concept.t) (node : Node.t Vector3)
  : Prop :=
  Node.type node = node_concept
  /\ Node.synthetic node = false
  /\ NodeData.concept (Node.data node) = Some concept
  /\ NodeData.emotion (Node.data node) = None
  /\ NodeData.word (Node.data node) = Concept.word concept
  /\ Node.targetActivation node = Concept.relevance concept
  /\ NodeData.layer (Node.data node)
     = NodeSystem.getLayerForCategory (Concept.category concept)
  /\ Node.color node = NodeSystem.getColorForConcept concept
  /\ Node.size node = NodeSystem.getSizeForImportance (Node.importance node).

(** The nodes that [forEach] pushes for [concepts], the first with the
    importance of index [index]. *)
Fixpoint conceptNodes (importanceAt : nat -> number) (index : nat)
         (concepts : list Concept.t) (nodes : list (Node.t Vector3)) : Prop :=
  match concepts, nodes with
  | [], [] => True
  | concept :: concepts', node :: nodes' =>
      conceptNodeOf concept node
      /\ Node.importance node = importanceAt index
      /\ conceptNodes importanceAt (S index) concepts' nodes'
  | _, _ => False
  end.

(** The attributes [createEmotionNode] gives the node of the dominant
    emotion. *)
Definition emotionNodeOf (sentiment : SentimentAnalysis.t)
           (node : Node.t Vector3) : Prop :=
  let dominant := SentimentAnalysis.dominant sentiment in
  Node.type node = node_emotion
  /\ Node.synthetic node = false
  /\ NodeData.concept (Node.data node) = None
  /\ NodeData.emotion (Node.data node)
     = Some (DominantEmotion.emotion dominant)
  /\ Node.activation node = SentimentAnalysis.intensity sentiment
  /\ Node.targetActivation node = DominantEmotion.score dominant
  /\ NodeData.layer (Node.data node) = Num 0
  /\ Node.color node
     = NodeSystem.getColorForEmotion (DominantEmotion.emotion dominant)
  /\ Node.importance node = Num 0.9
  /\ Node.size node
     = JsNumber.min
         (JsNumber.mul (NodeSystem.getSizeForImportance (Num 0.9)) (Num 1.2))
         (Num 2.0).

(** The attributes of a node of [generateSyntheticNodes] that do not
    depend on [Math.random]. *)
Definition syntheticNode (node : Node.t Vector3) : Prop :=
  Node.type node = node_synthetic
  /\ Node.synthetic node = true
  /\ NodeData.concept (Node.data node) = None
  /\ NodeData.emotion (Node.data node) = None
  /\ NodeData.layer (Node.data node) = Num 2
  /\ Node.color node = Color.mk 0x95a5a6
  /\ Node.size node = NodeSystem.getSizeForImportance (Num 0.3).

End NodeKinds.
(** ** Attributes drawn from [Math.random] *)

(** Every reading of the random source is in [[0, 1)], as [Math.random]
    promises. *)
Definition unitRandom (r : Random.t) : Prop :=
  forall i : nat, (0 <= r i < 1)%Q.

Section NodeRanges.

Variable Vector3 : Type.

(** The ranges of the drawn attributes: the activation of a concept node,
    and the activation, target activation, importance and relevance of a
    synthetic node. *)
Definition drawnRanges (node : Node.t Vector3) : Prop :=
  (Node.type node = node_concept ->
   JsNumber.within 0.3 0.8 (Node.activation node))
  /\ (Node.type node = node_synthetic ->
      JsNumber.within 0.1 0.4 (Node.activation node)
      /\ JsNumber.within 0.1 0.5 (Node.targetActivation node)
      /\ JsNumber.within 0.2 0.5 (Node.importance node)
      /\ JsNumber.within 0.1 0.3 (NodeData.relevance (Node.data node))).

End NodeRanges.


(** ** Statements about the concept extractor *)

(** How often [word] occurs in [words]. *)
Definition occurrences (word : string) (words : list string) : nat :=
  count_occ string_dec words word.

(** The map [wordCounts] holds the counts that [count] gives: a word with
    count 0 is absent, every other word is mapped to its count. *)
Definition countsAre (count : string -> nat) (wordCounts : JsMap.t number)
  : Prop :=
  forall word,
    match JsMap.get wordCounts word with
    | Some frequency =>
        JsNumber.within (inject_Z (Z.of_nat (count word)))
                        (inject_Z (Z.of_nat (count word))) frequency
        /\ (1 <= count word)%nat
    | None => count word = 0%nat
    end.

(** The body of the second loop of [extract]: the concept made of an entry
    of [wordCounts], and the test it passes to be kept. *)
Definition conceptOf (text : string) (words : list string)
           (wordCounts : JsMap.t number) (wordPositions : JsMap.t (list number))
           (entry : string * number) : Concept.t :=
  let '(word, frequency) := entry in
  Concept.mk word
    (ConceptExtractorImpl.classifyWord word)
    (ConceptExtractorImpl.calculateRelevance
       word frequency (JsNumber.ofNat (List.length words)) text)
    frequency
    match JsMap.get wordPositions word with
    | Some positions => positions
    | None => []
    end
    (ConceptExtractorImpl.findConnectedWords word words wordCounts).

Definition isRelevant (text : string) (words : list string)
           (entry : string * number) : bool :=
  let '(word, frequency) := entry in
  JsNumber.gt
    (ConceptExtractorImpl.calculateRelevance
       word frequency (JsNumber.ofNat (List.length words)) text)
    (Num 0.1).

(** A concept as [extract] returns them: a relevance between 0.1 and 1 and
    a frequency of at least 1. *)
Definition scored (concept : Concept.t) : Prop :=
  JsNumber.within 0.1 1 (Concept.relevance concept)
  /\ match Concept.frequency concept with
     | Num frequency => (1 <= frequency)%Q
     | _ => False
     end.

(** A concept whose values are in the ranges [extract] works in: a
    relevance between 0 and 1, and a frequency that counts elements of an
    array, hence below 2^32.  With such values no square or sum of
    [calculateVariance] leaves the range of the finite doubles. *)
Definition bounded (concept : Concept.t) : Prop :=
  JsNumber.within 0 1 (Concept.relevance concept)
  /\ JsNumber.within 0 4294967295 (Concept.frequency concept).

(** An entry of the edge map of [buildSemanticGraph]: it is stored under
    its id [source-target], runs from the word of a concept to one of the
    connections of that concept that has a node, and takes its weight and
    relationship from the two concepts. *)
Definition graphEdge (concepts : list Concept.t)
           (nodes : JsMap.t ConceptNode.t)
           (entry : string * SemanticEdge.t) : Prop :=
  let '(key, edge) := entry in
  SemanticEdge.id edge = key
  /\ key = (SemanticEdge.source edge ++ "-" ++ SemanticEdge.target edge)%string
  /\ exists concept connected,
       In concept concepts
       /\ Concept.word concept = SemanticEdge.source edge
       /\ In (SemanticEdge.target edge) (Concept.connections concept)
       /\ JsMap.get nodes (SemanticEdge.target edge) = Some connected
       /\ SemanticEdge.weight edge
          = ConceptExtractorImpl.calculateConnectionWeight
              concept (ConceptNode.concept connected)
       /\ SemanticEdge.relationship edge
          = ConceptExtractorImpl.determineRelationshipType
              concept (ConceptNode.concept connected).

(** The concepts of a category, in the order of the list. *)
Definition membersOf (category : ConceptCategory) (concepts : list Concept.t)
  : list Concept.t :=
  filter (fun concept =>
            ConceptExtractorImpl.ConceptCategory_eqb
              (Concept.category concept) category)
         concepts.

(** [groups] is the map [conceptsByCategory] after the concepts of
    [processed] have been entered: one entry for each category that occurs,
    holding the concepts of that category. *)
Definition grouped (processed : list Concept.t)
           (groups : list (ConceptCategory * list Concept.t)) : Prop :=
  NoDup (map fst groups)
  /\ (forall category members,
         In (category, members) groups ->
         members = membersOf category processed /\ members <> [])
  /\ (forall concept,
         In concept processed -> In (Concept.category concept) (map fst groups)).

(** * Properties *)

Unset Implicit Arguments.

(** ** Numbers *)

Section NumberFacts.

Import JsNumber.

Lemma Qltb_lt (x y : Q) : Qltb x y = true <-> (x < y)%Q.
Proof.
  unfold Qltb. rewrite Qlt_alt. destruct (x ?= y)%Q; intuition congruence.
Qed.

Lemma Qltb_ge (x y : Q) : Qltb x y = false <-> (y <= x)%Q.
Proof.
  unfold Qltb. rewrite Qle_alt, <- (Qcompare_antisym x y).
  destruct (x ?= y)%Q; simpl; split; intro H;
    try reflexivity; try discriminate; exfalso; apply H; reflexivity.
Qed.

(** A clamp written as [Math.min(hi, Math.max(lo, x))] lands in [[lo, hi]]. *)
Lemma min_max_within (lo hi x : Q) :
  (lo <= hi)%Q -> within lo hi (min (Num hi) (max (Num lo) (Num x))).
Proof.
  intros Hlh. unfold max, lt.
  destruct (Qltb lo x) eqn:E1; unfold min, lt.
  - apply Qltb_lt in E1.
    destruct (Qltb x hi) eqn:E2; unfold within.
    + apply Qltb_lt in E2. Lqa.lra.
    + apply Qltb_ge in E2. Lqa.lra.
  - apply Qltb_ge in E1.
    destruct (Qltb lo hi) eqn:E2; unfold within.
    + Lqa.lra.
    + apply Qltb_ge in E2. Lqa.lra.
Qed.

Lemma Q2R_inject_Z (z : Z) : Q2R (inject_Z z) = IZR z.
Proof. unfold Q2R, inject_Z. simpl. lra. Qed.

Lemma inject_Z_pos_compare (z : Z) : (0 < z)%Z -> (inject_Z z ?= 0)%Q = Gt.
Proof.
  intros H. apply Qgt_alt. replace 0%Q with (inject_Z 0) by reflexivity.
  rewrite <- Zlt_Qlt. exact H.
Qed.

End NumberFacts.

(** A decimal literal of [Q] read as a real. *)
Ltac Q2R_literal q r :=
  replace (Q2R q) with r by (unfold Q2R; simpl; lra).

(** ** The scaling resolver *)

Section ScalingFacts.

Import JsNumber TextAnalyzer.

Lemma strategyMultipliers_truthy (s : ScalingType) :
  or (Num (strategyMultipliers s)) (Num 1.0) = Num (strategyMultipliers s).
Proof. destruct s; reflexivity. Qed.

Lemma strategyParticleMultipliers_truthy (s : ScalingType) :
  or (Num (strategyParticleMultipliers s)) (Num 1.0)
  = Num (strategyParticleMultipliers s).
Proof. destruct s; reflexivity. Qed.

Lemma strategyMultipliers_pos (s : ScalingType) :
  (0 < Q2R (strategyMultipliers s))%R.
Proof. destruct s; unfold Q2R; simpl; lra. Qed.

(** The loop returns the default or an entry of the table. *)
Lemma findThreshold_In (W : Z) (entries : list (string * Threshold.t))
      (d : Threshold.t) :
  findThreshold W entries d = d
  \/ In (findThreshold W entries d) (map snd entries).
Proof.
  induction entries as [|[k config] rest IH]; simpl.
  - left; reflexivity.
  - destruct ((W >=? Threshold.min config) && (W <=? Threshold.max config))%Z%bool.
    + right; left; reflexivity.
    + destruct IH as [IH|IH]; [left|right; right]; assumption.
Qed.

(** What the loop returns contains the word count, unless it is the default. *)
Lemma findThreshold_range (W : Z) (entries : list (string * Threshold.t))
      (d : Threshold.t) :
  let t := findThreshold W entries d in
  (Threshold.min t <= W <= Threshold.max t)%Z
  \/ (t = d /\ forall k c, In (k, c) entries ->
                 ~ (Threshold.min c <= W <= Threshold.max c)%Z).
Proof.
  induction entries as [|[k config] rest IH]; simpl.
  - right; split; [reflexivity | intros ? ? []].
  - destruct ((W >=? Threshold.min config) && (W <=? Threshold.max config))%Z%bool
      eqn:E.
    + left. apply andb_true_iff in E. lia.
    + destruct IH as [IH|[IH1 IH2]]; [left; assumption|].
      right; split; [assumption|].
      intros k' c' [Heq|Hin].
      * inversion Heq; subst. apply andb_false_iff in E. lia.
      * eapply IH2; eassumption.
Qed.

(** The two copies of the multiplier (tier table and formula table)
    agree on every tier. *)
Lemma multiplier_tables_agree (t : Threshold.t) :
  In t (map snd SCALING_THRESHOLDS) ->
  strategyMultipliers (Threshold.strategy t) = Threshold.multiplier t.
Proof.
  simpl. intros H.
  repeat (destruct H as [H|H]; [subst t; reflexivity|]).
  destruct H.
Qed.

Lemma selected_multiplier (W : Z) :
  let t := findThreshold W SCALING_THRESHOLDS MICRO_TINY in
  strategyMultipliers (Threshold.strategy t) = Threshold.multiplier t.
Proof.
  intros t. apply multiplier_tables_agree.
  destruct (findThreshold_In W SCALING_THRESHOLDS MICRO_TINY) as [H|H].
  - unfold t. rewrite H. simpl. left; reflexivity.
  - exact H.
Qed.

(** On finite inputs the raw node count is the formula of the
    specification. *)
Lemma rawNodeCount_finite (W : Z) (complexity : ComplexityAnalysis.t)
      (c e : Q) (s : ScalingType) :
  (0 <= W)%Z ->
  ComplexityAnalysis.overallComplexity complexity = Num c ->
  rawNodeCount W complexity (Num e) s
  = Num (Spec.raw W (Q2R c) (Q2R e) (Q2R (strategyMultipliers s))).
Proof.
  intros HW Hc. unfold rawNodeCount. rewrite Hc, strategyMultipliers_truthy.
  unfold JsReal.Math_log2, ofZ.
  rewrite inject_Z_pos_compare by lia.
  simpl. f_equal. unfold Spec.raw.
  rewrite !Q2R_plus, !Q2R_mult, Q2R_inject_Z, plus_IZR.
  Q2R_literal 1%Q 1%R. Q2R_literal 1.5%Q 1.5%R. Q2R_literal 0.5%Q 0.5%R.
  ring.
Qed.

Lemma calculateBaseNodeCount_finite (W : Z) (complexity : ComplexityAnalysis.t)
      (c e : Q) (s : ScalingType) :
  (0 <= W)%Z ->
  ComplexityAnalysis.overallComplexity complexity = Num c ->
  calculateBaseNodeCount W complexity (Num e) s
  = ofZ (Spec.nodeCount W (Q2R c) (Q2R e) (Q2R (strategyMultipliers s))).
Proof.
  intros HW Hc. unfold calculateBaseNodeCount.
  rewrite (rawNodeCount_finite W complexity c e s HW Hc). reflexivity.
Qed.

Lemma clamp_bounds (x : R) : (8 <= Spec.clamp x 8 700 <= 700)%R.
Proof.
  unfold Spec.clamp, Rmax, Rmin.
  destruct (Rle_dec 700 x); destruct (Rle_dec 8 _); lra.
Qed.

Lemma Spec_nodeCount_bounds (W : Z) (c e m : R) :
  (8 <= Spec.nodeCount W c e m <= 700)%Z.
Proof.
  unfold Spec.nodeCount.
  pose proof (clamp_bounds (Spec.raw W c e m)) as [Hlo Hhi].
  split.
  - apply Zfloor_lub. exact Hlo.
  - apply le_IZR.
    pose proof (Zfloor_bound (Spec.clamp (Spec.raw W c e m) 8 700)). lra.
Qed.

Lemma within_ofZ (lo hi z : Z) :
  (lo <= z <= hi)%Z -> within (inject_Z lo) (inject_Z hi) (ofZ z).
Proof.
  intros [H1 H2]. unfold within, ofZ. rewrite <- !Zle_Qle. lia.
Qed.

(** The particle budget of a finite node count is clamped. *)
Lemma calculateParticleCount_within (n : Q) (s : ScalingType) :
  within 500 35000 (calculateParticleCount (Num n) s).
Proof.
  unfold calculateParticleCount.
  rewrite strategyParticleMultipliers_truthy.
  destruct (le (Num n) (Num 100));
    [|destruct (le (Num n) (Num 300)); [|destruct (le (Num n) (Num 500))]];
    simpl floor; apply min_max_within; Lqa.lra.
Qed.

End ScalingFacts.

Section ScalingProperties.

Import JsNumber TextAnalyzer.

(** Beyond every range of the table the loop leaves the initial tier. *)
Lemma findThreshold_none (W : Z) (entries : list (string * Threshold.t))
      (d : Threshold.t) :
  (forall k c, In (k, c) entries -> (Threshold.max c < W)%Z) ->
  findThreshold W entries d = d.
Proof.
  induction entries as [|[k config] rest IH]; simpl; intros H.
  - reflexivity.
  - assert (Threshold.max config < W)%Z as Hlt by (apply (H k); left; reflexivity).
    replace (W <=? Threshold.max config)%Z with false
      by (symmetry; apply Z.leb_gt; exact Hlt).
    rewrite andb_false_r. apply IH. intros k' c' Hin. apply (H k'). right; exact Hin.
Qed.

Lemma table_top_bound (k : string) (c : Threshold.t) :
  In (k, c) SCALING_THRESHOLDS -> (Threshold.max c <= 12500)%Z.
Proof.
  simpl. intros H.
  repeat (destruct H as [H|H]; [inversion H; subst; simpl; lia|]).
  destruct H.
Qed.

(** At 12,501 words the selected tier is not [epic_maximum]. *)
Lemma beyond_top_bound_not_epic_maximum :
  ScalingStrategy.type
    (determineScalingStrategy 12501
       (ComplexityAnalysis.mk (Num 0.5) (Num 0.5) (Num 0.5) (Num 0.5) (Num 0.5))
       (SentimentAnalysis.mk
          (EmotionScores.mk (Num 0) (Num 0) (Num 0) (Num 0) (Num 0) (Num 0))
          (DominantEmotion.mk Joy (Num 0) (Num 0)) (Num 0) (Num 0) (Num 0)))
  <> epic_maximum.
Proof.
  unfold determineScalingStrategy. cbn [ScalingStrategy.type].
  vm_compute. discriminate.
Qed.

(** C5, what the code does. For every word count above 12,500 no range of
    the tier table matches, and the resolver still runs, but with the
    initial tier [MICRO_TINY] that the loop leaves untouched: strategy
    [micro_boost], multiplier 3.0, the highest of the table and not the
    0.25 of [epic_maximum]. *)
Theorem beyond_top_bound_falls_back
        (W : Z) (complexity : ComplexityAnalysis.t)
        (sentiment : SentimentAnalysis.t) :
  (12500 < W)%Z ->
  let strategy := determineScalingStrategy W complexity sentiment in
  findThreshold W SCALING_THRESHOLDS MICRO_TINY = MICRO_TINY
  /\ ScalingStrategy.type strategy = micro_boost
  /\ ScalingStrategy.multiplier strategy = Num 3.0
  /\ ScalingStrategy.nodeCount strategy
     = calculateBaseNodeCount W complexity
         (SentimentAnalysis.intensity sentiment) micro_boost.
Proof.
  intros HW strategy.
  assert (Ht : findThreshold W SCALING_THRESHOLDS MICRO_TINY = MICRO_TINY).
  { apply findThreshold_none. intros k c Hin.
    pose proof (table_top_bound _ _ Hin). lia. }
  unfold strategy, determineScalingStrategy.
  cbn [ScalingStrategy.type ScalingStrategy.multiplier ScalingStrategy.nodeCount].
  rewrite Ht. repeat split; reflexivity.
Qed.

Lemma beyond_top_bound_falls_back_witness :
  let complexity :=
    ComplexityAnalysis.mk (Num 0.5) (Num 0.5) (Num 0.5) (Num 0.5) (Num 0.5) in
  let sentiment :=
    SentimentAnalysis.mk
      (EmotionScores.mk (Num 0) (Num 0) (Num 0) (Num 0) (Num 0) (Num 0))
      (DominantEmotion.mk Joy (Num 0) (Num 0)) (Num 0) (Num 0) (Num 0) in
  let strategy := determineScalingStrategy 12501 complexity sentiment in
  findThreshold 12501 SCALING_THRESHOLDS MICRO_TINY = MICRO_TINY
  /\ ScalingStrategy.type strategy = micro_boost
  /\ ScalingStrategy.multiplier strategy = Num 3.0
  /\ ScalingStrategy.nodeCount strategy
     = calculateBaseNodeCount 12501 complexity
         (SentimentAnalysis.intensity sentiment) micro_boost.
Proof.
  intros complexity sentiment.
  apply (beyond_top_bound_falls_back 12501 complexity sentiment). lia.
Defined.

(** A word count inside the range of a tier of the table selects that
    tier: the ranges do not overlap. *)
Lemma findThreshold_selects (t : Threshold.t) (W : Z) :
  In t (map snd SCALING_THRESHOLDS) ->
  (Threshold.min t <= W <= Threshold.max t)%Z ->
  findThreshold W SCALING_THRESHOLDS MICRO_TINY = t.
Proof.
  simpl. intros H HW.
  repeat (destruct H as [H|H];
          [ subst t; simpl in HW; simpl; rewrite ?Z.geb_leb;
            repeat match goal with
                   | |- context [(?a <=? ?b)%Z] =>
                       destruct (Z.leb_spec a b); try lia; simpl
                   end;
            reflexivity |]).
  destruct H.
Qed.

Lemma log2_monotone (x y : R) :
  (1 <= x)%R -> (x <= y)%R -> (JsReal.log2 x <= JsReal.log2 y)%R.
Proof.
  intros Hx Hxy. unfold JsReal.log2.
  assert (0 < ln 2)%R as H2.
  { rewrite <- ln_1. apply ln_increasing; lra. }
  apply Rmult_le_compat_r.
  - left. apply Rinv_0_lt_compat. exact H2.
  - destruct Hxy as [Hlt|Heq].
    + left. apply ln_increasing; lra.
    + subst. right; reflexivity.
Qed.

Lemma Spec_raw_monotone (W1 W2 : Z) (c e m : R) :
  (0 <= W1)%Z -> (W1 <= W2)%Z ->
  (0 <= c)%R -> (0 <= e)%R -> (0 <= m)%R ->
  (Spec.raw W1 c e m <= Spec.raw W2 c e m)%R.
Proof.
  intros H0 H12 Hc He Hm. unfold Spec.raw.
  assert (JsReal.log2 (IZR W1 + 1) <= JsReal.log2 (IZR W2 + 1))%R as Hlog.
  { apply log2_monotone.
    - apply IZR_le in H0. lra.
    - apply IZR_le in H12. lra. }
  do 4 (apply Rmult_le_compat_r; [lra|]). exact Hlog.
Qed.

(** C7. For a fixed overall complexity and emotion intensity in [[0,1]] and
    a tier of the table, two word counts [W1 <= W2] inside the range of
    that tier select this same tier, and the raw (pre-clamp) node count at
    [W1] is at most the one at [W2]. *)
Theorem rawNodeCount_monotone_within_tier
        (t : Threshold.t) (complexity : ComplexityAnalysis.t)
        (c e : Q) (W1 W2 : Z) :
  In t (map snd SCALING_THRESHOLDS) ->
  ComplexityAnalysis.overallComplexity complexity = Num c ->
  (0 <= c <= 1)%Q ->
  (0 <= e <= 1)%Q ->
  (Threshold.min t <= W1)%Z -> (W1 <= W2)%Z -> (W2 <= Threshold.max t)%Z ->
  let tier W := findThreshold W SCALING_THRESHOLDS MICRO_TINY in
  let raw W :=
    rawNodeCount W complexity (Num e) (Threshold.strategy (tier W)) in
  tier W1 = t /\ tier W2 = t /\ JsReal.le (raw W1) (raw W2).
Proof.
  intros Ht Hc Hcr Her Hmin H12 Hmax tier raw.
  assert (tier W1 = t) as E1 by (apply findThreshold_selects; [exact Ht | lia]).
  assert (tier W2 = t) as E2 by (apply findThreshold_selects; [exact Ht | lia]).
  split; [exact E1|]. split; [exact E2|].
  assert (1 <= Threshold.min t)%Z as Hpos.
  { clear - Ht. simpl in Ht.
    repeat (destruct Ht as [Ht|Ht]; [subst t; simpl; lia|]). destruct Ht. }
  unfold raw. rewrite E1, E2.
  rewrite !(rawNodeCount_finite _ complexity c e) by (assumption || lia).
  simpl. apply Spec_raw_monotone; try lia.
  - replace 0%R with (Q2R 0) by (unfold Q2R; simpl; lra).
    apply Qle_Rle. exact (proj1 Hcr).
  - replace 0%R with (Q2R 0) by (unfold Q2R; simpl; lra).
    apply Qle_Rle. exact (proj1 Her).
  - left. apply strategyMultipliers_pos.
Qed.

Lemma rawNodeCount_monotone_within_tier_witness :
  let complexity :=
    ComplexityAnalysis.mk (Num 0.5) (Num 0.5) (Num 0.5) (Num 0.5) (Num 0.5) in
  let tier W := findThreshold W SCALING_THRESHOLDS MICRO_TINY in
  let raw W :=
    rawNodeCount W complexity (Num 0.25) (Threshold.strategy (tier W)) in
  tier 2001%Z = MASSIVE_LIGHT /\ tier 3500%Z = MASSIVE_LIGHT
  /\ JsReal.le (raw 2001%Z) (raw 3500%Z).
Proof.
  intros complexity.
  apply (rawNodeCount_monotone_within_tier
           MASSIVE_LIGHT complexity 0.5 0.25 2001 3500).
  - simpl. tauto.
  - reflexivity.
  - Lqa.lra.
  - Lqa.lra.
  - simpl. lia.
  - lia.
  - simpl. lia.
Defined.

End ScalingProperties.

(** ** Bounds of the emotion scores *)

Section SentimentBounds.

Import JsNumber SentimentAnalyzer.
Open Scope Q_scope.

Lemma JsMap_get_In (V : Type) (m : JsMap.t V) (k : string) (v : V) :
  JsMap.get m k = Some v -> In v (map snd m).
Proof.
  induction m as [|[k' v'] rest IH]; simpl.
  - discriminate.
  - destruct (String.eqb k k').
    + intros [= ->]. left; reflexivity.
    + intros H. right. apply IH. exact H.
Qed.

Lemma withinb_within (lo hi : Q) (a : number) :
  JsNumber.withinb lo hi a = true -> within lo hi a.
Proof.
  destruct a; simpl; try discriminate.
  rewrite andb_true_iff, !Qle_bool_iff. tauto.
Qed.

(** Every intensity of the lexicon lies between 0.6 and 0.8. *)
Lemma emotionLexicon_intensity (word : string) (d : LexiconEntry) :
  JsMap.get emotionLexicon word = Some d -> within 0.6 0.8 (intensity d).
Proof.
  intros H. apply JsMap_get_In in H.
  assert (forallb (fun d => JsNumber.withinb 0.6 0.8 (intensity d))
                  (map snd emotionLexicon) = true) as Hall
      by (vm_compute; reflexivity).
  rewrite forallb_forall in Hall. apply withinb_within, Hall, H.
Qed.

(** Every intensifier lies between 0.4 and 2.0, and is truthy. *)
Lemma intensifierWords_multiplier (word : string) (m : number) :
  JsMap.get intensifierWords word = Some m ->
  within 0.4 2.0 m /\ or m (Num 1.0) = m.
Proof.
  intros H. apply JsMap_get_In in H.
  assert (forallb (fun m => JsNumber.withinb 0.4 2.0 m && truthy m)
                  (map snd intensifierWords) = true) as Hall
      by (vm_compute; reflexivity).
  rewrite forallb_forall in Hall. specialize (Hall m H).
  apply andb_true_iff in Hall. destruct Hall as [Hw Ht].
  split; [apply withinb_within; exact Hw|].
  unfold or. rewrite Ht. reflexivity.
Qed.

Lemma get_set (s : EmotionScores.t) (e e' : Emotion) (v : number) :
  EmotionScores.get (EmotionScores.set s e v) e'
  = if Emotion_eqb e e' then v else EmotionScores.get s e'.
Proof. destruct e, e'; reflexivity. Qed.

Lemma scanCount_S (sc : EmotionScores.t) (n : nat) (b : bool) (c : number) :
  scanCount (scan sc (S n) b c) == scanCount (scan sc n b c) + 1.
Proof.
  unfold scanCount. cbn [totalEmotionalWords].
  rewrite Nat2Z.inj_succ. unfold Z.succ. rewrite inject_Z_plus. reflexivity.
Qed.

Lemma scanCount_nonneg (st : Scan) : 0 <= scanCount st.
Proof.
  unfold scanCount. replace 0 with (inject_Z 0) by reflexivity.
  rewrite <- Zle_Qle. lia.
Qed.

Lemma step_invariant (st : Scan) (word : string) :
  scanInvariant st -> scanInvariant (step st word).
Proof.
  intros [Hc Hs]. unfold step.
  destruct (JsArray.includes negationWords word).
  { split; assumption. }
  destruct (JsMap.get intensifierWords word) as [m|] eqn:Em.
  { destruct (intensifierWords_multiplier word m Em) as [Hm ->].
    split; assumption. }
  destruct (JsMap.get emotionLexicon word) as [d|] eqn:Ed.
  2:{ split; [simpl; Lqa.lra | exact Hs]. }
  pose proof (emotionLexicon_intensity word d Ed) as Hi.
  destruct (intensity d) as [| | |i]; try contradiction.
  destruct (currentIntensifier st) as [| | |c]; try contradiction.
  simpl in Hi, Hc.
  split; [simpl; Lqa.lra|].
  intros e. cbn [scores]. rewrite get_set.
  pose proof (scanCount_nonneg st) as Hn.
  pose proof (scanCount_S (scores st) (totalEmotionalWords st) false (Num 1.0)) as HS.
  specialize (Hs e).
  assert (0.24 <= i * c <= 1.6) as Hic by Lqa.nra.
  destruct (Emotion_eqb (emotion d) e) eqn:Esame.
  - assert (EmotionScores.get (scores st) (emotion d)
            = EmotionScores.get (scores st) e) as ->
        by (destruct (emotion d), e; try discriminate; reflexivity).
    destruct (EmotionScores.get (scores st) e) as [| | |x]; try contradiction.
    simpl in Hs.
    destruct (negationActive st); simpl; unfold scanCount in *;
      cbn [totalEmotionalWords] in *; rewrite HS; Lqa.nra.
  - destruct (EmotionScores.get (scores st) e) as [| | |x]; try contradiction.
    simpl in Hs. simpl. unfold scanCount in *.
    cbn [totalEmotionalWords] in *. rewrite HS. Lqa.lra.
Qed.

Lemma scan_invariant (words : list string) (st : Scan) :
  scanInvariant st -> scanInvariant (fold_left step words st).
Proof.
  revert st. induction words as [|w rest IH]; intros st H; simpl.
  - exact H.
  - apply IH, step_invariant, H.
Qed.

Lemma initialScan_invariant : scanInvariant initialScan.
Proof.
  split; [simpl; Lqa.lra|].
  intros e. destruct e; vm_compute; split; discriminate.
Qed.

Lemma normalize_get (st : Scan) (e : Emotion) :
  EmotionScores.get (normalize st) e
  = if (0 <? totalEmotionalWords st)%nat
    then max (Num 0)
             (div (EmotionScores.get (scores st) e)
                  (ofNat (totalEmotionalWords st)))
    else EmotionScores.get (scores st) e.
Proof.
  unfold normalize. destruct (0 <? totalEmotionalWords st)%nat.
  - destruct e; reflexivity.
  - reflexivity.
Qed.

Lemma calculateEmotionScores_bounds (words : list string) (e : Emotion) :
  within 0 1.6 (EmotionScores.get (calculateEmotionScores words) e).
Proof.
  unfold calculateEmotionScores.
  destruct (scan_invariant words initialScan initialScan_invariant) as [_ Hs].
  set (st := fold_left step words initialScan) in *.
  rewrite normalize_get. specialize (Hs e).
  destruct (EmotionScores.get (scores st) e) as [| | |x]; try contradiction.
  unfold within, scanCount in Hs.
  destruct (Nat.ltb_spec 0 (totalEmotionalWords st)) as [Hpos|Hzero].
  - unfold ofNat, ofZ, div.
    set (n := inject_Z (Z.of_nat (totalEmotionalWords st))) in *.
    assert (0 < n) as Hn.
    { unfold n. replace 0 with (inject_Z 0) by reflexivity.
      rewrite <- Zlt_Qlt. lia. }
    replace (Qeq_bool n 0) with false.
    2:{ symmetry. apply not_true_iff_false. rewrite Qeq_bool_iff. Lqa.lra. }
    assert (x / n <= 1.6) as Hhi by (apply Qle_shift_div_r; Lqa.lra).
    unfold max, lt. destruct (Qltb 0 (x / n)) eqn:E; simpl.
    + apply Qltb_lt in E. Lqa.lra.
    + Lqa.lra.
  - assert (totalEmotionalWords st = 0%nat) as E0 by lia.
    rewrite E0 in Hs. change (inject_Z (Z.of_nat 0)) with 0 in Hs.
    unfold within. Lqa.lra.
Qed.


Lemma nudge_within (j k : Q) (influence : number) :
  0 <= j -> 0 < k -> gt influence (Num 0) = true ->
  within 0 1 (min (Num 1) (add (Num j) (mul influence (Num k)))).
Proof.
  intros Hj Hk Hpos.
  destruct influence as [| | |v]; try discriminate.
  - unfold mul, scaleInf.
    replace (k ?= 0) with Gt by (symmetry; apply Qgt_alt; exact Hk).
    simpl. Lqa.lra.
  - unfold gt, lt in Hpos. apply Qltb_lt in Hpos.
    assert (0 <= j + v * k) by Lqa.nra.
    unfold mul, add, min, lt.
    destruct (Qltb (j + v * k) 1) eqn:E; simpl.
    + apply Qltb_lt in E. Lqa.lra.
    + Lqa.lra.
Qed.

Lemma within_weaken (lo hi lo' hi' : Q) (a : number) :
  lo' <= lo -> hi <= hi' -> within lo hi a -> within lo' hi' a.
Proof. destruct a; simpl; try tauto. intros. Lqa.lra. Qed.

(** In exact arithmetic every emotion score that [analyze] returns is a
    finite number between 0 and 1.6, whatever the text and the emoji
    influence.  (The sum of the engine is rounded, and a rounded sum of
    contributions of 1.6 can exceed 1.6 in the last bit.) *)
Lemma analyze_scores_bounds (text : string) (emojiInfluence : number)
      (e : Emotion) :
  within 0 1.6
         (EmotionScores.get
            (SentimentAnalysis.scores (analyze text emojiInfluence)) e).
Proof.
  unfold analyze.
  set (cs := calculateEmotionScores (tokenizeText text)).
  assert (Hcs : forall e', within 0 1.6 (EmotionScores.get cs e'))
    by (intros e'; apply calculateEmotionScores_bounds).
  destruct (calculateDimensions _) as [valence arousal].
  cbn [SentimentAnalysis.scores].
  destruct (gt emojiInfluence (Num 0)) eqn:Hpos; [|apply Hcs].
  unfold applyEmojiInfluence. rewrite Hpos.
  pose proof (Hcs Joy) as HJ. pose proof (Hcs Anticipation) as HA.
  cbn [EmotionScores.get] in HJ, HA.
  rewrite !get_set.
  destruct e; cbn [EmotionScores.get];
    [ | exact (Hcs Sadness) | exact (Hcs Anger) | exact (Hcs Fear)
      | exact (Hcs Surprise) | ].
  - destruct (EmotionScores.joy cs) as [| | |j]; try contradiction.
    apply (within_weaken 0 1); [Lqa.lra | Lqa.lra |].
    apply nudge_within; [exact (proj1 HJ) | Lqa.lra | exact Hpos].
  - change (EmotionScores.anticipation
              (EmotionScores.set cs Joy
                 (min (Num 1)
                      (add (EmotionScores.joy cs)
                           (mul emojiInfluence (Num 0.3))))))
      with (EmotionScores.anticipation cs).
    destruct (EmotionScores.anticipation cs) as [| | |a]; try contradiction.
    apply (within_weaken 0 1); [Lqa.lra | Lqa.lra |].
    apply nudge_within; [exact (proj1 HA) | Lqa.lra | exact Hpos].
Qed.

End SentimentBounds.

(** ** The emotion scorer *)

Section SentimentProperties.

Import JsNumber SentimentAnalyzer.
Open Scope string_scope.

(** What one iteration does with an emotional word while a negation is
    pending: the contribution is multiplied by -0.5, the negation is
    cleared, and the intensifier is reset. *)
Lemma step_negated_emotional_word (st : Scan) (word : string)
      (d : LexiconEntry) :
  JsArray.includes negationWords word = false ->
  JsMap.get intensifierWords word = None ->
  JsMap.get emotionLexicon word = Some d ->
  negationActive st = true ->
  step st word
  = scan (EmotionScores.set (scores st) (emotion d)
            (add (EmotionScores.get (scores st) (emotion d))
                 (mul (mul (intensity d) (currentIntensifier st))
                      (Num (-0.5)))))
         (S (totalEmotionalWords st)) false (Num 1.0).
Proof.
  intros Hneg Hint Hlex Hact. unfold step.
  rewrite Hneg, Hint, Hlex, Hact. reflexivity.
Qed.

(** C9, what the code does. A negative emoji influence never reaches
    [applyEmojiInfluence]: the guard of [analyze] lets only positive
    values through, so the result is the one for influence 0 and the
    sadness and fear scores are not raised. *)
Theorem negative_influence_is_ignored (text : string) (v : Q) :
  (v < 0)%Q ->
  analyze text (Num v) = analyze text (Num 0).
Proof.
  intros Hv. unfold analyze.
  replace (gt (Num v) (Num 0)) with false; [reflexivity|].
  symmetry. unfold gt, lt. apply Qltb_ge. Lqa.lra.
Qed.

Lemma negative_influence_is_ignored_witness :
  analyze "sad happy" (Num (-0.8)) = analyze "sad happy" (Num 0).
Proof.
  apply (negative_influence_is_ignored "sad happy" (-0.8)).
  reflexivity.
Defined.

(** The branch of [applyEmojiInfluence] for a negative influence, had it
    been reached on the scores of "sad happy": sadness rises from 0.4 by
    0.8 * 0.3 and fear from 0 by 0.8 * 0.2. *)
Lemma applyEmojiInfluence_negative_branch :
  let scores := calculateEmotionScores (tokenizeText "sad happy") in
  let nudged := applyEmojiInfluence scores (Num (-0.8)) in
  let unchanged := SentimentAnalysis.scores (analyze "sad happy" (Num (-0.8))) in
  lt (EmotionScores.sadness unchanged) (EmotionScores.sadness nudged) = true
  /\ lt (EmotionScores.fear unchanged) (EmotionScores.fear nudged) = true
  /\ within 0.64 0.64 (EmotionScores.sadness nudged)
  /\ within 0.16 0.16 (EmotionScores.fear nudged)
  /\ within 0.4 0.4 (EmotionScores.sadness unchanged)
  /\ within 0 0 (EmotionScores.fear unchanged).
Proof.
  vm_compute. repeat split; try reflexivity; discriminate.
Qed.

(** C4, what the code does. An intensified emotional word pushes a score
    above 1: "extremely happy" scores 0.8 * 2.0 / 1 = 1.6 for joy. *)
Theorem intensified_joy_exceeds_one :
  let joyScore :=
    EmotionScores.joy
      (SentimentAnalysis.scores (analyze "extremely happy" (Num 0))) in
  within 1.6 1.6 joyScore
  /\ lt (Num 1) joyScore = true
  /\ ~ within 0 1 joyScore.
Proof.
  vm_compute. repeat split; try reflexivity; try discriminate.
  intros [_ H]. apply H. reflexivity.
Qed.

End SentimentProperties.

(** ** Degenerate input *)

Section DegenerateInput.

Import JsNumber TextAnalyzer.
Open Scope string_scope.

Lemma add_NaN_r (a : number) : add a NaN = NaN.
Proof. destruct a; reflexivity. Qed.

Lemma real_mul_NaN_r (a : real) : JsReal.mul a NaN = NaN.
Proof. destruct a; reflexivity. Qed.

(** Without a single token the emotional sub-score divides 0 by 0: unlike
    its three siblings, [calculateEmotionalComplexity] has no guard for the
    empty word list. *)
Lemma calculateEmotionalComplexity_no_words (text : string) :
  ComplexityAnalyzer.calculateEmotionalComplexity text [] = NaN.
Proof. reflexivity. Qed.

Lemma sibling_scores_guard_no_words :
  ComplexityAnalyzer.calculateVocabularyDiversity [] = Num 0
  /\ ComplexityAnalyzer.calculateSentenceComplexity [] = Num 0
  /\ ComplexityAnalyzer.calculateConceptDensity [] = Num 0.
Proof. repeat split; reflexivity. Qed.

Lemma overallComplexity_no_words (text : string) :
  ComplexityAnalyzer.tokenizeText text = [] ->
  ComplexityAnalysis.overallComplexity (ComplexityAnalyzer.analyze text) = NaN
  /\ ComplexityAnalysis.emotionalComplexity (ComplexityAnalyzer.analyze text)
     = NaN.
Proof.
  intros H. unfold ComplexityAnalyzer.analyze. rewrite H.
  rewrite calculateEmotionalComplexity_no_words.
  cbn [ComplexityAnalysis.overallComplexity
         ComplexityAnalysis.emotionalComplexity].
  split; [|reflexivity].
  change (mul NaN (Num 0.15)) with (@NaN Q).
  rewrite add_NaN_r. reflexivity.
Qed.

(** With a finite complexity and intensity, zero words give the floor of the
    clamp: this is what the guard of the sibling scores would lead to. *)
Lemma calculateBaseNodeCount_no_words (complexity : ComplexityAnalysis.t)
      (c e : Q) (s : ScalingType) :
  ComplexityAnalysis.overallComplexity complexity = Num c ->
  calculateBaseNodeCount 0 complexity (Num e) s = Num 8.
Proof.
  intros Hc.
  rewrite (calculateBaseNodeCount_finite 0 complexity c e s (Z.le_refl 0) Hc).
  change (@Num Q 8) with (ofZ 8). f_equal.
  unfold Spec.nodeCount, Spec.raw, JsReal.log2.
  rewrite Rplus_0_l, ln_1. unfold Rdiv. rewrite !Rmult_0_l.
  replace (Spec.clamp 0 8 700) with 8%R.
  - apply (ZfloorZ 8).
  - unfold Spec.clamp, Rmax, Rmin.
    destruct (Rle_dec 700 0); destruct (Rle_dec 8 _); lra.
Qed.

(** A NaN complexity makes the whole strategy NaN, whatever the word
    count and the sentiment. *)
Lemma determineScalingStrategy_NaN (W : Z) (complexity : ComplexityAnalysis.t)
      (sentiment : SentimentAnalysis.t) :
  ComplexityAnalysis.overallComplexity complexity = NaN ->
  let strategy := determineScalingStrategy W complexity sentiment in
  ScalingStrategy.nodeCount strategy = NaN
  /\ ScalingStrategy.particleCount strategy = NaN
  /\ ScalingStrategy.compressionLevel strategy = NaN.
Proof.
  intros H strategy.
  assert (Hn : forall e s, calculateBaseNodeCount W complexity e s = NaN).
  { intros e s. unfold calculateBaseNodeCount, rawNodeCount. rewrite H.
    change (JsReal.ofNumber (add (Num 1) (mul NaN (Num 1.5)))) with (@NaN R).
    rewrite real_mul_NaN_r. reflexivity. }
  unfold strategy, determineScalingStrategy.
  cbn [ScalingStrategy.nodeCount ScalingStrategy.particleCount
         ScalingStrategy.compressionLevel].
  rewrite !Hn. split; [reflexivity|]. split; [reflexivity|].
  unfold calculateCompressionLevel.
  destruct (W <=? 50)%Z; reflexivity.
Qed.

(** The result of [analyze] when the cache is not used or has no entry
    under the key of the text. *)
Lemma analyze_miss (conceptExtractor : ConceptExtractor.t) (text : string)
      (useCache : bool) (s : State) :
  (useCache = true -> JsMap.get (analysisCache s) (hashText text) = None) ->
  fst (analyze conceptExtractor text useCache s)
  = AnalysisResult.mk
      (tokenizeText text)
      (analyzeSentiment text)
      (ConceptExtractor.extract conceptExtractor text)
      (ConceptExtractor.buildSemanticGraph conceptExtractor
         (ConceptExtractor.extract conceptExtractor text))
      (ComplexityAnalyzer.analyze text)
      (determineScalingStrategy (Z.of_nat (List.length (tokenizeText text)))
         (ComplexityAnalyzer.analyze text) (analyzeSentiment text))
      (SentimentAnalyzer.extractEmojiData text)
      (SentimentAnalyzer.calculateEmojiInfluence
         (SentimentAnalyzer.extractEmojiData text))
      (clock s 1%nat).
Proof.
  intros H. unfold analyze. destruct useCache.
  - rewrite (H eq_refl). reflexivity.
  - reflexivity.
Qed.

(** On a text without a word character, whatever the cache policy and the
    clock, a fresh analyzer returns NaN for the emotional complexity, the
    overall complexity, the node count and the particle count. *)
Lemma analyze_degenerate (conceptExtractor : ConceptExtractor.t)
      (useCache : bool) (clock : nat -> Z) (text : string) :
  ComplexityAnalyzer.tokenizeText text = [] ->
  let result :=
    fst (analyze conceptExtractor text useCache (state [] clock)) in
  AnalysisResult.words result = tokenizeText text
  /\ ComplexityAnalysis.emotionalComplexity (AnalysisResult.complexity result)
     = NaN
  /\ ComplexityAnalysis.overallComplexity (AnalysisResult.complexity result)
     = NaN
  /\ ScalingStrategy.nodeCount (AnalysisResult.scalingStrategy result) = NaN
  /\ ScalingStrategy.particleCount (AnalysisResult.scalingStrategy result)
     = NaN.
Proof.
  intros Htok result. unfold result.
  rewrite analyze_miss by reflexivity.
  destruct (overallComplexity_no_words text Htok) as [Ho He].
  destruct (determineScalingStrategy_NaN
              (Z.of_nat (List.length (tokenizeText text)))
              (ComplexityAnalyzer.analyze text)
              (analyzeSentiment text) Ho) as (Hn & Hp & _).
  cbn [AnalysisResult.words AnalysisResult.complexity
         AnalysisResult.scalingStrategy].
  repeat split; assumption.
Qed.

(** C2, what the code does. On the empty text (and likewise on a
    whitespace-only or pure-punctuation text) the pipeline returns without
    an exception and with an empty or one-token word list, but the
    emotional-complexity score, the overall complexity, the node count and
    the particle count are all NaN: the node count is not the floor 8. *)
Theorem degenerate_text_yields_NaN
        (conceptExtractor : ConceptExtractor.t) (useCache : bool)
        (clock : nat -> Z) :
  let run text := fst (analyze conceptExtractor text useCache (state [] clock)) in
  let scores result :=
    ( ComplexityAnalysis.emotionalComplexity (AnalysisResult.complexity result),
      ComplexityAnalysis.overallComplexity (AnalysisResult.complexity result),
      ScalingStrategy.nodeCount (AnalysisResult.scalingStrategy result),
      ScalingStrategy.particleCount (AnalysisResult.scalingStrategy result) ) in
  AnalysisResult.words (run "") = []
  /\ scores (run "") = (NaN, NaN, NaN, NaN)
  /\ AnalysisResult.words (run "   ") = []
  /\ scores (run "   ") = (NaN, NaN, NaN, NaN)
  /\ AnalysisResult.words (run "!!!") = ["!!!"]
  /\ scores (run "!!!") = (NaN, NaN, NaN, NaN)
  /\ ScalingStrategy.nodeCount (AnalysisResult.scalingStrategy (run ""))
     <> Num 8.
Proof.
  intros run scores.
  assert (Hrun : forall text,
             ComplexityAnalyzer.tokenizeText text = [] ->
             AnalysisResult.words (run text) = tokenizeText text
             /\ scores (run text) = (NaN, NaN, NaN, NaN)).
  { intros text Htok.
    destruct (analyze_degenerate conceptExtractor useCache clock text Htok)
      as (Hw & He & Ho & Hn & Hp).
    split; [exact Hw|].
    unfold scores, run. rewrite He, Ho, Hn, Hp. reflexivity. }
  destruct (Hrun "" eq_refl) as [W1 S1].
  destruct (Hrun "   " eq_refl) as [W2 S2].
  destruct (Hrun "!!!" eq_refl) as [W3 S3].
  rewrite W1, W2, W3, S1, S2, S3.
  repeat split; try reflexivity.
  unfold scores in S1. injection S1 as _ _ E _. rewrite E. discriminate.
Qed.

End DegenerateInput.

(** ** The cache key *)

Section CacheProperties.

Import JsNumber TextAnalyzer.
Open Scope string_scope.

(** An entry stored less than ten minutes before the cleanup reads the
    clock survives the cleanup of a one-entry cache. *)
Lemma cleanupCache_fresh_entry (key : string) (result : AnalysisResult.t)
      (now : nat -> Z) :
  (now 0%nat - 600000 <= AnalysisResult.timestamp result)%Z ->
  cleanupCache (state [(key, result)] now)
  = state [(key, result)] (fun n => now (S n)).
Proof.
  intros H. unfold cleanupCache, Date_now.
  cbn [clock analysisCache filter].
  replace (AnalysisResult.timestamp result <? now 0%nat - 10 * 60 * 1000)%Z
    with false by (symmetry; apply Z.ltb_ge; lia).
  reflexivity.
Qed.

(** A call whose key is in the cache returns the entry and does nothing
    else. *)
Lemma analyze_hit (conceptExtractor : ConceptExtractor.t) (text : string)
      (s : State) (cached : AnalysisResult.t) :
  JsMap.get (analysisCache s) (hashText text) = Some cached ->
  analyze conceptExtractor text true s = (cached, s).
Proof. intros H. unfold analyze. rewrite H. reflexivity. Qed.

(** The first call on an empty cache stores its result under the key of
    the text. *)
Lemma analyze_first (conceptExtractor : ConceptExtractor.t) (text : string)
      (now : nat -> Z) :
  (now 2%nat - 600000 <= now 1%nat)%Z ->
  let result := fst (analyze conceptExtractor text true (state [] now)) in
  analyze conceptExtractor text true (state [] now)
  = (result, state [(hashText text, result)] (fun n => now (4 + n)%nat)).
Proof.
  intros H result. subst result.
  unfold analyze. cbn [analysisCache JsMap.get].
  cbv beta iota zeta delta [Date_now clock analysisCache fst snd].
  cbn [JsMap.set].
  rewrite cleanupCache_fresh_entry by exact H.
  reflexivity.
Qed.

(** C10. [hashText] is not injective: "Aa" and "BB" are distinct texts
    with the same key (both hash to 65*31+97 = 66*31+66 = 2112, "1mo" in
    base 36).  With caching enabled, an [analyze] call for "BB" that follows
    one for "Aa" on a fresh analyzer therefore returns the result computed
    for "Aa", whose word list is not that of "BB". *)
Theorem hashText_collision_returns_cached_result
        (conceptExtractor : ConceptExtractor.t) (now : nat -> Z) :
  (now 2%nat - 600000 <= now 1%nat)%Z ->
  let first := analyze conceptExtractor "Aa" true (state [] now) in
  let second := analyze conceptExtractor "BB" true (snd first) in
  "Aa" <> "BB"
  /\ hashLoop 0 "Aa" = 2112%Z
  /\ hashLoop 0 "BB" = 2112%Z
  /\ hashText "Aa" = hashText "BB"
  /\ fst second = fst first
  /\ AnalysisResult.words (fst second) = ["Aa"]
  /\ AnalysisResult.words (fst second) <> tokenizeText "BB".
Proof.
  intros H first second.
  assert (Hfirst := analyze_first conceptExtractor "Aa" now H).
  cbv zeta in Hfirst. fold first in Hfirst.
  assert (Hwords : AnalysisResult.words (fst first) = ["Aa"]).
  { unfold first. rewrite analyze_miss by reflexivity. reflexivity. }
  assert (Hsecond : fst second = fst first).
  { unfold second. rewrite Hfirst. cbn [snd].
    rewrite (analyze_hit conceptExtractor "BB" _ (fst first)); reflexivity. }
  split; [discriminate|].
  split; [reflexivity|]. split; [reflexivity|]. split; [reflexivity|].
  split; [exact Hsecond|].
  rewrite Hsecond, Hwords. split; [reflexivity|discriminate].
Qed.

Lemma hashText_collision_returns_cached_result_witness :
  let conceptExtractor :=
    ConceptExtractor.mk (fun _ => []) (fun _ => SemanticGraph.mk [] [] []) in
  let now := fun n : nat => (1000 + Z.of_nat n)%Z in
  let first := analyze conceptExtractor "Aa" true (state [] now) in
  let second := analyze conceptExtractor "BB" true (snd first) in
  "Aa" <> "BB"
  /\ hashLoop 0 "Aa" = 2112%Z
  /\ hashLoop 0 "BB" = 2112%Z
  /\ hashText "Aa" = hashText "BB"
  /\ fst second = fst first
  /\ AnalysisResult.words (fst second) = ["Aa"]
  /\ AnalysisResult.words (fst second) <> tokenizeText "BB".
Proof.
  intros conceptExtractor now.
  apply (hashText_collision_returns_cached_result conceptExtractor now).
  unfold now. simpl. lia.
Defined.

End CacheProperties.

(** ** The structure generator *)

Section NodeProperties.

Import JsNumber NodeSystem.

Variable Vector3 : Type.
Variable origin : Vector3.
Variable spiralPoint : number -> nat -> nat -> Vector3.
Variable fractionToString36 : number -> string.


Lemma createSyntheticNode_synthetic (i : nat) (r : Random.t) :
  Node.synthetic (fst (createSyntheticNode origin fractionToString36 i r))
  = true.
Proof. reflexivity. Qed.

Lemma createNodeFromConcept_not_synthetic (concept : Concept.t)
      (nodeType : NodeType) (importance : number) (r : Random.t) :
  Node.synthetic
    (fst (createNodeFromConcept origin fractionToString36 concept nodeType
                                importance r))
  = false.
Proof. reflexivity. Qed.

Lemma createEmotionNode_not_synthetic (sentiment : SentimentAnalysis.t)
      (importance : number) (r : Random.t) :
  Node.synthetic
    (fst (createEmotionNode origin fractionToString36 sentiment importance r))
  = false.
Proof. reflexivity. Qed.

(** The loop of [generateSyntheticNodes] yields one synthetic node per
    iteration. *)
Lemma syntheticLoop_spec (trips i : nat) (r : Random.t) :
  let synthetic := fst (syntheticLoop origin fractionToString36 trips i r) in
  List.length synthetic = trips
  /\ Forall (fun n : NodeSystem.Node Vector3 => Node.synthetic n = true) synthetic.
Proof.
  revert i r. induction trips as [|trips IH]; intros i r; cbn [syntheticLoop].
  - split; [reflexivity | constructor].
  - pose proof (createSyntheticNode_synthetic i r) as Hs.
    destruct (createSyntheticNode origin fractionToString36 i r) as [node r1].
    specialize (IH (S i) r1).
    destruct (syntheticLoop origin fractionToString36 trips (S i) r1)
      as [rest r2].
    cbn [fst] in *. destruct IH as [IH1 IH2].
    split; [simpl; congruence | constructor; assumption].
Qed.

Lemma pushConceptNodes_not_synthetic (importanceAt : nat -> number)
      (concepts : list Concept.t) (index : nat) (r : Random.t) :
  Forall (fun n : NodeSystem.Node Vector3 => Node.synthetic n = false)
         (fst (pushConceptNodes origin fractionToString36 importanceAt
                                concepts index r)).
Proof.
  revert index r.
  induction concepts as [|c rest IH]; intros index r; cbn [pushConceptNodes].
  - constructor.
  - pose proof (createNodeFromConcept_not_synthetic
                  c node_concept (importanceAt index) r) as Hs.
    destruct (createNodeFromConcept origin fractionToString36 c node_concept
                                    (importanceAt index) r) as [node r1].
    specialize (IH (S index) r1).
    destruct (pushConceptNodes origin fractionToString36 importanceAt rest
                               (S index) r1) as [others r2].
    cbn [fst] in *. constructor; assumption.
Qed.

(** [l.slice(0, n)] for a non-negative integer [n] is the prefix of
    length [n], or the whole of a shorter list. *)
Lemma slice_prefix (A : Type) (l : list A) (n : Z) :
  (0 <= n)%Z -> JsArray.slice l (Num 0) (ofZ n) = firstn (Z.to_nat n) l.
Proof.
  intros Hn. unfold JsArray.slice, ofZ, JsArray.sliceIndex.
  replace (Qltb 0 0) with false by reflexivity.
  replace (Qltb (inject_Z n) 0) with false.
  2:{ symmetry. apply Qltb_ge. replace 0%Q with (inject_Z 0) by reflexivity.
      rewrite <- Zle_Qle. exact Hn. }
  rewrite Qfloor_Z. simpl (Qfloor 0). simpl (0 <? 0)%Z.
  replace (n <? 0)%Z with false by (symmetry; apply Z.ltb_ge; exact Hn).
  simpl. rewrite Nat.sub_0_r.
  destruct (Nat.le_ge_cases (Z.to_nat n) (List.length l)) as [H|H].
  - rewrite Nat.min_l by exact H. reflexivity.
  - rewrite Nat.min_r by exact H. rewrite !firstn_all2; auto.
Qed.

Lemma remaining_value (n : Z) (k : nat) :
  exists q : Q,
    sub (ofZ n) (ofNat k) = Num q /\ (q == inject_Z (n - Z.of_nat k))%Q.
Proof.
  eexists. split; [reflexivity|].
  unfold Z.sub. rewrite inject_Z_plus, inject_Z_opp. reflexivity.
Qed.

Lemma remaining_positive (n : Z) (k : nat) :
  gt (sub (ofZ n) (ofNat k)) (Num 0) = (Z.of_nat k <? n)%Z.
Proof.
  destruct (remaining_value n k) as (q & -> & Hq).
  unfold gt, lt.
  destruct (Z.ltb_spec (Z.of_nat k) n) as [H|H].
  - apply Qltb_lt. rewrite Hq. replace 0%Q with (inject_Z 0) by reflexivity.
    rewrite <- Zlt_Qlt. lia.
  - apply Qltb_ge. rewrite Hq. replace 0%Q with (inject_Z 0) by reflexivity.
    rewrite <- Zle_Qle. lia.
Qed.

Lemma remaining_trips (n : Z) (k : nat) :
  loopTrips (sub (ofZ n) (ofNat k)) = Some (Z.to_nat (n - Z.of_nat k)).
Proof.
  destruct (remaining_value n k) as (q & -> & Hq).
  unfold loopTrips. rewrite (Qceiling_comp _ _ Hq), Qceiling_Z. reflexivity.
Qed.

(** For every analysis result whose node budget
    [scalingStrategy.nodeCount] is a non-negative integer [n], and every
    random source, [generateNodes] returns a list of exactly [n] nodes:
    the concept and emotion nodes produced, padded with synthetic nodes up
    to [n] when they fall short, and truncated to the first [n] when they
    exceed it. *)
Theorem generateNodes_exact_count
        (analysisResult : AnalysisResult.t) (r : Random.t) (n : Z) :
  (0 <= n)%Z ->
  ScalingStrategy.nodeCount (AnalysisResult.scalingStrategy analysisResult)
  = ofZ n ->
  exists (real synthetic : list (NodeSystem.Node Vector3)) (r' : Random.t),
    generateNodes origin fractionToString36 analysisResult r
    = Some (firstn (Z.to_nat n) (real ++ synthetic)%list, r')
    /\ Forall (fun node => Node.synthetic node = false) real
    /\ Forall (fun node => Node.synthetic node = true) synthetic
    /\ List.length synthetic = (Z.to_nat n - List.length real)%nat
    /\ Z.of_nat (List.length (firstn (Z.to_nat n) (real ++ synthetic)%list)) = n.
Proof.
  intros Hn Hcount. unfold generateNodes. rewrite Hcount.
  set (concepts := JsArray.sort _ _).
  set (primaryConcepts := JsArray.slice concepts _ _).
  pose proof (pushConceptNodes_not_synthetic
                (fun index =>
                   sub (Num 1.0)
                       (mul (div (ofNat index)
                                 (ofNat (List.length primaryConcepts)))
                            (Num 0.3)))
                primaryConcepts 0 r) as HP.
  destruct (pushConceptNodes _ _ _ primaryConcepts 0%nat r) as [primary r1].
  simpl in HP.
  set (sentiment := AnalysisResult.sentiment analysisResult).
  assert (exists withEmotion r2,
             (if gt (DominantEmotion.confidence
                       (SentimentAnalysis.dominant sentiment)) (Num 0.3)
              then let '(node, r) :=
                     createEmotionNode origin fractionToString36 sentiment
                                       (Num 0.9) r1 in
                   ((primary ++ [node])%list, r)
              else (primary, r1)) = (withEmotion, r2)
             /\ Forall (fun node : NodeSystem.Node Vector3 => Node.synthetic node = false)
                       withEmotion) as (withEmotion & r2 & -> & HE).
  { destruct (gt _ _).
    - pose proof (createEmotionNode_not_synthetic sentiment (Num 0.9) r1) as Hs.
      destruct (createEmotionNode _ _ _ _ r1) as [node r2]. simpl in Hs.
      exists (primary ++ [node])%list, r2. split; [reflexivity|].
      apply Forall_app. split; [exact HP | constructor; [exact Hs | constructor]].
    - exists primary, r1. split; [reflexivity | exact HP]. }
  set (secondaryConcepts := JsArray.slice (JsArray.sliceFrom concepts _) _ _).
  pose proof (pushConceptNodes_not_synthetic
                (fun index =>
                   sub (Num 0.7)
                       (mul (div (ofNat index)
                                 (ofNat (List.length secondaryConcepts)))
                            (Num 0.2)))
                secondaryConcepts 0 r2) as HS.
  destruct (pushConceptNodes _ _ _ secondaryConcepts 0%nat r2)
    as [secondary r3].
  simpl in HS.
  set (real := (withEmotion ++ secondary)%list).
  assert (Hreal : Forall (fun node : NodeSystem.Node Vector3 => Node.synthetic node = false) real)
    by (apply Forall_app; split; assumption).
  clearbody real.
  rewrite remaining_positive.
  destruct (Z.ltb_spec (Z.of_nat (List.length real)) n) as [Hlt|Hge].
  - unfold generateSyntheticNodes. rewrite remaining_trips.
    pose proof (syntheticLoop_spec (Z.to_nat (n - Z.of_nat (List.length real)))
                                   0 r3) as [Hlen Hsyn].
    destruct (syntheticLoop _ _ _ 0%nat r3) as [synthetic r4].
    simpl in Hlen, Hsyn.
    exists real, synthetic, r4. rewrite slice_prefix by exact Hn.
    split; [reflexivity|]. split; [exact Hreal|]. split; [exact Hsyn|].
    split; [lia|].
    rewrite length_firstn, length_app. lia.
  - exists real, [], r3. rewrite slice_prefix by exact Hn.
    rewrite app_nil_r.
    split; [reflexivity|]. split; [exact Hreal|]. split; [constructor|].
    split; [simpl; lia|].
    rewrite length_firstn. lia.
Qed.


Lemma generateNodes_returns (analysisResult : AnalysisResult.t) (r : Random.t) :
  generateNodes origin fractionToString36 analysisResult r = None ->
  ScalingStrategy.nodeCount (AnalysisResult.scalingStrategy analysisResult)
  = PInf.
Proof.
  unfold generateNodes.
  destruct (pushConceptNodes _ _ _ _ 0%nat r) as [primary r1].
  destruct (if gt _ _ then _ else _) as [withEmotion r2].
  destruct (pushConceptNodes _ _ _ _ 0%nat r2) as [secondary r3].
  destruct (ScalingStrategy.nodeCount _) as [| | |q];
    cbn [sub neg add ofNat ofZ gt lt]; intros H.
  - discriminate H.
  - reflexivity.
  - discriminate H.
  - exfalso. unfold generateSyntheticNodes, loopTrips in H.
    destruct (Qltb _ _) in H; [|discriminate H].
    destruct (syntheticLoop _ _ _ 0%nat r3) in H. discriminate H.
Qed.

Lemma distributeFrom_ids (radius : number) (total index : nat)
      (l : list (NodeSystem.Node Vector3)) :
  map (@Node.id Vector3) (distributeFrom spiralPoint radius total index l)
  = map (@Node.id Vector3) l.
Proof.
  revert index. induction l as [|node rest IH]; intros index; simpl.
  - reflexivity.
  - rewrite IH. reflexivity.
Qed.

Lemma distributeNodes_id (l : list (NodeSystem.Node Vector3))
      (targetCount : number) (node : NodeSystem.Node Vector3) :
  In node l ->
  exists moved, In moved (distributeNodes spiralPoint l targetCount)
                /\ Node.id moved = Node.id node.
Proof.
  intros Hin. apply (in_map (@Node.id Vector3)) in Hin.
  unfold distributeNodes.
  rewrite <- (distributeFrom_ids
                (max (Num 10) (div targetCount (Num 10))) (List.length l) 0 l)
    in Hin.
  apply in_map_iff in Hin. destruct Hin as (moved & Hid & Hin).
  exists moved. split; assumption.
Qed.

(** A connection is built from two nodes found in the list. *)
Lemma generateConnections_endpoints (analysisResult : AnalysisResult.t)
      (l : list (NodeSystem.Node Vector3)) (c : Connection.t) :
  In c (generateConnections analysisResult l) ->
  exists sourceNode targetNode,
    In sourceNode l /\ In targetNode l
    /\ Connection.source c = Node.id sourceNode
    /\ Connection.target c = Node.id targetNode.
Proof.
  unfold generateConnections. intros Hin.
  apply in_flat_map in Hin. destruct Hin as ([key edge] & _ & Hin).
  destruct (find (fun n : Node.t Vector3 =>
                    String.eqb (NodeData.word (Node.data n))
                               (SemanticEdge.source edge)) l)
    as [sourceNode|] eqn:Es; [|destruct Hin].
  destruct (find (fun n : Node.t Vector3 =>
                    String.eqb (NodeData.word (Node.data n))
                               (SemanticEdge.target edge)) l)
    as [targetNode|] eqn:Et; [|destruct Hin].
  destruct Hin as [<-|[]].
  apply find_some in Es. apply find_some in Et.
  exists sourceNode, targetNode. intuition.
Qed.

(** C6. For every analysis result and random source, every connection
    that [generateVisualization] returns has a source id and a target id
    that are ids of nodes of the returned node list.  (The call returns
    unless the node budget is +Infinity, where the padding loop of the
    source does not end.) *)
Theorem connections_reference_generated_nodes
        (analysisResult : AnalysisResult.t) (r : Random.t) :
  match generateVisualization origin spiralPoint fractionToString36
                              analysisResult r with
  | Some (generated, _) =>
      forall c, In c (connections generated) ->
        (exists node, In node (nodes generated)
                      /\ Node.id node = Connection.source c)
        /\ (exists node, In node (nodes generated)
                         /\ Node.id node = Connection.target c)
  | None =>
      ScalingStrategy.nodeCount (AnalysisResult.scalingStrategy analysisResult)
      = PInf
  end.
Proof.
  unfold generateVisualization.
  destruct (generateNodes origin fractionToString36 analysisResult r)
    as [[l r']|] eqn:E.
  - cbn [connections nodes]. intros c Hin.
    apply generateConnections_endpoints in Hin.
    destruct Hin as (sourceNode & targetNode & Hs & Ht & -> & ->).
    split; apply distributeNodes_id; assumption.
  - apply generateNodes_returns in E. exact E.
Qed.

(** With a NaN budget every slice is empty and the loop does not run:
    no node at all is generated. *)
Lemma generateNodes_NaN (analysisResult : AnalysisResult.t) (r : Random.t) :
  ScalingStrategy.nodeCount (AnalysisResult.scalingStrategy analysisResult)
  = NaN ->
  exists r', generateNodes origin fractionToString36 analysisResult r
             = Some ([], r').
Proof.
  intros H. unfold generateNodes. rewrite H.
  destruct (pushConceptNodes _ _ _ _ 0%nat r) as [primary r1].
  destruct (if gt _ _ then _ else _) as [withEmotion r2].
  destruct (pushConceptNodes _ _ _ _ 0%nat r2) as [secondary r3].
  exists r3. reflexivity.
Qed.

(** C3, what the code does. The budget that the pipeline hands over for a
    text without a word character is NaN, and for it the generator returns
    no node at all: the length of the node list, 0, is not the node count
    (nor the floor 8). *)
Theorem degenerate_text_generates_no_nodes
        (conceptExtractor : ConceptExtractor.t) (useCache : bool)
        (clock : nat -> Z) (r : Random.t) (text : string) :
  In text [""; "   "; "!!!"]%string ->
  let result :=
    fst (TextAnalyzer.analyze conceptExtractor text useCache
                              (TextAnalyzer.state [] clock)) in
  ScalingStrategy.nodeCount (AnalysisResult.scalingStrategy result) = NaN
  /\ exists r', generateNodes origin fractionToString36 result r
                = Some ([], r').
Proof.
  intros Hin result.
  assert (Htok : ComplexityAnalyzer.tokenizeText text = []).
  { simpl in Hin. destruct Hin as [<-|[<-|[<-|[]]]]; reflexivity. }
  destruct (analyze_degenerate conceptExtractor useCache clock text Htok)
    as (_ & _ & _ & Hn & _).
  split; [exact Hn|].
  apply generateNodes_NaN. exact Hn.
Qed.

End NodeProperties.

Lemma degenerate_text_generates_no_nodes_witness :
  let conceptExtractor :=
    ConceptExtractor.mk (fun _ => []) (fun _ => SemanticGraph.mk [] [] []) in
  let result :=
    fst (TextAnalyzer.analyze conceptExtractor "!!!" true
                              (TextAnalyzer.state [] (fun _ => 0%Z))) in
  ScalingStrategy.nodeCount (AnalysisResult.scalingStrategy result) = NaN
  /\ exists r', NodeSystem.generateNodes tt (fun _ => "0.5"%string) result
                                         (fun _ => 0.5)
                = Some ([], r').
Proof.
  intros conceptExtractor.
  apply (degenerate_text_generates_no_nodes
           unit tt (fun _ => "0.5"%string) conceptExtractor true
           (fun _ => 0%Z) (fun _ => 0.5) "!!!"%string).
  simpl. tauto.
Defined.

Lemma generateNodes_exact_count_witness :
  exists (real synthetic : list (NodeSystem.Node unit)) (r' : Random.t),
    NodeSystem.generateNodes tt (fun _ => "0.5"%string) mockAnalysisResult
                             (fun _ => 0.5)
    = Some (firstn (Z.to_nat 8) (real ++ synthetic)%list, r')
    /\ Forall (fun node => Node.synthetic node = false) real
    /\ Forall (fun node => Node.synthetic node = true) synthetic
    /\ List.length synthetic = (Z.to_nat 8 - List.length real)%nat
    /\ Z.of_nat (List.length (firstn (Z.to_nat 8) (real ++ synthetic)%list))
       = 8%Z.
Proof.
  apply (generateNodes_exact_count unit tt (fun _ => "0.5"%string)
           mockAnalysisResult (fun _ => 0.5) 8).
  - lia.
  - reflexivity.
Defined.

(** ** Tokens *)

Section TokenFacts.

Import JsString.

Lemma every_app (test : ascii -> bool) (s1 s2 : string) :
  every test (s1 ++ s2) = every test s1 && every test s2.
Proof.
  induction s1 as [|c rest IH]; simpl.
  - reflexivity.
  - rewrite IH. apply andb_assoc.
Qed.

Lemma splitRuns_every (sep test : ascii -> bool) (s : string) :
  forall (inRun : bool) (piece : string),
    every (fun c => sep c || test c) s = true ->
    every test piece = true ->
    Forall (fun p => every test p = true) (splitRuns sep inRun piece s).
Proof.
  induction s as [|c rest IH]; intros inRun piece Hs Hp; simpl.
  - constructor; [exact Hp | constructor].
  - simpl in Hs. apply andb_true_iff in Hs. destruct Hs as [Hc Hrest].
    destruct (sep c) eqn:Ec.
    + destruct inRun.
      * apply IH; assumption.
      * constructor; [exact Hp|]. apply IH; [assumption | reflexivity].
    + apply IH; [assumption|].
      rewrite every_app, Hp. simpl. simpl in Hc. rewrite Hc. reflexivity.
Qed.

Lemma every_mapChars (test : ascii -> bool) (f : ascii -> ascii) (s : string) :
  (forall c, test (f c) = true) -> every test (mapChars f s) = true.
Proof.
  intros H. induction s as [|c rest IH]; simpl; [reflexivity|].
  rewrite H, IH. reflexivity.
Qed.

Lemma mapChars_mapChars (f g : ascii -> ascii) (s : string) :
  mapChars f (mapChars g s) = mapChars (fun c => f (g c)) s.
Proof.
  induction s as [|c rest IH]; simpl; [reflexivity|]. rewrite IH. reflexivity.
Qed.

(** What [toLowerCase] and the replacement of [[^\w\s]] leave of a code
    unit is white space or a token character. *)
Lemma normalized_char (c : ascii) :
  let d := lowerChar c in
  let d := if isWordChar d || isSpace d then d else " "%char in
  isSpace d || isTokenChar d = true.
Proof.
  destruct c as [[] [] [] [] [] [] [] []]; reflexivity.
Qed.

Lemma normalized_text (text : string) :
  every (fun c => isSpace c || isTokenChar c)
        (replaceNonWord (toLowerCase text)) = true.
Proof.
  unfold replaceNonWord, toLowerCase. rewrite mapChars_mapChars.
  apply every_mapChars. intros c. apply normalized_char.
Qed.

Lemma token_chars (text token : string) :
  In token (SentimentAnalyzer.tokenizeText text) ->
  nonEmpty token = true /\ every isTokenChar token = true.
Proof.
  unfold SentimentAnalyzer.tokenizeText. intros Hin.
  apply filter_In in Hin. destruct Hin as [Hin Hne].
  split; [exact Hne|].
  pose proof (splitRuns_every isSpace isTokenChar
                (replaceNonWord (toLowerCase text)) false ""
                (normalized_text text) eq_refl) as H.
  rewrite Forall_forall in H. apply H. exact Hin.
Qed.

End TokenFacts.

Section TokenProperties.

Import JsString.

(** X1. The tokenizer shared by the emotion scorer and the complexity
    scorer yields, for every text, only tokens that are non-empty and made
    of lower-case letters, digits and underscores: no token is empty, holds
    an upper-case letter, punctuation or white space. *)
Theorem tokens_are_lower_case_words (text : string) :
  Forall (fun token => nonEmpty token = true /\ every isTokenChar token = true)
         (SentimentAnalyzer.tokenizeText text)
  /\ ComplexityAnalyzer.tokenizeText text = SentimentAnalyzer.tokenizeText text.
Proof.
  split; [|reflexivity].
  apply Forall_forall. intros token Hin. apply (token_chars text). exact Hin.
Qed.

(** X2. Two keys of the emotion lexicon, "mind-blowing" (surprise) and
    "looking forward" (anticipation), hold a hyphen or a space; they are the
    only such keys, and no token of any text equals one of them, so the scan
    never scores them. *)
Theorem phrase_entries_never_match (text : string) :
  phraseEntries = ["mind-blowing"; "looking forward"]%string
  /\ Forall (fun key => JsMap.get SentimentAnalyzer.emotionLexicon key <> None)
            phraseEntries
  /\ forall token, In token (SentimentAnalyzer.tokenizeText text) ->
                   ~ In token phraseEntries.
Proof.
  assert (E : phraseEntries = ["mind-blowing"; "looking forward"]%string)
    by (vm_compute; reflexivity).
  split; [exact E|]. split.
  - rewrite E. repeat constructor; vm_compute; discriminate.
  - intros token Hin Hphrase. apply token_chars in Hin. destruct Hin as [_ Hev].
    unfold phraseEntries in Hphrase. apply filter_In in Hphrase.
    destruct Hphrase as [_ Hneg]. rewrite Hev in Hneg. discriminate Hneg.
Qed.

End TokenProperties.

(** ** Finite arithmetic *)

Section FiniteNumbers.

Import JsNumber.
Open Scope Q_scope.

Lemma within_inv (lo hi : Q) (a : number) :
  within lo hi a -> exists x, a = Num x /\ lo <= x <= hi.
Proof.
  destruct a as [| | |x]; simpl; intros H; try contradiction.
  exists x. split; [reflexivity | exact H].
Qed.

Lemma min_Num (x y : Q) :
  exists m, min (Num x) (Num y) = Num m
            /\ m <= x /\ m <= y /\ (m = x \/ m = y).
Proof.
  unfold min, lt. destruct (Qltb y x) eqn:E.
  - apply Qltb_lt in E. exists y. repeat split; auto; Lqa.lra.
  - apply Qltb_ge in E. exists x. repeat split; auto; Lqa.lra.
Qed.

Lemma max_Num (x y : Q) :
  exists m, max (Num x) (Num y) = Num m
            /\ x <= m /\ y <= m /\ (m = x \/ m = y).
Proof.
  unfold max, lt. destruct (Qltb x y) eqn:E.
  - apply Qltb_lt in E. exists y. repeat split; auto; Lqa.lra.
  - apply Qltb_ge in E. exists x. repeat split; auto; Lqa.lra.
Qed.

Lemma div_Num (x y : Q) :
  ~ y == 0 -> div (Num x) (Num y) = Num (x / y).
Proof.
  intros H. unfold div. destruct (Qeq_bool y 0) eqn:E; [|reflexivity].
  apply Qeq_bool_iff in E. contradiction.
Qed.

Lemma Qdiv_bounds (x y : Q) :
  0 <= x -> x <= y -> 0 < y -> 0 <= x / y <= 1.
Proof.
  intros Hx Hxy Hy. split.
  - apply Qle_shift_div_l; [exact Hy | Lqa.lra].
  - apply Qle_shift_div_r; [exact Hy | Lqa.lra].
Qed.

Lemma Qdiv_nonneg (x y : Q) : 0 <= x -> 0 < y -> 0 <= x / y.
Proof.
  intros Hx Hy. apply Qle_shift_div_l; [exact Hy | Lqa.lra].
Qed.

(** A ratio of two counts. *)
Lemma ratio_within (a b : nat) :
  (a <= b)%nat -> (0 < b)%nat ->
  exists q, div (ofNat a) (ofNat b) = Num q /\ 0 <= q <= 1.
Proof.
  intros Hab Hb. unfold ofNat, ofZ. rewrite div_Num.
  - eexists. split; [reflexivity|].
    apply Qdiv_bounds.
    + replace 0 with (inject_Z 0) by reflexivity. rewrite <- Zle_Qle. lia.
    + rewrite <- Zle_Qle. lia.
    + replace 0 with (inject_Z 0) by reflexivity. rewrite <- Zlt_Qlt. lia.
  - intros H. unfold Qeq in H. simpl in H. lia.
Qed.

(** [Math.min(1, x)] of a non-negative finite value. *)
Lemma min_one_within (x : Q) : 0 <= x -> within 0 1 (min (Num 1) (Num x)).
Proof.
  intros Hx. destruct (min_Num 1 x) as (m & -> & H1 & H2 & [->| ->]);
    simpl; Lqa.lra.
Qed.

End FiniteNumbers.

(** ** Sorting with a numeric comparator *)

Section SortFacts.

Import JsNumber.
Open Scope Q_scope.

Variable A : Type.
Variable compare : A -> A -> number.

(** The comparator orders the elements that satisfy [good] by decreasing
    [key]. *)
Variable key : A -> Q.
Variable good : A -> Prop.
Hypothesis compare_key :
  forall x y, good x -> good y ->
              gt (compare x y) (Num 0) = Qltb (key x) (key y).

Lemma insert_perm (x : A) (l : list A) :
  Permutation (x :: l) (JsArray.insert compare x l).
Proof.
  induction l as [|y rest IH]; cbn [JsArray.insert JsArray.sort].
  - apply Permutation_refl.
  - destruct (gt (compare x y) (Num 0)).
    + apply perm_trans with (y :: x :: rest); [apply perm_swap|].
      apply perm_skip. exact IH.
    + apply Permutation_refl.
Qed.

Lemma sort_perm (l : list A) : Permutation l (JsArray.sort compare l).
Proof.
  induction l as [|x rest IH]; cbn [JsArray.insert JsArray.sort].
  - apply Permutation_refl.
  - apply perm_trans with (x :: JsArray.sort compare rest).
    + apply perm_skip. exact IH.
    + apply insert_perm.
Qed.

Lemma sort_length (l : list A) :
  List.length (JsArray.sort compare l) = List.length l.
Proof. symmetry. apply Permutation_length. apply sort_perm. Qed.

Lemma sort_In (l : list A) (x : A) :
  In x (JsArray.sort compare l) <-> In x l.
Proof.
  split; intros H.
  - apply (Permutation_in x (Permutation_sym (sort_perm l))). exact H.
  - apply (Permutation_in x (sort_perm l)). exact H.
Qed.

Lemma insert_descending (x : A) (l : list A) :
  good x -> Forall good l -> descending key l ->
  descending key (JsArray.insert compare x l).
Proof.
  intros Hx Hl Hs. induction Hs as [|y rest Hrest IH Hy]; cbn [JsArray.insert JsArray.sort].
  - constructor; constructor.
  - inversion Hl as [|? ? Hgy Hgrest]; subst.
    rewrite (compare_key _ _ Hx Hgy).
    destruct (Qltb (key x) (key y)) eqn:E.
    + apply Qltb_lt in E. constructor.
      * apply IH. exact Hgrest.
      * apply Forall_forall. intros z Hz.
        apply (Permutation_in z (Permutation_sym (insert_perm x rest))) in Hz.
        destruct Hz as [<-|Hz].
        -- Lqa.lra.
        -- rewrite Forall_forall in Hy. apply Hy. exact Hz.
    + apply Qltb_ge in E. constructor.
      * constructor; assumption.
      * constructor; [exact E|].
        apply Forall_forall. intros z Hz.
        rewrite Forall_forall in Hy. specialize (Hy z Hz). Lqa.lra.
Qed.

Lemma sort_descending (l : list A) :
  Forall good l -> descending key (JsArray.sort compare l).
Proof.
  induction l as [|x rest IH]; intros Hl; cbn [JsArray.insert JsArray.sort].
  - constructor.
  - inversion Hl as [|? ? Hx Hrest]; subst.
    apply insert_descending; [exact Hx | | apply IH; exact Hrest].
    apply Forall_forall. intros z Hz. apply (proj1 (sort_In rest z)) in Hz.
    rewrite Forall_forall in Hrest. apply Hrest. exact Hz.
Qed.

(** The sort is stable: a list already in decreasing order is left as it
    is. *)
Lemma sort_sorted_id (l : list A) :
  Forall good l -> descending key l -> JsArray.sort compare l = l.
Proof.
  intros Hl Hs. induction Hs as [|x rest Hrest IH Hx]; cbn [JsArray.insert JsArray.sort].
  - reflexivity.
  - inversion Hl as [|? ? Hgx Hgrest]; subst.
    rewrite (IH Hgrest). destruct rest as [|y rest']; cbn [JsArray.insert JsArray.sort]; [reflexivity|].
    inversion Hgrest as [|? ? Hgy _]; subst.
    rewrite (compare_key _ _ Hgx Hgy).
    inversion Hx as [|? ? Hxy _]; subst.
    apply Qltb_ge in Hxy. rewrite Hxy. reflexivity.
Qed.

End SortFacts.

(** ** The derived sentiment values *)

Section SentimentDerived.

Import JsNumber SentimentAnalyzer.
Open Scope Q_scope.

Lemma within_finite (lo hi : Q) (a : number) : within lo hi a -> finite a.
Proof. destruct a; simpl; tauto. Qed.

Lemma within_valueOf (lo hi : Q) (a : number) :
  within lo hi a -> a = Num (valueOf a) /\ lo <= valueOf a <= hi.
Proof. destruct a; simpl; tauto. Qed.

(** The comparator [(a, b) => b - a] orders finite numbers by decreasing
    value. *)
Lemma descending_comparator (x y : number) :
  finite x -> finite y ->
  gt (sub y x) (Num 0) = Qltb (valueOf x) (valueOf y).
Proof.
  destruct x as [| | |x], y as [| | |y]; simpl; try contradiction. intros _ _.
  destruct (Qltb x y) eqn:E.
  - apply Qltb_lt in E. apply Qltb_lt. Lqa.lra.
  - apply Qltb_ge in E. apply Qltb_ge. Lqa.lra.
Qed.

Lemma keys_complete (e : Emotion) : In e EmotionScores.keys.
Proof. destruct e; simpl; tauto. Qed.

Lemma le_Num (x y : Q) : le (Num x) (Num y) = true <-> x <= y.
Proof. simpl. apply Qle_bool_iff. Qed.

(** The loop of [findDominantEmotion]. *)
Lemma dominant_loop (s : EmotionScores.t) (hi : Q) (l : list Emotion) :
  (forall e, within 0 hi (EmotionScores.get s e)) ->
  forall (m0 : number) (d0 : Emotion),
    within 0 hi m0 ->
    le m0 (EmotionScores.get s d0) = true ->
    let '(m, d) :=
      fold_left
        (fun '(maxScore, dominantEmotion) e =>
           let score := EmotionScores.get s e in
           if gt score maxScore then (score, e)
           else (maxScore, dominantEmotion))
        l (m0, d0) in
    within 0 hi m
    /\ le m0 m = true
    /\ (forall e, In e l -> le (EmotionScores.get s e) m = true)
    /\ le m (EmotionScores.get s d) = true.
Proof.
  intros Hs.
  set (F := fun '(maxScore, dominantEmotion) e =>
              let score := EmotionScores.get s e in
              if gt score maxScore then (score, e)
              else (maxScore, dominantEmotion)).
  induction l as [|e rest IH]; intros m0 d0 Hm Hd; cbn [fold_left].
  - destruct (within_inv _ _ _ Hm) as (q0 & Em & Hq).
    split; [exact Hm|]. split; [rewrite Em; apply le_Num; Lqa.lra|].
    split; [intros e []|exact Hd].
  - destruct (within_inv _ _ _ (Hs e)) as (x & Ee & He).
    destruct (within_inv _ _ _ Hm) as (q0 & Em & Hq).
    assert (EF : F (m0, d0) e
                 = if Qltb q0 x then (EmotionScores.get s e, e)
                   else (m0, d0)).
    { unfold F. cbv zeta. rewrite Ee, Em. reflexivity. }
    rewrite EF. clear EF.
    destruct (Qltb q0 x) eqn:E.
    + apply Qltb_lt in E.
      assert (Hd' : le (EmotionScores.get s e) (EmotionScores.get s e) = true).
      { rewrite Ee. apply le_Num. Lqa.lra. }
      specialize (IH (EmotionScores.get s e) e (Hs e) Hd').
      destruct (fold_left F rest (EmotionScores.get s e, e)) as [m d].
      destruct IH as (Hm' & Hmono & Hall & Hdom).
      destruct (within_inv _ _ _ Hm') as (q & Eq & Hq').
      rewrite Eq, Ee in Hmono. apply le_Num in Hmono.
      split; [exact Hm'|]. split; [rewrite Em, Eq; apply le_Num; Lqa.lra|].
      split; [|exact Hdom].
      intros e' [<-|Hin]; [|apply Hall; exact Hin].
      rewrite Ee, Eq. apply le_Num. exact Hmono.
    + apply Qltb_ge in E.
      specialize (IH m0 d0 Hm Hd).
      destruct (fold_left F rest (m0, d0)) as [m d].
      destruct IH as (Hm' & Hmono & Hall & Hdom).
      destruct (within_inv _ _ _ Hm') as (q & Eq & Hq').
      split; [exact Hm'|]. split; [exact Hmono|].
      split; [|exact Hdom].
      intros e' [<-|Hin]; [|apply Hall; exact Hin].
      rewrite Eq, Em in Hmono. apply le_Num in Hmono.
      rewrite Ee, Eq. apply le_Num. Lqa.lra.
Qed.

Lemma sorted_scores (s : EmotionScores.t) (hi : Q) :
  (forall e, within 0 hi (EmotionScores.get s e)) ->
  exists (s0 s1 : Q) (rest : list number),
    JsArray.sort (fun a b => sub b a) (EmotionScores.values s)
    = Num s0 :: Num s1 :: rest
    /\ 0 <= s1 /\ s1 <= s0 /\ s0 <= hi.
Proof.
  intros Hs.
  set (sorted := JsArray.sort (fun a b => sub b a) (EmotionScores.values s)).
  assert (Hgood : Forall (within 0 hi) (EmotionScores.values s)).
  { unfold EmotionScores.values. apply Forall_forall. intros a Ha.
    apply in_map_iff in Ha. destruct Ha as (e & <- & _). apply Hs. }
  assert (Hfin : Forall finite (EmotionScores.values s)).
  { eapply Forall_impl; [|exact Hgood]. intros a. apply within_finite. }
  pose proof (sort_descending number (fun a b => sub b a) valueOf finite
                (fun x y Hx Hy => descending_comparator x y Hx Hy)
                (EmotionScores.values s) Hfin) as Hdesc.
  pose proof (sort_length number (fun a b => sub b a) (EmotionScores.values s)) as Hlen.
  assert (Hin : forall a, In a sorted -> within 0 hi a).
  { intros a Ha. apply sort_In in Ha. rewrite Forall_forall in Hgood.
    apply Hgood. exact Ha. }
  fold sorted in Hdesc, Hlen. clearbody sorted.
  destruct sorted as [|a0 [|a1 rest]]; try discriminate Hlen.
  destruct (within_valueOf _ _ _ (Hin a0 (or_introl eq_refl))) as [E0 H0].
  destruct (within_valueOf _ _ _ (Hin a1 (or_intror (or_introl eq_refl))))
    as [E1 H1].
  exists (valueOf a0), (valueOf a1), rest.
  split; [rewrite <- E0, <- E1; reflexivity|].
  inversion Hdesc as [|? ? _ Hhead]; subst.
  inversion Hhead as [|? ? H01 _]; subst.
  repeat split; Lqa.lra.
Qed.

Lemma findDominantEmotion_within (s : EmotionScores.t) (hi : Q) :
  (forall e, within 0 hi (EmotionScores.get s e)) ->
  within 0 hi (DominantEmotion.score (findDominantEmotion s))
  /\ within 0 1 (DominantEmotion.confidence (findDominantEmotion s))
  /\ (forall e, le (EmotionScores.get s e)
                   (DominantEmotion.score (findDominantEmotion s)) = true)
  /\ le (DominantEmotion.score (findDominantEmotion s))
        (EmotionScores.get s (DominantEmotion.emotion (findDominantEmotion s)))
     = true.
Proof.
  intros Hs. cbv delta [findDominantEmotion] beta.
  assert (H0 : within 0 hi (Num 0)).
  { destruct (within_inv _ _ _ (Hs Joy)) as (x & _ & Hx). simpl. Lqa.lra. }
  assert (Hjoy : le (Num 0) (EmotionScores.get s Joy) = true).
  { destruct (within_inv _ _ _ (Hs Joy)) as (x & Ex & Hx). rewrite Ex.
    apply le_Num. Lqa.lra. }
  pose proof (dominant_loop s hi EmotionScores.keys Hs (Num 0) Joy H0 Hjoy)
    as Hloop.
  destruct (fold_left _ EmotionScores.keys (_, Joy)) as [m d].
  destruct Hloop as (Hm & _ & Hall & Hdom).
  destruct (sorted_scores s hi Hs) as (s0 & s1 & rest & -> & H1 & H01 & Hs0).
  cbn [DominantEmotion.score DominantEmotion.confidence DominantEmotion.emotion].
  split; [exact Hm|]. split; [|split; [|exact Hdom]].
  - unfold or, truthy. destruct (Qeq_bool s0 0) eqn:E; cbn [negb].
    + apply Qeq_bool_iff in E. cbn [sub neg add].
      rewrite div_Num by (intros H; discriminate H).
      assert (Hv : (s0 + - s1) / 1 == 0) by (field_simplify; Lqa.lra).
      destruct (min_Num 1 ((s0 + - s1) / 1)) as (m' & -> & Hm1 & Hm2 & [->| ->]);
        simpl; Lqa.lra.
    + apply Qeq_bool_neq in E. cbn [sub neg add].
      rewrite div_Num by exact E.
      assert (Hpos : 0 < s0).
      { destruct (Qlt_le_dec 0 s0); [assumption|]. exfalso. apply E. Lqa.lra. }
      assert (0 <= (s0 + - s1) / s0 <= 1) by (apply Qdiv_bounds; Lqa.lra).
      destruct (min_Num 1 ((s0 + - s1) / s0)) as (m' & -> & Hm1 & Hm2 & [->| ->]);
        simpl; Lqa.lra.
  - intros e. apply Hall. apply keys_complete.
Qed.

Lemma scores_finite (s : EmotionScores.t) (hi : Q) :
  (forall e, within 0 hi (EmotionScores.get s e)) ->
  exists j sa an fe su ant : Q,
    s = EmotionScores.mk (Num j) (Num sa) (Num an) (Num fe) (Num su) (Num ant)
    /\ 0 <= j /\ 0 <= sa /\ 0 <= an /\ 0 <= fe /\ 0 <= su /\ 0 <= ant.
Proof.
  intros Hs.
  destruct (within_inv _ _ _ (Hs Joy)) as (j & Ej & Hj).
  destruct (within_inv _ _ _ (Hs Sadness)) as (sa & Esa & Hsa).
  destruct (within_inv _ _ _ (Hs Anger)) as (an & Ean & Han).
  destruct (within_inv _ _ _ (Hs Fear)) as (fe & Efe & Hfe).
  destruct (within_inv _ _ _ (Hs Surprise)) as (su & Esu & Hsu).
  destruct (within_inv _ _ _ (Hs Anticipation)) as (ant & Eant & Hant).
  exists j, sa, an, fe, su, ant. destruct s. simpl in *. subst.
  repeat split; tauto.
Qed.

(** [Math.max(lo, Math.min(hi, x))] of a finite value. *)
Lemma clamp_within (lo hi x : Q) :
  lo <= hi -> within lo hi (max (Num lo) (min (Num hi) (Num x))).
Proof.
  intros H. destruct (min_Num hi x) as (m & -> & H1 & H2 & _).
  destruct (max_Num lo m) as (m' & -> & H3 & H4 & [->| ->]); simpl; Lqa.lra.
Qed.

Lemma calculateDimensions_within (s : EmotionScores.t) (hi : Q) :
  (forall e, within 0 hi (EmotionScores.get s e)) ->
  within (-1) 1 (fst (calculateDimensions s))
  /\ within 0 1 (snd (calculateDimensions s)).
Proof.
  intros Hs.
  destruct (scores_finite s hi Hs)
    as (j & sa & an & fe & su & ant & -> & Hj & Hsa & Han & Hfe & Hsu & Hant).
  unfold calculateDimensions.
  cbn [EmotionScores.joy EmotionScores.sadness EmotionScores.anger
       EmotionScores.fear EmotionScores.surprise EmotionScores.anticipation
       add mul sub neg fst snd].
  split.
  - destruct (max_Num (j + ant + su * 0.5 + (sa + an + fe)) 1)
      as (m & -> & H1 & H2 & _).
    rewrite div_Num by (intros H; Lqa.lra).
    apply clamp_within. Lqa.lra.
  - destruct (max_Num (an + fe + su + j * 0.7 + (sa + ant * 0.3)) 1)
      as (m & -> & H1 & H2 & _).
    rewrite div_Num by (intros H; Lqa.lra).
    apply clamp_within. Lqa.lra.
Qed.

Lemma calculateIntensity_within (s : EmotionScores.t) (hi : Q)
      (d : DominantEmotion.t) :
  (forall e, within 0 hi (EmotionScores.get s e)) ->
  within 0 hi (DominantEmotion.score d) ->
  within 0 1 (calculateIntensity s d).
Proof.
  intros Hs Hd.
  destruct (scores_finite s hi Hs)
    as (j & sa & an & fe & su & ant & -> & Hj & Hsa & Han & Hfe & Hsu & Hant).
  destruct (within_inv _ _ _ Hd) as (q & Eq & Hq).
  unfold calculateIntensity. rewrite Eq.
  cbn [EmotionScores.values EmotionScores.keys map EmotionScores.get
       EmotionScores.joy EmotionScores.sadness EmotionScores.anger
       EmotionScores.fear EmotionScores.surprise EmotionScores.anticipation
       fold_left add mul].
  rewrite div_Num by (intros H; discriminate H).
  apply min_one_within. apply Qdiv_nonneg; Lqa.lra.
Qed.

Lemma analyze_fields (text : string) (emojiInfluence : number) :
  let result := analyze text emojiInfluence in
  let scores := SentimentAnalysis.scores result in
  SentimentAnalysis.dominant result = findDominantEmotion scores
  /\ SentimentAnalysis.intensity result
     = calculateIntensity scores (findDominantEmotion scores)
  /\ SentimentAnalysis.valence result = fst (calculateDimensions scores)
  /\ SentimentAnalysis.arousal result = snd (calculateDimensions scores).
Proof.
  cbv zeta. unfold analyze.
  destruct (calculateDimensions _) as [valence arousal] eqn:E.
  cbn [SentimentAnalysis.scores SentimentAnalysis.dominant
       SentimentAnalysis.intensity SentimentAnalysis.valence
       SentimentAnalysis.arousal fst snd].
  repeat split.
Qed.

End SentimentDerived.

Section SentimentDerivedProperties.

Import JsNumber SentimentAnalyzer.
Open Scope Q_scope.

(** X3. For every text and every emoji influence, the derived values of
    the sentiment analysis are finite and in their ranges: intensity in
    [0, 1], valence in [-1, 1], arousal in [0, 1], and the confidence of the
    dominant emotion in [0, 1]. *)
Theorem analyze_derived_values_bounds (text : string)
        (emojiInfluence : number) :
  let result := analyze text emojiInfluence in
  within 0 1 (SentimentAnalysis.intensity result)
  /\ within (-1) 1 (SentimentAnalysis.valence result)
  /\ within 0 1 (SentimentAnalysis.arousal result)
  /\ within 0 1 (DominantEmotion.confidence (SentimentAnalysis.dominant result)).
Proof.
  intros result.
  pose proof (analyze_scores_bounds text emojiInfluence) as Hs.
  destruct (analyze_fields text emojiInfluence) as (Ed & Ei & Ev & Ea).
  fold result in Hs, Ed, Ei, Ev, Ea.
  rewrite Ed, Ei, Ev, Ea.
  destruct (findDominantEmotion_within _ 1.6 Hs) as (Hscore & Hconf & _).
  destruct (calculateDimensions_within _ 1.6 Hs) as [Hv Ha].
  split; [|split; [|split]]; try assumption.
  apply (calculateIntensity_within _ 1.6); assumption.
Qed.

(** X4. For every text and every emoji influence, the dominant emotion
    is one of highest score: no emotion scores above [dominant.score], the
    score of [dominant.emotion] is not below it, and it is a finite number
    that is not negative. *)
Theorem dominant_emotion_has_highest_score (text : string)
        (emojiInfluence : number) :
  let result := analyze text emojiInfluence in
  let dominant := SentimentAnalysis.dominant result in
  let scoreOf := EmotionScores.get (SentimentAnalysis.scores result) in
  (forall e, le (scoreOf e) (DominantEmotion.score dominant) = true)
  /\ le (DominantEmotion.score dominant)
        (scoreOf (DominantEmotion.emotion dominant)) = true
  /\ exists score : Q,
       DominantEmotion.score dominant = Num score /\ 0 <= score.
Proof.
  intros result dominant scoreOf.
  pose proof (analyze_scores_bounds text emojiInfluence) as Hs.
  destruct (analyze_fields text emojiInfluence) as (Ed & _).
  fold result in Hs, Ed. subst dominant scoreOf. rewrite Ed.
  destruct (findDominantEmotion_within _ 1.6 Hs) as (Hscore & _ & Hall & Hdom).
  split; [exact Hall|]. split; [exact Hdom|].
  destruct (within_inv _ _ _ Hscore) as (score & E & Hrange).
  exists score. split; [exact E | apply Hrange].
Qed.

End SentimentDerivedProperties.

(** ** Bounds of the complexity scores *)

Section ComplexityBounds.

Import JsNumber ComplexityAnalyzer.
Open Scope Q_scope.

Lemma count_le (A : Type) (test : A -> bool) (l : list A) :
  (count test l <= List.length l)%nat.
Proof. unfold count. apply filter_length_le. Qed.

Lemma unique_length (seen l : list string) :
  (List.length (JsArray.unique seen l) <= List.length l)%nat.
Proof.
  revert seen. induction l as [|w rest IH]; intros seen; simpl.
  - lia.
  - destruct (JsArray.includes seen w); simpl.
    + specialize (IH seen). lia.
    + specialize (IH (w :: seen)). lia.
Qed.

Lemma unique_nonempty (w : string) (rest : list string) :
  (0 < List.length (JsArray.unique [] (w :: rest)))%nat.
Proof. simpl. lia. Qed.

(** A count divided by a positive count. *)
Lemma ratio_nonneg (a b : nat) :
  (0 < b)%nat ->
  exists q, div (ofNat a) (ofNat b) = Num q /\ 0 <= q.
Proof.
  intros Hb. unfold ofNat, ofZ. rewrite div_Num.
  - eexists. split; [reflexivity|].
    apply Qdiv_nonneg.
    + replace 0 with (inject_Z 0) by reflexivity. rewrite <- Zle_Qle. lia.
    + replace 0 with (inject_Z 0) by reflexivity. rewrite <- Zlt_Qlt. lia.
  - intros H. unfold Qeq in H. simpl in H. lia.
Qed.

Lemma ofNat_nonneg (n : nat) : 0 <= inject_Z (Z.of_nat n).
Proof.
  replace 0 with (inject_Z 0) by reflexivity. rewrite <- Zle_Qle. lia.
Qed.

Lemma min_one_Num (x : Q) :
  0 <= x -> exists m, min (Num 1) (Num x) = Num m /\ 0 <= m <= 1.
Proof.
  intros Hx. destruct (min_Num 1 x) as (m & E & H1 & H2 & [->| ->]);
    eexists; (split; [exact E|Lqa.lra]).
Qed.

Lemma calculateVocabularyDiversity_within (words : list string) :
  within 0 1 (calculateVocabularyDiversity words).
Proof.
  destruct words as [|w rest]; [simpl; Lqa.lra|].
  unfold calculateVocabularyDiversity.
  set (words := w :: rest).
  set (uniqueWords := JsArray.unique [] words).
  assert (Hu : (0 < List.length uniqueWords)%nat) by apply unique_nonempty.
  assert (Hw : (0 < List.length words)%nat) by (simpl; lia).
  destruct (ratio_within (List.length uniqueWords) (List.length words)
              (unique_length [] words) Hw) as (ttr & -> & Httr).
  match goal with
  | |- context [mul (div (ofNat (count ?f uniqueWords)) _) (Num 0.3)] =>
      destruct (ratio_within (count f uniqueWords) (List.length uniqueWords)
                  (count_le _ f uniqueWords) Hu) as (sr & -> & Hsr)
  end.
  match goal with
  | |- context [sub (Num 1) (div (ofNat (count ?f uniqueWords)) _)] =>
      destruct (ratio_within (count f uniqueWords) (List.length uniqueWords)
                  (count_le _ f uniqueWords) Hu) as (cr & -> & Hcr)
  end.
  cbn [add mul sub neg].
  apply min_one_within. Lqa.lra.
Qed.

Lemma sentenceComplexityOf_within (sentence : string) :
  within 0 1 (sentenceComplexityOf sentence).
Proof.
  unfold sentenceComplexityOf.
  set (wordCount := List.length _).
  set (subordinateCount := fold_left _ subordinateIndicators 0%nat).
  assert (Hlen : exists x,
             (if (wordCount <=? 10)%nat then Num 0.2
              else if (wordCount <=? 20)%nat then Num 0.5
              else if (wordCount <=? 30)%nat then Num 0.8
              else Num 1.0) = Num x /\ 0 <= x <= 1).
  { destruct (wordCount <=? 10)%nat; [eexists; split; [reflexivity|Lqa.lra]|].
    destruct (wordCount <=? 20)%nat; [eexists; split; [reflexivity|Lqa.lra]|].
    destruct (wordCount <=? 30)%nat; eexists; (split; [reflexivity|Lqa.lra]). }
  destruct Hlen as (x & -> & Hx).
  unfold ofNat, ofZ. cbn [add mul].
  pose proof (ofNat_nonneg (JsString.countChar ","%char sentence)).
  pose proof (ofNat_nonneg (JsString.countChar ";"%char sentence)).
  pose proof (ofNat_nonneg (JsString.countChar ":"%char sentence)).
  pose proof (ofNat_nonneg subordinateCount).
  match goal with
  | |- context [min (Num 1) (Num ?p)] =>
      let H := fresh in
      assert (H : 0 <= p) by Lqa.lra;
      destruct (min_one_Num p H) as (punctuation & -> & Hp); clear H
  end.
  match goal with
  | |- context [min (Num 1) (Num ?p)] =>
      let H := fresh in
      assert (H : 0 <= p) by Lqa.lra;
      destruct (min_one_Num p H) as (subordinate & -> & Hsub); clear H
  end.
  cbn [add mul]. simpl. Lqa.lra.
Qed.

(** A sum of values between 0 and 1. *)
Lemma sum_within (A : Type) (f : A -> number) (l : list A) :
  (forall x, within 0 1 (f x)) ->
  forall a : Q,
    exists t, fold_left (fun total x => add total (f x)) l (Num a) = Num t
              /\ a <= t <= a + inject_Z (Z.of_nat (List.length l)).
Proof.
  intros Hf. induction l as [|x rest IH]; intros a.
  - exists a. split; [reflexivity|].
    change (inject_Z (Z.of_nat (List.length (@nil A)))) with 0. Lqa.lra.
  - cbn [fold_left]. destruct (within_inv _ _ _ (Hf x)) as (y & -> & Hy).
    cbn [add]. destruct (IH (a + y)) as (t & -> & Ht).
    exists t. split; [reflexivity|].
    replace (Z.of_nat (List.length (x :: rest)))
      with (Z.of_nat (List.length rest) + 1)%Z by (simpl List.length; lia).
    rewrite inject_Z_plus. change (inject_Z 1) with 1. Lqa.lra.
Qed.

Lemma calculateSentenceComplexity_within (sentences : list string) :
  within 0 1 (calculateSentenceComplexity sentences).
Proof.
  destruct sentences as [|s rest]; [simpl; Lqa.lra|].
  unfold calculateSentenceComplexity.
  set (sentences := s :: rest).
  destruct (sum_within _ sentenceComplexityOf sentences
              sentenceComplexityOf_within 0) as (t & -> & Ht).
  assert (Hpos : 0 < inject_Z (Z.of_nat (List.length sentences))).
  { replace 0 with (inject_Z 0) by reflexivity. rewrite <- Zlt_Qlt.
    simpl List.length. lia. }
  unfold ofNat, ofZ. rewrite div_Num by (intros H; rewrite H in Hpos; Lqa.lra).
  cbn [within]. apply Qdiv_bounds; Lqa.lra.
Qed.

Lemma calculateConceptDensity_within (words : list string) :
  within 0 1 (calculateConceptDensity words).
Proof.
  destruct words as [|w rest]; [simpl; Lqa.lra|].
  unfold calculateConceptDensity.
  set (words := w :: rest).
  assert (Hw : (0 < List.length words)%nat) by (simpl; lia).
  repeat match goal with
  | |- context [div (ofNat (count ?f words)) _] =>
      let q := fresh "q" in
      let Hq := fresh "Hq" in
      destruct (ratio_within (count f words) (List.length words)
                  (count_le _ f words) Hw) as (q & -> & Hq)
  end.
  cbn [add mul]. apply min_one_within. Lqa.lra.
Qed.

(** The loop over [nuanceIndicators]. *)
Lemma nuance_nonneg (test : string -> bool) (l : list string) :
  forall a : Q,
    0 <= a ->
    exists n, fold_left (fun nuance indicator =>
                           if test indicator then add nuance (Num 0.2)
                           else nuance) l (Num a) = Num n
              /\ 0 <= n.
Proof.
  induction l as [|x rest IH]; intros a Ha; cbn [fold_left].
  - exists a. split; [reflexivity|exact Ha].
  - destruct (test x); cbn [add]; apply IH; Lqa.lra.
Qed.

Lemma calculateEmotionalComplexity_within (text : string)
      (words : list string) :
  words <> [] -> within 0 1 (calculateEmotionalComplexity text words).
Proof.
  intros Hne. unfold calculateEmotionalComplexity.
  assert (Hw : (0 < List.length words)%nat).
  { destruct words; [contradiction|simpl; lia]. }
  destruct (nuance_nonneg
              (JsString.includes (JsString.toLowerCase text))
              nuanceIndicators 0 (Qle_refl 0)) as (n & -> & Hn).
  destruct (min_one_Num n Hn) as (m & -> & Hm).
  rewrite <- Nat2Z.inj_add || idtac.
  repeat match goal with
  | |- context [div (ofNat ?a) (ofNat (List.length words))] =>
      let q := fresh "q" in
      let Hq := fresh "Hq" in
      destruct (ratio_nonneg a (List.length words) Hw) as (q & -> & Hq)
  end.
  cbn [add mul]. apply min_one_within. Lqa.lra.
Qed.

Lemma analyze_within (text : string) :
  tokenizeText text <> [] ->
  let complexity := analyze text in
  within 0 1 (ComplexityAnalysis.overallComplexity complexity)
  /\ within 0 1 (ComplexityAnalysis.vocabularyDiversity complexity)
  /\ within 0 1 (ComplexityAnalysis.sentenceComplexity complexity)
  /\ within 0 1 (ComplexityAnalysis.conceptDensity complexity)
  /\ within 0 1 (ComplexityAnalysis.emotionalComplexity complexity).
Proof.
  intros Hne. unfold analyze.
  cbn [ComplexityAnalysis.overallComplexity
       ComplexityAnalysis.vocabularyDiversity
       ComplexityAnalysis.sentenceComplexity
       ComplexityAnalysis.conceptDensity
       ComplexityAnalysis.emotionalComplexity].
  pose proof (calculateVocabularyDiversity_within (tokenizeText text)) as Hv.
  pose proof (calculateSentenceComplexity_within (splitIntoSentences text))
    as Hs.
  pose proof (calculateConceptDensity_within (tokenizeText text)) as Hc.
  pose proof (calculateEmotionalComplexity_within text (tokenizeText text) Hne)
    as He.
  repeat split; try assumption.
  destruct (within_inv _ _ _ Hv) as (v & -> & Hv').
  destruct (within_inv _ _ _ Hs) as (s & -> & Hs').
  destruct (within_inv _ _ _ Hc) as (c & -> & Hc').
  destruct (within_inv _ _ _ He) as (e & -> & He').
  cbn [add mul]. apply min_one_within. Lqa.lra.
Qed.

End ComplexityBounds.

Section ComplexityProperties.

Import JsNumber ComplexityAnalyzer.
Open Scope Q_scope.

(** X5. The complexity scores of a text are decided by its tokens: with no
    token (no letter, digit or underscore in the text) the emotional and
    the overall complexity are NaN; with at least one token all five
    scores are finite and lie in [0, 1]. *)
Theorem complexity_scores_in_unit_interval_or_NaN (text : string) :
  let complexity := analyze text in
  match tokenizeText text with
  | [] =>
      ComplexityAnalysis.overallComplexity complexity = NaN
      /\ ComplexityAnalysis.emotionalComplexity complexity = NaN
  | _ :: _ =>
      within 0 1 (ComplexityAnalysis.overallComplexity complexity)
      /\ within 0 1 (ComplexityAnalysis.vocabularyDiversity complexity)
      /\ within 0 1 (ComplexityAnalysis.sentenceComplexity complexity)
      /\ within 0 1 (ComplexityAnalysis.conceptDensity complexity)
      /\ within 0 1 (ComplexityAnalysis.emotionalComplexity complexity)
  end.
Proof.
  intros complexity. destruct (tokenizeText text) as [|w rest] eqn:E.
  - apply overallComplexity_no_words. exact E.
  - apply analyze_within. rewrite E. discriminate.
Qed.

End ComplexityProperties.

(** ** Texts without an emotional word *)

Section NeutralText.

Import JsNumber SentimentAnalyzer.
Open Scope Q_scope.
Open Scope string_scope.

Lemma step_no_emotion (st : Scan) (word : string) :
  JsMap.get emotionLexicon word = None ->
  scores (step st word) = scores st
  /\ totalEmotionalWords (step st word) = totalEmotionalWords st.
Proof.
  intros H. unfold step.
  destruct (JsArray.includes negationWords word); [split; reflexivity|].
  destruct (JsMap.get intensifierWords word); [split; reflexivity|].
  rewrite H. split; reflexivity.
Qed.

Lemma scan_no_emotion (words : list string) (st : Scan) :
  Forall (fun word => JsMap.get emotionLexicon word = None) words ->
  scores (fold_left step words st) = scores st
  /\ totalEmotionalWords (fold_left step words st) = totalEmotionalWords st.
Proof.
  intros H. revert st. induction H as [|word rest Hword _ IH]; intros st.
  - split; reflexivity.
  - cbn [fold_left]. destruct (IH (step st word)) as [-> ->].
    apply step_no_emotion. exact Hword.
Qed.

Lemma calculateEmotionScores_no_emotion (words : list string) :
  Forall (fun word => JsMap.get emotionLexicon word = None) words ->
  calculateEmotionScores words = zeroScores.
Proof.
  intros H. unfold calculateEmotionScores, normalize.
  destruct (scan_no_emotion words initialScan H) as [-> ->]. reflexivity.
Qed.

(** X6. A text none of whose tokens is a key of the emotion lexicon is
    neutral: all six scores are 0, intensity, valence and arousal are 0, and
    the dominant emotion is the initial value of the search, joy, with score
    0 and confidence 0. *)
Theorem text_without_emotional_word_is_neutral (text : string) :
  Forall (fun word => JsMap.get emotionLexicon word = None)
         (tokenizeText text) ->
  let result := analyze text (Num 0) in
  let dominant := SentimentAnalysis.dominant result in
  SentimentAnalysis.scores result = zeroScores
  /\ DominantEmotion.emotion dominant = Joy
  /\ within 0 0 (DominantEmotion.score dominant)
  /\ within 0 0 (DominantEmotion.confidence dominant)
  /\ within 0 0 (SentimentAnalysis.intensity result)
  /\ within 0 0 (SentimentAnalysis.valence result)
  /\ within 0 0 (SentimentAnalysis.arousal result).
Proof.
  intros H. cbv zeta. unfold analyze.
  rewrite (calculateEmotionScores_no_emotion _ H).
  vm_compute. repeat split; intros E; discriminate E.
Qed.

End NeutralText.

Lemma text_without_emotional_word_is_neutral_witness :
  let result := SentimentAnalyzer.analyze "The cat sat on the mat." (Num 0) in
  let dominant := SentimentAnalysis.dominant result in
  SentimentAnalysis.scores result = SentimentAnalyzer.zeroScores
  /\ DominantEmotion.emotion dominant = Joy
  /\ JsNumber.within 0 0 (DominantEmotion.score dominant)
  /\ JsNumber.within 0 0 (DominantEmotion.confidence dominant)
  /\ JsNumber.within 0 0 (SentimentAnalysis.intensity result)
  /\ JsNumber.within 0 0 (SentimentAnalysis.valence result)
  /\ JsNumber.within 0 0 (SentimentAnalysis.arousal result).
Proof.
  apply (text_without_emotional_word_is_neutral "The cat sat on the mat.").
  vm_compute. repeat constructor.
Defined.

(** ** The tier table and the derived budgets *)

Section TierFacts.

Import JsNumber TextAnalyzer.
Open Scope Q_scope.

Ltac pick T := exists T; split; [simpl; tauto | simpl; lia].

Lemma tier_cases (W : Z) :
  (1 <= W <= 12500)%Z ->
  exists t, In t (map snd SCALING_THRESHOLDS)
            /\ (Threshold.min t <= W <= Threshold.max t)%Z.
Proof.
  intros H.
  assert (C : (W <= 3 \/ 4 <= W <= 8 \/ 9 <= W <= 15 \/ 16 <= W <= 30
               \/ 31 <= W <= 60 \/ 61 <= W <= 100 \/ 101 <= W <= 200
               \/ 201 <= W <= 350 \/ 351 <= W <= 500 \/ 501 <= W <= 800
               \/ 801 <= W <= 1200 \/ 1201 <= W <= 2000
               \/ 2001 <= W <= 3500 \/ 3501 <= W <= 5000
               \/ 5001 <= W <= 7000 \/ 7001 <= W <= 10000
               \/ 10001 <= W)%Z) by lia.
  destruct C as [C|[C|[C|[C|[C|[C|[C|[C|[C|[C|[C|[C|[C|[C|[C|[C|C]]]]]]]]]]]]]]]];
    [ pick MICRO_TINY
    | pick MICRO_SMALL
    | pick MICRO_MEDIUM
    | pick SMALL_LIGHT
    | pick SMALL_MEDIUM
    | pick SMALL_HEAVY
    | pick MEDIUM_LIGHT
    | pick MEDIUM_HEAVY
    | pick MEDIUM_MAX
    | pick LARGE_LIGHT
    | pick LARGE_MEDIUM
    | pick LARGE_HEAVY
    | pick MASSIVE_LIGHT
    | pick MASSIVE_HEAVY
    | pick MASSIVE_MAX
    | pick EPIC_STANDARD
    | pick EPIC_MAX ].
Qed.

Lemma tier_bounds (t : Threshold.t) :
  In t (map snd SCALING_THRESHOLDS) ->
  (1 <= Threshold.min t)%Z /\ (Threshold.max t <= 12500)%Z.
Proof.
  simpl. intros H.
  repeat (destruct H as [<-|H]; [simpl; lia|]). destruct H.
Qed.

Lemma MICRO_TINY_listed : In MICRO_TINY (map snd SCALING_THRESHOLDS).
Proof. simpl. tauto. Qed.

Lemma floor_le (x : Q) : inject_Z (Qfloor x) <= x.
Proof. apply Qfloor_le. Qed.

Lemma calculateParticleCount_sharp (n : Q) (s : ScalingType) :
  0 <= n <= 700 ->
  within 500 33600 (calculateParticleCount (Num n) s).
Proof.
  intros Hn. unfold calculateParticleCount.
  rewrite strategyParticleMultipliers_truthy.
  assert (Hm : 0 < strategyParticleMultipliers s <= 1.2)
    by (destruct s; simpl; Lqa.lra).
  set (m := strategyParticleMultipliers s) in *. clearbody m.
  assert (Hv : exists v, (if le (Num n) (Num 100) then Num 75
                          else if le (Num n) (Num 300) then Num 60
                          else if le (Num n) (Num 500) then Num 50
                          else Num 40) = Num v
                         /\ n * v <= 28000).
  { cbn [le].
    destruct (Qle_bool n 100) eqn:E1;
      [apply Qle_bool_iff in E1; eexists; split; [reflexivity|Lqa.lra]|].
    destruct (Qle_bool n 300) eqn:E2;
      [apply Qle_bool_iff in E2; eexists; split; [reflexivity|Lqa.lra]|].
    destruct (Qle_bool n 500) eqn:E3;
      [apply Qle_bool_iff in E3; eexists; split; [reflexivity|Lqa.lra]|].
    eexists; split; [reflexivity|Lqa.lra]. }
  destruct Hv as (v & -> & Hv).
  cbn [mul floor].
  pose proof (floor_le (n * v * m)) as Hf.
  assert (Hb : n * v * m <= 33600) by Lqa.nra.
  destruct (max_Num 500 (inject_Z (Qfloor (n * v * m))))
    as (a & -> & Ha1 & Ha2 & Ha3).
  assert (Ha : a <= 33600) by (destruct Ha3 as [->| ->]; Lqa.lra).
  destruct (min_Num 35000 a) as (b & -> & Hb1 & Hb2 & [->| ->]);
    simpl; Lqa.lra.
Qed.

Lemma calculateCompressionLevel_within (W : Z) (n : Q) :
  0 <= n -> within 0 1 (calculateCompressionLevel W (Num n)).
Proof.
  intros Hn. unfold calculateCompressionLevel.
  destruct (Z.leb_spec W 50) as [HW|HW].
  - cbn [sub neg add]. rewrite div_Num by (intros H; discriminate H).
    destruct (max_Num 0 ((50 + - n) / 50)) as (m & -> & H1 & H2 & [->| ->]);
      simpl; [Lqa.lra|].
    split; [exact H1|]. apply Qle_shift_div_r; Lqa.lra.
  - unfold ofZ. cbn [mul].
    assert (HWq : 51 <= inject_Z W).
    { replace 51 with (inject_Z 51) by reflexivity. rewrite <- Zle_Qle. lia. }
    destruct (min_Num 100 (inject_Z W * 0.5)) as (ideal & -> & _ & _ & Hi).
    assert (Hideal : 0 < ideal) by (destruct Hi as [->| ->]; Lqa.lra).
    rewrite div_Num by (intros H; rewrite H in Hideal; Lqa.lra).
    cbn [sub neg add]. apply clamp_within. Lqa.lra.
Qed.

End TierFacts.

Section TierProperties.

Import JsNumber TextAnalyzer.
Open Scope Q_scope.

(** X7. The ranges of the tier table partition the word counts 1 to
    12,500: the tier the resolver selects is an entry of the table, its range
    contains the word count exactly when the count is between 1 and 12,500,
    and no other entry's range contains the count (no gap, no overlap). *)
Theorem tier_ranges_partition_word_counts (W : Z) :
  let tier := findThreshold W SCALING_THRESHOLDS MICRO_TINY in
  In tier (map snd SCALING_THRESHOLDS)
  /\ ((Threshold.min tier <= W <= Threshold.max tier)%Z
      <-> (1 <= W <= 12500)%Z)
  /\ (forall other, In other (map snd SCALING_THRESHOLDS) ->
                    (Threshold.min other <= W <= Threshold.max other)%Z ->
                    other = tier).
Proof.
  intros tier. split; [|split].
  - destruct (findThreshold_In W SCALING_THRESHOLDS MICRO_TINY) as [E|H].
    + subst tier. rewrite E. apply MICRO_TINY_listed.
    + exact H.
  - split.
    + intros H.
      assert (Hin : In tier (map snd SCALING_THRESHOLDS)).
      { destruct (findThreshold_In W SCALING_THRESHOLDS MICRO_TINY) as [E|H'].
        - subst tier. rewrite E. apply MICRO_TINY_listed.
        - exact H'. }
      destruct (tier_bounds tier Hin). lia.
    + intros H. destruct (tier_cases W H) as (t & Hin & Hrange).
      subst tier. rewrite (findThreshold_selects t W Hin Hrange). exact Hrange.
  - intros other Hin Hrange. subst tier.
    symmetry. apply findThreshold_selects; assumption.
Qed.

(** X8. Between 1 and 12,500 words the multiplier of the selected tier
    never grows with the word count: a longer text is never scaled by a larger
    factor than a shorter one. *)
Theorem multiplier_never_grows_with_word_count (W1 W2 : Z) :
  (1 <= W1)%Z -> (W1 <= W2)%Z -> (W2 <= 12500)%Z ->
  let tier W := findThreshold W SCALING_THRESHOLDS MICRO_TINY in
  Threshold.multiplier (tier W2) <= Threshold.multiplier (tier W1).
Proof.
  intros H1 H12 H2 tier. subst tier. cbv beta.
  destruct (tier_cases W1 ltac:(lia)) as (t1 & Hin1 & Hr1).
  destruct (tier_cases W2 ltac:(lia)) as (t2 & Hin2 & Hr2).
  rewrite (findThreshold_selects t1 W1 Hin1 Hr1).
  rewrite (findThreshold_selects t2 W2 Hin2 Hr2).
  simpl in Hin1, Hin2.
  repeat (destruct Hin1 as [<-|Hin1]); try contradiction;
    simpl in Hr1;
    repeat (destruct Hin2 as [<-|Hin2]); try contradiction;
    simpl in Hr2;
    first [ exfalso; lia | vm_compute; discriminate ].
Qed.

End TierProperties.

Lemma multiplier_never_grows_with_word_count_witness :
  let tier W :=
    TextAnalyzer.findThreshold W SCALING_THRESHOLDS MICRO_TINY in
  (Threshold.multiplier (tier 1000%Z) <= Threshold.multiplier (tier 10%Z))%Q.
Proof.
  apply (multiplier_never_grows_with_word_count 10 1000); lia.
Defined.

(** ** The budgets of a text with at least one token *)

Section PipelineBudget.

Import JsNumber TextAnalyzer.
Open Scope Q_scope.

Lemma analyzeSentiment_intensity (text : string) :
  within 0 1 (SentimentAnalysis.intensity (analyzeSentiment text)).
Proof.
  unfold analyzeSentiment.
  set (influence := SentimentAnalyzer.calculateEmojiInfluence _).
  pose proof (analyze_scores_bounds text influence) as Hs.
  destruct (analyze_fields text influence) as (_ & -> & _).
  destruct (findDominantEmotion_within _ 1.6 Hs) as (Hscore & _).
  apply (calculateIntensity_within _ 1.6); assumption.
Qed.

Lemma determineScalingStrategy_within (W : Z)
      (complexity : ComplexityAnalysis.t) (sentiment : SentimentAnalysis.t) :
  (0 <= W)%Z ->
  within 0 1 (ComplexityAnalysis.overallComplexity complexity) ->
  within 0 1 (SentimentAnalysis.intensity sentiment) ->
  let strategy := determineScalingStrategy W complexity sentiment in
  exists n : Z,
    ScalingStrategy.nodeCount strategy = ofZ n
    /\ (8 <= n <= 700)%Z
    /\ within 500 33600 (ScalingStrategy.particleCount strategy)
    /\ within 0 1 (ScalingStrategy.compressionLevel strategy).
Proof.
  intros HW Hc He strategy. subst strategy. unfold determineScalingStrategy.
  cbn [ScalingStrategy.nodeCount ScalingStrategy.particleCount
       ScalingStrategy.compressionLevel].
  destruct (within_inv _ _ _ Hc) as (c & Ec & _).
  destruct (within_inv _ _ _ He) as (e & -> & _).
  set (strategy := Threshold.strategy _).
  rewrite (calculateBaseNodeCount_finite W complexity c e strategy HW Ec).
  set (n := Spec.nodeCount _ _ _ _).
  pose proof (Spec_nodeCount_bounds W (Q2R c) (Q2R e)
                (Q2R (strategyMultipliers strategy))) as Hn.
  fold n in Hn. clearbody n.
  assert (Hq : 8 <= inject_Z n <= 700).
  { replace 8 with (inject_Z 8) by reflexivity.
    replace 700 with (inject_Z 700) by reflexivity.
    rewrite <- !Zle_Qle. exact Hn. }
  exists n. split; [reflexivity|]. split; [exact Hn|]. split.
  - apply calculateParticleCount_sharp. Lqa.lra.
  - apply calculateCompressionLevel_within. Lqa.lra.
Qed.

End PipelineBudget.

Section PipelineProperties.

Import JsNumber TextAnalyzer.
Open Scope Q_scope.

Variable conceptExtractor : ConceptExtractor.t.

(** X9. For every concept extractor and every text with at least one
    token (a letter, digit or underscore), an analysis that is computed
    (not served from the cache) has finite scores and budgets: overall
    complexity and emotional intensity in [0, 1], an integer node count in
    [8, 700], a particle count in [500, 33600] (the cap 35,000 of the code
    is never reached) and a compression level in [0, 1]. *)
Theorem worded_text_gets_valid_budgets (text : string) (useCache : bool)
        (s : State) :
  ComplexityAnalyzer.tokenizeText text <> [] ->
  (useCache = true -> JsMap.get (analysisCache s) (hashText text) = None) ->
  let result := fst (analyze conceptExtractor text useCache s) in
  let strategy := AnalysisResult.scalingStrategy result in
  exists n : Z,
    ScalingStrategy.nodeCount strategy = ofZ n
    /\ (8 <= n <= 700)%Z
    /\ within 500 33600 (ScalingStrategy.particleCount strategy)
    /\ within 0 1 (ScalingStrategy.compressionLevel strategy)
    /\ within 0 1 (ComplexityAnalysis.overallComplexity
                     (AnalysisResult.complexity result))
    /\ within 0 1 (SentimentAnalysis.intensity
                     (AnalysisResult.sentiment result)).
Proof.
  intros Htokens Hmiss result strategy. subst strategy result.
  rewrite (analyze_miss conceptExtractor text useCache s Hmiss).
  cbn [AnalysisResult.scalingStrategy AnalysisResult.complexity
       AnalysisResult.sentiment].
  destruct (analyze_within text Htokens) as (Hc & _).
  pose proof (analyzeSentiment_intensity text) as He.
  destruct (determineScalingStrategy_within
              (Z.of_nat (List.length (tokenizeText text)))
              (ComplexityAnalyzer.analyze text) (analyzeSentiment text)
              (Nat2Z.is_nonneg _) Hc He) as (n & En & Hn & Hp & Hl).
  exists n. repeat split; try assumption; lia.
Qed.

End PipelineProperties.

Lemma worded_text_gets_valid_budgets_witness :
  let conceptExtractor :=
    ConceptExtractor.mk (fun _ => []) (fun _ => SemanticGraph.mk [] [] []) in
  let result :=
    fst (TextAnalyzer.analyze conceptExtractor "I am very happy today!" true
           (TextAnalyzer.state [] (fun _ => 0%Z))) in
  let strategy := AnalysisResult.scalingStrategy result in
  exists n : Z,
    ScalingStrategy.nodeCount strategy = JsNumber.ofZ n
    /\ (8 <= n <= 700)%Z
    /\ JsNumber.within 500 33600 (ScalingStrategy.particleCount strategy)
    /\ JsNumber.within 0 1 (ScalingStrategy.compressionLevel strategy)
    /\ JsNumber.within 0 1 (ComplexityAnalysis.overallComplexity
                              (AnalysisResult.complexity result))
    /\ JsNumber.within 0 1 (SentimentAnalysis.intensity
                              (AnalysisResult.sentiment result)).
Proof.
  intros conceptExtractor.
  apply (worded_text_gets_valid_budgets conceptExtractor
           "I am very happy today!" true
           (TextAnalyzer.state [] (fun _ => 0%Z))).
  - vm_compute. discriminate.
  - reflexivity.
Defined.

(** ** The cache: size, expiry and repeated calls *)

Section MapFacts.

Variable V : Type.

Lemma set_length (m : JsMap.t V) (k : string) (v : V) :
  (List.length (JsMap.set m k v) <= S (List.length m))%nat.
Proof.
  induction m as [|[k' v'] rest IH]; simpl.
  - lia.
  - destruct (String.eqb k k'); simpl; lia.
Qed.

Lemma set_In (m : JsMap.t V) (k : string) (v : V) (e : string * V) :
  In e (JsMap.set m k v) -> e = (k, v) \/ In e m.
Proof.
  induction m as [|[k' v'] rest IH]; simpl.
  - intros [<-|[]]. left. reflexivity.
  - destruct (String.eqb k k'); simpl.
    + intros [<-|H]; [left; reflexivity | right; right; exact H].
    + intros [<-|H]; [right; left; reflexivity|].
      destruct (IH H) as [->|H']; [left; reflexivity | right; right; exact H'].
Qed.

(** What was set is found, also after entries that fail a test are
    deleted, provided the new entry passes it. *)
Lemma get_filter_set (test : string * V -> bool) (m : JsMap.t V)
      (k : string) (v : V) :
  test (k, v) = true ->
  JsMap.get (filter test (JsMap.set m k v)) k = Some v.
Proof.
  intros Ht. induction m as [|[k' v'] rest IH]; simpl.
  - rewrite Ht. simpl. rewrite String.eqb_refl. reflexivity.
  - destruct (String.eqb k k') eqn:E; simpl.
    + rewrite Ht. simpl. rewrite String.eqb_refl. reflexivity.
    + destruct (test (k', v')); simpl; [rewrite E|]; exact IH.
Qed.

Lemma get_set_same (m : JsMap.t V) (k : string) (v : V) :
  JsMap.get (JsMap.set m k v) k = Some v.
Proof.
  induction m as [|[k' v'] rest IH]; simpl.
  - rewrite String.eqb_refl. reflexivity.
  - destruct (String.eqb k k') eqn:E; simpl.
    + rewrite String.eqb_refl. reflexivity.
    + rewrite E. exact IH.
Qed.

Lemma get_set_other (m : JsMap.t V) (k k' : string) (v : V) :
  k' <> k -> JsMap.get (JsMap.set m k v) k' = JsMap.get m k'.
Proof.
  intros Hne. induction m as [|[k0 v0] rest IH]; simpl.
  - apply String.eqb_neq in Hne. rewrite Hne. reflexivity.
  - destruct (String.eqb k k0) eqn:E; simpl.
    + apply String.eqb_eq in E. subst k0.
      apply String.eqb_neq in Hne. rewrite Hne. reflexivity.
    + destruct (String.eqb k' k0); [reflexivity | exact IH].
Qed.

Lemma fold_set_length (l : list (string * V)) (m : JsMap.t V) :
  (List.length (fold_left (fun m '(key, value) => JsMap.set m key value) l m)
   <= List.length m + List.length l)%nat.
Proof.
  revert m. induction l as [|[k v] rest IH]; intros m; cbn [fold_left].
  - simpl. lia.
  - specialize (IH (JsMap.set m k v)). pose proof (set_length m k v).
    simpl List.length. lia.
Qed.

Lemma fold_set_In (l : list (string * V)) (m : JsMap.t V) (e : string * V) :
  In e (fold_left (fun m '(key, value) => JsMap.set m key value) l m) ->
  In e l \/ In e m.
Proof.
  revert m. induction l as [|[k v] rest IH]; intros m; cbn [fold_left].
  - tauto.
  - intros H. destruct (IH _ H) as [H'|H'].
    + left. right. exact H'.
    + destruct (set_In _ _ _ _ H') as [->|H'']; [left; left; reflexivity|].
      right. exact H''.
Qed.

End MapFacts.

Lemma In_firstn (A : Type) (n : nat) (l : list A) (x : A) :
  In x (firstn n l) -> In x l.
Proof.
  intros H. rewrite <- (firstn_skipn n l). apply in_or_app. left. exact H.
Qed.

Lemma In_skipn (A : Type) (n : nat) (l : list A) (x : A) :
  In x (skipn n l) -> In x l.
Proof.
  intros H. rewrite <- (firstn_skipn n l). apply in_or_app. right. exact H.
Qed.

Section CacheFacts.

Import TextAnalyzer.

(** The two steps of [cleanupCache] on the cache. *)
Lemma cleanupCache_cache (s : State) :
  let cache :=
    filter (fun '(_, result) =>
              negb (AnalysisResult.timestamp result
                    <? clock s 0%nat - 10 * 60 * 1000)%Z)
           (analysisCache s) in
  cleanupCache s
  = state
      (if (100 <? JsMap.size cache)%nat then
         fold_left (fun m '(key, value) => JsMap.set m key value)
           (firstn 50
              (JsArray.sort
                 (fun a b =>
                    JsNumber.ofZ (AnalysisResult.timestamp (snd b)
                                  - AnalysisResult.timestamp (snd a)))
                 cache))
           (JsMap.clear cache)
       else cache)
      (fun n => clock s (S n)).
Proof. reflexivity. Qed.

Lemma cleanupCache_size (s : State) :
  (JsMap.size (analysisCache (cleanupCache s)) <= 100)%nat.
Proof.
  rewrite cleanupCache_cache. cbv zeta. cbn [analysisCache].
  set (cache := filter _ (analysisCache s)).
  destruct (Nat.ltb_spec 100 (JsMap.size cache)) as [H|H]; [|exact H].
  unfold JsMap.size.
  match goal with
  | |- (List.length (fold_left _ (firstn 50 ?l) ?m) <= _)%nat =>
      pose proof (fold_set_length _ (firstn 50 l) m) as Hlen;
      pose proof (firstn_le_length 50 l) as Hfirst
  end.
  unfold JsMap.clear in *. cbn [List.length] in Hlen. lia.
Qed.

Lemma cleanupCache_entries (s : State) (e : string * AnalysisResult.t) :
  In e (analysisCache (cleanupCache s)) ->
  In e (analysisCache s)
  /\ (clock s 0%nat - 600000 <= AnalysisResult.timestamp (snd e))%Z.
Proof.
  rewrite cleanupCache_cache. cbv zeta. cbn [analysisCache].
  set (cache := filter _ (analysisCache s)).
  assert (Hcache : In e cache ->
                   In e (analysisCache s)
                   /\ (clock s 0%nat - 600000
                       <= AnalysisResult.timestamp (snd e))%Z).
  { unfold cache. intros H. apply filter_In in H. destruct H as [H Hfresh].
    split; [exact H|]. destruct e as [k r]. simpl.
    apply negb_true_iff in Hfresh. apply Z.ltb_ge in Hfresh. lia. }
  destruct (100 <? JsMap.size cache)%nat; [|exact Hcache].
  intros H. apply fold_set_In in H. destruct H as [H|[]].
  apply In_firstn in H. apply sort_In in H. apply Hcache. exact H.
Qed.

(** The state after a call that computes its result with the cache
    enabled: the result is stored, then the cache is cleaned. *)
Lemma analyze_miss_state (conceptExtractor : ConceptExtractor.t)
      (text : string) (s : State) :
  JsMap.get (analysisCache s) (hashText text) = None ->
  let result := fst (analyze conceptExtractor text true s) in
  snd (analyze conceptExtractor text true s)
  = state
      (analysisCache
         (cleanupCache
            (state (JsMap.set (analysisCache s) (hashText text) result)
                   (fun n => clock s (2 + n)%nat))))
      (fun n => clock s (4 + n)%nat).
Proof.
  intros H result. subst result. unfold analyze. rewrite H. reflexivity.
Qed.

(** A call with the cache disabled reads the clock three times and leaves
    the cache as it is. *)
Lemma analyze_uncached_state (conceptExtractor : ConceptExtractor.t)
      (text : string) (s : State) :
  snd (analyze conceptExtractor text false s)
  = state (analysisCache s) (fun n => clock s (3 + n)%nat).
Proof. reflexivity. Qed.

End CacheFacts.

Section CacheBehaviour.

Import TextAnalyzer.

Variable conceptExtractor : ConceptExtractor.t.

(** X10. The cache is bounded: whatever the text, the cache policy and
    the clock, a call of [analyze] on an analyzer whose cache holds at most
    100 entries leaves at most 100 entries. *)
Theorem cache_never_exceeds_100_entries (text : string) (useCache : bool)
        (s : State) :
  (JsMap.size (analysisCache s) <= 100)%nat ->
  (JsMap.size (analysisCache (snd (analyze conceptExtractor text useCache s)))
   <= 100)%nat.
Proof.
  intros H. destruct useCache.
  - destruct (JsMap.get (analysisCache s) (hashText text)) as [cached|] eqn:E.
    + rewrite (analyze_hit conceptExtractor text s cached E). exact H.
    + rewrite (analyze_miss_state conceptExtractor text s E).
      cbn [analysisCache]. apply cleanupCache_size.
  - rewrite analyze_uncached_state. exact H.
Qed.

(** X11. After a call that computes its result with the cache enabled,
    no entry of the cache is older than ten minutes at the time of the
    cleanup, and every entry was in the cache before or is the new result:
    the cleanup only deletes. *)
Theorem stored_entries_are_not_expired (text : string) (s : State) :
  JsMap.get (analysisCache s) (hashText text) = None ->
  let after := snd (analyze conceptExtractor text true s) in
  Forall (fun entry =>
            (clock s 2%nat - 600000
             <= AnalysisResult.timestamp (snd entry))%Z)
         (analysisCache after)
  /\ incl (analysisCache after)
          (JsMap.set (analysisCache s) (hashText text)
                     (fst (analyze conceptExtractor text true s))).
Proof.
  intros Hmiss after. subst after.
  rewrite (analyze_miss_state conceptExtractor text s Hmiss).
  cbn [analysisCache]. split.
  - apply Forall_forall. intros e He.
    apply cleanupCache_entries in He. destruct He as [_ He]. exact He.
  - intros e He. apply cleanupCache_entries in He. destruct He as [He _].
    exact He.
Qed.

(** X12. Analysing the same text twice, with the cache enabled, on an
    analyzer whose cache holds fewer than 100 entries, returns the same
    result (time stamp included) the second time and leaves the state as
    the first call left it, provided the first result is less than ten
    minutes old when it is stored. *)
Theorem repeated_analysis_is_served_from_cache (text : string) (s : State) :
  (JsMap.size (analysisCache s) < 100)%nat ->
  (clock s 2%nat - 600000 <= clock s 1%nat)%Z ->
  let first := analyze conceptExtractor text true s in
  let second := analyze conceptExtractor text true (snd first) in
  second = (fst first, snd first).
Proof.
  intros Hsize Hclock first second. subst second first.
  destruct (JsMap.get (analysisCache s) (hashText text)) as [cached|] eqn:E.
  - rewrite (analyze_hit conceptExtractor text s cached E). cbn [fst snd].
    apply analyze_hit. exact E.
  - apply analyze_hit.
    rewrite (analyze_miss_state conceptExtractor text s E).
    cbn [analysisCache]. rewrite cleanupCache_cache. cbv zeta.
    cbn [analysisCache clock].
    set (result := fst (analyze conceptExtractor text true s)).
    set (stored := JsMap.set (analysisCache s) (hashText text) result).
    set (test := fun '(_, result) => _).
    assert (Hkeep : JsMap.get (filter test stored) (hashText text)
                    = Some result).
    { apply get_filter_set. unfold test.
      apply negb_true_iff. apply Z.ltb_ge.
      unfold result. rewrite (analyze_miss conceptExtractor text true s (fun _ => E)).
      cbn [AnalysisResult.timestamp Nat.add]. lia. }
    assert (Hlen : (List.length (filter test stored) <= 100)%nat).
    { pose proof (filter_length_le test stored).
      pose proof (set_length _ (analysisCache s) (hashText text) result).
      unfold JsMap.size in Hsize. fold stored in H0. lia. }
    unfold JsMap.size.
    destruct (Nat.ltb_spec 100 (List.length (filter test stored))); [lia|].
    exact Hkeep.
Qed.

End CacheBehaviour.

Lemma cache_never_exceeds_100_entries_witness :
  let conceptExtractor :=
    ConceptExtractor.mk (fun _ => []) (fun _ => SemanticGraph.mk [] [] []) in
  (JsMap.size
     (TextAnalyzer.analysisCache
        (snd (TextAnalyzer.analyze conceptExtractor "hello world" true
                (TextAnalyzer.state [] (fun _ => 0%Z)))))
   <= 100)%nat.
Proof.
  intros conceptExtractor.
  apply (cache_never_exceeds_100_entries conceptExtractor "hello world" true
           (TextAnalyzer.state [] (fun _ => 0%Z))).
  simpl. lia.
Defined.

Lemma stored_entries_are_not_expired_witness :
  let conceptExtractor :=
    ConceptExtractor.mk (fun _ => []) (fun _ => SemanticGraph.mk [] [] []) in
  let s := TextAnalyzer.state [] (fun n => (1000 * Z.of_nat n)%Z) in
  let after :=
    snd (TextAnalyzer.analyze conceptExtractor "hello world" true s) in
  Forall (fun entry =>
            (TextAnalyzer.clock s 2%nat - 600000
             <= AnalysisResult.timestamp (snd entry))%Z)
         (TextAnalyzer.analysisCache after)
  /\ incl (TextAnalyzer.analysisCache after)
          (JsMap.set (TextAnalyzer.analysisCache s)
                     (TextAnalyzer.hashText "hello world")
                     (fst (TextAnalyzer.analyze conceptExtractor
                             "hello world" true s))).
Proof.
  intros conceptExtractor s.
  apply (stored_entries_are_not_expired conceptExtractor "hello world" s).
  reflexivity.
Defined.

Lemma repeated_analysis_is_served_from_cache_witness :
  let conceptExtractor :=
    ConceptExtractor.mk (fun _ => []) (fun _ => SemanticGraph.mk [] [] []) in
  let s := TextAnalyzer.state [] (fun n => (1000 * Z.of_nat n)%Z) in
  let first := TextAnalyzer.analyze conceptExtractor "hello world" true s in
  let second :=
    TextAnalyzer.analyze conceptExtractor "hello world" true (snd first) in
  second = (fst first, snd first).
Proof.
  intros conceptExtractor s.
  apply (repeated_analysis_is_served_from_cache conceptExtractor
           "hello world" s).
  - simpl. lia.
  - simpl. lia.
Defined.

(** ** The cache key as a polynomial *)

Section HashFacts.

Import TextAnalyzer.
Open Scope Z_scope.

Lemma toInt32_range (z : Z) : - 2 ^ 31 <= toInt32 z < 2 ^ 31.
Proof.
  unfold toInt32.
  pose proof (Z.mod_pos_bound (z + 2 ^ 31) (2 ^ 32) ltac:(lia)). lia.
Qed.

Lemma toInt32_wraps (z : Z) : exists k, toInt32 z = z + k * 2 ^ 32.
Proof.
  unfold toInt32. exists (- ((z + 2 ^ 31) / 2 ^ 32)).
  pose proof (Z.div_mod (z + 2 ^ 31) (2 ^ 32) ltac:(lia)). lia.
Qed.

Lemma toInt32_add_multiple (z k : Z) : toInt32 (z + k * 2 ^ 32) = toInt32 z.
Proof.
  unfold toInt32.
  replace (z + k * 2 ^ 32 + 2 ^ 31) with (z + 2 ^ 31 + k * 2 ^ 32) by lia.
  rewrite Z.mod_add by lia. reflexivity.
Qed.

Lemma hashStep_formula (hash : Z) (c : ascii) :
  hashStep hash c = toInt32 (31 * hash + charCode c).
Proof.
  unfold hashStep, shiftLeft5. rewrite Z.land_diag.
  rewrite Z.shiftl_mul_pow2 by lia.
  destruct (toInt32_wraps hash) as (k0 & ->).
  destruct (toInt32_wraps ((hash + k0 * 2 ^ 32) * 2 ^ 5)) as (k1 & ->).
  replace ((hash + k0 * 2 ^ 32) * 2 ^ 5 + k1 * 2 ^ 32 - hash + charCode c)
    with (31 * hash + charCode c + (32 * k0 + k1) * 2 ^ 32) by lia.
  apply toInt32_add_multiple.
Qed.

Lemma hashLoop_polynomial (text : string) (h : Z) :
  hashLoop (toInt32 h) text = toInt32 (polynomialHash h text).
Proof.
  revert h. induction text as [|c rest IH]; intros h; cbn [hashLoop polynomialHash].
  - reflexivity.
  - rewrite hashStep_formula. rewrite <- IH. f_equal.
    destruct (toInt32_wraps h) as (k & ->).
    replace (31 * (h + k * 2 ^ 32) + charCode c)
      with (31 * h + charCode c + (31 * k) * 2 ^ 32) by lia.
    apply toInt32_add_multiple.
Qed.

End HashFacts.

Section HashProperties.

Import TextAnalyzer.
Open Scope Z_scope.

(** X13. The cache key of a text is the polynomial hash with base 31 of
    its code units, wrapped to a signed 32-bit integer and printed in base
    36: the shift-and-subtract step of the loop multiplies by 31, and the
    value stays within the signed 32-bit range for every text. *)
Theorem hashText_is_wrapped_polynomial (text : string) :
  hashLoop 0 text = toInt32 (polynomialHash 0 text)
  /\ - 2 ^ 31 <= hashLoop 0 text < 2 ^ 31
  /\ hashText text = toString36 (toInt32 (polynomialHash 0 text)).
Proof.
  assert (E : hashLoop 0 text = toInt32 (polynomialHash 0 text)).
  { change 0 with (toInt32 0) at 1. apply hashLoop_polynomial. }
  split; [exact E|]. split.
  - rewrite E. apply toInt32_range.
  - unfold hashText. rewrite E. reflexivity.
Qed.

End HashProperties.

(** ** The make-up of the node list *)

Section NodeGroups.

Import JsNumber NodeSystem.

Variable Vector3 : Type.
Variable origin : Vector3.
Variable spiralPoint : number -> nat -> nat -> Vector3.
Variable fractionToString36 : number -> string.

Lemma createNodeFromConcept_spec (concept : Concept.t) (importance : number)
      (r : Random.t) :
  let node :=
    fst (createNodeFromConcept origin fractionToString36 concept node_concept
                               importance r) in
  conceptNodeOf concept node /\ Node.importance node = importance.
Proof. cbv zeta. unfold conceptNodeOf. repeat split. Qed.

Lemma pushConceptNodes_spec (importanceAt : nat -> number)
      (concepts : list Concept.t) (index : nat) (r : Random.t) :
  conceptNodes importanceAt index concepts
    (fst (pushConceptNodes origin fractionToString36 importanceAt concepts
                           index r)).
Proof.
  revert index r.
  induction concepts as [|c rest IH]; intros index r; cbn [pushConceptNodes].
  - exact I.
  - pose proof (createNodeFromConcept_spec c (importanceAt index) r) as Hs.
    destruct (createNodeFromConcept origin fractionToString36 c node_concept
                                    (importanceAt index) r) as [node r1].
    specialize (IH (S index) r1).
    destruct (pushConceptNodes origin fractionToString36 importanceAt rest
                               (S index) r1) as [others r2].
    cbn [fst conceptNodes] in *. destruct Hs as [Hs Hi].
    split; [exact Hs|]. split; [exact Hi | exact IH].
Qed.

Lemma createEmotionNode_spec (sentiment : SentimentAnalysis.t)
      (r : Random.t) :
  emotionNodeOf sentiment
    (fst (createEmotionNode origin fractionToString36 sentiment (Num 0.9) r)).
Proof. unfold emotionNodeOf. cbv zeta. repeat split. Qed.

Lemma createSyntheticNode_spec (i : nat) (r : Random.t) :
  syntheticNode (fst (createSyntheticNode origin fractionToString36 i r)).
Proof. unfold syntheticNode. repeat split. Qed.

Lemma syntheticLoop_nodes (trips i : nat) (r : Random.t) :
  let synthetic := fst (syntheticLoop origin fractionToString36 trips i r) in
  List.length synthetic = trips
  /\ Forall (fun node : NodeSystem.Node Vector3 => syntheticNode node)
                    synthetic.
Proof.
  revert i r. induction trips as [|trips IH]; intros i r; cbn [syntheticLoop].
  - split; [reflexivity | constructor].
  - pose proof (createSyntheticNode_spec i r) as Hs.
    destruct (createSyntheticNode origin fractionToString36 i r) as [node r1].
    specialize (IH (S i) r1).
    destruct (syntheticLoop origin fractionToString36 trips (S i) r1)
      as [rest r2].
    cbn [fst] in *. destruct IH as [IH1 IH2].
    split; [simpl; congruence | constructor; assumption].
Qed.

(** The node list before the final [slice]: the primary concept nodes, the
    emotion node if the dominant emotion is confident enough, the secondary
    concept nodes, and the synthetic nodes of the padding loop. *)
Lemma generateNodes_groups (analysisResult : AnalysisResult.t)
      (r : Random.t) :
  let target :=
    ScalingStrategy.nodeCount (AnalysisResult.scalingStrategy analysisResult) in
  let sentiment := AnalysisResult.sentiment analysisResult in
  let sorted :=
    JsArray.sort (fun a b => sub (Concept.relevance b) (Concept.relevance a))
                 (AnalysisResult.concepts analysisResult) in
  let primaryConcepts :=
    JsArray.slice sorted (Num 0) (floor (mul target (Num 0.3))) in
  let secondaryConcepts :=
    JsArray.slice (JsArray.sliceFrom sorted (floor (mul target (Num 0.3))))
                  (Num 0) (floor (mul target (Num 0.4))) in
  exists primary emotion secondary : list (NodeSystem.Node Vector3),
    conceptNodes
      (fun index =>
         sub (Num 1.0)
             (mul (div (ofNat index) (ofNat (List.length primaryConcepts)))
                  (Num 0.3)))
      0 primaryConcepts primary
    /\ (if gt (DominantEmotion.confidence (SentimentAnalysis.dominant sentiment))
              (Num 0.3)
        then exists node, emotion = [node] /\ emotionNodeOf sentiment node
        else emotion = [])
    /\ conceptNodes
         (fun index =>
            sub (Num 0.7)
                (mul (div (ofNat index) (ofNat (List.length secondaryConcepts)))
                     (Num 0.2)))
         0 secondaryConcepts secondary
    /\ match generateNodes origin fractionToString36 analysisResult r with
       | Some (nodes, _) =>
           exists synthetic,
             Forall (fun node : NodeSystem.Node Vector3 => syntheticNode node)
                    synthetic
             /\ nodes
                = JsArray.slice
                    (primary ++ emotion ++ secondary ++ synthetic)%list
                    (Num 0) target
             /\ (if gt (sub target
                            (ofNat (List.length
                                      (primary ++ emotion ++ secondary)%list)))
                       (Num 0)
                 then loopTrips
                        (sub target
                             (ofNat (List.length
                                       (primary ++ emotion ++ secondary)%list)))
                      = Some (List.length synthetic)
                 else synthetic = [])
       | None => target = PInf
       end.
Proof.
  intros target sentiment sorted primaryConcepts secondaryConcepts.
  unfold generateNodes.
  change (NodeDistribution.primary
            (calculateNodeDistribution
               (ScalingStrategy.nodeCount
                  (AnalysisResult.scalingStrategy analysisResult))))
    with (floor (mul target (Num 0.3))).
  change (NodeDistribution.secondary
            (calculateNodeDistribution
               (ScalingStrategy.nodeCount
                  (AnalysisResult.scalingStrategy analysisResult))))
    with (floor (mul target (Num 0.4))).
  fold target sentiment sorted. fold primaryConcepts. fold secondaryConcepts.
  pose proof (pushConceptNodes_spec
                (fun index =>
                   sub (Num 1.0)
                       (mul (div (ofNat index)
                                 (ofNat (List.length primaryConcepts)))
                            (Num 0.3)))
                primaryConcepts 0 r) as HP.
  destruct (pushConceptNodes _ _ _ primaryConcepts 0%nat r) as [primary r1].
  cbn [fst] in HP.
  exists primary.
  destruct (gt (DominantEmotion.confidence
                  (SentimentAnalysis.dominant sentiment)) (Num 0.3)).
  - pose proof (createEmotionNode_spec sentiment r1) as HE.
    destruct (createEmotionNode origin fractionToString36 sentiment
                                (Num 0.9) r1) as [node r2].
    cbn [fst] in HE. exists [node].
    pose proof (pushConceptNodes_spec
                  (fun index =>
                     sub (Num 0.7)
                         (mul (div (ofNat index)
                                   (ofNat (List.length secondaryConcepts)))
                              (Num 0.2)))
                  secondaryConcepts 0 r2) as HS.
    destruct (pushConceptNodes _ _ _ secondaryConcepts 0%nat r2)
      as [secondary r3].
    cbn [fst] in HS. exists secondary.
    split; [exact HP|]. split; [exists node; split; [reflexivity|exact HE]|].
    split; [exact HS|].
    rewrite <- (app_assoc primary [node] secondary).
    set (real := (primary ++ [node] ++ secondary)%list).
    destruct (gt (sub target (ofNat (List.length real))) (Num 0)) eqn:Eg.
    + unfold generateSyntheticNodes.
      destruct (loopTrips (sub target (ofNat (List.length real))))
        as [trips|] eqn:Et.
      * pose proof (syntheticLoop_nodes trips 0 r3) as [Hlen Hsyn].
        destruct (syntheticLoop origin fractionToString36 trips 0%nat r3)
          as [synthetic r4].
        cbn [fst] in Hlen, Hsyn. exists synthetic.
        split; [exact Hsyn|]. split.
        -- unfold real. rewrite <- !app_assoc. reflexivity.
        -- f_equal. symmetry. exact Hlen.
      * unfold loopTrips in Et.
        destruct (sub target (ofNat (List.length real))) eqn:Es;
          try discriminate Et.
        destruct target; try discriminate Es; reflexivity.
    + exists []. split; [constructor|]. split; [|reflexivity].
      unfold real. rewrite app_nil_r. reflexivity.
  - exists [].
    pose proof (pushConceptNodes_spec
                  (fun index =>
                     sub (Num 0.7)
                         (mul (div (ofNat index)
                                   (ofNat (List.length secondaryConcepts)))
                              (Num 0.2)))
                  secondaryConcepts 0 r1) as HS.
    destruct (pushConceptNodes _ _ _ secondaryConcepts 0%nat r1)
      as [secondary r3].
    cbn [fst] in HS. exists secondary.
    split; [exact HP|]. split; [reflexivity|].
    split; [exact HS|].
    cbn [app].
    set (real := (primary ++ secondary)%list).
    destruct (gt (sub target (ofNat (List.length real))) (Num 0)) eqn:Eg.
    + unfold generateSyntheticNodes.
      destruct (loopTrips (sub target (ofNat (List.length real))))
        as [trips|] eqn:Et.
      * pose proof (syntheticLoop_nodes trips 0 r3) as [Hlen Hsyn].
        destruct (syntheticLoop origin fractionToString36 trips 0%nat r3)
          as [synthetic r4].
        cbn [fst] in Hlen, Hsyn. exists synthetic.
        split; [exact Hsyn|]. split.
        -- unfold real. rewrite <- !app_assoc. reflexivity.
        -- f_equal. symmetry. exact Hlen.
      * unfold loopTrips in Et.
        destruct (sub target (ofNat (List.length real))) eqn:Es;
          try discriminate Et.
        destruct target; try discriminate Es; reflexivity.
    + exists []. split; [constructor|]. split; [|reflexivity].
      unfold real. rewrite app_nil_r. reflexivity.
Qed.

Lemma slice_incl (A : Type) (l : list A) (a b : number) (x : A) :
  In x (JsArray.slice l a b) -> In x l.
Proof.
  unfold JsArray.slice. intros H. apply In_firstn in H. apply In_skipn in H.
  exact H.
Qed.

Lemma sliceFrom_incl (A : Type) (l : list A) (a : number) (x : A) :
  In x (JsArray.sliceFrom l a) -> In x l.
Proof. unfold JsArray.sliceFrom. apply In_skipn. Qed.

Lemma conceptNodes_length (importanceAt : nat -> number)
      (concepts : list Concept.t) :
  forall (index : nat) (l : list (NodeSystem.Node Vector3)),
    conceptNodes importanceAt index concepts l ->
    List.length l = List.length concepts.
Proof.
  induction concepts as [|c rest IH]; intros index [|node l] H;
    cbn [conceptNodes] in H; try contradiction.
  - reflexivity.
  - destruct H as (_ & _ & H). simpl. f_equal. apply (IH (S index)). exact H.
Qed.

Lemma conceptNodes_In (importanceAt : nat -> number)
      (concepts : list Concept.t) :
  forall (index : nat) (l : list (NodeSystem.Node Vector3))
         (node : NodeSystem.Node Vector3),
    conceptNodes importanceAt index concepts l ->
    In node l ->
    exists concept k,
      In concept concepts /\ (k < List.length concepts)%nat
      /\ conceptNodeOf concept node
      /\ Node.importance node = importanceAt (index + k)%nat.
Proof.
  induction concepts as [|c rest IH]; intros index [|first l] node H Hin;
    cbn [conceptNodes] in H; try contradiction.
  destruct H as (Hc & Hi & H). destruct Hin as [<-|Hin].
  - exists c, 0%nat. split; [left; reflexivity|]. split; [simpl; lia|].
    split; [exact Hc|]. rewrite Nat.add_0_r. exact Hi.
  - destruct (IH (S index) l node H Hin) as (c' & k & Hc' & Hk & Hn & Hi').
    exists c', (S k). split; [right; exact Hc'|]. split; [simpl; lia|].
      split; [exact Hn|]. rewrite Nat.add_succ_r. exact Hi'.
Qed.

Lemma primaryImportance_within (count index : nat) :
  (index < count)%nat -> within 0.7 1 (primaryImportance count index).
Proof.
  intros H. unfold primaryImportance.
  destruct (ratio_within index count ltac:(lia) ltac:(lia)) as (q & -> & Hq).
  simpl. Lqa.lra.
Qed.

Lemma secondaryImportance_within (count index : nat) :
  (index < count)%nat -> within 0.5 0.7 (secondaryImportance count index).
Proof.
  intros H. unfold secondaryImportance.
  destruct (ratio_within index count ltac:(lia) ltac:(lia)) as (q & -> & Hq).
  simpl. Lqa.lra.
Qed.

Lemma getSizeForImportance_within (lo hi : Q) (importance : number) :
  within lo hi importance ->
  within (0.5 + lo * 1.5) (0.5 + hi * 1.5) (getSizeForImportance importance).
Proof.
  intros H. destruct (within_inv _ _ _ H) as (x & -> & Hx).
  unfold getSizeForImportance. simpl. Lqa.lra.
Qed.

(** Every node of the list is a concept node of a concept of the analysis,
    with an importance between 0.5 and 1, the emotion node, or a
    synthetic node. *)
Lemma generateNodes_kinds (analysisResult : AnalysisResult.t) (r r' : Random.t)
      (nodes : list (NodeSystem.Node Vector3)) (node : NodeSystem.Node Vector3) :
  generateNodes origin fractionToString36 analysisResult r = Some (nodes, r') ->
  In node nodes ->
  (exists concept,
      In concept (AnalysisResult.concepts analysisResult)
      /\ conceptNodeOf concept node
      /\ within 0.5 1 (Node.importance node))
  \/ (emotionNodeOf (AnalysisResult.sentiment analysisResult) node
      /\ gt (DominantEmotion.confidence
               (SentimentAnalysis.dominant
                  (AnalysisResult.sentiment analysisResult))) (Num 0.3)
         = true)
  \/ syntheticNode node.
Proof.
  intros Hgen Hin.
  destruct (generateNodes_groups analysisResult r)
    as (primary & emotion & secondary & HP & HE & HS & Hnodes).
  rewrite Hgen in Hnodes.
  destruct Hnodes as (synthetic & Hsyn & -> & _).
  apply slice_incl in Hin.
  apply in_app_or in Hin. destruct Hin as [Hin|Hin].
  - left. destruct (conceptNodes_In _ _ _ _ _ HP Hin)
      as (c & k & Hc & Hk & Hn & Hi).
    exists c. split.
    + apply slice_incl in Hc. apply sort_In in Hc. exact Hc.
    + split; [exact Hn|]. rewrite Hi.
      apply (within_weaken 0.7 1); [Lqa.lra | Lqa.lra |].
      apply (primaryImportance_within _ _ Hk).
  - apply in_app_or in Hin. destruct Hin as [Hin|Hin].
    + right. left. destruct (gt _ _); [|subst emotion; destruct Hin].
      destruct HE as (e & -> & He). destruct Hin as [<-|[]].
      split; [exact He | reflexivity].
    + apply in_app_or in Hin. destruct Hin as [Hin|Hin].
      * left. destruct (conceptNodes_In _ _ _ _ _ HS Hin)
          as (c & k & Hc & Hk & Hn & Hi).
        exists c. split.
        -- apply slice_incl in Hc. apply sliceFrom_incl in Hc.
           apply sort_In in Hc. exact Hc.
        -- split; [exact Hn|]. rewrite Hi.
           apply (within_weaken 0.5 0.7); [Lqa.lra | Lqa.lra |].
           apply (secondaryImportance_within _ _ Hk).
      * right. right. rewrite Forall_forall in Hsyn. apply Hsyn. exact Hin.
Qed.

Lemma distributeFrom_In (radius : number) (total : nat)
      (l : list (NodeSystem.Node Vector3)) :
  forall (index : nat) (moved : NodeSystem.Node Vector3),
    In moved (distributeFrom spiralPoint radius total index l) ->
    exists node position,
      In node l /\ moved = Node.setPosition node position.
Proof.
  induction l as [|first rest IH]; intros index moved H;
    cbn [distributeFrom] in H.
  - destruct H.
  - destruct H as [<-|H].
    + eexists first, _. split; [left; reflexivity | reflexivity].
    + destruct (IH _ _ H) as (node & position & Hin & ->).
      exists node, position. split; [right; exact Hin | reflexivity].
Qed.

Lemma setPosition_kinds (node : NodeSystem.Node Vector3) (position : Vector3) :
  (forall concept, conceptNodeOf concept node ->
                   conceptNodeOf concept (Node.setPosition node position))
  /\ (forall sentiment, emotionNodeOf sentiment node ->
                        emotionNodeOf sentiment (Node.setPosition node position))
  /\ (syntheticNode node -> syntheticNode (Node.setPosition node position))
  /\ Node.importance (Node.setPosition node position) = Node.importance node.
Proof.
  destruct node. unfold conceptNodeOf, emotionNodeOf, syntheticNode.
  cbn. tauto.
Qed.

(** The same for the nodes of the visualization, which only differ by
    their positions. *)
Lemma generateVisualization_kinds (analysisResult : AnalysisResult.t)
      (r r' : Random.t) (generated : ScaledVisualization Vector3)
      (node : NodeSystem.Node Vector3) :
  generateVisualization origin spiralPoint fractionToString36 analysisResult r
  = Some (generated, r') ->
  In node (nodes generated) ->
  (exists concept,
      In concept (AnalysisResult.concepts analysisResult)
      /\ conceptNodeOf concept node
      /\ within 0.5 1 (Node.importance node))
  \/ (emotionNodeOf (AnalysisResult.sentiment analysisResult) node
      /\ gt (DominantEmotion.confidence
               (SentimentAnalysis.dominant
                  (AnalysisResult.sentiment analysisResult))) (Num 0.3)
         = true)
  \/ syntheticNode node.
Proof.
  unfold generateVisualization.
  destruct (generateNodes origin fractionToString36 analysisResult r)
    as [[l r1]|] eqn:E; [|discriminate].
  intros [= <- <-]. cbn [nodes]. unfold distributeNodes. intros Hin.
  apply distributeFrom_In in Hin.
  destruct Hin as (original & position & Hin & ->).
  destruct (setPosition_kinds original position) as (Hc & He & Hs & Hi).
  destruct (generateNodes_kinds analysisResult r r1 l original E Hin)
    as [(concept & Hin' & Hk & Himp)|[[Hk Hconf]|Hk]].
  - left. exists concept. split; [exact Hin'|]. split; [apply Hc; exact Hk|].
    rewrite Hi. exact Himp.
  - right. left. split; [apply He; exact Hk | exact Hconf].
  - right. right. apply Hs. exact Hk.
Qed.

Lemma generateVisualization_returns (analysisResult : AnalysisResult.t)
      (r : Random.t) :
  generateVisualization origin spiralPoint fractionToString36 analysisResult r
  = None ->
  ScalingStrategy.nodeCount (AnalysisResult.scalingStrategy analysisResult)
  = PInf.
Proof.
  unfold generateVisualization.
  destruct (generateNodes origin fractionToString36 analysisResult r)
    as [[l r1]|] eqn:E; [discriminate|].
  intros _. apply (generateNodes_returns Vector3 origin fractionToString36
                     analysisResult r). exact E.
Qed.

End NodeGroups.

Section NodeAttributes.

Import JsNumber NodeSystem.

Variable Vector3 : Type.
Variable origin : Vector3.
Variable spiralPoint : number -> nat -> nat -> Vector3.
Variable fractionToString36 : number -> string.

(** X14. Whatever the analysis result and the random source, every node
    of the visualization has a size between 0.95 and 2.0, and every node
    that is not synthetic (a concept node or the emotion node) has an
    importance between 0.5 and 1. *)
Theorem generated_nodes_have_bounded_sizes
        (analysisResult : AnalysisResult.t) (r : Random.t) :
  match generateVisualization origin spiralPoint fractionToString36
                              analysisResult r with
  | Some (generated, _) =>
      Forall (fun node : NodeSystem.Node Vector3 =>
                within 0.95 2 (Node.size node)
                /\ (Node.synthetic node = false ->
                    within 0.5 1 (Node.importance node)))
             (nodes generated)
  | None =>
      ScalingStrategy.nodeCount (AnalysisResult.scalingStrategy analysisResult)
      = PInf
  end.
Proof.
  destruct (generateVisualization origin spiralPoint fractionToString36
                                  analysisResult r)
    as [[generated r']|] eqn:E.
  - apply Forall_forall. intros node Hin.
    destruct (generateVisualization_kinds Vector3 origin spiralPoint
                fractionToString36 analysisResult r r' generated node E Hin)
      as [(concept & _ & Hk & Himp)|[[Hk _]|Hk]].
    + destruct Hk as (_ & _ & _ & _ & _ & _ & _ & _ & Hsize).
      split; [|intros _; exact Himp].
      rewrite Hsize.
      apply (within_weaken (0.5 + 0.5 * 1.5) (0.5 + 1 * 1.5));
        [Lqa.lra | Lqa.lra |].
      apply getSizeForImportance_within. exact Himp.
    + destruct Hk as (_ & _ & _ & _ & _ & _ & _ & _ & Himp & Hsize).
      rewrite Hsize, Himp. split; [|intros _]; vm_compute;
        split; intros H; discriminate H.
    + destruct Hk as (_ & Hsyn & _ & _ & _ & _ & Hsize).
      rewrite Hsize, Hsyn. split; [|intros H; discriminate H].
      vm_compute. split; intros H; discriminate H.
  - apply (generateVisualization_returns Vector3 origin spiralPoint
             fractionToString36 analysisResult r). exact E.
Qed.

(** X15. The layer table gives the categories emotion and people the
    centre layer 0, but [layerMap[category] || 1] turns that 0 into 1: every
    concept node of a visualization is on layer 1 or 2, the emotion node alone
    is on layer 0, synthetic nodes are on layer 2, and no node of type
    temporal or social is ever generated. *)
Theorem concept_nodes_never_get_layer_zero
        (analysisResult : AnalysisResult.t) (r : Random.t) :
  getLayerForCategory cat_emotion = Num 1
  /\ getLayerForCategory cat_people = Num 1
  /\ match generateVisualization origin spiralPoint fractionToString36
                                 analysisResult r with
     | Some (generated, _) =>
         Forall (fun node : NodeSystem.Node Vector3 =>
                   let layer := NodeData.layer (Node.data node) in
                   match Node.type node with
                   | node_concept => layer = Num 1 \/ layer = Num 2
                   | node_emotion => layer = Num 0
                   | node_synthetic => layer = Num 2
                   | node_temporal | node_social => False
                   end)
                (nodes generated)
     | None =>
         ScalingStrategy.nodeCount
           (AnalysisResult.scalingStrategy analysisResult) = PInf
     end.
Proof.
  split; [reflexivity|]. split; [reflexivity|].
  destruct (generateVisualization origin spiralPoint fractionToString36
                                  analysisResult r)
    as [[generated r']|] eqn:E.
  - apply Forall_forall. intros node Hin.
    destruct (generateVisualization_kinds Vector3 origin spiralPoint
                fractionToString36 analysisResult r r' generated node E Hin)
      as [(concept & _ & Hk & _)|[[Hk _]|Hk]].
    + destruct Hk as (-> & _ & _ & _ & _ & _ & -> & _).
      cbv zeta. destruct (Concept.category concept); cbn; tauto.
    + destruct Hk as (-> & _ & _ & _ & _ & _ & -> & _). reflexivity.
    + destruct Hk as (-> & _ & _ & _ & -> & _). reflexivity.
  - apply (generateVisualization_returns Vector3 origin spiralPoint
             fractionToString36 analysisResult r). exact E.
Qed.

End NodeAttributes.

(** ** Connections *)

Section ConnectionFacts.

Import JsNumber NodeSystem.

Variable Vector3 : Type.

Lemma flat_map_length_le (A B : Type) (f : A -> list B) (l : list A) :
  (forall x, List.length (f x) <= 1)%nat ->
  (List.length (flat_map f l) <= List.length l)%nat.
Proof.
  intros Hf. induction l as [|x rest IH]; cbn [flat_map List.length].
  - lia.
  - rewrite length_app. specialize (Hf x). lia.
Qed.

Lemma generateConnections_length (analysisResult : AnalysisResult.t)
      (l : list (NodeSystem.Node Vector3)) :
  (List.length (generateConnections analysisResult l)
   <= List.length (SemanticGraph.edges
                     (AnalysisResult.semanticGraph analysisResult)))%nat.
Proof.
  unfold generateConnections. apply flat_map_length_le.
  intros [key edge]. cbv beta iota.
  repeat match goal with
         | |- context [match find ?f l with _ => _ end] => destruct (find f l)
         end; cbn [List.length]; lia.
Qed.

Lemma generateConnections_edge (analysisResult : AnalysisResult.t)
      (l : list (NodeSystem.Node Vector3)) (c : Connection.t) :
  In c (generateConnections analysisResult l) ->
  exists edge,
    In edge (map snd (SemanticGraph.edges
                        (AnalysisResult.semanticGraph analysisResult)))
    /\ Connection.weight c = SemanticEdge.weight edge
    /\ Connection.flow c = SemanticEdge.weight edge
    /\ Connection.active c = gt (SemanticEdge.weight edge) (Num 0.3)
    /\ Connection.type c
       = match SemanticEdge.relationship edge with
         | rel_semantic => conn_semantic
         | _ => conn_emotional
         end
    /\ Connection.color c
       = getColorForConnectionType (SemanticEdge.relationship edge).
Proof.
  unfold generateConnections. intros Hin.
  apply in_flat_map in Hin. destruct Hin as ([key edge] & Hedge & Hin).
  match type of Hin with
  | context [find ?f l] => destruct (find f l) as [sourceNode|]; [|destruct Hin]
  end.
  match type of Hin with
  | context [find ?f l] => destruct (find f l) as [targetNode|]; [|destruct Hin]
  end.
  destruct Hin as [<-|[]].
  exists edge. split; [apply in_map_iff; exists (key, edge); tauto|].
  repeat split.
Qed.

End ConnectionFacts.

Section ConnectionProperties.

Import JsNumber NodeSystem.

Variable Vector3 : Type.
Variable origin : Vector3.
Variable spiralPoint : number -> nat -> nat -> Vector3.
Variable fractionToString36 : number -> string.

(** X16. The connections of a visualization mirror edges of the semantic
    graph: there are at most as many connections as edges, and each
    connection carries the weight of an edge as its weight and flow, is
    active exactly when that weight exceeds 0.3, has the colour of the edge's
    relationship, and has type semantic for a semantic edge and emotional for
    every other relationship (temporal and contextual included). *)
Theorem connections_mirror_edges
        (analysisResult : AnalysisResult.t) (r : Random.t) :
  let edges :=
    map snd (SemanticGraph.edges
               (AnalysisResult.semanticGraph analysisResult)) in
  match generateVisualization origin spiralPoint fractionToString36
                              analysisResult r with
  | Some (generated, _) =>
      (List.length (connections generated) <= List.length edges)%nat
      /\ Forall (fun c =>
                   exists edge,
                     In edge edges
                     /\ Connection.weight c = SemanticEdge.weight edge
                     /\ Connection.flow c = SemanticEdge.weight edge
                     /\ Connection.active c
                        = gt (SemanticEdge.weight edge) (Num 0.3)
                     /\ Connection.type c
                        = match SemanticEdge.relationship edge with
                          | rel_semantic => conn_semantic
                          | _ => conn_emotional
                          end
                     /\ Connection.color c
                        = getColorForConnectionType
                            (SemanticEdge.relationship edge))
                (connections generated)
  | None =>
      ScalingStrategy.nodeCount (AnalysisResult.scalingStrategy analysisResult)
      = PInf
  end.
Proof.
  intros edges. unfold generateVisualization.
  destruct (generateNodes origin fractionToString36 analysisResult r)
    as [[l r1]|] eqn:E.
  - cbn [connections]. split.
    + unfold edges. rewrite length_map. apply generateConnections_length.
    + apply Forall_forall. intros c Hin.
      apply generateConnections_edge in Hin. exact Hin.
  - apply (generateNodes_returns Vector3 origin fractionToString36
             analysisResult r). exact E.
Qed.

End ConnectionProperties.

(** ** The node list for an integer budget *)

Section NodeComposition.

Import JsNumber NodeSystem.

Variable Vector3 : Type.
Variable origin : Vector3.
Variable spiralPoint : number -> nat -> nat -> Vector3.
Variable fractionToString36 : number -> string.

Lemma floor_share (n : Z) :
  floor (mul (ofZ n) (Num 0.3)) = ofZ (n * 3 / 10)
  /\ floor (mul (ofZ n) (Num 0.4)) = ofZ (n * 4 / 10).
Proof. split; reflexivity. Qed.

Lemma sliceFrom_suffix (A : Type) (l : list A) (k : Z) :
  (0 <= k)%Z -> JsArray.sliceFrom l (ofZ k) = skipn (Z.to_nat k) l.
Proof.
  intros Hk. unfold JsArray.sliceFrom, JsArray.sliceIndex, ofZ.
  replace (Qltb (inject_Z k) 0) with false.
  - rewrite Qfloor_Z. replace (k <? 0)%Z with false by (symmetry; apply Z.ltb_ge; lia).
    destruct (Nat.le_ge_cases (Z.to_nat k) (List.length l)) as [H|H].
    + rewrite Nat.min_l by exact H. reflexivity.
    + rewrite Nat.min_r by exact H. rewrite skipn_all.
      symmetry. apply skipn_all2. exact H.
  - symmetry. apply Qltb_ge. replace 0%Q with (inject_Z 0) by reflexivity.
    rewrite <- Zle_Qle. exact Hk.
Qed.

(** X17. For an integer node budget [n >= 1] the final [slice] of
    [generateNodes] removes nothing.  The list is, in this order: the nodes
    of the [floor(0.3 n)] most relevant concepts, the emotion node when the
    confidence exceeds 0.3, the nodes of the next [floor(0.4 n)] concepts,
    and synthetic nodes up to [n]; at least [n - floor(0.3 n) - floor(0.4 n)
    - 1] nodes are synthetic. *)
Theorem node_list_is_never_truncated
        (analysisResult : AnalysisResult.t) (r : Random.t) (n : Z) :
  (1 <= n)%Z ->
  ScalingStrategy.nodeCount (AnalysisResult.scalingStrategy analysisResult)
  = ofZ n ->
  let sentiment := AnalysisResult.sentiment analysisResult in
  let sorted :=
    JsArray.sort (fun a b => sub (Concept.relevance b) (Concept.relevance a))
                 (AnalysisResult.concepts analysisResult) in
  let primaryConcepts := firstn (Z.to_nat (n * 3 / 10)) sorted in
  let secondaryConcepts :=
    firstn (Z.to_nat (n * 4 / 10)) (skipn (Z.to_nat (n * 3 / 10)) sorted) in
  exists (primary emotion secondary synthetic : list (NodeSystem.Node Vector3))
         (r' : Random.t),
    generateNodes origin fractionToString36 analysisResult r
    = Some ((primary ++ emotion ++ secondary ++ synthetic)%list, r')
    /\ conceptNodes (primaryImportance (List.length primaryConcepts)) 0
                    primaryConcepts primary
    /\ (if gt (DominantEmotion.confidence (SentimentAnalysis.dominant sentiment))
              (Num 0.3)
        then exists node, emotion = [node] /\ emotionNodeOf sentiment node
        else emotion = [])
    /\ conceptNodes (secondaryImportance (List.length secondaryConcepts)) 0
                    secondaryConcepts secondary
    /\ Forall (fun node : NodeSystem.Node Vector3 => syntheticNode node)
              synthetic
    /\ (Z.of_nat (List.length synthetic)
        = n - Z.of_nat (List.length primary) - Z.of_nat (List.length emotion)
          - Z.of_nat (List.length secondary))%Z
    /\ (n - n * 3 / 10 - n * 4 / 10 - 1 <= Z.of_nat (List.length synthetic))%Z.
Proof.
  intros Hn Hcount sentiment sorted primaryConcepts secondaryConcepts.
  destruct (generateNodes_groups Vector3 origin fractionToString36
              analysisResult r)
    as (primary & emotion & secondary & HP & HE & HS & Hnodes).
  rewrite Hcount in HP, HS, Hnodes.
  destruct (floor_share n) as [E3 E4]. rewrite E3 in HP, HS. rewrite E4 in HS.
  assert (H3 : (0 <= n * 3 / 10)%Z) by (apply Z.div_pos; lia).
  assert (H4 : (0 <= n * 4 / 10)%Z) by (apply Z.div_pos; lia).
  rewrite slice_prefix in HP by exact H3.
  rewrite sliceFrom_suffix, slice_prefix in HS by assumption.
  fold sentiment in HE. fold sorted in HP, HS.
  fold primaryConcepts in HP. fold secondaryConcepts in HS.
  pose proof (conceptNodes_length _ _ _ _ _ HP) as LP.
  pose proof (conceptNodes_length _ _ _ _ _ HS) as LS.
  assert (LP' : (List.length primaryConcepts <= Z.to_nat (n * 3 / 10))%nat)
    by apply firstn_le_length.
  assert (LS' : (List.length secondaryConcepts <= Z.to_nat (n * 4 / 10))%nat)
    by apply firstn_le_length.
  assert (LE : (List.length emotion <= 1)%nat).
  { destruct (gt _ _); [destruct HE as (node & -> & _)|subst emotion];
      simpl; lia. }
  set (real := (primary ++ emotion ++ secondary)%list) in *.
  assert (Lreal : List.length real
                  = (List.length primary + List.length emotion
                     + List.length secondary)%nat).
  { unfold real. rewrite !length_app. lia. }
  assert (Hshare : (n * 3 / 10 + n * 4 / 10 + 1 <= n)%Z)
    by (Z.to_euclidean_division_equations; lia).
  assert (Hfit : (Z.of_nat (List.length real) <= n)%Z) by lia.
  destruct (generateNodes origin fractionToString36 analysisResult r)
    as [[nodes r']|]; [|discriminate Hnodes].
  destruct Hnodes as (synthetic & Hsyn & -> & Hloop).
  rewrite remaining_positive in Hloop.
  assert (Hlen : Z.of_nat (List.length synthetic)
                 = (n - Z.of_nat (List.length real))%Z).
  { destruct (Z.ltb_spec (Z.of_nat (List.length real)) n) as [Hlt|Hge].
    - rewrite remaining_trips in Hloop. injection Hloop as Hloop. lia.
    - subst synthetic. simpl. lia. }
  exists primary, emotion, secondary, synthetic, r'.
  split.
  - f_equal. f_equal. rewrite slice_prefix by lia.
    apply firstn_all2. rewrite !length_app. lia.
  - split; [exact HP|]. split; [exact HE|]. split; [exact HS|].
    split; [exact Hsyn|]. split; lia.
Qed.

End NodeComposition.

Lemma node_list_is_never_truncated_witness :
  let analysisResult := mockAnalysisResult in
  let sentiment := AnalysisResult.sentiment analysisResult in
  let sorted :=
    JsArray.sort (fun a b => JsNumber.sub (Concept.relevance b)
                                          (Concept.relevance a))
                 (AnalysisResult.concepts analysisResult) in
  let primaryConcepts := firstn (Z.to_nat (8 * 3 / 10)) sorted in
  let secondaryConcepts :=
    firstn (Z.to_nat (8 * 4 / 10)) (skipn (Z.to_nat (8 * 3 / 10)) sorted) in
  exists (primary emotion secondary synthetic : list (NodeSystem.Node unit))
         (r' : Random.t),
    NodeSystem.generateNodes tt (fun _ => "0.5"%string) analysisResult
                             (fun _ => 0.5)
    = Some ((primary ++ emotion ++ secondary ++ synthetic)%list, r')
    /\ conceptNodes (primaryImportance (List.length primaryConcepts)) 0
                    primaryConcepts primary
    /\ (if JsNumber.gt
              (DominantEmotion.confidence (SentimentAnalysis.dominant sentiment))
              (Num 0.3)
        then exists node, emotion = [node] /\ emotionNodeOf sentiment node
        else emotion = [])
    /\ conceptNodes (secondaryImportance (List.length secondaryConcepts)) 0
                    secondaryConcepts secondary
    /\ Forall (fun node : NodeSystem.Node unit => syntheticNode node)
              synthetic
    /\ (Z.of_nat (List.length synthetic)
        = 8 - Z.of_nat (List.length primary) - Z.of_nat (List.length emotion)
          - Z.of_nat (List.length secondary))%Z
    /\ (8 - 8 * 3 / 10 - 8 * 4 / 10 - 1 <= Z.of_nat (List.length synthetic))%Z.
Proof.
  apply (node_list_is_never_truncated unit tt (fun _ => "0.5"%string)
           mockAnalysisResult (fun _ => 0.5) 8).
  - lia.
  - reflexivity.
Defined.

(** ** From a text to its node list *)

Section TextToNodes.

Import JsNumber NodeSystem.

Variable Vector3 : Type.
Variable origin : Vector3.
Variable spiralPoint : number -> nat -> nat -> Vector3.
Variable fractionToString36 : number -> string.
Variable conceptExtractor : ConceptExtractor.t.

Lemma distributeFrom_length (radius : number) (total : nat)
      (l : list (NodeSystem.Node Vector3)) (index : nat) :
  List.length (distributeFrom spiralPoint radius total index l)
  = List.length l.
Proof.
  revert index. induction l as [|node rest IH]; intros index;
    cbn [distributeFrom List.length].
  - reflexivity.
  - rewrite IH. reflexivity.
Qed.

(** X18. For every concept extractor, random source and text with at
    least one token, the visualization of a computed analysis returns, holds
    exactly as many nodes as the node budget of the analysis, a number between
    8 and 700, and at most as many connections as the semantic graph has
    edges. *)
Theorem worded_text_gets_as_many_nodes_as_budgeted
        (text : string) (useCache : bool) (s : TextAnalyzer.State)
        (r : Random.t) :
  ComplexityAnalyzer.tokenizeText text <> [] ->
  (useCache = true ->
   JsMap.get (TextAnalyzer.analysisCache s) (TextAnalyzer.hashText text)
   = None) ->
  let result :=
    fst (TextAnalyzer.analyze conceptExtractor text useCache s) in
  exists (n : Z) (generated : ScaledVisualization Vector3) (r' : Random.t),
    ScalingStrategy.nodeCount (AnalysisResult.scalingStrategy result) = ofZ n
    /\ (8 <= n <= 700)%Z
    /\ generateVisualization origin spiralPoint fractionToString36 result r
       = Some (generated, r')
    /\ Z.of_nat (List.length (nodes generated)) = n
    /\ (List.length (connections generated)
        <= List.length (SemanticGraph.edges
                          (AnalysisResult.semanticGraph result)))%nat.
Proof.
  intros Htokens Hmiss result.
  assert (Hbudget : exists n : Z,
             ScalingStrategy.nodeCount (AnalysisResult.scalingStrategy result)
             = ofZ n /\ (8 <= n <= 700)%Z).
  { subst result.
    rewrite (analyze_miss conceptExtractor text useCache s Hmiss).
    cbn [AnalysisResult.scalingStrategy].
    destruct (analyze_within text Htokens) as (Hc & _).
    pose proof (analyzeSentiment_intensity text) as He.
    destruct (determineScalingStrategy_within
                (Z.of_nat (List.length (TextAnalyzer.tokenizeText text)))
                (ComplexityAnalyzer.analyze text)
                (TextAnalyzer.analyzeSentiment text)
                (Nat2Z.is_nonneg _) Hc He) as (n & En & Hn & _).
    exists n. split; assumption. }
  clearbody result. destruct Hbudget as (n & En & Hn).
  destruct (generateNodes_exact_count Vector3 origin fractionToString36
              result r n ltac:(lia) En)
    as (real & synthetic & r' & Egen & _ & _ & _ & Hlen).
  unfold generateVisualization. rewrite Egen.
  eexists n, _, r'. split; [exact En|]. split; [exact Hn|].
  split; [reflexivity|]. cbn [nodes connections]. split.
  - unfold distributeNodes. rewrite distributeFrom_length. exact Hlen.
  - apply generateConnections_length.
Qed.

End TextToNodes.

Lemma worded_text_gets_as_many_nodes_as_budgeted_witness :
  let conceptExtractor :=
    ConceptExtractor.mk (fun _ => []) (fun _ => SemanticGraph.mk [] [] []) in
  let result :=
    fst (TextAnalyzer.analyze conceptExtractor "I am very happy today!" true
           (TextAnalyzer.state [] (fun _ => 0%Z))) in
  exists (n : Z) (generated : NodeSystem.ScaledVisualization unit)
         (r' : Random.t),
    ScalingStrategy.nodeCount (AnalysisResult.scalingStrategy result)
    = JsNumber.ofZ n
    /\ (8 <= n <= 700)%Z
    /\ NodeSystem.generateVisualization tt (fun _ _ _ => tt)
         (fun _ => "0.5"%string) result (fun _ => 0.5)
       = Some (generated, r')
    /\ Z.of_nat (List.length (NodeSystem.nodes generated)) = n
    /\ (List.length (NodeSystem.connections generated)
        <= List.length (SemanticGraph.edges
                          (AnalysisResult.semanticGraph result)))%nat.
Proof.
  intros conceptExtractor.
  apply (worded_text_gets_as_many_nodes_as_budgeted
           unit tt (fun _ _ _ => tt) (fun _ => "0.5"%string) conceptExtractor
           "I am very happy today!" true
           (TextAnalyzer.state [] (fun _ => 0%Z)) (fun _ => 0.5)).
  - vm_compute. discriminate.
  - reflexivity.
Defined.

(** ** Maps with distinct keys *)

Section MapKeys.

Variable V : Type.

Lemma get_Some_In (m : JsMap.t V) (k : string) (v : V) :
  JsMap.get m k = Some v -> In (k, v) m.
Proof.
  induction m as [|[k' v'] rest IH]; simpl.
  - discriminate.
  - destruct (String.eqb k k') eqn:E.
    + apply String.eqb_eq in E. subst k'. intros [= ->]. left. reflexivity.
    + intros H. right. apply IH. exact H.
Qed.

Lemma get_None_keys (m : JsMap.t V) (k : string) :
  JsMap.get m k = None <-> ~ In k (map fst m).
Proof.
  induction m as [|[k' v'] rest IH]; simpl.
  - tauto.
  - destruct (String.eqb k k') eqn:E.
    + apply String.eqb_eq in E. subst k'. split; [discriminate | tauto].
    + apply String.eqb_neq in E. rewrite IH. split.
      * intros H [H'|H']; [congruence | tauto].
      * tauto.
Qed.

Lemma In_get (m : JsMap.t V) (k : string) (v : V) :
  NoDup (map fst m) -> In (k, v) m -> JsMap.get m k = Some v.
Proof.
  induction m as [|[k' v'] rest IH]; simpl; intros Hnd Hin.
  - destruct Hin.
  - inversion Hnd as [|? ? Hnotin Hnd']; subst.
    destruct Hin as [[= -> ->]|Hin].
    + rewrite String.eqb_refl. reflexivity.
    + destruct (String.eqb k k') eqn:E.
      * apply String.eqb_eq in E. subst k'. exfalso. apply Hnotin.
        apply (in_map fst) in Hin. exact Hin.
      * apply IH; assumption.
Qed.

Lemma set_keys (m : JsMap.t V) (k : string) (v : V) :
  map fst (JsMap.set m k v)
  = match JsMap.get m k with
    | Some _ => map fst m
    | None => (map fst m ++ [k])%list
    end.
Proof.
  induction m as [|[k' v'] rest IH]; simpl.
  - reflexivity.
  - destruct (String.eqb k k') eqn:E; simpl.
    + apply String.eqb_eq in E. subst k'. reflexivity.
    + rewrite IH. destruct (JsMap.get rest k); reflexivity.
Qed.

Lemma set_NoDup (m : JsMap.t V) (k : string) (v : V) :
  NoDup (map fst m) -> NoDup (map fst (JsMap.set m k v)).
Proof.
  intros H. rewrite set_keys.
  destruct (JsMap.get m k) eqn:E; [exact H|].
  apply get_None_keys in E.
  apply NoDup_app; [exact H | repeat constructor; intros [] | ].
  intros x Hx [<-|[]]. contradiction.
Qed.

End MapKeys.

(** ** The concept extractor *)

Section WordCounts.

Import JsNumber ConceptExtractorImpl.
Open Scope Q_scope.

Lemma countsAre_ext (c c' : string -> nat) (wordCounts : JsMap.t number) :
  (forall word, c word = c' word) ->
  countsAre c wordCounts -> countsAre c' wordCounts.
Proof.
  intros Hext H word. specialize (H word). rewrite <- Hext. exact H.
Qed.

Lemma countOf_value (c : string -> nat) (wordCounts : JsMap.t number)
      (word : string) :
  countsAre c wordCounts ->
  exists x, countOf wordCounts word = Num x
            /\ x == inject_Z (Z.of_nat (c word)).
Proof.
  intros H. specialize (H word). unfold countOf.
  destruct (JsMap.get wordCounts word) as [frequency|].
  - destruct H as [Hv Hpos].
    destruct (within_inv _ _ _ Hv) as (x & -> & Hx).
    assert (Ex : x == inject_Z (Z.of_nat (c word))) by Lqa.lra.
    exists x. split; [|exact Ex].
    unfold or, truthy.
    destruct (Qeq_bool x 0) eqn:E; [|reflexivity].
    apply Qeq_bool_iff in E. exfalso.
    assert (Hq : 1 <= inject_Z (Z.of_nat (c word))).
    { replace 1 with (inject_Z 1) by reflexivity. rewrite <- Zle_Qle. lia. }
    Lqa.lra.
  - exists 0. split; [reflexivity|]. rewrite H. reflexivity.
Qed.

Lemma countsAre_increment (c : string -> nat) (wordCounts : JsMap.t number)
      (word : string) :
  countsAre c wordCounts ->
  countsAre (fun w => if String.eqb w word then S (c w) else c w)
            (JsMap.set wordCounts word
                       (add (countOf wordCounts word) (Num 1))).
Proof.
  intros H w.
  destruct (String.eqb w word) eqn:E.
  - apply String.eqb_eq in E. subst w. rewrite get_set_same.
    destruct (countOf_value c wordCounts word H) as (x & -> & Hx).
    cbn [add]. split; [|lia]. cbn [within].
    rewrite Nat2Z.inj_succ. unfold Z.succ. rewrite inject_Z_plus.
    change (inject_Z 1) with 1. Lqa.lra.
  - apply String.eqb_neq in E. rewrite get_set_other by exact E. apply H.
Qed.

Lemma occurrences_cons (word first : string) (rest : list string) :
  occurrences word (first :: rest)
  = ((if String.eqb word first then 1 else 0) + occurrences word rest)%nat.
Proof.
  unfold occurrences. cbn [count_occ].
  destruct (string_dec first word) as [->|Hne].
  - rewrite String.eqb_refl. reflexivity.
  - destruct (String.eqb word first) eqn:E; [|reflexivity].
    apply String.eqb_eq in E. congruence.
Qed.

Lemma countWords_counts (words : list string) :
  forall (index : nat) (wordCounts : JsMap.t number)
         (wordPositions : JsMap.t (list number)) (c : string -> nat),
    countsAre c wordCounts ->
    NoDup (map fst wordCounts) ->
    countsAre (fun w => (c w + if significant w then occurrences w words
                               else 0)%nat)
              (fst (countWords words index wordCounts wordPositions))
    /\ NoDup (map fst (fst (countWords words index wordCounts wordPositions))).
Proof.
  induction words as [|first rest IH];
    intros index wordCounts wordPositions c Hc Hnd; cbn [countWords].
  - cbn [fst]. split; [|exact Hnd].
    apply (countsAre_ext c); [|exact Hc].
    intros w. unfold occurrences. cbn [count_occ].
    destruct (significant w); lia.
  - destruct (significant first) eqn:Es.
    + cbv zeta.
      specialize (IH (S index)
                     (JsMap.set wordCounts first
                                (add (countOf wordCounts first) (Num 1)))
                     (JsMap.set wordPositions first
                        (match JsMap.get wordPositions first with
                         | Some positions => positions
                         | None => []
                         end ++ [ofNat index])%list)
                     _ (countsAre_increment c wordCounts first Hc)
                     (set_NoDup _ _ _ _ Hnd)).
      destruct IH as [IH1 IH2]. split; [|exact IH2].
      eapply countsAre_ext; [|exact IH1].
      intros w. cbv beta. rewrite occurrences_cons.
      destruct (String.eqb w first) eqn:E.
      * apply String.eqb_eq in E. subst w. rewrite Es. lia.
      * destruct (significant w); lia.
    + specialize (IH (S index) wordCounts wordPositions c Hc Hnd).
      destruct IH as [IH1 IH2]. split; [|exact IH2].
      eapply countsAre_ext; [|exact IH1].
      intros w. cbv beta. rewrite occurrences_cons.
      destruct (String.eqb w first) eqn:E.
      * apply String.eqb_eq in E. subst w. rewrite Es. lia.
      * destruct (significant w); lia.
Qed.

(** The counts after the first loop of [extract]. *)
Lemma extract_counts (words : list string) :
  let wordCounts := fst (countWords words 0 [] []) in
  countsAre (fun w => if significant w then occurrences w words else 0%nat)
            wordCounts
  /\ NoDup (map fst wordCounts).
Proof.
  intros wordCounts.
  destruct (countWords_counts words 0 [] [] (fun _ => 0%nat)) as [H1 H2].
  - intros w. reflexivity.
  - constructor.
  - split; [|exact H2]. eapply countsAre_ext; [|exact H1].
    intros w. reflexivity.
Qed.

Lemma occurrences_In (word : string) (words : list string) :
  (1 <= occurrences word words)%nat -> In word words.
Proof.
  unfold occurrences. intros H. apply (count_occ_In string_dec). lia.
Qed.

(** An entry of [wordCounts]: a significant word of the text with its
    number of occurrences. *)
Lemma extract_entry (words : list string) (word : string)
      (frequency : number) :
  In (word, frequency) (fst (countWords words 0 [] [])) ->
  significant word = true
  /\ In word words
  /\ (1 <= occurrences word words)%nat
  /\ within (inject_Z (Z.of_nat (occurrences word words)))
            (inject_Z (Z.of_nat (occurrences word words))) frequency.
Proof.
  intros Hin. destruct (extract_counts words) as [Hc Hnd].
  apply (In_get _ _ _ _ Hnd) in Hin.
  specialize (Hc word). rewrite Hin in Hc.
  destruct (significant word); [|destruct Hc as [_ Hc]; lia].
  destruct Hc as [Hv Hpos].
  split; [reflexivity|]. split; [apply occurrences_In; exact Hpos|].
  split; assumption.
Qed.

End WordCounts.

Section ExtractFacts.

Import JsNumber ConceptExtractorImpl.
Open Scope Q_scope.

Lemma getCategoryImportance_value (category : ConceptCategory) :
  exists m, getCategoryImportance category = Num m /\ 0.8 <= m <= 1.5.
Proof.
  destruct category; eexists; (split; [reflexivity | Lqa.lra]).
Qed.

Lemma calculateRelevance_within (word : string) (q : Q) (total : nat)
      (text : string) :
  0 <= q -> (0 < total)%nat ->
  within 0 1 (calculateRelevance word (Num q) (ofNat total) text).
Proof.
  intros Hq Htotal. unfold calculateRelevance.
  assert (Hpos : 0 < inject_Z (Z.of_nat total)).
  { replace 0 with (inject_Z 0) by reflexivity. rewrite <- Zlt_Qlt. lia. }
  assert (Hlen : 0 <= inject_Z (Z.of_nat (String.length word)) / 10).
  { apply Qdiv_nonneg; [apply ofNat_nonneg | reflexivity]. }
  assert (Htf : 0 <= q / inject_Z (Z.of_nat total))
    by (apply Qdiv_nonneg; assumption).
  destruct (getCategoryImportance_value (classifyWord word)) as (m & -> & Hm).
  match goal with
  | |- context [if ?c then _ else _] => destruct c
  end.
  all: unfold ofNat, ofZ.
  all: rewrite (div_Num q) by (intros H; rewrite H in Hpos; Lqa.lra).
  all: rewrite div_Num by (intros H; discriminate H).
  all: destruct (min_one_Num _ Hlen) as (lengthBonus & -> & Hl).
  all: set (tf := q / inject_Z (Z.of_nat total)) in *; clearbody tf.
  all: cbn [add mul]; apply min_one_within; Lqa.nra.
Qed.

(** What the inner loops of [findConnectedWords] collect. *)
Lemma findConnectedWords_spec (targetWord : string) (allWords : list string)
      (wordCounts : JsMap.t number) :
  let connections := findConnectedWords targetWord allWords wordCounts in
  (List.length connections <= 10)%nat
  /\ NoDup connections
  /\ Forall (fun word =>
               In word allWords
               /\ significant word = true
               /\ gt (countOf wordCounts word) (Num 1) = true)
            connections.
Proof.
  unfold findConnectedWords.
  set (P := fun connections : list string =>
              NoDup connections
              /\ Forall (fun word =>
                           In word allWords
                           /\ significant word = true
                           /\ gt (countOf wordCounts word) (Num 1) = true)
                        connections).
  assert (Hinner : forall (position : nat) l connections,
             P connections ->
             P (fold_left
                  (fun connections i =>
                     if negb (i =? position)%nat then
                       match nth_error allWords i with
                       | Some nearbyWord =>
                           if significant nearbyWord
                              && gt (countOf wordCounts nearbyWord) (Num 1)
                              && negb (JsArray.includes connections nearbyWord)
                           then (connections ++ [nearbyWord])%list
                           else connections
                       | None => connections
                       end
                     else connections)
                  l connections)).
  { intros position l. induction l as [|i rest IH]; intros connections HP;
      cbn [fold_left]; [exact HP|].
    apply IH.
    destruct (negb (i =? position)%nat); [|exact HP].
    destruct (nth_error allWords i) as [nearbyWord|] eqn:En; [|exact HP].
    destruct (significant nearbyWord) eqn:Es; [|exact HP].
    destruct (gt (countOf wordCounts nearbyWord) (Num 1)) eqn:Eg; [|exact HP].
    destruct (JsArray.includes connections nearbyWord) eqn:Ei; [exact HP|].
    cbn [andb negb]. destruct HP as [Hnd Hall]. split.
    - apply NoDup_app; [exact Hnd | repeat constructor; intros [] |].
      intros x Hx [<-|[]].
      unfold JsArray.includes in Ei.
      assert (existsb (String.eqb nearbyWord) connections = true).
      { apply existsb_exists. exists nearbyWord. split; [exact Hx|].
        apply String.eqb_refl. }
      congruence.
    - apply Forall_app. split; [exact Hall|].
      constructor; [|constructor].
      split; [apply (nth_error_In _ _ En)|]. split; assumption. }
  cbv zeta.
  match goal with
  | |- context [fold_left ?f (positionsOf targetWord allWords 0) []] =>
      assert (Houter : forall positions connections,
                 P connections -> P (fold_left f positions connections))
  end.
  { intros positions. induction positions as [|position rest IH];
      intros connections HP; cbn [fold_left]; [exact HP|].
    apply IH. apply Hinner. exact HP. }
  specialize (Houter (positionsOf targetWord allWords 0) []
                     (conj (NoDup_nil _) (Forall_nil _))).
  set (all := fold_left _ (positionsOf targetWord allWords 0) []) in *.
  destruct Houter as [Hnd Hall].
  change (Num 10) with (ofZ 10). rewrite slice_prefix by lia.
  split; [apply firstn_le_length|]. split.
  - rewrite <- (firstn_skipn (Z.to_nat 10) all) in Hnd.
    apply NoDup_app_remove_r in Hnd. exact Hnd.
  - apply Forall_forall. intros w Hw. apply In_firstn in Hw.
    rewrite Forall_forall in Hall. apply Hall. exact Hw.
Qed.

End ExtractFacts.

Section ExtractStructure.

Import JsNumber ConceptExtractorImpl.
Open Scope Q_scope.

Lemma fold_left_ext (A B : Type) (g h : A -> B -> A) (l : list B) (a : A) :
  (forall a x, g a x = h a x) -> fold_left g l a = fold_left h l a.
Proof.
  intros H. revert a. induction l as [|x rest IH]; intros a; cbn [fold_left].
  - reflexivity.
  - rewrite H. apply IH.
Qed.

Lemma fold_push (A B : Type) (p : B -> bool) (f : B -> A) (l : list B)
      (acc : list A) :
  fold_left (fun acc x => if p x then (acc ++ [f x])%list else acc) l acc
  = (acc ++ map f (filter p l))%list.
Proof.
  revert acc. induction l as [|x rest IH]; intros acc; cbn [fold_left filter].
  - rewrite app_nil_r. reflexivity.
  - rewrite IH. destruct (p x); [|reflexivity].
    cbn [map]. rewrite <- app_assoc. reflexivity.
Qed.

(** [extract] as a pipeline: count, keep the relevant entries, sort, cut. *)
Lemma extract_unfold (text : string) :
  let words := tokenizeText text in
  let wordCounts := fst (countWords words 0 [] []) in
  let wordPositions := snd (countWords words 0 [] []) in
  extract text
  = firstn 50
      (JsArray.sort
         (fun a b => sub (Concept.relevance b) (Concept.relevance a))
         (map (conceptOf text words wordCounts wordPositions)
              (filter (isRelevant text words) wordCounts))).
Proof.
  intros words wordCounts wordPositions. unfold extract. fold words.
  subst wordCounts wordPositions.
  destruct (countWords words 0 [] []) as [wordCounts wordPositions].
  cbn [fst snd].
  rewrite (fold_left_ext _ _ _
             (fun acc entry =>
                if isRelevant text words entry
                then (acc ++ [conceptOf text words wordCounts wordPositions
                                        entry])%list
                else acc))
    by (intros acc [word frequency]; reflexivity).
  rewrite fold_push. cbn [app].
  set (sorted := JsArray.sort _ _).
  unfold ofNat, ofZ, min, lt.
  destruct (Qltb (inject_Z (Z.of_nat (List.length sorted))) 50) eqn:E.
  - apply Qltb_lt in E.
    change (Num (inject_Z (Z.of_nat (List.length sorted))))
      with (ofZ (Z.of_nat (List.length sorted))).
    rewrite slice_prefix by lia.
    rewrite Nat2Z.id.
    replace 50 with (inject_Z 50) in E by reflexivity.
    rewrite <- Zlt_Qlt in E.
    rewrite firstn_all. symmetry. apply firstn_all2. lia.
  - change (Num 50) with (ofZ 50). rewrite slice_prefix by lia. reflexivity.
Qed.

End ExtractStructure.

Section ExtractProperties.

Import JsNumber ConceptExtractorImpl.
Open Scope Q_scope.

(** A concept of [extract] is the concept of a relevant entry. *)
Lemma extract_In (text : string) (concept : Concept.t) :
  In concept (extract text) ->
  let words := tokenizeText text in
  exists word frequency,
    In (word, frequency) (fst (countWords words 0 [] []))
    /\ isRelevant text words (word, frequency) = true
    /\ concept
       = conceptOf text words (fst (countWords words 0 [] []))
                   (snd (countWords words 0 [] [])) (word, frequency).
Proof.
  intros Hin words. rewrite extract_unfold in Hin. cbv zeta in Hin.
  apply In_firstn in Hin. apply sort_In in Hin.
  apply in_map_iff in Hin. destruct Hin as ([word frequency] & <- & Hin).
  apply filter_In in Hin. destruct Hin as [Hin Hrel].
  exists word, frequency. split; [exact Hin|]. split; [exact Hrel|reflexivity].
Qed.

Lemma extract_relevance (text : string) (concept : Concept.t) :
  In concept (extract text) ->
  within 0.1 1 (Concept.relevance concept)
  /\ gt (Concept.relevance concept) (Num 0.1) = true.
Proof.
  intros Hin. destruct (extract_In text concept Hin)
    as (word & frequency & Hentry & Hrel & ->).
  destruct (extract_entry _ _ _ Hentry) as (Hsig & Hword & Hocc & Hfreq).
  destruct (within_inv _ _ _ Hfreq) as (q & -> & Hq).
  cbn [conceptOf Concept.relevance]. unfold isRelevant in Hrel.
  assert (Hlen : (0 < List.length (tokenizeText text))%nat).
  { destruct (tokenizeText text); [destruct Hword | simpl; lia]. }
  assert (Hq0 : 0 <= q).
  { pose proof (ofNat_nonneg (occurrences word (tokenizeText text))).
    Lqa.lra. }
  pose proof (calculateRelevance_within word q _ text Hq0 Hlen) as Hw.
  split; [|exact Hrel].
  destruct (within_inv _ _ _ Hw) as (x & Ex & Hx).
  rewrite Ex in Hrel |- *. unfold gt, lt in Hrel. apply Qltb_lt in Hrel.
  simpl. Lqa.lra.
Qed.

(** X19. Every concept that [extract] returns stands for a token of the
    text that is longer than two characters and not a stop word; its
    category is the classification of that word, its frequency the number
    of occurrences of the word among the tokens, its relevance lies in
    (0.1, 1], and it has at most 10 connections, all distinct, each of them
    a significant token that occurs at least twice in the text. *)
Theorem extracted_concepts_are_counted_words (text : string) :
  let words := tokenizeText text in
  Forall
    (fun concept =>
       let word := Concept.word concept in
       let count := inject_Z (Z.of_nat (occurrences word words)) in
       In word words
       /\ significant word = true
       /\ Concept.category concept = classifyWord word
       /\ within 0.1 1 (Concept.relevance concept)
       /\ gt (Concept.relevance concept) (Num 0.1) = true
       /\ (1 <= occurrences word words)%nat
       /\ within count count (Concept.frequency concept)
       /\ (List.length (Concept.connections concept) <= 10)%nat
       /\ NoDup (Concept.connections concept)
       /\ Forall (fun connected =>
                    In connected words
                    /\ significant connected = true
                    /\ (2 <= occurrences connected words)%nat)
                 (Concept.connections concept))
    (extract text).
Proof.
  intros words. apply Forall_forall. intros concept Hin.
  destruct (extract_relevance text concept Hin) as [Hrel Hgt].
  destruct (extract_In text concept Hin)
    as (word & frequency & Hentry & _ & E).
  fold words in Hentry, E.
  destruct (extract_entry _ _ _ Hentry) as (Hsig & Hword & Hocc & Hfreq).
  destruct (findConnectedWords_spec word words (fst (countWords words 0 [] [])))
    as (Hlen & Hnd & Hall).
  rewrite E in Hrel, Hgt. rewrite E.
  cbn [conceptOf Concept.word Concept.category Concept.relevance
       Concept.frequency Concept.connections] in *.
  repeat (split; [assumption|]). split; [reflexivity|].
  repeat (split; [assumption|]).
  apply Forall_forall. intros connected Hc.
  rewrite Forall_forall in Hall. destruct (Hall connected Hc) as (Hw & Hs & Hg).
  split; [exact Hw|]. split; [exact Hs|].
  destruct (extract_counts words) as [Hcounts _].
  destruct (countOf_value _ _ connected Hcounts) as (x & Ex & Hx).
  rewrite Ex in Hg. unfold gt, lt in Hg. apply Qltb_lt in Hg.
  rewrite Hs in Hx.
  assert (H1 : inject_Z 1 < inject_Z (Z.of_nat (occurrences connected words))).
  { change (inject_Z 1) with 1. Lqa.lra. }
  rewrite <- Zlt_Qlt in H1. lia.
Qed.

End ExtractProperties.

Section ExtractOrder.

Import JsNumber ConceptExtractorImpl.
Open Scope Q_scope.

Lemma relevance_comparator (a b : Concept.t) :
  finite (Concept.relevance a) -> finite (Concept.relevance b) ->
  gt (sub (Concept.relevance b) (Concept.relevance a)) (Num 0)
  = Qltb (valueOf (Concept.relevance a)) (valueOf (Concept.relevance b)).
Proof. apply descending_comparator. Qed.

Lemma descending_firstn (A : Type) (key : A -> Q) (n : nat) (l : list A) :
  descending key l -> descending key (firstn n l).
Proof.
  unfold descending. intros H. revert n.
  induction H as [|x rest Hrest IH Hx]; intros n.
  - rewrite firstn_nil. constructor.
  - destruct n as [|n]; cbn [firstn]; [constructor|].
    constructor; [apply IH|].
    apply Forall_forall. intros y Hy. apply In_firstn in Hy.
    rewrite Forall_forall in Hx. apply Hx. exact Hy.
Qed.

Lemma NoDup_firstn (A : Type) (n : nat) (l : list A) :
  NoDup l -> NoDup (firstn n l).
Proof.
  intros H. rewrite <- (firstn_skipn n l) in H.
  apply NoDup_app_remove_r in H. exact H.
Qed.

(** Filtering an array keeps its keys distinct. *)
Lemma NoDup_map_filter (A K : Type) (key : A -> K) (keep : A -> bool) :
  forall entries : list A,
    NoDup (map key entries) -> NoDup (map key (filter keep entries)).
Proof.
  intros entries.
  induction entries as [|x rest IH]; cbn [map filter]; intros H.
  - constructor.
  - inversion H as [|? ? Hnotin Hnd]; subst.
    destruct (keep x); [|apply IH; exact Hnd].
    cbn [map]. constructor; [|apply IH; exact Hnd].
    intros Hin. apply Hnotin. apply in_map_iff in Hin.
    destruct Hin as (y & Ey & Hy). apply filter_In in Hy.
    apply in_map_iff. exists y. tauto.
Qed.

(** X20. [extract] returns at most 50 concepts, ordered by decreasing
    relevance, no two of them for the same word; sorting its result by
    relevance once more, as [generateNodes] does, leaves it as it is. *)
Theorem extract_returns_at_most_50_sorted_concepts (text : string) :
  (List.length (extract text) <= 50)%nat
  /\ descending (fun concept => valueOf (Concept.relevance concept))
                (extract text)
  /\ NoDup (map Concept.word (extract text))
  /\ JsArray.sort
       (fun a b => sub (Concept.relevance b) (Concept.relevance a))
       (extract text)
     = extract text.
Proof.
  assert (Hfin : Forall (fun concept => finite (Concept.relevance concept))
                        (extract text)).
  { apply Forall_forall. intros concept Hin.
    destruct (extract_relevance text concept Hin) as [H _].
    apply (within_finite _ _ _ H). }
  pose proof (extract_unfold text) as E. cbv zeta in E.
  set (words := tokenizeText text) in *.
  set (wordCounts := fst (countWords words 0 [] [])) in *.
  set (wordPositions := snd (countWords words 0 [] [])) in *.
  set (concepts := map (conceptOf text words wordCounts wordPositions)
                       (filter (isRelevant text words) wordCounts)) in *.
  set (compare := fun a b : Concept.t =>
                    sub (Concept.relevance b) (Concept.relevance a)) in *.
  assert (Hgood : Forall (fun concept => finite (Concept.relevance concept))
                         concepts).
  { apply Forall_forall. intros concept Hin.
    unfold concepts in Hin. apply in_map_iff in Hin.
    destruct Hin as ([word frequency] & <- & Hin).
    apply filter_In in Hin. destruct Hin as [Hin _].
    destruct (extract_entry _ _ _ Hin) as (_ & Hword & _ & Hfreq).
    destruct (within_inv _ _ _ Hfreq) as (q & -> & Hq).
    cbn [conceptOf Concept.relevance].
    assert (Hlen : (0 < List.length words)%nat).
    { destruct words; [destruct Hword | simpl; lia]. }
    assert (Hq0 : 0 <= q).
    { pose proof (ofNat_nonneg (occurrences word words)). Lqa.lra. }
    apply (within_finite 0 1).
    apply (calculateRelevance_within word q _ text Hq0 Hlen). }
  assert (Hdesc : descending (fun concept => valueOf (Concept.relevance concept))
                             (extract text)).
  { rewrite E. apply descending_firstn.
    apply (sort_descending Concept.t compare
             (fun concept => valueOf (Concept.relevance concept))
             (fun concept => finite (Concept.relevance concept))
             relevance_comparator concepts Hgood). }
  split; [rewrite E; apply firstn_le_length|].
  split; [exact Hdesc|]. split.
  - rewrite E. rewrite <- firstn_map. apply NoDup_firstn.
    apply (Permutation_NoDup
             (Permutation_map Concept.word (sort_perm _ compare concepts))).
    unfold concepts. rewrite map_map.
    destruct (extract_counts words) as [_ Hnd]. fold wordCounts in Hnd.
    assert (Ew : forall l : list (string * number),
               map (fun x => Concept.word
                               (conceptOf text words wordCounts wordPositions x))
                   l
               = map fst l).
    { intros l. apply map_ext. intros [word frequency]. reflexivity. }
    rewrite Ew. apply NoDup_map_filter. exact Hnd.
  - apply (sort_sorted_id Concept.t compare
             (fun concept => valueOf (Concept.relevance concept))
             (fun concept => finite (Concept.relevance concept))
             relevance_comparator (extract text) Hfin Hdesc).
Qed.

(** X21. A text all of whose tokens are stop words or shorter than three
    characters (in particular a text without tokens) yields no concept, and
    the semantic graph of its concepts is empty. *)
Theorem text_without_significant_word_has_no_concept (text : string) :
  Forall (fun word => significant word = false) (tokenizeText text) ->
  extract text = []
  /\ buildSemanticGraph (extract text) = SemanticGraph.mk [] [] [].
Proof.
  intros H.
  assert (E : extract text = []).
  { destruct (extract text) as [|concept rest] eqn:Ex; [reflexivity|].
    exfalso.
    assert (Hin : In concept (extract text)) by (rewrite Ex; left; reflexivity).
    destruct (extract_In text concept Hin) as (word & frequency & Hentry & _).
    destruct (extract_entry _ _ _ Hentry) as (Hsig & Hword & _).
    rewrite Forall_forall in H. rewrite (H word Hword) in Hsig.
    discriminate Hsig. }
  split; [exact E|]. rewrite E. reflexivity.
Qed.

End ExtractOrder.

Lemma text_without_significant_word_has_no_concept_witness :
  ConceptExtractorImpl.extract "I am." = []
  /\ ConceptExtractorImpl.buildSemanticGraph
       (ConceptExtractorImpl.extract "I am.")
     = SemanticGraph.mk [] [] [].
Proof.
  apply (text_without_significant_word_has_no_concept "I am.").
  vm_compute. repeat constructor.
Defined.

(** ** The semantic graph *)

Section GraphFacts.

Import JsNumber ConceptExtractorImpl.
Open Scope Q_scope.
Open Scope string_scope.

Lemma calculateConnectionWeight_within (concept1 concept2 : Concept.t) :
  scored concept1 -> scored concept2 ->
  within 0.31 1 (calculateConnectionWeight concept1 concept2).
Proof.
  intros [Hr1 Hf1] [Hr2 Hf2]. unfold calculateConnectionWeight.
  destruct (within_inv _ _ _ Hr1) as (r1 & -> & Hr1').
  destruct (within_inv _ _ _ Hr2) as (r2 & -> & Hr2').
  destruct (Concept.frequency concept1) as [| | |f1]; try contradiction.
  destruct (Concept.frequency concept2) as [| | |f2]; try contradiction.
  cbn [add]. rewrite !div_Num by (intros H; discriminate H).
  assert (Hf : 0 <= (f1 + f2) / 10) by (apply Qdiv_nonneg; Lqa.lra).
  assert (Hf' : 0.2 <= (f1 + f2) / 10)
    by (apply Qle_shift_div_l; Lqa.lra).
  destruct (min_Num 1 ((f1 + f2) / 10)) as (fw & -> & Hw1 & Hw2 & Hw3).
  assert (Hfw : 0.2 <= fw <= 1) by (destruct Hw3 as [->| ->]; Lqa.lra).
  assert (Hrw : 0.1 <= (r1 + r2) / 2 <= 1).
  { split; [apply Qle_shift_div_l | apply Qle_shift_div_r]; Lqa.lra. }
  set (rw := (r1 + r2) / 2) in *. clearbody rw.
  assert (Hb : exists b, (if ConceptCategory_eqb (Concept.category concept1)
                                                 (Concept.category concept2)
                          then Num 0.3 else Num 0) = Num b /\ 0 <= b).
  { destruct (ConceptCategory_eqb _ _); eexists;
      (split; [reflexivity | Lqa.lra]). }
  destruct Hb as (b & -> & Hb).
  cbn [add mul].
  destruct (min_Num 1 (rw * 0.5 + fw * 0.3 + b + 0.2))
    as (w & -> & H1 & H2 & [->| ->]); simpl; Lqa.lra.
Qed.

(** The map [nodes]: one entry for each word of a concept. *)
Lemma nodes_entries (concepts : list Concept.t) :
  forall (all : list Concept.t) (nodes : JsMap.t ConceptNode.t),
    incl concepts all ->
    Forall (fun '(key, node) =>
              ConceptNode.id node = key
              /\ In (ConceptNode.concept node) all
              /\ Concept.word (ConceptNode.concept node) = key
              /\ ConceptNode.connections node
                 = Concept.connections (ConceptNode.concept node))
           nodes ->
    let result :=
      fold_left
        (fun nodes concept =>
           JsMap.set nodes (Concept.word concept)
             (ConceptNode.mk (Concept.word concept) concept
                (mul (Concept.relevance concept) (Concept.frequency concept))
                (Concept.connections concept)))
        concepts nodes in
    Forall (fun '(key, node) =>
              ConceptNode.id node = key
              /\ In (ConceptNode.concept node) all
              /\ Concept.word (ConceptNode.concept node) = key
              /\ ConceptNode.connections node
                 = Concept.connections (ConceptNode.concept node))
           result
    /\ (forall key, JsMap.get nodes key <> None ->
                    JsMap.get result key <> None)
    /\ Forall (fun concept => JsMap.get result (Concept.word concept) <> None)
              concepts.
Proof.
  induction concepts as [|concept rest IH]; intros all nodes Hincl Hnodes;
    cbn [fold_left].
  - split; [exact Hnodes|]. split; [tauto | constructor].
  - set (node := ConceptNode.mk (Concept.word concept) concept _ _).
    assert (Hnodes' : Forall (fun '(key, node) =>
                                ConceptNode.id node = key
                                /\ In (ConceptNode.concept node) all
                                /\ Concept.word (ConceptNode.concept node) = key
                                /\ ConceptNode.connections node
                                   = Concept.connections
                                       (ConceptNode.concept node))
                             (JsMap.set nodes (Concept.word concept) node)).
    { apply Forall_forall. intros [key n] Hin.
      apply set_In in Hin. destruct Hin as [[= -> ->]|Hin].
      - unfold node. cbn. repeat split. apply Hincl. left. reflexivity.
      - rewrite Forall_forall in Hnodes. apply (Hnodes (key, n) Hin). }
    destruct (IH all (JsMap.set nodes (Concept.word concept) node)
                 (fun c Hc => Hincl c (or_intror Hc)) Hnodes')
      as (H1 & H2 & H3).
    split; [exact H1|]. split.
    + intros key Hkey. apply H2.
      destruct (String.eqb key (Concept.word concept)) eqn:E.
      * apply String.eqb_eq in E. subst key. rewrite get_set_same.
        discriminate.
      * apply String.eqb_neq in E. rewrite get_set_other by exact E.
        exact Hkey.
    + constructor; [|exact H3].
      apply H2. rewrite get_set_same. discriminate.
Qed.

(** The edges added for the connections of one concept. *)
Lemma edges_of_concept (all : list Concept.t) (nodes : JsMap.t ConceptNode.t)
      (concept : Concept.t) (connections : list string) :
  In concept all ->
  incl connections (Concept.connections concept) ->
  forall edges : JsMap.t SemanticEdge.t,
    Forall (graphEdge all nodes) edges ->
    Forall (graphEdge all nodes)
      (fold_left
         (fun edges connectedWord =>
            match JsMap.get nodes connectedWord with
            | Some connected =>
                let edgeId := Concept.word concept ++ "-" ++ connectedWord in
                let reverseEdgeId :=
                  connectedWord ++ "-" ++ Concept.word concept in
                if negb (has edges edgeId) && negb (has edges reverseEdgeId)
                then
                  JsMap.set edges edgeId
                    (SemanticEdge.mk edgeId (Concept.word concept)
                       connectedWord
                       (calculateConnectionWeight
                          concept (ConceptNode.concept connected))
                       (determineRelationshipType
                          concept (ConceptNode.concept connected)))
                else edges
            | None => edges
            end)
         connections edges).
Proof.
  intros Hin. induction connections as [|connectedWord rest IH];
    intros Hincl edges Hedges; cbn [fold_left].
  - exact Hedges.
  - apply IH; [intros w Hw; apply Hincl; right; exact Hw|].
    destruct (JsMap.get nodes connectedWord) as [connected|] eqn:En;
      [|exact Hedges].
    cbv zeta.
    destruct (negb (has edges _) && negb (has edges _)); [|exact Hedges].
    apply Forall_forall. intros [key edge] Hentry.
    apply set_In in Hentry. destruct Hentry as [[= -> ->]|Hentry].
    + cbn. split; [reflexivity|]. split; [reflexivity|].
      exists concept, connected. split; [exact Hin|].
      split; [reflexivity|]. split; [apply Hincl; left; reflexivity|].
      split; [exact En|]. split; reflexivity.
    + rewrite Forall_forall in Hedges. apply (Hedges (key, edge) Hentry).
Qed.

Lemma edges_entries (all : list Concept.t) (nodes : JsMap.t ConceptNode.t)
      (concepts : list Concept.t) :
  incl concepts all ->
  forall edges : JsMap.t SemanticEdge.t,
    Forall (graphEdge all nodes) edges ->
    Forall (graphEdge all nodes)
      (fold_left
         (fun edges concept =>
            fold_left
              (fun edges connectedWord =>
                 match JsMap.get nodes connectedWord with
                 | Some connected =>
                     let edgeId :=
                       Concept.word concept ++ "-" ++ connectedWord in
                     let reverseEdgeId :=
                       connectedWord ++ "-" ++ Concept.word concept in
                     if negb (has edges edgeId)
                        && negb (has edges reverseEdgeId)
                     then
                       JsMap.set edges edgeId
                         (SemanticEdge.mk edgeId (Concept.word concept)
                            connectedWord
                            (calculateConnectionWeight
                               concept (ConceptNode.concept connected))
                            (determineRelationshipType
                               concept (ConceptNode.concept connected)))
                     else edges
                 | None => edges
                 end)
              (Concept.connections concept) edges)
         concepts edges).
Proof.
  induction concepts as [|concept rest IH]; intros Hincl edges Hedges;
    cbn [fold_left].
  - exact Hedges.
  - apply IH; [intros c Hc; apply Hincl; right; exact Hc|].
    apply edges_of_concept; [apply Hincl; left; reflexivity | | exact Hedges].
    intros w Hw. exact Hw.
Qed.

Lemma buildSemanticGraph_nodes (concepts : list Concept.t) :
  let graph := buildSemanticGraph concepts in
  Forall (fun '(key, node) =>
            ConceptNode.id node = key
            /\ In (ConceptNode.concept node) concepts
            /\ Concept.word (ConceptNode.concept node) = key
            /\ ConceptNode.connections node
               = Concept.connections (ConceptNode.concept node))
         (SemanticGraph.nodes graph)
  /\ Forall (fun concept =>
               JsMap.get (SemanticGraph.nodes graph) (Concept.word concept)
               <> None)
            concepts.
Proof.
  cbv zeta. unfold buildSemanticGraph. cbn [SemanticGraph.nodes].
  destruct (nodes_entries concepts concepts [] (fun c Hc => Hc) (Forall_nil _))
    as (H1 & _ & H3).
  split; assumption.
Qed.

Lemma buildSemanticGraph_edges (concepts : list Concept.t) :
  let graph := buildSemanticGraph concepts in
  Forall (graphEdge concepts (SemanticGraph.nodes graph))
         (SemanticGraph.edges graph).
Proof.
  cbv zeta. unfold buildSemanticGraph.
  cbn [SemanticGraph.nodes SemanticGraph.edges].
  apply edges_entries; [intros c Hc; exact Hc | constructor].
Qed.

End GraphFacts.

Section GraphProperties.

Import JsNumber ConceptExtractorImpl.
Open Scope Q_scope.
Open Scope string_scope.

(** X22. For concepts scored as [extract] scores them (relevance in
    [0.1, 1], frequency at least 1), the semantic graph is well formed: every
    node is stored under the word of its concept, every concept has a node,
    and every edge is stored under its id [source-target], joins two words
    that have nodes, and has a weight in [0.31, 1], above the threshold 0.3
    at which the structure generator marks a connection active. *)
Theorem semantic_graph_joins_scored_concepts (concepts : list Concept.t) :
  Forall scored concepts ->
  let graph := buildSemanticGraph concepts in
  let nodes := SemanticGraph.nodes graph in
  Forall (fun '(key, node) =>
            ConceptNode.id node = key
            /\ In (ConceptNode.concept node) concepts
            /\ Concept.word (ConceptNode.concept node) = key)
         nodes
  /\ Forall (fun concept => has nodes (Concept.word concept) = true) concepts
  /\ Forall (fun '(key, edge) =>
               SemanticEdge.id edge = key
               /\ key = SemanticEdge.source edge ++ "-"
                        ++ SemanticEdge.target edge
               /\ has nodes (SemanticEdge.source edge) = true
               /\ has nodes (SemanticEdge.target edge) = true
               /\ within 0.31 1 (SemanticEdge.weight edge)
               /\ gt (SemanticEdge.weight edge) (Num 0.3) = true)
            (SemanticGraph.edges graph).
Proof.
  intros Hscored graph nodes.
  destruct (buildSemanticGraph_nodes concepts) as [Hnodes Hwords].
  pose proof (buildSemanticGraph_edges concepts) as Hedges.
  cbv zeta in Hnodes, Hwords, Hedges. subst nodes graph.
  set (nodes := SemanticGraph.nodes (buildSemanticGraph concepts)) in *.
  assert (Hhas : forall concept, In concept concepts ->
                                 has nodes (Concept.word concept) = true).
  { intros concept Hin. rewrite Forall_forall in Hwords.
    specialize (Hwords concept Hin). unfold has.
    destruct (JsMap.get nodes (Concept.word concept));
      [reflexivity | contradiction]. }
  split; [|split].
  - apply Forall_forall. intros [key node] Hin.
    rewrite Forall_forall in Hnodes. specialize (Hnodes (key, node) Hin).
    cbv beta iota in Hnodes. tauto.
  - apply Forall_forall. exact Hhas.
  - apply Forall_forall. intros [key edge] Hin.
    rewrite Forall_forall in Hedges. specialize (Hedges (key, edge) Hin).
    destruct Hedges as (Hid & Hkey & concept & connected & Hc & Hsource
                        & Htarget & Hget & Hweight & _).
    split; [exact Hid|]. split; [exact Hkey|].
    split; [rewrite <- Hsource; apply Hhas; exact Hc|].
    split; [unfold has; rewrite Hget; reflexivity|].
    assert (Hconnected : In (ConceptNode.concept connected) concepts).
    { apply get_Some_In in Hget. rewrite Forall_forall in Hnodes.
      specialize (Hnodes _ Hget). cbv beta iota in Hnodes. tauto. }
    rewrite Forall_forall in Hscored.
    pose proof (calculateConnectionWeight_within
                  concept (ConceptNode.concept connected)
                  (Hscored _ Hc) (Hscored _ Hconnected)) as Hw.
    rewrite <- Hweight in Hw. split; [exact Hw|].
    destruct (within_inv _ _ _ Hw) as (w & -> & Hw').
    unfold gt, lt. apply Qltb_lt. Lqa.lra.
Qed.

End GraphProperties.

Lemma semantic_graph_joins_scored_concepts_witness :
  let concepts := AnalysisResult.concepts mockAnalysisResult in
  let graph := ConceptExtractorImpl.buildSemanticGraph concepts in
  let nodes := SemanticGraph.nodes graph in
  Forall (fun '(key, node) =>
            ConceptNode.id node = key
            /\ In (ConceptNode.concept node) concepts
            /\ Concept.word (ConceptNode.concept node) = key)
         nodes
  /\ Forall (fun concept =>
               ConceptExtractorImpl.has nodes (Concept.word concept) = true)
            concepts
  /\ Forall (fun '(key, edge) =>
               SemanticEdge.id edge = key
               /\ key = (SemanticEdge.source edge ++ "-"
                         ++ SemanticEdge.target edge)%string
               /\ ConceptExtractorImpl.has nodes (SemanticEdge.source edge)
                  = true
               /\ ConceptExtractorImpl.has nodes (SemanticEdge.target edge)
                  = true
               /\ JsNumber.within 0.31 1 (SemanticEdge.weight edge)
               /\ JsNumber.gt (SemanticEdge.weight edge) (Num 0.3) = true)
            (SemanticGraph.edges graph).
Proof.
  apply (semantic_graph_joins_scored_concepts
           (AnalysisResult.concepts mockAnalysisResult)).
  repeat constructor; vm_compute; intros H; discriminate H.
Defined.

(** ** Concept clusters *)

Section ClusterFacts.

Import JsNumber ConceptExtractorImpl.
Open Scope Q_scope.
Open Scope string_scope.

Lemma ConceptCategory_eqb_eq (a b : ConceptCategory) :
  ConceptCategory_eqb a b = true <-> a = b.
Proof. destruct a, b; simpl; split; intros H; congruence. Qed.

Lemma ConceptCategory_eqb_neq (a b : ConceptCategory) :
  ConceptCategory_eqb a b = false <-> a <> b.
Proof. destruct a, b; simpl; split; intros H; congruence. Qed.

Lemma groupInsert_present (groups : list (ConceptCategory * list Concept.t))
      (concept : Concept.t) :
  NoDup (map fst groups) ->
  In (Concept.category concept) (map fst groups) ->
  groupInsert groups concept
  = map (fun '(category, members) =>
           if ConceptCategory_eqb (Concept.category concept) category
           then (category, (members ++ [concept])%list)
           else (category, members))
        groups.
Proof.
  induction groups as [|[category members] rest IH];
    cbn [groupInsert map fst]; intros Hnd Hin.
  - destruct Hin.
  - inversion Hnd as [|? ? Hnotin Hnd']; subst.
    destruct (ConceptCategory_eqb (Concept.category concept) category) eqn:E.
    + apply ConceptCategory_eqb_eq in E. f_equal.
      symmetry. rewrite <- (map_id rest) at 2. apply map_ext_in.
      intros [category' members'] Hin'.
      destruct (ConceptCategory_eqb (Concept.category concept) category')
        eqn:E'; [|reflexivity].
      apply ConceptCategory_eqb_eq in E'. exfalso. apply Hnotin.
      rewrite <- E, E'. apply (in_map fst) in Hin'. exact Hin'.
    + f_equal. apply IH; [exact Hnd'|].
      destruct Hin as [Hin|Hin]; [|exact Hin].
      apply ConceptCategory_eqb_neq in E. congruence.
Qed.

Lemma groupInsert_absent (groups : list (ConceptCategory * list Concept.t))
      (concept : Concept.t) :
  ~ In (Concept.category concept) (map fst groups) ->
  groupInsert groups concept
  = (groups ++ [(Concept.category concept, [concept])])%list.
Proof.
  induction groups as [|[category members] rest IH];
    cbn [groupInsert map fst app]; intros Hnotin.
  - reflexivity.
  - destruct (ConceptCategory_eqb (Concept.category concept) category) eqn:E.
    + apply ConceptCategory_eqb_eq in E. exfalso. apply Hnotin. left.
      symmetry. exact E.
    + f_equal. apply IH. intros H. apply Hnotin. right. exact H.
Qed.

Lemma membersOf_app (category : ConceptCategory) (l1 l2 : list Concept.t) :
  membersOf category (l1 ++ l2)
  = (membersOf category l1 ++ membersOf category l2)%list.
Proof. unfold membersOf. apply filter_app. Qed.

Lemma category_listed (category : ConceptCategory)
      (l : list ConceptCategory) :
  In category l \/ ~ In category l.
Proof.
  induction l as [|first rest IH].
  - right. intros [].
  - destruct (ConceptCategory_eqb first category) eqn:E.
    + apply ConceptCategory_eqb_eq in E. left. left. exact E.
    + apply ConceptCategory_eqb_neq in E. destruct IH as [IH|IH].
      * left. right. exact IH.
      * right. intros [H|H]; contradiction.
Qed.

Lemma membersOf_single (category : ConceptCategory) (concept : Concept.t) :
  membersOf category [concept]
  = if ConceptCategory_eqb (Concept.category concept) category
    then [concept] else [].
Proof. reflexivity. Qed.

Lemma grouped_step (processed : list Concept.t)
      (groups : list (ConceptCategory * list Concept.t))
      (concept : Concept.t) :
  grouped processed groups ->
  grouped (processed ++ [concept]) (groupInsert groups concept).
Proof.
  intros (Hnd & Hmembers & Hcats).
  destruct (category_listed (Concept.category concept) (map fst groups))
    as [Hin|Hnotin].
  - rewrite (groupInsert_present groups concept Hnd Hin).
    assert (Hkeys : map fst
                      (map (fun '(category, members) =>
                              if ConceptCategory_eqb
                                   (Concept.category concept) category
                              then (category, (members ++ [concept])%list)
                              else (category, members))
                           groups)
                    = map fst groups).
    { rewrite map_map. apply map_ext. intros [category members].
      destruct (ConceptCategory_eqb _ _); reflexivity. }
    split; [rewrite Hkeys; exact Hnd|]. split.
    + intros category members Hentry. apply in_map_iff in Hentry.
      destruct Hentry as ([category' members'] & E & Hentry).
      destruct (Hmembers _ _ Hentry) as [Em Hne].
      rewrite membersOf_app, membersOf_single.
      destruct (ConceptCategory_eqb (Concept.category concept) category')
        eqn:Ec; injection E as <- <-; rewrite Ec.
      * split; [rewrite Em; reflexivity|].
        intros H. apply app_eq_nil in H. destruct H as [_ H]. discriminate H.
      * split; [rewrite app_nil_r; exact Em | exact Hne].
    + intros c Hc. rewrite Hkeys. apply in_app_or in Hc.
      destruct Hc as [Hc|[<-|[]]]; [apply Hcats; exact Hc | exact Hin].
  - rewrite (groupInsert_absent groups concept Hnotin).
    split; [|split].
    + rewrite map_app. cbn [map fst].
      apply NoDup_app; [exact Hnd | repeat constructor; intros [] |].
      intros x Hx [<-|[]]. contradiction.
    + intros category members Hentry. apply in_app_or in Hentry.
      rewrite membersOf_app, membersOf_single.
      destruct Hentry as [Hentry|[[= <- <-]|[]]].
      * destruct (Hmembers _ _ Hentry) as [Em Hne].
        destruct (ConceptCategory_eqb (Concept.category concept) category)
          eqn:Ec.
        -- apply ConceptCategory_eqb_eq in Ec. exfalso. apply Hnotin.
           rewrite Ec. apply (in_map fst) in Hentry. exact Hentry.
        -- split; [rewrite app_nil_r; exact Em | exact Hne].
      * assert (Ec : ConceptCategory_eqb (Concept.category concept)
                                         (Concept.category concept) = true)
          by (apply ConceptCategory_eqb_eq; reflexivity).
        rewrite Ec. split; [|discriminate].
        assert (En : membersOf (Concept.category concept) processed = []).
        { unfold membersOf.
          destruct (filter _ processed) as [|p rest] eqn:Ef; [reflexivity|].
          exfalso.
          assert (Hp : In p (filter
                               (fun c => ConceptCategory_eqb
                                           (Concept.category c)
                                           (Concept.category concept))
                               processed))
            by (rewrite Ef; left; reflexivity).
          apply filter_In in Hp. destruct Hp as [Hp Hcat].
          apply ConceptCategory_eqb_eq in Hcat.
          apply Hnotin. rewrite <- Hcat. apply Hcats. exact Hp. }
        rewrite En. reflexivity.
    + intros c Hc. rewrite map_app. apply in_or_app. apply in_app_or in Hc.
      destruct Hc as [Hc|[<-|[]]].
      * left. apply Hcats. exact Hc.
      * right. left. reflexivity.
Qed.

Lemma grouped_fold (concepts : list Concept.t) :
  forall (processed : list Concept.t)
         (groups : list (ConceptCategory * list Concept.t)),
    grouped processed groups ->
    grouped (processed ++ concepts) (fold_left groupInsert concepts groups).
Proof.
  induction concepts as [|concept rest IH]; intros processed groups H;
    cbn [fold_left].
  - rewrite app_nil_r. exact H.
  - replace (processed ++ concept :: rest)%list
      with ((processed ++ [concept]) ++ rest)%list
      by (rewrite <- app_assoc; reflexivity).
    apply IH. apply grouped_step. exact H.
Qed.

Lemma grouped_concepts (concepts : list Concept.t) :
  grouped concepts (fold_left groupInsert concepts []).
Proof.
  apply (grouped_fold concepts [] []).
  split; [constructor|]. split; [intros ? ? []|intros ? []].
Qed.

(** The centroid: a member of highest relevance. *)
Lemma mostRelevant_spec (others : list Concept.t) :
  forall first : Concept.t,
    Forall (fun concept => finite (Concept.relevance concept))
           (first :: others) ->
    In (mostRelevant first others) (first :: others)
    /\ Forall (fun concept =>
                 le (Concept.relevance concept)
                    (Concept.relevance (mostRelevant first others)) = true)
              (first :: others).
Proof.
  unfold mostRelevant.
  induction others as [|current rest IH]; intros first Hfin; cbn [fold_left].
  - split; [left; reflexivity|]. constructor; [|constructor].
    inversion Hfin as [|? ? Hf _]; subst.
    destruct (Concept.relevance first); try contradiction.
    apply le_Num. Lqa.lra.
  - inversion Hfin as [|? ? Hf Hrest]; subst.
    inversion Hrest as [|? ? Hc Hrest']; subst.
    destruct (Concept.relevance first) as [| | |x] eqn:Ex; try contradiction.
    destruct (Concept.relevance current) as [| | |y] eqn:Ey; try contradiction.
    unfold gt, lt.
    destruct (Qltb x y) eqn:E.
    + apply Qltb_lt in E.
      destruct (IH current) as [Hin Hall].
      { constructor; [rewrite Ey; exact I | exact Hrest']. }
      split; [right; exact Hin|].
      inversion Hall as [|? ? Hcur Hall']; subst.
      constructor; [|exact Hall].
      rewrite Ey in Hcur. rewrite Ex.
      assert (Hz : finite (Concept.relevance (fold_left
                     (fun best current0 =>
                        if gt (Concept.relevance current0)
                              (Concept.relevance best)
                        then current0 else best) rest current))).
      { rewrite Forall_forall in Hrest. apply Hrest. exact Hin. }
      destruct (Concept.relevance (fold_left _ rest current)) as [| | |z];
        try contradiction.
      apply le_Num in Hcur. apply le_Num. Lqa.lra.
    + apply Qltb_ge in E.
      destruct (IH first) as [Hin Hall].
      { constructor; [rewrite Ex; exact I | exact Hrest']. }
      split; [destruct Hin as [Hin|Hin]; [left; exact Hin | right; right; exact Hin]|].
      inversion Hall as [|? ? Hfirst Hall']; subst.
      constructor; [exact Hfirst|]. constructor; [|exact Hall'].
      rewrite Ex in Hfirst. rewrite Ey.
      assert (Hz : finite (Concept.relevance (fold_left
                     (fun best current0 =>
                        if gt (Concept.relevance current0)
                              (Concept.relevance best)
                        then current0 else best) rest first))).
      { destruct Hin as [<-|Hin]; [rewrite Ex; exact I|].
        rewrite Forall_forall in Hrest'. apply Hrest'. exact Hin. }
      destruct (Concept.relevance (fold_left _ rest first)) as [| | |z];
        try contradiction.
      apply le_Num in Hfirst. apply le_Num. Lqa.lra.
Qed.

Lemma sum_finite (values : list number) :
  Forall finite values ->
  forall a : Q,
    exists s, fold_left (fun sum val => add sum val) values (Num a) = Num s.
Proof.
  intros H. induction H as [|v rest Hv _ IH]; intros a; cbn [fold_left].
  - exists a. reflexivity.
  - destruct v; try contradiction. cbn [add]. apply IH.
Qed.

Lemma Qsquare_nonneg (y : Q) : 0 <= y * y.
Proof.
  destruct (Qlt_le_dec y 0) as [H|H].
  - setoid_replace (y * y) with ((- y) * (- y)) by ring.
    apply Qmult_le_0_compat; Lqa.lra.
  - apply Qmult_le_0_compat; Lqa.lra.
Qed.

Lemma squares_nonneg (mean : Q) (values : list number) :
  Forall finite values ->
  forall a : Q,
    0 <= a ->
    exists s,
      fold_left
        (fun sum val =>
           add sum (mul (sub val (Num mean)) (sub val (Num mean))))
        values (Num a)
      = Num s
      /\ 0 <= s.
Proof.
  intros H. induction H as [|v rest Hv _ IH]; intros a Ha; cbn [fold_left].
  - exists a. split; [reflexivity | exact Ha].
  - destruct v as [| | |x]; try contradiction. cbn [sub neg add mul].
    apply IH. pose proof (Qsquare_nonneg (x + - mean)). Lqa.lra.
Qed.

Lemma calculateVariance_nonneg (values : list number) :
  values <> [] -> Forall finite values ->
  exists v, calculateVariance values = Num v /\ 0 <= v.
Proof.
  intros Hne Hfin. unfold calculateVariance.
  assert (Hlen : 0 < inject_Z (Z.of_nat (List.length values))).
  { replace 0 with (inject_Z 0) by reflexivity. rewrite <- Zlt_Qlt.
    destruct values; [contradiction | simpl List.length; lia]. }
  destruct (sum_finite values Hfin 0) as (s & ->).
  unfold ofNat, ofZ.
  rewrite div_Num by (intros H; rewrite H in Hlen; Lqa.lra).
  destruct (squares_nonneg (s / inject_Z (Z.of_nat (List.length values)))
              values Hfin 0 (Qle_refl 0)) as (sq & -> & Hsq).
  rewrite div_Num by (intros H; rewrite H in Hlen; Lqa.lra).
  eexists. split; [reflexivity|]. apply Qdiv_nonneg; assumption.
Qed.

Lemma coherence_term (v : Q) :
  0 <= v ->
  exists c, div (Num 1) (add (Num 1) (Num v)) = Num c /\ 0 < c <= 1.
Proof.
  intros Hv. cbn [add]. rewrite div_Num by (intros H; Lqa.lra).
  eexists. split; [reflexivity|]. split.
  - apply Qlt_shift_div_l; Lqa.lra.
  - apply Qle_shift_div_r; Lqa.lra.
Qed.

Lemma calculateClusterCoherence_within (concepts : list Concept.t) :
  Forall (fun concept => finite (Concept.relevance concept)
                         /\ finite (Concept.frequency concept)) concepts ->
  within 0 1 (calculateClusterCoherence concepts)
  /\ gt (calculateClusterCoherence concepts) (Num 0) = true.
Proof.
  intros Hfin. unfold calculateClusterCoherence.
  destruct (List.length concepts <=? 1)%nat eqn:E.
  - split; [simpl; Lqa.lra | reflexivity].
  - apply Nat.leb_gt in E.
    assert (Hne : forall (f : Concept.t -> number), map f concepts <> []).
    { intros f H. apply (f_equal (@List.length _)) in H.
      rewrite length_map in H. simpl in H. lia. }
    assert (Hr : Forall finite (map Concept.relevance concepts)).
    { apply Forall_forall. intros v Hv. apply in_map_iff in Hv.
      destruct Hv as (c & <- & Hc). rewrite Forall_forall in Hfin.
      apply (Hfin c Hc). }
    assert (Hf : Forall finite (map Concept.frequency concepts)).
    { apply Forall_forall. intros v Hv. apply in_map_iff in Hv.
      destruct Hv as (c & <- & Hc). rewrite Forall_forall in Hfin.
      apply (Hfin c Hc). }
    destruct (calculateVariance_nonneg _ (Hne Concept.relevance) Hr)
      as (rv & -> & Hrv).
    destruct (calculateVariance_nonneg _ (Hne Concept.frequency) Hf)
      as (fv & -> & Hfv).
    destruct (coherence_term rv Hrv) as (rc & -> & Hrc).
    destruct (coherence_term fv Hfv) as (fc & -> & Hfc).
    cbn [add]. rewrite div_Num by (intros H; discriminate H).
    assert (Hc : 0 < (rc + fc) / 2 <= 1).
    { split; [apply Qlt_shift_div_l | apply Qle_shift_div_r]; Lqa.lra. }
    split; [simpl; Lqa.lra|]. unfold gt, lt. apply Qltb_lt. Lqa.lra.
Qed.

End ClusterFacts.

Section ClusterProperties.

Import JsNumber ConceptExtractorImpl.
Open Scope Q_scope.
Open Scope string_scope.

(** X23. For concepts with a relevance in [0, 1] and a frequency below
    2^32, the clusters of the semantic graph are exactly the categories
    that hold two or more of the concepts: a cluster is named after its
    category, lists the words of all concepts of that category in their
    order, has as centroid a member of highest relevance, and has a
    coherence in (0, 1]; and every category with at least two concepts has
    its cluster. *)
Theorem clusters_are_the_categories_with_several_concepts
        (concepts : list Concept.t) :
  Forall bounded concepts ->
  let clusters := SemanticGraph.clusters (buildSemanticGraph concepts) in
  Forall
    (fun cluster =>
       exists category,
         let members := membersOf category concepts in
         ConceptCluster.id cluster = "cluster-" ++ categoryName category
         /\ ConceptCluster.concepts cluster = map Concept.word members
         /\ (2 <= List.length members)%nat
         /\ In (ConceptCluster.centroid cluster) members
         /\ Forall (fun member =>
                      le (Concept.relevance member)
                         (Concept.relevance (ConceptCluster.centroid cluster))
                      = true)
                   members
         /\ within 0 1 (ConceptCluster.coherence cluster)
         /\ gt (ConceptCluster.coherence cluster) (Num 0) = true)
    clusters
  /\ forall category,
       (2 <= List.length (membersOf category concepts))%nat ->
       exists cluster,
         In cluster clusters
         /\ ConceptCluster.id cluster = "cluster-" ++ categoryName category.
Proof.
  intros Hbounded clusters. subst clusters.
  assert (Hfin : Forall (fun concept =>
                           finite (Concept.relevance concept)
                           /\ finite (Concept.frequency concept)) concepts).
  { eapply Forall_impl; [|exact Hbounded].
    intros concept [Hr Hf].
    split; [exact (within_finite _ _ _ Hr) | exact (within_finite _ _ _ Hf)]. }
  unfold buildSemanticGraph. cbn [SemanticGraph.clusters].
  unfold createConceptClusters.
  destruct (grouped_concepts concepts) as (Hnd & Hmembers & Hcats).
  set (groups := fold_left groupInsert concepts []) in *.
  split.
  - apply Forall_forall. intros cluster Hin.
    apply in_flat_map in Hin.
    destruct Hin as ([category members] & Hentry & Hin).
    destruct (Hmembers _ _ Hentry) as [Em _].
    destruct members as [|first [|second others]];
      [destruct Hin | destruct Hin |].
    destruct Hin as [<-|[]].
    exists category. cbv zeta. rewrite <- Em.
    cbn [ConceptCluster.id ConceptCluster.concepts ConceptCluster.centroid
         ConceptCluster.coherence].
    assert (Hsub : Forall (fun concept =>
                             finite (Concept.relevance concept)
                             /\ finite (Concept.frequency concept))
                          (first :: second :: others)).
    { apply Forall_forall. intros m Hm. rewrite Em in Hm.
      apply filter_In in Hm. destruct Hm as [Hm _].
      rewrite Forall_forall in Hfin. apply Hfin. exact Hm. }
    assert (Hrel : Forall (fun concept => finite (Concept.relevance concept))
                          (first :: second :: others)).
    { eapply Forall_impl; [|exact Hsub]. intros m [H _]. exact H. }
    destruct (mostRelevant_spec (second :: others) first Hrel)
      as [Hcentroid Hmax].
    destruct (calculateClusterCoherence_within _ Hsub) as [Hc1 Hc2].
    split; [reflexivity|]. split; [reflexivity|].
    split; [simpl; lia|]. split; [exact Hcentroid|].
    split; [exact Hmax|]. split; assumption.
  - intros category Hlen.
    assert (Hin : In category (map fst groups)).
    { destruct (membersOf category concepts) as [|m rest] eqn:E;
        [simpl in Hlen; lia|].
      assert (Hm : In m (membersOf category concepts))
        by (rewrite E; left; reflexivity).
      apply filter_In in Hm. destruct Hm as [Hm Hcat].
      apply ConceptCategory_eqb_eq in Hcat. rewrite <- Hcat.
      apply Hcats. exact Hm. }
    apply in_map_iff in Hin. destruct Hin as ([category' members] & E & Hentry).
    cbn [fst] in E. subst category'.
    destruct (Hmembers _ _ Hentry) as [Em _].
    rewrite <- Em in Hlen.
    destruct members as [|first [|second others]];
      try (simpl in Hlen; lia).
    eexists. split.
    + apply in_flat_map. exists (category, first :: second :: others).
      split; [exact Hentry | left; reflexivity].
    + reflexivity.
Qed.

End ClusterProperties.

Lemma clusters_are_the_categories_with_several_concepts_witness :
  let concepts := AnalysisResult.concepts mockAnalysisResult in
  let clusters :=
    SemanticGraph.clusters (ConceptExtractorImpl.buildSemanticGraph concepts) in
  Forall
    (fun cluster =>
       exists category,
         let members := membersOf category concepts in
         ConceptCluster.id cluster
         = ("cluster-" ++ ConceptExtractorImpl.categoryName category)%string
         /\ ConceptCluster.concepts cluster = map Concept.word members
         /\ (2 <= List.length members)%nat
         /\ In (ConceptCluster.centroid cluster) members
         /\ Forall (fun member =>
                      JsNumber.le
                        (Concept.relevance member)
                        (Concept.relevance (ConceptCluster.centroid cluster))
                      = true)
                   members
         /\ JsNumber.within 0 1 (ConceptCluster.coherence cluster)
         /\ JsNumber.gt (ConceptCluster.coherence cluster) (Num 0) = true)
    clusters
  /\ forall category,
       (2 <= List.length (membersOf category concepts))%nat ->
       exists cluster,
         In cluster clusters
         /\ ConceptCluster.id cluster
            = ("cluster-" ++ ConceptExtractorImpl.categoryName category)%string.
Proof.
  apply (clusters_are_the_categories_with_several_concepts
           (AnalysisResult.concepts mockAnalysisResult)).
  repeat constructor; vm_compute; discriminate.
Defined.

(** ** The whole pipeline, with the concept extractor of the repository *)

Section WholePipeline.

Import JsNumber NodeSystem.

Variable Vector3 : Type.
Variable origin : Vector3.
Variable spiralPoint : number -> nat -> nat -> Vector3.
Variable fractionToString36 : number -> string.

Lemma extract_scored (text : string) :
  Forall scored (ConceptExtractorImpl.extract text).
Proof.
  apply Forall_forall. intros concept Hin.
  destruct (extract_relevance text concept Hin) as [Hrel _].
  destruct (extract_In text concept Hin)
    as (word & frequency & Hentry & _ & E).
  destruct (extract_entry _ _ _ Hentry) as (_ & _ & Hocc & Hfreq).
  split; [exact Hrel|]. rewrite E. cbn [conceptOf Concept.frequency].
  destruct (within_inv _ _ _ Hfreq) as (q & -> & Hq).
  assert (H1 : (inject_Z 1 <= inject_Z (Z.of_nat
                  (occurrences word (ConceptExtractorImpl.tokenizeText text))))%Q).
  { rewrite <- Zle_Qle. lia. }
  change (inject_Z 1) with 1%Q in H1. Lqa.lra.
Qed.

(** The node budget of a computed analysis is never +Infinity. *)
Lemma analyze_budget_not_infinite (conceptExtractor : ConceptExtractor.t)
      (text : string) (s : TextAnalyzer.State) :
  ScalingStrategy.nodeCount
    (AnalysisResult.scalingStrategy
       (fst (TextAnalyzer.analyze conceptExtractor text false s)))
  <> PInf.
Proof.
  rewrite (analyze_miss conceptExtractor text false s)
    by (intros H; discriminate H).
  cbn [AnalysisResult.scalingStrategy].
  destruct (ComplexityAnalyzer.tokenizeText text) as [|w rest] eqn:E.
  - destruct (overallComplexity_no_words text E) as [Hnan _].
    destruct (determineScalingStrategy_NaN
                (Z.of_nat (List.length (TextAnalyzer.tokenizeText text)))
                (ComplexityAnalyzer.analyze text)
                (TextAnalyzer.analyzeSentiment text) Hnan) as (-> & _).
    discriminate.
  - assert (Htokens : ComplexityAnalyzer.tokenizeText text <> [])
      by (rewrite E; discriminate).
    destruct (analyze_within text Htokens) as (Hc & _).
    pose proof (analyzeSentiment_intensity text) as He.
    destruct (determineScalingStrategy_within
                (Z.of_nat (List.length (TextAnalyzer.tokenizeText text)))
                (ComplexityAnalyzer.analyze text)
                (TextAnalyzer.analyzeSentiment text)
                (Nat2Z.is_nonneg _) Hc He) as (n & -> & _).
    discriminate.
Qed.

(** X24. With the concept extractor of the repository, for every text,
    analyzer state and random source, the visualization of a freshly
    computed analysis returns (the padding loop ends: the node budget is
    never +Infinity), and every connection it holds is active, with a weight
    in [0.31, 1] that is also its flow: the test [weight > 0.3] behind
    [active] never fails. *)
Theorem every_text_is_visualized_with_active_connections
        (text : string) (s : TextAnalyzer.State) (r : Random.t) :
  let result :=
    fst (TextAnalyzer.analyze ConceptExtractorImpl.instance text false s) in
  exists (generated : ScaledVisualization Vector3) (r' : Random.t),
    generateVisualization origin spiralPoint fractionToString36 result r
    = Some (generated, r')
    /\ Forall (fun c =>
                 Connection.active c = true
                 /\ within 0.31 1 (Connection.weight c)
                 /\ Connection.flow c = Connection.weight c)
              (connections generated).
Proof.
  intros result.
  destruct (generateVisualization origin spiralPoint fractionToString36
                                  result r) as [[generated r']|] eqn:E.
  - exists generated, r'. split; [reflexivity|].
    unfold generateVisualization in E.
    destruct (generateNodes origin fractionToString36 result r)
      as [[l r1]|]; [|discriminate E].
    injection E as <- <-. cbn [connections].
    apply Forall_forall. intros c Hin.
    apply generateConnections_edge in Hin.
    destruct Hin as (edge & Hedge & Hweight & Hflow & Hactive & _).
    assert (Hgraph : AnalysisResult.semanticGraph result
                     = ConceptExtractorImpl.buildSemanticGraph
                         (ConceptExtractorImpl.extract text)).
    { subst result.
      rewrite (analyze_miss ConceptExtractorImpl.instance text false s)
        by (intros H; discriminate H).
      reflexivity. }
    rewrite Hgraph in Hedge.
    pose proof (buildSemanticGraph_edges (ConceptExtractorImpl.extract text))
      as Hedges.
    destruct (buildSemanticGraph_nodes (ConceptExtractorImpl.extract text))
      as [Hnodes _].
    cbv zeta in Hedges, Hnodes.
    apply in_map_iff in Hedge. destruct Hedge as ([key e] & <- & Hentry).
    rewrite Forall_forall in Hedges. specialize (Hedges _ Hentry).
    destruct Hedges as (_ & _ & concept & connected & Hc & _ & _ & Hget
                        & Hw & _).
    assert (Hconnected : In (ConceptNode.concept connected)
                            (ConceptExtractorImpl.extract text)).
    { apply get_Some_In in Hget. rewrite Forall_forall in Hnodes.
      specialize (Hnodes _ Hget). cbv beta iota in Hnodes. tauto. }
    pose proof (extract_scored text) as Hscored.
    rewrite Forall_forall in Hscored.
    pose proof (calculateConnectionWeight_within
                  concept (ConceptNode.concept connected)
                  (Hscored _ Hc) (Hscored _ Hconnected)) as Hwithin.
    cbn [snd] in *. rewrite <- Hw in Hwithin.
    rewrite Hactive, Hweight, Hflow.
    split; [|split; [exact Hwithin | reflexivity]].
    destruct (within_inv _ _ _ Hwithin) as (w & -> & Hw').
    unfold gt, lt. apply Qltb_lt. Lqa.lra.
  - exfalso.
    apply (analyze_budget_not_infinite ConceptExtractorImpl.instance text s).
    apply (generateVisualization_returns Vector3 origin spiralPoint
             fractionToString36 result r). exact E.
Qed.

End WholePipeline.
(** ** Labels of the complexity scores *)

Section ComplexityLabels.

Import JsNumber ComplexityAnalyzer.
Open Scope string_scope.

(** X25. A text without a token is labelled with both ends of the
    scale: its overall and emotional complexity, which are NaN, fail every
    [<] test of [getComplexityLevel] and fall through to the last label,
    Very Complex, while its vocabulary and concept scores are 0 and get the
    first label, Very Simple. *)
Theorem tokenless_text_is_labelled_very_complex (text : string) :
  tokenizeText text = [] ->
  let breakdown := getComplexityBreakdown (analyze text) in
  JsMap.get breakdown "overall" = Some "Very Complex"
  /\ JsMap.get breakdown "emotional" = Some "Very Complex"
  /\ JsMap.get breakdown "vocabulary" = Some "Very Simple"
  /\ JsMap.get breakdown "concepts" = Some "Very Simple".
Proof.
  intros Htokens breakdown. subst breakdown.
  destruct (overallComplexity_no_words text Htokens) as [Hoverall Hemotional].
  unfold getComplexityBreakdown. rewrite Hoverall, Hemotional.
  assert (Hvocabulary :
            ComplexityAnalysis.vocabularyDiversity (analyze text) = Num 0).
  { unfold analyze. rewrite Htokens. reflexivity. }
  assert (Hconcepts :
            ComplexityAnalysis.conceptDensity (analyze text) = Num 0).
  { unfold analyze. rewrite Htokens. reflexivity. }
  rewrite Hvocabulary, Hconcepts.
  repeat split.
Qed.

Lemma tokenless_text_is_labelled_very_complex_witness :
  let breakdown := getComplexityBreakdown (analyze "?!") in
  JsMap.get breakdown "overall" = Some "Very Complex"
  /\ JsMap.get breakdown "emotional" = Some "Very Complex"
  /\ JsMap.get breakdown "vocabulary" = Some "Very Simple"
  /\ JsMap.get breakdown "concepts" = Some "Very Simple".
Proof.
  apply (tokenless_text_is_labelled_very_complex "?!"). reflexivity.
Defined.

End ComplexityLabels.

(** ** Statistics of the cache *)

Section CacheStatistics.

Import JsNumber TextAnalyzer.
Open Scope Z_scope.

Lemma min_ofZ (a b : Z) : min (ofZ a) (ofZ b) = ofZ (Z.min a b).
Proof.
  unfold min, ofZ, lt. destruct (Qltb (inject_Z b) (inject_Z a)) eqn:E.
  - apply Qltb_lt in E. rewrite <- Zlt_Qlt in E.
    rewrite Z.min_r by lia. reflexivity.
  - apply Qltb_ge in E. rewrite <- Zle_Qle in E.
    rewrite Z.min_l by lia. reflexivity.
Qed.

Lemma max_ofZ (a b : Z) : max (ofZ a) (ofZ b) = ofZ (Z.max a b).
Proof.
  unfold max, ofZ, lt. destruct (Qltb (inject_Z a) (inject_Z b)) eqn:E.
  - apply Qltb_lt in E. rewrite <- Zlt_Qlt in E.
    rewrite Z.max_r by lia. reflexivity.
  - apply Qltb_ge in E. rewrite <- Zle_Qle in E.
    rewrite Z.max_l by lia. reflexivity.
Qed.

Lemma min_loop (zs : list Z) :
  forall z0 : Z,
    exists m : Z,
      fold_left min (map ofZ zs) (ofZ z0) = ofZ m
      /\ In m (z0 :: zs) /\ m <= z0 /\ Forall (fun z => m <= z) zs.
Proof.
  induction zs as [|z rest IH]; intros z0.
  - exists z0. repeat split; [left; reflexivity | lia | constructor].
  - cbn [map fold_left]. rewrite min_ofZ.
    destruct (IH (Z.min z0 z)) as (m & Hm & Hin & Hle & Hall).
    exists m. split; [exact Hm|]. split; [|split].
    + destruct Hin as [Hin|Hin]; [|right; right; exact Hin].
      destruct (Z.min_spec z0 z) as [[_ E]|[_ E]]; rewrite E in Hin.
      * left. exact Hin.
      * right. left. exact Hin.
    + lia.
    + constructor; [lia | exact Hall].
Qed.

Lemma max_loop (zs : list Z) :
  forall z0 : Z,
    exists m : Z,
      fold_left max (map ofZ zs) (ofZ z0) = ofZ m
      /\ In m (z0 :: zs) /\ z0 <= m /\ Forall (fun z => z <= m) zs.
Proof.
  induction zs as [|z rest IH]; intros z0.
  - exists z0. repeat split; [left; reflexivity | lia | constructor].
  - cbn [map fold_left]. rewrite max_ofZ.
    destruct (IH (Z.max z0 z)) as (m & Hm & Hin & Hle & Hall).
    exists m. split; [exact Hm|]. split; [|split].
    + destruct Hin as [Hin|Hin]; [|right; right; exact Hin].
      destruct (Z.max_spec z0 z) as [[_ E]|[_ E]]; rewrite E in Hin.
      * right. left. exact Hin.
      * left. exact Hin.
    + lia.
    + constructor; [lia | exact Hall].
Qed.

Lemma Math_min_spec (z : Z) (zs : list Z) :
  exists m : Z,
    Math_min (map ofZ (z :: zs)) = ofZ m
    /\ In m (z :: zs) /\ Forall (fun x => m <= x) (z :: zs).
Proof.
  unfold Math_min. cbn [map fold_left].
  change (min PInf (ofZ z)) with (ofZ z).
  destruct (min_loop zs z) as (m & Hm & Hin & Hle & Hall).
  exists m. repeat split; [exact Hm | exact Hin |].
  constructor; assumption.
Qed.

Lemma Math_max_spec (z : Z) (zs : list Z) :
  exists m : Z,
    Math_max (map ofZ (z :: zs)) = ofZ m
    /\ In m (z :: zs) /\ Forall (fun x => x <= m) (z :: zs).
Proof.
  unfold Math_max. cbn [map fold_left].
  change (max NInf (ofZ z)) with (ofZ z).
  destruct (max_loop zs z) as (m & Hm & Hin & Hle & Hall).
  exists m. repeat split; [exact Hm | exact Hin |].
  constructor; assumption.
Qed.

(** X26. The statistics of the cache: the size is the number of
    entries; of an empty cache all three figures are 0, and so they are
    after [clearCache]; otherwise the oldest and the newest entry are
    timestamps of stored results and every stored timestamp lies between
    them. *)
Theorem cache_stats_span_the_stored_timestamps (s : State) :
  let stats := getCacheStats s in
  let timestamps :=
    map (fun entry => AnalysisResult.timestamp (snd entry))
        (analysisCache s) in
  size stats = ofNat (List.length (analysisCache s))
  /\ match analysisCache s with
     | [] => oldestEntry stats = Num 0%Q /\ newestEntry stats = Num 0%Q
     | _ :: _ =>
         exists oldest newest : Z,
           oldestEntry stats = ofZ oldest
           /\ newestEntry stats = ofZ newest
           /\ In oldest timestamps /\ In newest timestamps
           /\ Forall (fun t => oldest <= t <= newest) timestamps
     end
  /\ getCacheStats (clearCache s) = cacheStats (Num 0%Q) (Num 0%Q) (Num 0%Q).
Proof.
  intros stats timestamps. subst stats timestamps.
  split; [|split; [|reflexivity]].
  - unfold getCacheStats, JsMap.size.
    destruct (analysisCache s); reflexivity.
  - unfold getCacheStats, JsMap.size.
    destruct (analysisCache s) as [|[key result] rest]; [split; reflexivity|].
    cbn [List.length Nat.eqb size oldestEntry newestEntry].
    set (stamps := map (fun entry : string * AnalysisResult.t =>
                          AnalysisResult.timestamp (snd entry))
                       ((key, result) :: rest)).
    assert (E : map (fun '(_, r) => ofZ (AnalysisResult.timestamp r))
                    ((key, result) :: rest)
                = map ofZ stamps).
    { unfold stamps. rewrite map_map. apply map_ext.
      intros [k r]. reflexivity. }
    rewrite E. unfold stamps at 1 2. cbn [map snd].
    destruct (Math_min_spec (AnalysisResult.timestamp result)
                (map (fun entry : string * AnalysisResult.t =>
                        AnalysisResult.timestamp (snd entry)) rest))
      as (oldest & Ho & Hino & Hallo).
    destruct (Math_max_spec (AnalysisResult.timestamp result)
                (map (fun entry : string * AnalysisResult.t =>
                        AnalysisResult.timestamp (snd entry)) rest))
      as (newest & Hn & Hinn & Halln).
    exists oldest, newest.
    split; [exact Ho|]. split; [exact Hn|].
    split; [exact Hino|]. split; [exact Hinn|].
    unfold stamps. cbn [map snd].
    rewrite Forall_forall in *. intros t Ht.
    split; [apply Hallo | apply Halln]; exact Ht.
Qed.

End CacheStatistics.

(** ** Keys are read back without loss *)

Section KeyFacts.

Import TextAnalyzer.

Lemma digitValue_digit36 (d : N) : (d < 36)%N -> digitValue (digit36 d) = d.
Proof.
  intros H. unfold digitValue, digit36.
  destruct (N.ltb_spec d 10).
  - rewrite N_ascii_embedding by lia.
    destruct (N.ltb_spec (48 + d) 58); lia.
  - rewrite N_ascii_embedding by lia.
    destruct (N.ltb_spec (97 + (d - 10)) 58); lia.
Qed.

Lemma digit36_not_minus (d : N) : (d < 36)%N -> digit36 d <> "-"%char.
Proof.
  intros H E. apply (f_equal N_of_ascii) in E. unfold digit36 in E.
  change (N_of_ascii "-") with 45%N in E.
  destruct (N.ltb_spec d 10); rewrite N_ascii_embedding in E by lia; lia.
Qed.

Lemma parseDigits_digits36 (fuel : nat) :
  forall (n : N) (acc : string),
    (n < 2 ^ N.of_nat fuel)%N ->
    parseDigits (digits36 fuel n acc) 0 = parseDigits acc n.
Proof.
  induction fuel as [|fuel IH]; intros n acc Hn.
  - change (2 ^ N.of_nat 0)%N with 1%N in Hn.
    assert (n = 0%N) by lia. subst n. reflexivity.
  - cbn [digits36]. cbv zeta.
    pose proof (N.mod_lt n 36 ltac:(lia)) as Hmod.
    pose proof (N.div_mod n 36 ltac:(lia)) as Hdiv.
    destruct (N.ltb_spec n 36) as [Hlt|Hge].
    + cbn [parseDigits]. rewrite digitValue_digit36 by exact Hmod.
      rewrite N.mod_small by exact Hlt. reflexivity.
    + rewrite IH.
      * cbn [parseDigits]. rewrite digitValue_digit36 by exact Hmod.
        f_equal. lia.
      * rewrite Nnat.Nat2N.inj_succ, N.pow_succ_r' in Hn.
        apply N.Div0.div_lt_upper_bound. lia.
Qed.

Lemma digits36_head (fuel : nat) :
  forall (n : N) (acc : string),
    exists (d : N) (rest : string),
      (d < 36)%N /\ digits36 (S fuel) n acc = String (digit36 d) rest.
Proof.
  induction fuel as [|fuel IH]; intros n acc.
  - exists (n mod 36)%N, acc. split; [apply N.mod_lt; lia|].
    cbn [digits36]. cbv zeta. destruct (n <? 36)%N; reflexivity.
  - change (digits36 (S (S fuel)) n acc)
      with (let acc' := String (digit36 (n mod 36)) acc in
            if (n <? 36)%N then acc' else digits36 (S fuel) (n / 36) acc').
    cbv zeta. destruct (n <? 36)%N.
    + exists (n mod 36)%N, acc. split; [apply N.mod_lt; lia | reflexivity].
    + apply IH.
Qed.

Lemma parse36_toString36 (z : Z) : parse36 (toString36 z) = z.
Proof.
  unfold toString36. cbv zeta.
  set (n := Z.to_N (Z.abs z)).
  assert (Hfuel : (n < 2 ^ N.of_nat (S (N.to_nat (N.log2 n))))%N).
  { rewrite Nnat.Nat2N.inj_succ, Nnat.N2Nat.id.
    destruct (N.eq_dec n 0) as [->|Hpos]; [reflexivity|].
    apply N.log2_spec. lia. }
  pose proof (parseDigits_digits36 _ n ""%string Hfuel) as Hparse.
  cbn [parseDigits] in Hparse.
  destruct (Z.ltb_spec z 0).
  - unfold parse36. rewrite Hparse. unfold n. lia.
  - destruct (digits36_head (N.to_nat (N.log2 n)) n ""%string)
      as (d & rest & Hd & E).
    unfold parse36. rewrite E.
    pose proof (digit36_not_minus d Hd) as Hminus.
    rewrite <- E, Hparse.
    destruct (digit36 d) as [[] [] [] [] [] [] [] []];
      try (unfold n; lia).
    exfalso. apply Hminus. reflexivity.
Qed.

End KeyFacts.

Section KeyProperties.

Import TextAnalyzer.
Open Scope Z_scope.

(** X27. Printing the hash in base 36 loses nothing: two texts get the
    same cache key exactly when their polynomial hashes with base 31 agree
    modulo 2^32. *)
Theorem texts_share_a_key_iff_hashes_agree (a b : string) :
  hashText a = hashText b
  <-> (polynomialHash 0 a - polynomialHash 0 b) mod 2 ^ 32 = 0.
Proof.
  unfold hashText.
  change 0 with (toInt32 0) at 1 2. rewrite !hashLoop_polynomial.
  split.
  - intros E. apply (f_equal parse36) in E.
    rewrite !parse36_toString36 in E.
    unfold toInt32 in E.
    assert (E' : (polynomialHash 0 a + 2 ^ 31) mod 2 ^ 32
                 = (polynomialHash 0 b + 2 ^ 31) mod 2 ^ 32) by lia.
    pose proof (Z.div_mod (polynomialHash 0 a + 2 ^ 31) (2 ^ 32) ltac:(lia)).
    pose proof (Z.div_mod (polynomialHash 0 b + 2 ^ 31) (2 ^ 32) ltac:(lia)).
    replace (polynomialHash 0 a - polynomialHash 0 b)
      with (((polynomialHash 0 a + 2 ^ 31) / 2 ^ 32
             - (polynomialHash 0 b + 2 ^ 31) / 2 ^ 32) * 2 ^ 32) by lia.
    apply Z.mod_mul. lia.
  - intros E. f_equal.
    apply Z.mod_divide in E; [|lia]. destruct E as [k E].
    replace (polynomialHash 0 a) with (polynomialHash 0 b + k * 2 ^ 32) by lia.
    apply toInt32_add_multiple.
Qed.

End KeyProperties.

(** ** Properties that every generated node inherits *)

Section NodeInvariant.

Import JsNumber NodeSystem.
Open Scope Q_scope.

Variable Vector3 : Type.
Variable origin : Vector3.
Variable spiralPoint : number -> nat -> nat -> Vector3.
Variable fractionToString36 : number -> string.
Variable analysisResult : AnalysisResult.t.

(** A property [P] of nodes and a property [R] of the random source that
    each of the three constructors establishes and passes on. *)
Variable P : NodeSystem.Node Vector3 -> Prop.
Variable R : Random.t -> Prop.

Hypothesis concept_ok :
  forall (concept : Concept.t) (importance : number) (r : Random.t),
    In concept (AnalysisResult.concepts analysisResult) ->
    R r ->
    P (fst (createNodeFromConcept origin fractionToString36 concept
              node_concept importance r))
    /\ R (snd (createNodeFromConcept origin fractionToString36 concept
                 node_concept importance r)).

Hypothesis emotion_ok :
  forall r : Random.t,
    R r ->
    P (fst (createEmotionNode origin fractionToString36
              (AnalysisResult.sentiment analysisResult) (Num 0.9) r))
    /\ R (snd (createEmotionNode origin fractionToString36
                 (AnalysisResult.sentiment analysisResult) (Num 0.9) r)).

Hypothesis synthetic_ok :
  forall (i : nat) (r : Random.t),
    R r ->
    P (fst (createSyntheticNode origin fractionToString36 i r))
    /\ R (snd (createSyntheticNode origin fractionToString36 i r)).

Hypothesis position_ok :
  forall (node : NodeSystem.Node Vector3) (position : Vector3),
    P node -> P (Node.setPosition node position).

Lemma pushConceptNodes_invariant (importanceAt : nat -> number)
      (concepts : list Concept.t) :
  incl concepts (AnalysisResult.concepts analysisResult) ->
  forall (index : nat) (r : Random.t),
    R r ->
    Forall P (fst (pushConceptNodes origin fractionToString36 importanceAt
                     concepts index r))
    /\ R (snd (pushConceptNodes origin fractionToString36 importanceAt
                 concepts index r)).
Proof.
  induction concepts as [|c rest IH]; intros Hincl index r Hr;
    cbn [pushConceptNodes].
  - split; [constructor | exact Hr].
  - pose proof (concept_ok c (importanceAt index) r
                  (Hincl c (or_introl eq_refl)) Hr) as [Hp Hr1].
    destruct (createNodeFromConcept origin fractionToString36 c node_concept
                                    (importanceAt index) r) as [node r1].
    cbn [fst snd] in Hp, Hr1.
    assert (Hrest : incl rest (AnalysisResult.concepts analysisResult)).
    { intros x Hx. apply Hincl. right. exact Hx. }
    specialize (IH Hrest (S index) r1 Hr1).
    destruct (pushConceptNodes origin fractionToString36 importanceAt rest
                               (S index) r1) as [others r2].
    cbn [fst snd] in *. destruct IH as [IH1 IH2].
    split; [constructor; assumption | exact IH2].
Qed.

Lemma syntheticLoop_invariant (trips : nat) :
  forall (i : nat) (r : Random.t),
    R r ->
    Forall P (fst (syntheticLoop origin fractionToString36 trips i r))
    /\ R (snd (syntheticLoop origin fractionToString36 trips i r)).
Proof.
  induction trips as [|trips IH]; intros i r Hr; cbn [syntheticLoop].
  - split; [constructor | exact Hr].
  - pose proof (synthetic_ok i r Hr) as [Hp Hr1].
    destruct (createSyntheticNode origin fractionToString36 i r)
      as [node r1].
    cbn [fst snd] in Hp, Hr1.
    specialize (IH (S i) r1 Hr1).
    destruct (syntheticLoop origin fractionToString36 trips (S i) r1)
      as [rest r2].
    cbn [fst snd] in *. destruct IH as [IH1 IH2].
    split; [constructor; assumption | exact IH2].
Qed.

Lemma Forall_slice (l : list (NodeSystem.Node Vector3)) (a b : number) :
  Forall P l -> Forall P (JsArray.slice l a b).
Proof.
  rewrite !Forall_forall. intros H x Hx. apply H.
  apply (slice_incl _ l a b x Hx).
Qed.

Lemma generateNodes_invariant (r r' : Random.t)
      (nodes : list (NodeSystem.Node Vector3)) :
  R r ->
  generateNodes origin fractionToString36 analysisResult r
  = Some (nodes, r') ->
  Forall P nodes /\ R r'.
Proof.
  intros Hr. unfold generateNodes.
  set (sorted := JsArray.sort _ (AnalysisResult.concepts analysisResult)).
  assert (Hsorted : incl sorted (AnalysisResult.concepts analysisResult)).
  { intros x Hx. unfold sorted in Hx. apply sort_In in Hx. exact Hx. }
  set (primaryConcepts := JsArray.slice sorted (Num 0) _).
  assert (Hprimary : incl primaryConcepts
                          (AnalysisResult.concepts analysisResult)).
  { intros x Hx. apply Hsorted. apply slice_incl in Hx. exact Hx. }
  set (secondaryConcepts := JsArray.slice (JsArray.sliceFrom sorted _) _ _).
  assert (Hsecondary : incl secondaryConcepts
                            (AnalysisResult.concepts analysisResult)).
  { intros x Hx. apply Hsorted. apply slice_incl in Hx.
    apply sliceFrom_incl in Hx. exact Hx. }
  match goal with
  | |- context [pushConceptNodes _ _ ?f primaryConcepts 0%nat r] =>
      pose proof (pushConceptNodes_invariant f primaryConcepts Hprimary
                    0%nat r Hr) as [HP Hr1];
      destruct (pushConceptNodes origin fractionToString36 f primaryConcepts
                                 0%nat r) as [primary r1]
  end.
  cbn [fst snd] in HP, Hr1.
  assert (Hemotion :
            forall withEmotion r2,
              (if gt (DominantEmotion.confidence
                        (SentimentAnalysis.dominant
                           (AnalysisResult.sentiment analysisResult)))
                     (Num 0.3)
               then let '(node, r) :=
                      createEmotionNode origin fractionToString36
                        (AnalysisResult.sentiment analysisResult)
                        (Num 0.9) r1 in
                    ((primary ++ [node])%list, r)
               else (primary, r1)) = (withEmotion, r2) ->
              Forall P withEmotion /\ R r2).
  { intros withEmotion r2. destruct (gt _ _).
    - pose proof (emotion_ok r1 Hr1) as [Hp Hr2].
      destruct (createEmotionNode origin fractionToString36
                  (AnalysisResult.sentiment analysisResult) (Num 0.9) r1)
        as [node r2'].
      cbn [fst snd] in Hp, Hr2. intros [= <- <-].
      split; [|exact Hr2].
      apply Forall_app. split; [exact HP | constructor; [exact Hp|constructor]].
    - intros [= <- <-]. split; assumption. }
  match goal with
  | |- context [let '(nodes, r) := ?e in _] =>
      destruct e as [withEmotion r2] eqn:Ee
  end.
  destruct (Hemotion withEmotion r2 eq_refl) as [HE Hr2].
  match goal with
  | |- context [pushConceptNodes _ _ ?f secondaryConcepts 0%nat r2] =>
      pose proof (pushConceptNodes_invariant f secondaryConcepts Hsecondary
                    0%nat r2 Hr2) as [HS Hr3];
      destruct (pushConceptNodes origin fractionToString36 f
                                 secondaryConcepts 0%nat r2)
        as [secondary r3]
  end.
  cbn [fst snd] in HS, Hr3.
  assert (Hreal : Forall P (withEmotion ++ secondary)%list).
  { apply Forall_app. split; assumption. }
  destruct (gt _ (Num 0)).
  - unfold generateSyntheticNodes.
    destruct (loopTrips _) as [trips|]; [|discriminate].
    pose proof (syntheticLoop_invariant trips 0 r3 Hr3) as [Hsyn Hr4].
    destruct (syntheticLoop origin fractionToString36 trips 0%nat r3)
      as [synthetic r4].
    cbn [fst snd] in Hsyn, Hr4. intros [= <- <-].
    split; [|exact Hr4]. apply Forall_slice.
    apply Forall_app. split; assumption.
  - intros [= <- <-]. split; [|exact Hr3]. apply Forall_slice. exact Hreal.
Qed.

Lemma generateVisualization_invariant (r r' : Random.t)
      (generated : ScaledVisualization Vector3) :
  R r ->
  generateVisualization origin spiralPoint fractionToString36 analysisResult r
  = Some (generated, r') ->
  Forall P (nodes generated) /\ R r'.
Proof.
  intros Hr. unfold generateVisualization.
  destruct (generateNodes origin fractionToString36 analysisResult r)
    as [[l r1]|] eqn:E; [|discriminate].
  destruct (generateNodes_invariant r r1 l Hr E) as [Hl Hr1].
  intros [= <- <-]. cbn [nodes]. split; [|exact Hr1].
  apply Forall_forall. intros moved Hin. unfold distributeNodes in Hin.
  apply distributeFrom_In in Hin.
  destruct Hin as (node & position & Hin & ->).
  apply position_ok. rewrite Forall_forall in Hl. apply Hl. exact Hin.
Qed.

End NodeInvariant.

Section DrawnAttributes.

Import JsNumber NodeSystem.
Open Scope Q_scope.

Variable Vector3 : Type.
Variable origin : Vector3.
Variable spiralPoint : number -> nat -> nat -> Vector3.
Variable fractionToString36 : number -> string.

Lemma unitRandom_shift (r : Random.t) (k : nat) :
  unitRandom r -> unitRandom (fun n => r (k + n)%nat).
Proof. intros H i. apply H. Qed.

Lemma createNodeFromConcept_drawn (concept : Concept.t)
      (importance : number) (r : Random.t) :
  unitRandom r ->
  drawnRanges (fst (createNodeFromConcept origin fractionToString36 concept
                      node_concept importance r))
  /\ unitRandom (snd (createNodeFromConcept origin fractionToString36 concept
                        node_concept importance r)).
Proof.
  intros Hr. split.
  - split; [|intros H; discriminate H].
    intros _. cbn. pose proof (Hr 1%nat). Lqa.lra.
  - apply (unitRandom_shift r 2 Hr).
Qed.

Lemma createEmotionNode_drawn (sentiment : SentimentAnalysis.t)
      (importance : number) (r : Random.t) :
  unitRandom r ->
  drawnRanges (fst (createEmotionNode origin fractionToString36 sentiment
                      importance r))
  /\ unitRandom (snd (createEmotionNode origin fractionToString36 sentiment
                        importance r)).
Proof.
  intros Hr. split.
  - split; intros H; discriminate H.
  - apply (unitRandom_shift r 1 Hr).
Qed.

Lemma createSyntheticNode_drawn (i : nat) (r : Random.t) :
  unitRandom r ->
  drawnRanges (fst (createSyntheticNode origin fractionToString36 i r))
  /\ unitRandom (snd (createSyntheticNode origin fractionToString36 i r)).
Proof.
  intros Hr. split.
  - split; [intros H; discriminate H|].
    intros _. cbn.
    pose proof (Hr 1%nat). pose proof (Hr 2%nat).
    pose proof (Hr 3%nat). pose proof (Hr 4%nat).
    repeat split; Lqa.lra.
  - apply (unitRandom_shift r 5 Hr).
Qed.

Lemma setPosition_drawn (node : NodeSystem.Node Vector3)
      (position : Vector3) :
  drawnRanges node -> drawnRanges (Node.setPosition node position).
Proof. destruct node. unfold drawnRanges. cbn. tauto. Qed.

(** X28. When every reading of the random source is in [0, 1), the drawn
    attributes of the nodes of a visualization lie in their ranges,
    whatever the analysis result: the activation of a concept node in
    [0.3, 0.8]; of a synthetic node the activation in [0.1, 0.4], the
    target activation in [0.1, 0.5], the importance in [0.2, 0.5] and the
    relevance in [0.1, 0.3]. *)
Theorem random_draws_bound_node_attributes
        (analysisResult : AnalysisResult.t) (r : Random.t) :
  unitRandom r ->
  match generateVisualization origin spiralPoint fractionToString36
                              analysisResult r with
  | Some (generated, r') =>
      Forall (fun node : NodeSystem.Node Vector3 => drawnRanges node)
             (nodes generated)
      /\ unitRandom r'
  | None =>
      ScalingStrategy.nodeCount (AnalysisResult.scalingStrategy analysisResult)
      = PInf
  end.
Proof.
  intros Hr.
  destruct (generateVisualization origin spiralPoint fractionToString36
                                  analysisResult r)
    as [[generated r']|] eqn:E.
  - apply (generateVisualization_invariant
             Vector3 origin spiralPoint fractionToString36 analysisResult
             (fun node => drawnRanges node) unitRandom) with (r := r).
    + intros concept importance r0 _. apply createNodeFromConcept_drawn.
    + intros r0. apply createEmotionNode_drawn.
    + apply createSyntheticNode_drawn.
    + apply setPosition_drawn.
    + exact Hr.
    + exact E.
  - apply (generateVisualization_returns Vector3 origin spiralPoint
             fractionToString36 analysisResult r). exact E.
Qed.

(** *** Activations of the nodes of a text *)

Lemma analyzeSentiment_dominant_score (text : string) :
  exists score : Q,
    DominantEmotion.score
      (SentimentAnalysis.dominant (TextAnalyzer.analyzeSentiment text))
    = Num score
    /\ 0 <= score.
Proof.
  unfold TextAnalyzer.analyzeSentiment.
  set (influence := SentimentAnalyzer.calculateEmojiInfluence _).
  pose proof (analyze_scores_bounds text influence) as Hs.
  destruct (analyze_fields text influence) as (-> & _).
  destruct (findDominantEmotion_within _ 1.6 Hs) as (Hscore & _).
  destruct (within_inv _ _ _ Hscore) as (score & E & Hrange).
  exists score. split; [exact E | apply Hrange].
Qed.

(** X29. With the concept extractor of the repository and a random
    source that reads in [0, 1), the visualization of a freshly analysed
    text returns and every node of it has an activation in [0, 1], a target
    activation that is finite and not negative, and an importance in
    [0.2, 1].  The target activation of every node other than the emotion
    node lies in [0.1, 1]; the emotion node takes the score of the dominant
    emotion, which the scorer does not cap. *)
Theorem nodes_of_a_text_have_bounded_activations
        (text : string) (s : TextAnalyzer.State) (r : Random.t) :
  unitRandom r ->
  let result :=
    fst (TextAnalyzer.analyze ConceptExtractorImpl.instance text false s) in
  exists (generated : ScaledVisualization Vector3) (r' : Random.t),
    generateVisualization origin spiralPoint fractionToString36 result r
    = Some (generated, r')
    /\ Forall (fun node : NodeSystem.Node Vector3 =>
                 within 0 1 (Node.activation node)
                 /\ (exists target : Q,
                       Node.targetActivation node = Num target
                       /\ 0 <= target)
                 /\ within 0.2 1 (Node.importance node)
                 /\ (Node.type node <> node_emotion ->
                     within 0.1 1 (Node.targetActivation node)))
              (nodes generated).
Proof.
  intros Hr result.
  destruct (generateVisualization origin spiralPoint fractionToString36
                                  result r) as [[generated r']|] eqn:E.
  2:{ exfalso.
      apply (analyze_budget_not_infinite ConceptExtractorImpl.instance text s).
      apply (generateVisualization_returns Vector3 origin spiralPoint
               fractionToString36 result r). exact E. }
  exists generated, r'. split; [reflexivity|].
  assert (Hresult :
            AnalysisResult.concepts result = ConceptExtractorImpl.extract text
            /\ AnalysisResult.sentiment result
               = TextAnalyzer.analyzeSentiment text).
  { subst result.
    rewrite (analyze_miss ConceptExtractorImpl.instance text false s)
      by (intros H; discriminate H).
    split; reflexivity. }
  destruct Hresult as [Hconcepts Hsentiment].
  pose proof (generateVisualization_invariant
                Vector3 origin spiralPoint fractionToString36 result
                (fun node => drawnRanges node) unitRandom
                (fun concept importance r0 _ =>
                   createNodeFromConcept_drawn concept importance r0)
                (createEmotionNode_drawn (AnalysisResult.sentiment result) (Num 0.9))
                createSyntheticNode_drawn
                setPosition_drawn
                r r' generated Hr E) as [Hdrawn _].
  apply Forall_forall. intros node Hin.
  rewrite Forall_forall in Hdrawn. specialize (Hdrawn node Hin).
  destruct Hdrawn as [Hconcept Hsynthetic].
  destruct (generateVisualization_kinds Vector3 origin spiralPoint
              fractionToString36 result r r' generated node E Hin)
    as [(concept & Hc & Hkind & Himp)|[[Hkind _]|Hkind]].
  - destruct Hkind as (Htype & _ & _ & _ & _ & Htarget & _).
    specialize (Hconcept Htype).
    rewrite Hconcepts in Hc.
    destruct (extract_relevance text concept Hc) as [Hrel _].
    rewrite Htarget.
    split; [apply (within_weaken 0.3 0.8); [Lqa.lra | Lqa.lra | exact Hconcept]|].
    split.
    { destruct (within_inv _ _ _ Hrel) as (target & Et & Ht).
      exists target. split; [exact Et | Lqa.lra]. }
    split; [apply (within_weaken 0.5 1); [Lqa.lra | Lqa.lra | exact Himp]|].
    intros _. exact Hrel.
  - destruct Hkind as (Htype & _ & _ & _ & Hact & Htarget & _ & _ & Himp & _).
    rewrite Hact, Htarget, Himp, Hsentiment.
    split; [apply analyzeSentiment_intensity|].
    split; [apply analyzeSentiment_dominant_score|].
    split; [simpl; Lqa.lra|].
    intros H. exfalso. apply H. exact Htype.
  - destruct Hkind as (Htype & _).
    destruct (Hsynthetic Htype) as (Hact & Htarget & Himp & _).
    split; [apply (within_weaken 0.1 0.4); [Lqa.lra | Lqa.lra | exact Hact]|].
    split.
    { destruct (within_inv _ _ _ Htarget) as (target & Et & Ht).
      exists target. split; [exact Et | Lqa.lra]. }
    split; [apply (within_weaken 0.2 0.5); [Lqa.lra | Lqa.lra | exact Himp]|].
    intros _.
    apply (within_weaken 0.1 0.5); [Lqa.lra | Lqa.lra | exact Htarget].
Qed.

End DrawnAttributes.

Lemma random_draws_bound_node_attributes_witness :
  match NodeSystem.generateVisualization tt (fun _ _ _ => tt)
          (fun _ => "0.5"%string) mockAnalysisResult (fun _ => 0.5) with
  | Some (generated, r') =>
      Forall (fun node : NodeSystem.Node unit => drawnRanges node)
             (NodeSystem.nodes generated)
      /\ unitRandom r'
  | None =>
      ScalingStrategy.nodeCount
        (AnalysisResult.scalingStrategy mockAnalysisResult) = PInf
  end.
Proof.
  apply (random_draws_bound_node_attributes unit tt (fun _ _ _ => tt)
           (fun _ => "0.5"%string) mockAnalysisResult (fun _ => 0.5)).
  intros i. split; Lqa.lra.
Defined.

Lemma nodes_of_a_text_have_bounded_activations_witness :
  let result :=
    fst (TextAnalyzer.analyze ConceptExtractorImpl.instance
           "I am extremely happy!" false
           (TextAnalyzer.state [] (fun _ => 0%Z))) in
  exists (generated : NodeSystem.ScaledVisualization unit) (r' : Random.t),
    NodeSystem.generateVisualization tt (fun _ _ _ => tt)
      (fun _ => "0.5"%string) result (fun _ => 0.5)
    = Some (generated, r')
    /\ Forall (fun node : NodeSystem.Node unit =>
                 JsNumber.within 0 1 (Node.activation node)
                 /\ (exists target : Q,
                       Node.targetActivation node = Num target
                       /\ (0 <= target)%Q)
                 /\ JsNumber.within 0.2 1 (Node.importance node)
                 /\ (Node.type node <> node_emotion ->
                     JsNumber.within 0.1 1 (Node.targetActivation node)))
              (NodeSystem.nodes generated).
Proof.
  apply (nodes_of_a_text_have_bounded_activations unit tt (fun _ _ _ => tt)
           (fun _ => "0.5"%string) "I am extremely happy!"
           (TextAnalyzer.state [] (fun _ => 0%Z)) (fun _ => 0.5)).
  intros i. split; Lqa.lra.
Defined.

From Stdlib Require Import Qpower.

(** ** Rounding to the nearest double *)

Section Rounding.

Import JsNumber Binary64.
Open Scope Q_scope.

Lemma pow2_pos (k : Z) : 0 < pow2 k.
Proof. apply Qpower_0_lt. reflexivity. Qed.

Lemma pow2_add (a b : Z) : pow2 (a + b) == pow2 a * pow2 b.
Proof. apply Qpower_plus. discriminate. Qed.

Lemma pow2_le (a b : Z) : (a <= b)%Z -> pow2 a <= pow2 b.
Proof. intros H. apply Qpower_le_compat_l; [exact H | discriminate]. Qed.

Lemma pow2_lt_inv (a b : Z) : pow2 a < pow2 b -> (a < b)%Z.
Proof. intros H. apply (Qpower_lt_compat_l_inv 2); [exact H | reflexivity]. Qed.

Lemma pow2_Z (k : Z) : (0 <= k)%Z -> inject_Z (2 ^ k) == pow2 k.
Proof. intros H. apply (Zpower_Qpower 2 k H). Qed.

(** [nearestEven] lies between the integers around its argument. *)
Lemma nearestEven_ge (x : Q) (n : Z) :
  inject_Z n <= x -> (n <= nearestEven x)%Z.
Proof.
  intros H. unfold nearestEven.
  assert (Hfloor : (n <= Qfloor x)%Z).
  { rewrite <- (Qfloor_Z n). apply Qfloor_resp_le. exact H. }
  destruct (Qcompare _ _); [destruct (Z.even _)| |]; lia.
Qed.

Lemma nearestEven_le (x : Q) (n : Z) :
  x <= inject_Z n -> (nearestEven x <= n)%Z.
Proof.
  intros H. unfold nearestEven.
  pose proof (Qfloor_le x) as Hlow.
  assert (Hfloor : (Qfloor x <= n)%Z).
  { rewrite <- (Qfloor_Z n). apply Qfloor_resp_le. exact H. }
  destruct (Z.eq_dec (Qfloor x) n) as [E|E].
  - assert (Hx : x - inject_Z (Qfloor x) <= 0).
    { rewrite E. Lqa.lra. }
    destruct (Qcompare_spec (x - inject_Z (Qfloor x)) (1 # 2)) as [Hc|Hc|Hc];
      [Lqa.lra | lia | Lqa.lra].
  - destruct (Qcompare _ _); [destruct (Z.even _)| |]; lia.
Qed.

(** The integer logarithm brackets its argument. *)
Lemma ilog2_spec (q : Q) :
  0 < q -> pow2 (ilog2 q) <= q /\ q < pow2 (ilog2 q + 1).
Proof.
  intros Hq. destruct q as [n d]. unfold ilog2. cbn [Qnum Qden].
  assert (Hn : (0 < n)%Z).
  { unfold Qlt in Hq. cbn in Hq. lia. }
  set (ln := Z.log2 n). set (ld := Z.log2 (Zpos d)).
  destruct (Z.log2_spec n Hn) as [Hn1 Hn2]. fold ln in Hn1, Hn2.
  destruct (Z.log2_spec (Zpos d) (Pos2Z.is_pos d)) as [Hd1 Hd2].
  fold ld in Hd1, Hd2.
  assert (Hln : (0 <= ln)%Z) by apply Z.log2_nonneg.
  assert (Hld : (0 <= ld)%Z) by apply Z.log2_nonneg.
  assert (Hdpos : 0 < inject_Z (Zpos d)) by reflexivity.
  assert (Eq : n # d == inject_Z n / inject_Z (Zpos d)) by apply Qmake_Qdiv.
  assert (Hupper : n # d < pow2 (ln - ld + 1)).
  { rewrite Eq. apply Qlt_shift_div_r; [exact Hdpos|].
    apply Qlt_le_trans with (pow2 (ln + 1)).
    - rewrite <- pow2_Z by lia. rewrite <- Zlt_Qlt. replace (ln + 1)%Z with (Z.succ ln) by lia. exact Hn2.
    - replace (ln + 1)%Z with ((ln - ld + 1) + ld)%Z by lia.
      rewrite pow2_add. apply Qmult_le_l; [apply pow2_pos|].
      rewrite <- pow2_Z by lia. rewrite <- Zle_Qle. exact Hd1. }
  assert (Hlower : pow2 (ln - ld - 1) <= n # d).
  { rewrite Eq. apply Qle_shift_div_l; [exact Hdpos|].
    apply Qle_trans with (pow2 ln).
    - replace ln with ((ln - ld - 1) + (ld + 1))%Z at 2 by lia.
      rewrite pow2_add. apply Qmult_le_l; [apply pow2_pos|].
      rewrite <- pow2_Z by lia. rewrite <- Zle_Qle.
      replace (ld + 1)%Z with (Z.succ ld) by lia. lia.
    - rewrite <- pow2_Z by lia. rewrite <- Zle_Qle. exact Hn1. }
  destruct (Qle_bool (pow2 (ln - ld)) (n # d)) eqn:E.
  - apply Qle_bool_iff in E. split; assumption.
  - split; [exact Hlower|].
    replace (ln - ld - 1 + 1)%Z with (ln - ld)%Z by lia.
    apply Qnot_le_lt. intros H. apply Qle_bool_iff in H. congruence.
Qed.

Lemma ilog2_ge (q : Q) (a : Z) : pow2 a <= q -> (a <= ilog2 q)%Z.
Proof.
  intros H.
  assert (Hq : 0 < q) by (apply Qlt_le_trans with (pow2 a); [apply pow2_pos | exact H]).
  destruct (ilog2_spec q Hq) as [_ Hup].
  assert (Hlt : pow2 a < pow2 (ilog2 q + 1)) by (apply Qle_lt_trans with q; assumption).
  apply pow2_lt_inv in Hlt. lia.
Qed.

Lemma ilog2_le (q : Q) (b : Z) : 0 < q -> q <= pow2 b -> (ilog2 q <= b)%Z.
Proof.
  intros Hq H.
  destruct (ilog2_spec q Hq) as [Hlow _].
  destruct (Z.le_gt_cases (ilog2 q) b) as [Hle|Hgt]; [exact Hle|].
  exfalso.
  assert (Hlt : pow2 b < pow2 (ilog2 q)).
  { apply Qpower_lt_compat_l; [lia | reflexivity]. }
  Lqa.lra.
Qed.

(** The scaled value of a power of two on the grid of exponent [p]. *)
Lemma pow2_on_grid (k p : Z) :
  (p <= k)%Z -> pow2 k / pow2 p == inject_Z (2 ^ (k - p)).
Proof.
  intros H. rewrite pow2_Z by lia.
  replace k with ((k - p) + p)%Z at 1 by lia.
  rewrite pow2_add. field.
  pose proof (pow2_pos p). intros E. fold (pow2 p) in E. rewrite E in H0.
  discriminate H0.
Qed.

(** A positive rational between two powers of two, both in the range of the
    doubles, rounds to a finite double between them. *)
Lemma roundPositive_between (q : Q) (a b : Z) :
  (-1074 <= a)%Z -> (b <= 1023)%Z ->
  pow2 a <= q -> q <= pow2 b ->
  within (pow2 a) (pow2 b) (roundPositive q).
Proof.
  intros Ha Hb Hlow Hhigh.
  assert (Hq : 0 < q) by (apply Qlt_le_trans with (pow2 a); [apply pow2_pos | exact Hlow]).
  pose proof (ilog2_ge q a Hlow) as Hea.
  pose proof (ilog2_le q b Hq Hhigh) as Heb.
  destruct (ilog2_spec q Hq) as [Hbinade _].
  unfold roundPositive. cbv zeta.
  set (p := ulpExponent q).
  assert (Hpe : (p <= ilog2 q)%Z) by (unfold p, ulpExponent; lia).
  assert (Hpb : (p <= b)%Z) by lia.
  pose proof (pow2_pos p) as Hp.
  set (m := nearestEven (q / pow2 p)).
  assert (Hm1 : (2 ^ (ilog2 q - p) <= m)%Z).
  { apply nearestEven_ge. rewrite <- pow2_on_grid by exact Hpe.
    apply Qmult_le_compat_r; [exact Hbinade|].
    apply Qlt_le_weak, Qinv_lt_0_compat. exact Hp. }
  assert (Hm2 : (m <= 2 ^ (b - p))%Z).
  { apply nearestEven_le. rewrite <- pow2_on_grid by exact Hpb.
    apply Qmult_le_compat_r; [exact Hhigh|].
    apply Qlt_le_weak, Qinv_lt_0_compat. exact Hp. }
  assert (Hv1 : pow2 a <= inject_Z m * pow2 p).
  { apply Qle_trans with (pow2 (ilog2 q)); [apply pow2_le; exact Hea|].
    apply Qle_trans with (inject_Z (2 ^ (ilog2 q - p)) * pow2 p).
    - rewrite <- pow2_on_grid by exact Hpe. apply Qle_lteq. right. field.
      intros E. rewrite E in Hp. discriminate Hp.
    - apply Qmult_le_compat_r; [|apply Qlt_le_weak; exact Hp].
      rewrite <- Zle_Qle. exact Hm1. }
  assert (Hv2 : inject_Z m * pow2 p <= pow2 b).
  { apply Qle_trans with (inject_Z (2 ^ (b - p)) * pow2 p).
    - apply Qmult_le_compat_r; [|apply Qlt_le_weak; exact Hp].
      rewrite <- Zle_Qle. exact Hm2.
    - rewrite <- pow2_on_grid by exact Hpb. apply Qle_lteq. right. field.
      intros E. rewrite E in Hp. discriminate Hp. }
  assert (Hfinite : Qle_bool (pow2 1024) (inject_Z m * pow2 p) = false).
  { destruct (Qle_bool _ _) eqn:E; [|reflexivity].
    apply Qle_bool_iff in E.
    assert (pow2 b < pow2 1024) by (apply Qpower_lt_compat_l; [lia | reflexivity]).
    Lqa.lra. }
  rewrite Hfinite. cbn [within]. rewrite Qred_correct. split; assumption.
Qed.

(** A positive rational up to a power of two rounds to a finite double
    between 0 and that power. *)
Lemma roundPositive_below (q : Q) (b : Z) :
  (-1074 <= b <= 1023)%Z ->
  0 < q -> q <= pow2 b ->
  within 0 (pow2 b) (roundPositive q).
Proof.
  intros Hb Hq Hhigh.
  pose proof (ilog2_le q b Hq Hhigh) as Heb.
  unfold roundPositive. cbv zeta.
  set (p := ulpExponent q).
  assert (Hpb : (p <= b)%Z) by (unfold p, ulpExponent; lia).
  pose proof (pow2_pos p) as Hp.
  set (m := nearestEven (q / pow2 p)).
  assert (Hm1 : (0 <= m)%Z).
  { apply nearestEven_ge. change (inject_Z 0) with 0.
    apply Qmult_le_0_compat; [Lqa.lra|].
    apply Qlt_le_weak, Qinv_lt_0_compat. exact Hp. }
  assert (Hm2 : (m <= 2 ^ (b - p))%Z).
  { apply nearestEven_le. rewrite <- pow2_on_grid by exact Hpb.
    apply Qmult_le_compat_r; [exact Hhigh|].
    apply Qlt_le_weak, Qinv_lt_0_compat. exact Hp. }
  assert (Hv1 : 0 <= inject_Z m * pow2 p).
  { apply Qmult_le_0_compat; [|apply Qlt_le_weak; exact Hp].
    change 0 with (inject_Z 0). rewrite <- Zle_Qle. exact Hm1. }
  assert (Hv2 : inject_Z m * pow2 p <= pow2 b).
  { apply Qle_trans with (inject_Z (2 ^ (b - p)) * pow2 p).
    - apply Qmult_le_compat_r; [|apply Qlt_le_weak; exact Hp].
      rewrite <- Zle_Qle. exact Hm2.
    - rewrite <- pow2_on_grid by exact Hpb. apply Qle_lteq. right. field.
      intros E. rewrite E in Hp. discriminate Hp. }
  assert (Hfinite : Qle_bool (pow2 1024) (inject_Z m * pow2 p) = false).
  { destruct (Qle_bool _ _) eqn:E; [|reflexivity].
    apply Qle_bool_iff in E.
    assert (pow2 b < pow2 1024) by (apply Qpower_lt_compat_l; [lia | reflexivity]).
    Lqa.lra. }
  rewrite Hfinite. cbn [within]. rewrite Qred_correct. split; assumption.
Qed.

Lemma round_between (q : Q) (a b : Z) :
  (-1074 <= a)%Z -> (b <= 1023)%Z ->
  pow2 a <= q -> q <= pow2 b ->
  within (pow2 a) (pow2 b) (round q).
Proof.
  intros Ha Hb Hlow Hhigh. unfold round.
  pose proof (pow2_pos a).
  destruct (Qcompare_spec q 0) as [E|E|E]; [Lqa.lra | Lqa.lra |].
  apply roundPositive_between; assumption.
Qed.

Lemma round_below (q : Q) (b : Z) :
  (-1074 <= b <= 1023)%Z ->
  0 <= q -> q <= pow2 b ->
  within 0 (pow2 b) (round q).
Proof.
  intros Hb Hlow Hhigh. unfold round.
  pose proof (pow2_pos b).
  destruct (Qcompare_spec q 0) as [E|E|E]; [|Lqa.lra|].
  - cbn [within]. Lqa.lra.
  - apply roundPositive_below; assumption.
Qed.

End Rounding.

(** Rounding at work: the sum of the doubles nearest to 0.1 and 0.2 is
    not the double nearest to 0.3; beyond 2^53 odd integers are lost; a
    product beyond the largest double is an infinity; half of the smallest
    subnormal number is 0, and three quarters of it is that number
    again. *)
Lemma rounding_examples :
  let tenth := Binary64.literal 0.1 in
  let fifth := Binary64.literal 0.2 in
  Binary64.add tenth fifth
  = Num (1351079888211149 # 4503599627370496)
  /\ Binary64.literal 0.3 = Num (5404319552844595 # 18014398509481984)
  /\ JsNumber.lt (Binary64.literal 0.3) (Binary64.add tenth fifth) = true
  /\ Binary64.add (Num 9007199254740992) (Num 1) = Num 9007199254740992
  /\ Binary64.mul (Binary64.literal (10 ^ 308)) (Num 10) = PInf
  /\ Binary64.div (Binary64.round (Binary64.pow2 (-1074))) (Num 2) = Num 0
  /\ Binary64.mul (Binary64.round (Binary64.pow2 (-1074))) (Num 0.75)
     = Binary64.round (Binary64.pow2 (-1074)).
Proof. vm_compute. repeat split. Qed.

(** ** The operations on finite doubles *)

Section Operations.

Import JsNumber Binary64.
Open Scope Q_scope.

Lemma mul_between (x y : Q) (a b : Z) :
  (-1074 <= a)%Z -> (b <= 1023)%Z ->
  pow2 a <= x * y -> x * y <= pow2 b ->
  within (pow2 a) (pow2 b) (Binary64.mul (Num x) (Num y)).
Proof. intros. unfold Binary64.mul. cbn [JsNumber.mul rounded]. apply round_between; assumption. Qed.

Lemma mul_below (x y : Q) (b : Z) :
  (-1074 <= b <= 1023)%Z ->
  0 <= x * y -> x * y <= pow2 b ->
  within 0 (pow2 b) (Binary64.mul (Num x) (Num y)).
Proof. intros. unfold Binary64.mul. cbn [JsNumber.mul rounded]. apply round_below; assumption. Qed.

Lemma add_between (x y : Q) (a b : Z) :
  (-1074 <= a)%Z -> (b <= 1023)%Z ->
  pow2 a <= x + y -> x + y <= pow2 b ->
  within (pow2 a) (pow2 b) (Binary64.add (Num x) (Num y)).
Proof. intros. unfold Binary64.add. cbn [JsNumber.add rounded]. apply round_between; assumption. Qed.

Lemma mul_comm (a b : number) : Binary64.mul a b = Binary64.mul b a.
Proof.
  unfold Binary64.mul. f_equal.
  destruct a as [| | |x], b as [| | |y]; try reflexivity.
  cbn [JsNumber.mul]. f_equal. unfold Qmult.
  rewrite Z.mul_comm, Pos.mul_comm. reflexivity.
Qed.

End Operations.

(** ** The resolver in double precision *)

Section Resolver64.

Import JsNumber Binary64.
Open Scope Q_scope.

Lemma literal_values :
  literal 1.5 = Num (3 # 2) /\ literal 0.5 = Num (1 # 2)
  /\ literal 1.0 = Num 1.
Proof. vm_compute. repeat split. Qed.

(** No entry of the two multiplier tables is 0 as a double, so the
    fallback [|| 1.0] is not taken. *)
Lemma strategyMultipliers_double (s : ScalingType) :
  exists m : Q,
    literal (TextAnalyzer.strategyMultipliers s) = Num m
    /\ or (Num m) (literal 1.0) = Num m
    /\ pow2 (-2) <= m <= pow2 2.
Proof.
  destruct s; eexists; (split; [vm_compute; reflexivity|]);
    (split; [vm_compute; reflexivity|]); vm_compute; split; discriminate.
Qed.

Lemma strategyParticleMultipliers_double (s : ScalingType) :
  exists m : Q,
    or (literal (TextAnalyzer.strategyParticleMultipliers s)) (literal 1.0)
    = Num m
    /\ pow2 (-2) <= m <= pow2 1.
Proof.
  destruct s; eexists; (split; [vm_compute; reflexivity|]);
    vm_compute; split; discriminate.
Qed.

(** [Math.floor(Math.max(8, Math.min(700, raw)))] of a finite value. *)
Lemma clamp_floor (raw : Q) :
  exists n : Z,
    floor (max (Num 8) (min (Num 700) (Num raw))) = ofZ n
    /\ (8 <= n <= 700)%Z.
Proof.
  destruct (min_Num 700 raw) as (lower & -> & H1 & H2 & _).
  destruct (max_Num 8 lower) as (clamped & -> & H3 & H4 & H5).
  cbn [floor]. exists (Qfloor clamped). split; [reflexivity|].
  assert (Hhi : clamped <= 700) by (destruct H5 as [->| ->]; Lqa.lra).
  split.
  - rewrite <- (Qfloor_Z 8). apply Qfloor_resp_le. exact H3.
  - rewrite <- (Qfloor_Z 700). apply Qfloor_resp_le. exact Hhi.
Qed.

Variable Math_log2 : number -> number.

(** What is assumed of the engine's logarithm: from 1 on it returns a
    finite number between 0 and 1024. *)
Hypothesis Math_log2_range :
  forall q : Q, 1 <= q -> within 0 1024 (Math_log2 (Num q)).

Lemma rawNodeCount_finite64 (W : Z) (c e : Q) (s : ScalingType) :
  (0 <= W)%Z -> 0 <= c <= 1 -> 0 <= e <= 1 ->
  exists raw : Q,
    Binary64.mul
      (Binary64.mul
         (Binary64.mul
            (Binary64.mul (Math_log2 (ofZ (W + 1))) (Num 8))
            (Binary64.add (Num 1) (Binary64.mul (Num c) (literal 1.5))))
         (Binary64.add (literal 0.5) (Binary64.mul (Num e) (literal 1.5))))
      (or (literal (TextAnalyzer.strategyMultipliers s)) (literal 1.0))
    = Num raw.
Proof.
  intros HW Hc He.
  destruct literal_values as (-> & -> & E1).
  destruct (strategyMultipliers_double s) as (m & -> & -> & Hm).
  assert (HW1 : 1 <= inject_Z (W + 1)).
  { change 1 with (inject_Z 1). rewrite <- Zle_Qle. lia. }
  destruct (within_inv _ _ _ (Math_log2_range _ HW1)) as (l & El & Hl).
  unfold ofZ. rewrite El.
  change (pow2 (-2)) with (1 # 4) in Hm. change (pow2 2) with 4 in Hm.
  destruct (within_inv _ _ _
              (mul_below l 8 13 ltac:(lia) ltac:(Lqa.lra)
                 ltac:(change (pow2 13) with 8192; Lqa.lra)))
    as (base & -> & Hbase).
  change (pow2 13) with 8192 in Hbase.
  destruct (within_inv _ _ _
              (mul_below c (3 # 2) 1 ltac:(lia) ltac:(Lqa.lra)
                 ltac:(change (pow2 1) with 2; Lqa.lra)))
    as (c15 & -> & Hc15).
  change (pow2 1) with 2 in Hc15.
  destruct (within_inv _ _ _
              (add_between 1 c15 0 2 ltac:(lia) ltac:(lia)
                 ltac:(change (pow2 0) with 1; Lqa.lra)
                 ltac:(change (pow2 2) with 4; Lqa.lra)))
    as (cb & -> & Hcb).
  change (pow2 0) with 1 in Hcb. change (pow2 2) with 4 in Hcb.
  destruct (within_inv _ _ _
              (mul_below e (3 # 2) 1 ltac:(lia) ltac:(Lqa.lra)
                 ltac:(change (pow2 1) with 2; Lqa.lra)))
    as (e15 & -> & He15).
  change (pow2 1) with 2 in He15.
  destruct (within_inv _ _ _
              (add_between (1 # 2) e15 (-1) 2 ltac:(lia) ltac:(lia)
                 ltac:(change (pow2 (-1)) with (1 # 2); Lqa.lra)
                 ltac:(change (pow2 2) with 4; Lqa.lra)))
    as (eb & -> & Heb).
  change (pow2 (-1)) with (1 # 2) in Heb. change (pow2 2) with 4 in Heb.
  assert (H1 : 0 <= base * cb /\ base * cb <= pow2 15).
  { change (pow2 15) with 32768. split; Lqa.nra. }
  destruct (within_inv _ _ _
              (mul_below base cb 15 ltac:(lia) (proj1 H1) (proj2 H1)))
    as (p1 & -> & Hp1).
  change (pow2 15) with 32768 in Hp1.
  assert (H2 : 0 <= p1 * eb /\ p1 * eb <= pow2 17).
  { change (pow2 17) with 131072. split; Lqa.nra. }
  destruct (within_inv _ _ _
              (mul_below p1 eb 17 ltac:(lia) (proj1 H2) (proj2 H2)))
    as (p2 & -> & Hp2).
  change (pow2 17) with 131072 in Hp2.
  assert (H3 : 0 <= p2 * m /\ p2 * m <= pow2 19).
  { change (pow2 19) with 524288. split; Lqa.nra. }
  destruct (within_inv _ _ _
              (mul_below p2 m 19 ltac:(lia) (proj1 H3) (proj2 H3)))
    as (raw & -> & _).
  exists raw. reflexivity.
Qed.

Lemma calculateParticleCount_within64 (n : Z) (s : ScalingType) :
  (8 <= n <= 700)%Z ->
  within 500 35000 (TextAnalyzer64.calculateParticleCount (ofZ n) s).
Proof.
  intros Hn. unfold TextAnalyzer64.calculateParticleCount.
  destruct (strategyParticleMultipliers_double s) as (m & -> & Hm).
  change (pow2 (-2)) with (1 # 4) in Hm. change (pow2 1) with 2 in Hm.
  set (particlesPerNode := if le (ofZ n) (Num 100) then _ else _).
  assert (Hppn : exists p : Q, particlesPerNode = Num p /\ 40 <= p <= 75).
  { unfold particlesPerNode.
    destruct (le (ofZ n) (Num 100)); [exists 75; split; [reflexivity|Lqa.lra]|].
    destruct (le (ofZ n) (Num 300)); [exists 60; split; [reflexivity|Lqa.lra]|].
    destruct (le (ofZ n) (Num 500)); [exists 50; split; [reflexivity|Lqa.lra]|].
    exists 40. split; [reflexivity|Lqa.lra]. }
  destruct Hppn as (p & -> & Hp).
  assert (Hq : 8 <= inject_Z n <= 700).
  { change 8 with (inject_Z 8). change 700 with (inject_Z 700).
    rewrite <- !Zle_Qle. exact Hn. }
  unfold ofZ.
  assert (H1 : 0 <= inject_Z n * p /\ inject_Z n * p <= pow2 16).
  { change (pow2 16) with 65536. split; Lqa.nra. }
  destruct (within_inv _ _ _
              (mul_below (inject_Z n) p 16 ltac:(lia) (proj1 H1) (proj2 H1)))
    as (base & -> & Hbase).
  change (pow2 16) with 65536 in Hbase.
  assert (H2 : 0 <= base * m /\ base * m <= pow2 17).
  { change (pow2 17) with 131072. split; Lqa.nra. }
  destruct (within_inv _ _ _
              (mul_below base m 17 ltac:(lia) (proj1 H2) (proj2 H2)))
    as (final & -> & _).
  cbn [floor]. apply min_max_within. Lqa.lra.
Qed.

(** C1. In the arithmetic of the engine (every product and sum rounded to
    the nearest double), for every word count [W >= 0], overall complexity
    [c] in [[0,1]] and emotion intensity [e] in [[0,1]], the scaling resolver
    returns the multiplier [m] of the tier it selected and
    [nodeCount = floor(clamp(log2(W+1) * 8 * (1 + 1.5 c) * (0.5 + 1.5 e) * m, 8, 700)),]
    the formula being evaluated from left to right in the same arithmetic;
    consequently the node count is an integer in [[8,700]] and the particle
    count lies in [[500,35000]] (for every word count, in particular from 0
    to 100,000).  The logarithm of the engine is only assumed to return a
    finite number between 0 and 1024 from 1 on. *)
Theorem resolver_follows_formula_in_doubles
        (W : Z) (complexity : ComplexityAnalysis.t)
        (sentiment : SentimentAnalysis.t) (c e : Q) :
  (0 <= W)%Z ->
  ComplexityAnalysis.overallComplexity complexity = Num c ->
  0 <= c <= 1 ->
  SentimentAnalysis.intensity sentiment = Num e ->
  0 <= e <= 1 ->
  let tier := TextAnalyzer.findThreshold W SCALING_THRESHOLDS MICRO_TINY in
  let m := literal (Threshold.multiplier tier) in
  let strategy :=
    TextAnalyzer64.determineScalingStrategy Math_log2 W complexity sentiment in
  ScalingStrategy.type strategy = Threshold.strategy tier
  /\ ScalingStrategy.multiplier strategy = m
  /\ ScalingStrategy.nodeCount strategy
     = Spec64.nodeCount Math_log2 W (Num c) (Num e) m
  /\ (exists n : Z,
        ScalingStrategy.nodeCount strategy = ofZ n /\ (8 <= n <= 700)%Z)
  /\ within 500 35000 (ScalingStrategy.particleCount strategy).
Proof.
  intros HW Hc Hcr He Her tier m strategy.
  assert (Hm : or (literal (TextAnalyzer.strategyMultipliers
                              (Threshold.strategy tier)))
                  (literal 1.0) = m).
  { destruct (strategyMultipliers_double (Threshold.strategy tier))
      as (x & E & Etruthy & _).
    rewrite E, Etruthy, <- E. unfold m, tier.
    rewrite (selected_multiplier W). reflexivity. }
  assert (Hn : ScalingStrategy.nodeCount strategy
               = Spec64.nodeCount Math_log2 W (Num c) (Num e) m).
  { unfold strategy, TextAnalyzer64.determineScalingStrategy.
    cbn [ScalingStrategy.nodeCount].
    unfold TextAnalyzer64.calculateBaseNodeCount. fold tier.
    rewrite Hm, Hc, He. unfold Spec64.nodeCount, Spec64.clamp, Spec64.raw.
    rewrite (mul_comm (literal 1.5) (Num c)).
    rewrite (mul_comm (literal 1.5) (Num e)). reflexivity. }
  assert (Hint : exists n : Z,
             ScalingStrategy.nodeCount strategy = ofZ n
             /\ (8 <= n <= 700)%Z).
  { unfold strategy, TextAnalyzer64.determineScalingStrategy.
    cbn [ScalingStrategy.nodeCount].
    unfold TextAnalyzer64.calculateBaseNodeCount. fold tier.
    rewrite Hc, He.
    destruct (rawNodeCount_finite64 W c e (Threshold.strategy tier)
                HW Hcr Her) as (raw & ->).
    apply clamp_floor. }
  split; [reflexivity|]. split; [reflexivity|]. split; [exact Hn|].
  split; [exact Hint|].
  destruct Hint as (n & En & Hrange).
  change (ScalingStrategy.particleCount strategy)
    with (TextAnalyzer64.calculateParticleCount
            (ScalingStrategy.nodeCount strategy) (Threshold.strategy tier)).
  rewrite En. apply calculateParticleCount_within64. exact Hrange.
Qed.

End Resolver64.

Lemma integerLog2_range (q : Q) :
  (1 <= q)%Q -> JsNumber.within 0 1024 (integerLog2 (Num q)).
Proof.
  intros Hq. unfold integerLog2.
  replace (Qle_bool 1 q) with true by (symmetry; apply Qle_bool_iff; exact Hq).
  pose proof (Z.log2_nonneg (Qfloor q)).
  apply (within_ofZ 0 1024). lia.
Qed.

Lemma resolver_follows_formula_in_doubles_witness :
  let complexity :=
    ComplexityAnalysis.mk (Num 0) (Num 0.5) (Num 0.5) (Num 0.5) (Num 0.5) in
  let sentiment :=
    SentimentAnalysis.mk
      (EmotionScores.mk (Num 0.8) (Num 0) (Num 0) (Num 0) (Num 0) (Num 0))
      (DominantEmotion.mk Joy (Num 0.8) (Num 1)) (Num 0.5) (Num 0.8) (Num 1) in
  let tier :=
    TextAnalyzer.findThreshold 511 SCALING_THRESHOLDS MICRO_TINY in
  let m := Binary64.literal (Threshold.multiplier tier) in
  let strategy :=
    TextAnalyzer64.determineScalingStrategy integerLog2 511 complexity
      sentiment in
  ScalingStrategy.type strategy = Threshold.strategy tier
  /\ ScalingStrategy.multiplier strategy = m
  /\ ScalingStrategy.nodeCount strategy
     = Spec64.nodeCount integerLog2 511 (Num 0) (Num 0.5) m
  /\ (exists n : Z,
        ScalingStrategy.nodeCount strategy = JsNumber.ofZ n
        /\ (8 <= n <= 700)%Z)
  /\ JsNumber.within 500 35000 (ScalingStrategy.particleCount strategy).
Proof.
  intros complexity sentiment.
  apply (resolver_follows_formula_in_doubles integerLog2 integerLog2_range
           511 complexity sentiment 0 0.5).
  - lia.
  - reflexivity.
  - Lqa.lra.
  - reflexivity.
  - Lqa.lra.
Defined.

(** What rounding does to the node count.  At 511 words, complexity 0 and
    intensity 0.5 the factors are 72, 1, 1.25 and the double nearest to
    0.7, which lies below 0.7: the rounded product is
    62.99999999999999 and the node count 62, where the product of the
    exact factors is 63.  Likewise 92 against 93 at one word, complexity 1
    and intensity 0.7. *)
Lemma rounded_product_falls_below_integer :
  let resolve W c e :=
    ScalingStrategy.nodeCount
      (TextAnalyzer64.determineScalingStrategy integerLog2 W
         (ComplexityAnalysis.mk c (Num 0) (Num 0) (Num 0) (Num 0))
         (SentimentAnalysis.mk SentimentAnalyzer.zeroScores
            (DominantEmotion.mk Joy (Num 0) (Num 0)) e (Num 0) (Num 0))) in
  resolve 511%Z (Num 0) (Num 0.5) = Num 62
  /\ resolve 1%Z (Num 1) (Binary64.literal 0.7) = Num 92
  /\ Spec.nodeCount 511 0 0.5 0.7 = 63%Z.
Proof.
  split; [vm_compute; reflexivity|]. split; [vm_compute; reflexivity|].
  unfold Spec.nodeCount, Spec.clamp, Spec.raw, JsReal.log2.
  replace (IZR 511 + 1)%R with (2 ^ 9)%R by lra.
  rewrite ln_pow by lra.
  assert (H : (0 < ln 2)%R) by (rewrite <- ln_1; apply ln_increasing; lra).
  assert (E : (INR 9 * ln 2 / ln 2 = 9)%R).
  { replace (INR 9) with 9%R by (simpl; lra).
    unfold Rdiv. rewrite Rmult_assoc, Rinv_r by lra. lra. }
  rewrite E.
  replace (9 * 8 * (1 + 1.5 * 0) * (0.5 + 1.5 * 0.5) * 0.7)%R with 63%R by lra.
  unfold Rmin, Rmax.
  destruct (Rle_dec 700 63); [lra|]. destruct (Rle_dec 8 63); [|lra].
  apply (Zfloor_eq 63 63). split; [lra|]. simpl; lra.
Qed.

(** ** Negated emotional words *)

Section Negation.

Import JsNumber SentimentAnalyzer.
Open Scope Q_scope.

(** No word of the emotion lexicon is a negation word or an intensifier:
    the scan reaches the lexicon for each of them. *)
Lemma lexicon_word_is_plain (word : string) (d : LexiconEntry) :
  JsMap.get emotionLexicon word = Some d ->
  JsArray.includes negationWords word = false
  /\ JsMap.get intensifierWords word = None.
Proof.
  intros H. apply get_Some_In in H.
  assert (Hall : forallb
                   (fun entry : string * LexiconEntry =>
                      negb (JsArray.includes negationWords (fst entry))
                      && match JsMap.get intensifierWords (fst entry) with
                         | Some _ => false
                         | None => true
                         end)
                   emotionLexicon = true)
    by (vm_compute; reflexivity).
  rewrite forallb_forall in Hall. specialize (Hall _ H).
  cbn [fst] in Hall. apply andb_true_iff in Hall. destruct Hall as [H1 H2].
  split.
  - apply negb_true_iff. exact H1.
  - destruct (JsMap.get intensifierWords word); [discriminate | reflexivity].
Qed.

Lemma Emotion_eqb_refl (e : Emotion) : Emotion_eqb e e = true.
Proof. destruct e; reflexivity. Qed.

Lemma Emotion_eqb_neq (a b : Emotion) : a <> b -> Emotion_eqb a b = false.
Proof. destruct a, b; intros H; try reflexivity; exfalso; apply H; reflexivity. Qed.

Lemma step_negation_word (st : Scan) (word : string) :
  JsArray.includes negationWords word = true ->
  step st word
  = scan (scores st) (totalEmotionalWords st) true (currentIntensifier st).
Proof. intros H. unfold step. rewrite H. reflexivity. Qed.

Lemma step_emotional_word (sc : EmotionScores.t) (n : nat) (c : number)
      (word : string) (d : LexiconEntry) :
  JsMap.get emotionLexicon word = Some d ->
  step (scan sc n false c) word
  = scan (EmotionScores.set sc (emotion d)
            (add (EmotionScores.get sc (emotion d)) (mul (intensity d) c)))
         (S n) false (Num 1.0).
Proof.
  intros Hlex. destruct (lexicon_word_is_plain word d Hlex) as [Hneg Hint].
  unfold step. rewrite Hneg, Hint, Hlex. reflexivity.
Qed.

Lemma step_negated_pair (st : Scan) (negation word : string)
      (d : LexiconEntry) :
  JsArray.includes negationWords negation = true ->
  JsMap.get emotionLexicon word = Some d ->
  step (step st negation) word
  = scan (EmotionScores.set (scores st) (emotion d)
            (add (EmotionScores.get (scores st) (emotion d))
                 (mul (mul (intensity d) (currentIntensifier st))
                      (Num (-0.5)))))
         (S (totalEmotionalWords st)) false (Num 1.0).
Proof.
  intros Hneg Hlex.
  destruct (lexicon_word_is_plain word d Hlex) as [Hplain Hint].
  rewrite (step_negation_word st negation Hneg).
  erewrite step_negated_emotional_word;
    [reflexivity | exact Hplain | exact Hint | exact Hlex | reflexivity].
Qed.

Lemma max_zero_nonpositive (x : Q) : x <= 0 -> max (Num 0) (Num x) = Num 0.
Proof.
  intros H. unfold max, lt.
  replace (Qltb 0 x) with false; [reflexivity|].
  symmetry. apply Qltb_ge. exact H.
Qed.

Lemma max_zero_positive (x : Q) : 0 < x -> max (Num 0) (Num x) = Num x.
Proof.
  intros H. unfold max, lt.
  replace (Qltb 0 x) with true; [reflexivity|].
  symmetry. apply Qltb_lt. exact H.
Qed.

Lemma analyze_scores (text : string) :
  SentimentAnalysis.scores (analyze text (Num 0))
  = calculateEmotionScores (tokenizeText text).
Proof.
  unfold analyze. change (gt (Num 0) (Num 0)) with false. cbv iota.
  destruct (calculateDimensions _). reflexivity.
Qed.

(** The scores of three negated occurrences of a lexicon word: 0 for
    every emotion. *)
Lemma negated_scores (negation word : string) (d : LexiconEntry)
      (e : Emotion) :
  JsArray.includes negationWords negation = true ->
  JsMap.get emotionLexicon word = Some d ->
  EmotionScores.get
    (calculateEmotionScores [negation; word; negation; word; negation; word])
    e
  = Num 0.
Proof.
  intros Hneg Hlex.
  destruct (lexicon_word_is_plain word d Hlex) as [Hplain Hint].
  destruct (within_inv _ _ _ (emotionLexicon_intensity word d Hlex))
    as (i & Ei & Hi).
  unfold calculateEmotionScores, initialScan. cbn [fold_left].
  rewrite (step_negated_pair _ negation word d Hneg Hlex).
  cbn [scores totalEmotionalWords currentIntensifier].
  rewrite (step_negated_pair _ negation word d Hneg Hlex).
  cbn [scores totalEmotionalWords currentIntensifier].
  rewrite (step_negated_pair _ negation word d Hneg Hlex).
  cbn [scores totalEmotionalWords currentIntensifier].
  rewrite normalize_get. cbn [totalEmotionalWords Nat.ltb Nat.leb].
  cbn [scores]. rewrite !get_set, !Emotion_eqb_refl, Ei.
  destruct (Emotion_eqb (emotion d) e).
  - assert (E0 : EmotionScores.get zeroScores (emotion d) = Num 0)
      by (destruct (emotion d); reflexivity).
    rewrite E0. cbn [add mul div ofNat ofZ]. cbn [Qeq_bool Z.of_nat].
    apply max_zero_nonpositive.
    change (inject_Z (Z.of_nat 3)) with 3.
    apply Qle_shift_div_r; [reflexivity|]. Lqa.lra.
  - assert (E0 : EmotionScores.get zeroScores e = Num 0)
      by (destruct e; reflexivity).
    rewrite E0. reflexivity.
Qed.

(** The scores of three plain occurrences: positive for the emotion of
    the word, 0 for every other emotion. *)
Lemma plain_scores (word : string) (d : LexiconEntry) (e : Emotion) :
  JsMap.get emotionLexicon word = Some d ->
  exists x : Q,
    EmotionScores.get (calculateEmotionScores [word; word; word]) e = Num x
    /\ if Emotion_eqb (emotion d) e then 0 < x else x == 0.
Proof.
  intros Hlex.
  destruct (within_inv _ _ _ (emotionLexicon_intensity word d Hlex))
    as (i & Ei & Hi).
  unfold calculateEmotionScores, initialScan. cbn [fold_left].
  rewrite !(step_emotional_word _ _ _ word d Hlex).
  rewrite normalize_get. cbn [totalEmotionalWords Nat.ltb Nat.leb].
  cbn [scores]. rewrite !get_set, !Emotion_eqb_refl, Ei.
  destruct (Emotion_eqb (emotion d) e).
  - assert (E0 : EmotionScores.get zeroScores (emotion d) = Num 0)
      by (destruct (emotion d); reflexivity).
    rewrite E0. cbn [add mul div ofNat ofZ]. cbn [Qeq_bool Z.of_nat].
    change (inject_Z (Z.of_nat 3)) with 3.
    eexists. split.
    + apply max_zero_positive. apply Qlt_shift_div_l; [reflexivity|]. Lqa.lra.
    + apply Qlt_shift_div_l; [reflexivity|]. Lqa.lra.
  - assert (E0 : EmotionScores.get zeroScores e = Num 0)
      by (destruct e; reflexivity).
    rewrite E0. exists 0. split; reflexivity.
Qed.

(** C8, as amended. For every negation word, every word of the emotion
    lexicon and every pair of texts whose tokens are three occurrences of
    the negated word and three occurrences of the word alone, the score of
    the word's emotion is 0 for the negated text and strictly lower than
    for the plain text: each pending negation multiplies the contribution
    by -0.5 and is cleared, the sum is negative and the normalisation
    floors it at 0.  So the joy score is strictly lower when the word is a
    joy word; for a word of another emotion it is 0 for both texts. *)
Theorem negated_word_lowers_its_emotion
        (negation word : string) (d : LexiconEntry)
        (negated plain : string) :
  JsArray.includes negationWords negation = true ->
  JsMap.get emotionLexicon word = Some d ->
  tokenizeText negated = [negation; word; negation; word; negation; word] ->
  tokenizeText plain = [word; word; word] ->
  let scoreOf text e :=
    EmotionScores.get (SentimentAnalysis.scores (analyze text (Num 0))) e in
  scoreOf negated (emotion d) = Num 0
  /\ lt (scoreOf negated (emotion d)) (scoreOf plain (emotion d)) = true
  /\ (emotion d = Joy ->
      lt (scoreOf negated Joy) (scoreOf plain Joy) = true)
  /\ (emotion d <> Joy ->
      scoreOf negated Joy = Num 0 /\ within 0 0 (scoreOf plain Joy)).
Proof.
  intros Hneg Hlex Hnegated Hplain scoreOf.
  assert (Hzero : forall e, scoreOf negated e = Num 0).
  { intros e. unfold scoreOf. rewrite analyze_scores, Hnegated.
    apply (negated_scores negation word d e Hneg Hlex). }
  assert (Hpos : forall e,
             exists x : Q,
               scoreOf plain e = Num x
               /\ if Emotion_eqb (emotion d) e then 0 < x else x == 0).
  { intros e. unfold scoreOf. rewrite analyze_scores, Hplain.
    apply (plain_scores word d e Hlex). }
  assert (Hlower : lt (scoreOf negated (emotion d))
                      (scoreOf plain (emotion d)) = true).
  { rewrite Hzero. destruct (Hpos (emotion d)) as (x & -> & Hx).
    rewrite Emotion_eqb_refl in Hx. unfold lt. apply Qltb_lt. exact Hx. }
  split; [apply Hzero|]. split; [exact Hlower|]. split.
  - intros E. rewrite E in Hlower. exact Hlower.
  - intros E. split; [apply Hzero|].
    destruct (Hpos Joy) as (x & -> & Hx).
    rewrite (Emotion_eqb_neq _ _ E) in Hx. cbn [within]. Lqa.lra.
Qed.

End Negation.

Lemma negated_word_lowers_its_emotion_witness :
  let scoreOf text e :=
    EmotionScores.get
      (SentimentAnalysis.scores (SentimentAnalyzer.analyze text (Num 0))) e in
  let negated := "Not happy. Not happy. Not happy."%string in
  let plain := "Happy. Happy. Happy."%string in
  let d := SentimentAnalyzer.entry Joy (Num 0.8) in
  scoreOf negated (SentimentAnalyzer.emotion d) = Num 0
  /\ JsNumber.lt (scoreOf negated (SentimentAnalyzer.emotion d))
                 (scoreOf plain (SentimentAnalyzer.emotion d)) = true
  /\ (SentimentAnalyzer.emotion d = Joy ->
      JsNumber.lt (scoreOf negated Joy) (scoreOf plain Joy) = true)
  /\ (SentimentAnalyzer.emotion d <> Joy ->
      scoreOf negated Joy = Num 0
      /\ JsNumber.within 0 0 (scoreOf plain Joy)).
Proof.
  intros scoreOf negated plain d.
  apply (negated_word_lowers_its_emotion "not" "happy" d negated plain);
    reflexivity.
Defined.

(** C8, the claim as stated. For an emotional word that is not a joy word
    the joy score of the negated text is not strictly lower: it is 0 for
    both texts.  "sad" is a sadness word; "excited" is listed under joy and
    again under anticipation, and the lexicon keeps the later entry. *)
Lemma negation_leaves_joy_of_other_words :
  let joyOf text :=
    EmotionScores.joy
      (SentimentAnalysis.scores (SentimentAnalyzer.analyze text (Num 0))) in
  JsMap.get SentimentAnalyzer.emotionLexicon "sad"%string
  = Some (SentimentAnalyzer.entry Sadness (Num 0.8))
  /\ JsNumber.lt (joyOf "not sad not sad not sad"%string) (joyOf "sad sad sad"%string)
     = false
  /\ JsMap.get SentimentAnalyzer.emotionLexicon "excited"%string
     = Some (SentimentAnalyzer.entry Anticipation (Num 0.6))
  /\ JsNumber.lt (joyOf "not excited not excited not excited"%string)
                 (joyOf "excited excited excited"%string)
     = false.
Proof. vm_compute. repeat split. Qed.

